(* ===== verification/_CoqProject ===== *)
-Q . S2P
Prelude.v
Text.v
Float64.v
FloatBounds.v
Group.v
Sha256.v
Utf8.v
DecimalText.v
FloatText.v
Rfc3339.v
Json.v
Event.v
Policy.v
PolicyStore.v
PolicyClient.v
Roles.v
Tokens.v
Users.v
Server.v
Normalize.v
Ruleset.v
Mcp.v
A2a.v
Taint.v
TaskState.v
Quarantine.v
Pipeline.v
Heuristic.v
Http.v
Judge.v
Proxy.v
Gateway.v
ExtAuthz.v
StdioProxy.v
Counterparty.v
A2aProxy.v
Merkle.v
EventStore.v
Analytics.v
Emitter.v
PolicyApi.v
Behavior.v
AdminApi.v
AuditApi.v
Jwks.v
Content.v
Exporter.v
Routes.v
ReadApi.v
Observe.v
Config.v
Sensor.v
Bundle.v
ControlPlane.v
PgStore.v
Backends.v
StoreViews.v
Adapters.v
SinkOpen.v
StdioLife.v
Url.v
Cli.v
Delivery.v
Bench.v
Signin.v
Rekor.v
StatusWriter.v
