(* ===== verification/Prelude.v ===== *)
(** * Hopframe: a verification library

    Hopframe watches the traffic between language-model agents and the servers
    they call.  Sensors sit on the wire (MCP over HTTP or standard input and
    output, agent-to-agent tasks over HTTP, an adapter for gateways that ask
    for authorization) and run every message through a detection pipeline;
    what they see goes as events to a control plane, which keeps them in a
    hash-chained log, serves policies and rule content back to the sensors,
    and answers the console and its API.  This library models that program,
    package by package, as executable functions, and proves what each part and
    their composition promises.

    ** Parts and files

    Files are listed in dependency order; definitions carry the names of the
    code where Rocq allows it.

    Shared.  [Prelude]: machine integers, time, results, iteration over maps,
    stable sorting, lists and strings, tactics, the hint databases [hopframe].
    [Text], [Utf8], [DecimalText], [Rfc3339]: package [strings], runes,
    decimal text, time stamps.  [Float64], [FloatBounds], [FloatText]:
    [float64] on [SpecFloat], its rounding against bounds, its text.
    [Sha256]: SHA-256, hexadecimal, and what a collision is.  [Json]: JSON
    trees, [json.Marshal], and the trip through an [any].  [Group]: loops that
    file elements under keys.

    Data and policies.  [Event] is [pkg/event] and the data of [pkg/detect];
    [Policy] is [pkg/policy]; [PolicyStore] is
    [control-plane/store/policystore.go]; [PolicyClient] is
    [pkg/policy/client].

    Detection.  [Normalize] is [pkg/detect/normalize.go]; [Ruleset] is
    [pkg/ruleset]; [Heuristic] and [Judge] are the classifier and the model
    judge of [pkg/detect]; [Mcp] and [A2a] are the envelopes and the agent
    cards of [pkg/mcp] and [pkg/a2a]; [Taint] is [pkg/taint] with its sharing
    through the control plane; [TaskState], [Quarantine] and [Counterparty]
    are the packages of those names in [internal]; [Pipeline] is
    [internal/pipeline], which runs all of these on a message and makes the
    event.

    The wire.  [Http] holds what the proxies share; [Proxy], [A2aProxy],
    [Gateway], [ExtAuthz] and [StdioProxy] are the packages of [internal] that
    put the pipeline on a wire; [Emitter] is [internal/emitter], the queue and
    the spool that carry events to the control plane.  [Config] is
    [internal/config] with the lists the commands parse, [Sensor] the
    commands [cmd/mcp-sensor], [cmd/a2a-sensor], [cmd/sensor] and
    [cmd/mcp-gateway], and [Adapters] the commands [cmd/mcp-extauthz] and
    [cmd/mcp-stdio-sensor], from the environment to the handler; [SinkOpen]
    opens the sink they configure, with its TLS settings, and [StdioLife] is
    the stdio sensor around its child: loops, wait and select.

    The control plane.  [EventStore] is the log on a file
    ([control-plane/store/store.go], [retention.go]), [PgStore] the one on
    Postgres ([pgstore.go]), [Backends] and [StoreViews] the interfaces both
    meet ([iface.go]); [Analytics] the
    aggregates over its cache; [Behavior] is [control-plane/behavior].
    [Roles], [Tokens], [Users], [Server] and [Jwks] are the credentials of
    [control-plane/api]: role table, minted tokens, accounts and sessions,
    bearer authentication and tenant scope, OIDC tokens; [Signin] has the
    exchanges with the identity provider and what a console is told about its
    session.  [Routes] is the
    route table with its guards and the console; [PolicyApi], [AdminApi],
    [AuditApi], [ReadApi], [Content] and [Observe] are the handlers, the rule
    content and the front (rate limits, counters, and in [StatusWriter] the
    status that is counted) of the same package;
    [Exporter] is [control-plane/exporter]; [ControlPlane] is
    [cmd/control-plane] up to its listener.  [Merkle] is the tree of
    [pkg/audit/sign.go], [Rekor] the exchange of [rekor.go], and [Bundle] the
    signer with [cmd/hopframe-export].

    Around them.  [Url] is the query half of [net/url]; [Cli] is the operator's
    command [cmd/hopframe], from its arguments to its request; [Delivery] joins
    the emitter's sink to the control plane's ingest over a network that loses
    requests and answers; [Bench] is [cmd/hopframe-bench].

    ** How code becomes definitions

    State is passed: an operation takes the record of its component and
    returns the new one with its result.  A handler of a proxy is a function
    from the pipeline to the pipeline after it and the list of effects it
    performed (requests sent, events emitted, bytes written) in order.  A
    critical section is one step; where the code releases a lock in between
    ([Quarantine], [Emitter], [Exporter]) the halves are separate steps, and
    where goroutines ([StdioLife]), processes that share a database ([PgStore])
    or machines ([Delivery]) run side by side each has steps of its own: the
    theorems range over the interleavings.  A transaction commits, fails, or
    commits without being acknowledged.  The clock, random bytes and
    identifiers, the outcomes of writes, syncs and exchanges, and what a walk
    of a directory finds are arguments.

    What is not the program's is a parameter, an instance of a class named
    after it: regular expressions ([RegexLib]), the unicode tables and
    normal forms ([Unicode], [Letters]), the decoder of JSON text
    ([JsonText]), bcrypt ([Bcrypt], with the law that a hash of a password
    accepts it, in [BcryptLaws]), the JSONB type of the database ([Jsonb], with
    the law that it keeps what is read back, in [JsonbLaws]), certificates
    ([X509]), Ed25519 ([Ed25519], and in [SigningKeys] the
    law that signatures verify), RSA and ECDSA ([JwtCrypto]), the order in
    which a map is visited ([MapIter], of which every permutation is an
    instance).  Witnesses instantiate them with concrete functions.  SHA-256
    is not assumed to be anything: statements about tampering end in two named
    inputs of the execution that collide.

    ** What the theorems show

    On the wire.  [Sensor.shipped_sensor_gate] is the contract of the MCP
    sensor from its configuration file to its upstream,
    [Adapters.shipped_authz_gate] and [StdioLife.shipped_stdio_life] those of
    the authorization adapter and of the stdio sensor;
    [Pipeline.sensor_blocks_iff], [Proxy.request_gate], [Proxy.stream_gate],
    [A2aProxy.task_gate], [A2aProxy.drift_gate], [ExtAuthz.authz_decision] and
    [StdioProxy.stdio_gate] the gates they are made of, on every path, failures
    included; [ExtAuthz.authz_agrees_with_proxy] compares two of them, and
    [StdioLife.session_ends] says that a session comes to an end.
    [Gateway.poison_crosses_routes] and [A2aProxy.exfiltration_stopped] are
    about sequences of exchanges: a poisoned tool stays out of reach, and data
    of a tool answer does not leave in a task.  [Taint.cross_sensor_leak_detected]
    does the second between processes.
    Detection itself: [Ruleset.Detect_spec], [Ruleset.globMatch_spec],
    [Taint.base64_exfiltration_detected], [Heuristic.strong_feature_fires],
    [TaskState.tracked_history_sound], [Policy.Resolve_spec].

    Evidence.  [EventStore.log_recovers], [EventStore.tamper_evident],
    [AuditApi.disclosed_record_verifies], [Bundle.export_contents] and
    [Bundle.bundle_tamper_evident] follow a record from the log to a bundle in
    an auditor's hands; [PgStore.pg_history_linear] and [PgStore.pg_refines_log]
    are the promises of the log on Postgres, and [Backends.backends_agree] and
    [StoreViews.reports_agree] say that a client cannot tell the two apart.  [Emitter.no_silent_loss],
    [Emitter.close_terminates] and [Delivery.delivered_end_to_end] go from the
    sensor to the log; [Exporter.webhook_authentic] to other systems.

    Who may do what.  [ControlPlane.started_closed] and
    [Routes.api_needs_credentials] close the API;
    [ReadApi.reads_stay_in_tenant], [PolicyApi.policy_tenant_isolation],
    [AdminApi.no_owner_escalation], [Tokens.minted_authenticates],
    [Jwks.session_needs_signed_token], [Signin.session_info_truthful] and
    [Config.tenant_tokens_roundtrip] are about tenants, roles and tokens;
    [Observe.flood_contained] about load.  [Cli.events_list_faithful] and
    [Cli.commands_reach_handlers] compose the operator's command with the
    handlers behind the routes; [Bench.tally_exact] says what the benchmark
    counts.
    [PolicyStore.store_durable], [PolicyApi.sensor_tick_converges] and
    [Content.downloads_match_manifest] are about what reaches the sensors.

    Each file has further theorems next to these, among them the behaviours
    where code and documentation differ, proved at a concrete input.

    ** Bounds and fuel

    [int], [int64] and [uint64] wrap at 64 bits where a counter or an index
    can reach them; durations saturate as [Time.Sub] does.  Fuel is used where
    a loop is not structural and is always enough: the levels of a Merkle tree
    get one step for each leaf ([Merkle.levels_end]), [itoa] its twenty bytes
    ([Pipeline.itoa_digits_spec]), SHA-256 one step for each block of its
    padded message, and the shortest decimal of a [float64] the seventeen
    digits that always suffice.

    ** What is not modelled

    The database server below the statements of [PgStore], and the TLS of the
    control plane's listener; the listeners and their shutdown; the timing,
    random texts and printed layout of the benchmark; usage texts and the
    printing of answers by the operator's command; the demonstration servers
    ([cmd/stub-mcp-server], [cmd/stub-a2a-server], [cmd/stub-stdio-mcp-server],
    [cmd/dumb-proxy]), which are for trying the sensors by hand; build
    information; the pages of the console.

    Simplifications that the definitions make throughout: JSON is handled as
    trees whose object keys match exactly; number literals are canonical
    texts; times are in UTC; [ToLower], [EqualFold] and quoting act on ASCII
    except in [Heuristic]; a request or a tick reads the clock once; a map is
    visited in one order while it does not change; a file operation that fails
    leaves the file as it was except where a file says otherwise; paths reach
    the route matchers without escapes, and queries decoded; no multiplication
    is fused with an addition. *)

From Stdlib Require Export ZArith Lia Ascii.
From stdpp Require Export base gmap sets list strings sorting.

(** ** Scope and notations shared by the development *)

Declare Scope go_scope.
Delimit Scope go_scope with go.
Open Scope go_scope.

(** String comparison as the boolean Go writes with [==] and [!=]. *)
Notation "a ==s b" := (String.eqb a b) (at level 70) : go_scope.
Notation "a !=s b" := (negb (String.eqb a b)) (at level 70) : go_scope.

(** ** Machine integers *)

(** Go's [int] and [int64]: two's complement on 64 bits. *)
Definition wrap64 (z : Z) : Z := ((z + 2 ^ 63) mod 2 ^ 64 - 2 ^ 63)%Z.
(** Go's [uint64]. *)
Definition wrapu64 (z : Z) : Z := (z mod 2 ^ 64)%Z.
Definition max_int64 : Z := (2 ^ 63 - 1)%Z.
Definition min_int64 : Z := (- 2 ^ 63)%Z.
Definition in_int64 (z : Z) : Prop := (min_int64 ≤ z ≤ max_int64)%Z.

(** ** Time

    A [time.Time] is the number of nanoseconds since the Unix epoch, in UTC;
    [time.Now()] is an explicit argument of the operations that read the
    clock; a [time.Duration] is an int64 of nanoseconds. *)

Definition zero_time : Z := (- 62135596800 * 1000000000)%Z.
Definition time_IsZero (t : Z) : bool := (t =? zero_time)%Z.
Definition time_Before (t u : Z) : bool := (t <? u)%Z.
Definition time_After (t u : Z) : bool := (u <? t)%Z.
Definition time_Add (t d : Z) : Z := (t + d)%Z.
(** [t.Sub(u)] saturates at the ends of the Duration range. *)
Definition time_Sub (t u : Z) : Z :=
  Z.max min_int64 (Z.min max_int64 (t - u)).
Definition Second : Z := 1000000000%Z.
Definition Minute : Z := (60 * Second)%Z.

(** ** Results

    A Go function that returns a value and an error. *)
Inductive result (A E : Type) :=
| Ok (a : A)
| Err (e : E).
Arguments Ok {A E} a.
Arguments Err {A E} e.

(** ** Iteration over Go maps

    The order in which [for k, v := range m] visits a map is unspecified.  An
    operation that ranges over a map takes it from this class, of which every
    permutation of the entries is an instance; theorems hold for all of them. *)

Class MapIter := {
  map_iter : forall {V : Type}, gmap string V -> list (string * V);
  map_iter_perm : forall {V : Type} (m : gmap string V),
    map_iter m ≡ₚ map_to_list m
}.

(** The iteration order used to evaluate concrete inputs. *)
#[refine] Definition canonical_iter : MapIter :=
  {| map_iter V m := map_to_list m |}.
Proof. reflexivity. Defined.

(** ** Lists and strings *)

(** [sort.SliceStable] with the comparison [less]: insertion sort, which keeps
    the order of the elements that [less] does not separate. *)
Fixpoint insert_stable {A} (less : A -> A -> bool) (x : A) (l : list A) : list A :=
  match l with
  | [] => [x]
  | y :: l' => if less y x then y :: insert_stable less x l' else x :: l
  end.
Definition sort_stable {A} (less : A -> A -> bool) (l : list A) : list A :=
  foldr (insert_stable less) [] l.

(** The longest prefix of the elements satisfying [p] ([break] in a loop). *)
Fixpoint take_while {A} (p : A -> bool) (l : list A) : list A :=
  match l with
  | [] => []
  | x :: l' => if p x then x :: take_while p l' else []
  end.

(** [a < b] on Go strings: byte order. *)
Definition string_less (a b : string) : bool :=
  match String.compare a b with Lt => true | _ => false end.

(** [strings.HasPrefix]. *)
Definition HasPrefix (s p : string) : bool := String.prefix p s.

(** [s[:n]] and [s[n:]] for [n <= len(s)]. *)
Fixpoint str_take (n : nat) (s : string) : string :=
  match n, s with
  | S n', String c s' => String c (str_take n' s')
  | _, _ => EmptyString
  end.
Fixpoint str_drop (n : nat) (s : string) : string :=
  match n, s with
  | S n', String _ s' => str_drop n' s'
  | _, _ => s
  end.

(** [strings.TrimPrefix]. *)
Definition TrimPrefix (s p : string) : string :=
  if HasPrefix s p then str_drop (String.length p) s else s.

(** No line feed. *)
Fixpoint no_newline (s : string) : bool :=
  match s with
  | EmptyString => true
  | String c s' => negb (Ascii.eqb c "010") && no_newline s'
  end.

(** ** Tactics *)

(** Turn the boolean equations of the context into propositions. *)
Ltac breflect :=
  repeat match goal with
  | H : (_ && _)%bool = true |- _ => apply andb_true_iff in H as [? ?]
  | H : (_ || _)%bool = false |- _ => apply orb_false_iff in H as [? ?]
  | H : negb _ = true |- _ => apply negb_true_iff in H
  | H : negb _ = false |- _ => apply negb_false_iff in H
  | H : String.eqb _ _ = true |- _ => apply String.eqb_eq in H
  | H : String.eqb _ _ = false |- _ => apply String.eqb_neq in H
  | H : (_ <? _)%Z = true |- _ => apply Z.ltb_lt in H
  | H : (_ <? _)%Z = false |- _ => apply Z.ltb_ge in H
  | H : (_ <=? _)%Z = true |- _ => apply Z.leb_le in H
  | H : (_ <=? _)%Z = false |- _ => apply Z.leb_gt in H
  | H : (_ =? _)%Z = true |- _ => apply Z.eqb_eq in H
  | H : (_ =? _)%Z = false |- _ => apply Z.eqb_neq in H
  | H : (_ <? _)%nat = true |- _ => apply Nat.ltb_lt in H
  | H : (_ <? _)%nat = false |- _ => apply Nat.ltb_ge in H
  | H : (_ <=? _)%nat = true |- _ => apply Nat.leb_le in H
  | H : (_ <=? _)%nat = false |- _ => apply Nat.leb_gt in H
  | H : (_ =? _)%nat = true |- _ => apply Nat.eqb_eq in H
  | H : (_ =? _)%nat = false |- _ => apply Nat.eqb_neq in H
  end.

(** Split on every [if] of the goal, keeping the tests as propositions. *)
Ltac split_ifs :=
  repeat (match goal with
          | |- context [if ?b then _ else _] => destruct b eqn:?
          end; simpl in *; breflect).

(** Case analysis on the innermost scrutinee of a hypothesis. *)
Ltac split_ifs_in H :=
  repeat (match type of H with
          | context [if ?b then _ else _] => destruct b eqn:?
          end; simpl in H; breflect).

Create HintDb hopframe.
Create Rewrite HintDb hopframe.

(** ** Lemmas on strings *)

Lemma eqb_refl_s (s : string) : (s ==s s) = true.
Proof. apply String.eqb_refl. Qed.

Lemma eqb_neq_s (a b : string) : a <> b -> (a ==s b) = false.
Proof. apply String.eqb_neq. Qed.

Lemma sapp_cons c a b : String c a +:+ b = String c (a +:+ b).
Proof. reflexivity. Qed.

Lemma sapp_nil_l a : EmptyString +:+ a = a.
Proof. reflexivity. Qed.

Lemma sapp_nil_r a : a +:+ EmptyString = a.
Proof. induction a; [done|]. rewrite sapp_cons. congruence. Qed.

Lemma sapp_assoc a b c : (a +:+ b) +:+ c = a +:+ (b +:+ c).
Proof. induction a; [done|]. rewrite !sapp_cons. congruence. Qed.

Lemma sapp_length a b : String.length (a +:+ b) = (String.length a + String.length b)%nat.
Proof. induction a; [done|]. rewrite sapp_cons. simpl. lia. Qed.

Lemma str_take_app a b : str_take (String.length a) (a +:+ b) = a.
Proof. induction a; [by destruct b|]. rewrite sapp_cons. simpl. congruence. Qed.

Lemma str_drop_app a b : str_drop (String.length a) (a +:+ b) = b.
Proof. induction a; [by destruct b|]. by rewrite sapp_cons. Qed.

Lemma prefix_app p x : String.prefix p (p +:+ x) = true.
Proof.
  induction p as [|c p IH]; [by destruct x|]. rewrite sapp_cons. simpl.
  by destruct (ascii_dec c c).
Qed.

Lemma TrimPrefix_app p x : TrimPrefix (p +:+ x) p = x.
Proof. unfold TrimPrefix, HasPrefix. by rewrite prefix_app, str_drop_app. Qed.

Lemma sapp_inj_l a b c : a +:+ b = a +:+ c -> b = c.
Proof. induction a; [done|]. rewrite !sapp_cons. intros [= H]. auto. Qed.

Lemma sapp_inj_length a b a' b' :
  String.length a = String.length a' -> a +:+ b = a' +:+ b' -> a = a' /\ b = b'.
Proof.
  revert a'. induction a as [|c a IH]; intros [|c' a'] Hl; try done.
  rewrite !sapp_cons. intros [= -> H]. apply IH in H as [-> ->]; [done|]. simpl in Hl. lia.
Qed.

Lemma no_newline_app a b : no_newline (a +:+ b) = no_newline a && no_newline b.
Proof. induction a; [done|]. rewrite sapp_cons. simpl. by rewrite IHa, andb_assoc. Qed.

(** The first line of a text. *)
Lemma first_line a b a' b' : no_newline a = true -> no_newline a' = true ->
  a +:+ String "010" b = a' +:+ String "010" b' -> a = a' /\ b = b'.
Proof.
  revert a'. induction a as [|c a IH]; intros [|c' a'] Ha Ha'; rewrite ?sapp_cons, ?sapp_nil_l; simpl in *.
  - by intros [= ->].
  - intros [= <- _]. done.
  - intros [= -> _]. done.
  - apply andb_true_iff in Ha as [_ Ha], Ha' as [_ Ha']. intros [= -> H].
    by apply IH in H as [-> ->].
Qed.

Lemma string_less_irrefl a : string_less a a = false.
Proof.
  unfold string_less. assert (String.compare a a = Eq) as ->; [|done].
  induction a; simpl; [done|].
  unfold Ascii.compare. by rewrite N.compare_refl.
Qed.

Lemma string_less_asym a b : string_less a b = true -> string_less b a = false.
Proof.
  unfold string_less. rewrite (String.compare_antisym a b).
  destruct (String.compare b a); simpl; congruence.
Qed.

Lemma string_less_false a b : string_less a b = false <-> String.leb b a = true.
Proof.
  unfold string_less, String.leb. rewrite (String.compare_antisym b a).
  destruct (String.compare a b); simpl; split; congruence.
Qed.

Lemma string_leb_trans a b c :
  String.leb a b = true -> String.leb b c = true -> String.leb a c = true.
Proof.
  intros Hab Hbc.
  assert (String.le a c) as H.
  { etrans; [by apply Is_true_true_2|by apply Is_true_true_2]. }
  by apply Is_true_true_1.
Qed.

Lemma string_less_cotrans a b c :
  string_less b a = false -> string_less c b = false -> string_less c a = false.
Proof. rewrite !string_less_false. apply string_leb_trans. Qed.

Lemma string_less_trans a b c :
  string_less a b = true -> string_less b c = true -> string_less a c = true.
Proof.
  intros Hab Hbc. destruct (string_less a c) eqn:E; [done|].
  pose proof (string_less_cotrans _ _ _ E (string_less_asym _ _ Hab)). congruence.
Qed.

Lemma string_less_total a b :
  string_less a b = false -> string_less b a = false -> a = b.
Proof.
  rewrite !string_less_false. intros. by apply String.leb_antisym.
Qed.

#[export] Hint Rewrite eqb_refl_s string_less_irrefl sapp_cons sapp_nil_l sapp_nil_r : hopframe.
#[export] Hint Resolve string_less_asym string_less_cotrans string_less_trans : hopframe.

(** ** Lemmas on [sort_stable] *)

Section sort_stable.
Context {A : Type} (less : A -> A -> bool).

Lemma insert_stable_perm x l : insert_stable less x l ≡ₚ x :: l.
Proof.
  induction l as [|y l IH]; simpl; [done|].
  destruct (less y x); [|done].
  rewrite IH. apply Permutation_swap.
Qed.

Lemma sort_stable_perm l : sort_stable less l ≡ₚ l.
Proof.
  induction l as [|x l IH]; simpl; [done|].
  by rewrite insert_stable_perm, IH.
Qed.

Lemma elem_of_sort_stable x l : x ∈ sort_stable less l <-> x ∈ l.
Proof. by rewrite sort_stable_perm. Qed.

Context (less_asym : forall x y, less x y = true -> less y x = false).
Context (less_cotrans : forall x y z,
  less y x = false -> less z y = false -> less z x = false).

Lemma insert_stable_sorted x l :
  StronglySorted (fun a b => less b a = false) l ->
  StronglySorted (fun a b => less b a = false) (insert_stable less x l).
Proof.
  induction 1 as [|y l Hs IH Hall]; simpl; [repeat constructor|].
  destruct (less y x) eqn:E.
  - constructor; [done|].
    rewrite insert_stable_perm, Forall_cons. split; [by apply less_asym|done].
  - constructor; [by constructor|].
    constructor; [done|].
    eapply Forall_impl; [exact Hall|]. intros z Hz. by eapply less_cotrans.
Qed.

Lemma sort_stable_sorted l :
  StronglySorted (fun a b => less b a = false) (sort_stable less l).
Proof.
  induction l as [|x l IH]; simpl; [constructor|].
  by apply insert_stable_sorted.
Qed.

(** Stability: a class of elements that [less] does not separate keeps its
    order. *)
Lemma insert_stable_filter (p : A -> bool) x l :
  (forall a b, p a = true -> p b = true -> less a b = false) ->
  filter p (insert_stable less x l) = filter p (x :: l).
Proof.
  intros Hp. induction l as [|y l IH]; [done|].
  simpl insert_stable. destruct (less y x) eqn:E; [|done].
  rewrite filter_cons, IH, !filter_cons.
  destruct (decide (p y)) as [Hy|Hy], (decide (p x)) as [Hx|Hx]; try done.
  apply Is_true_true in Hy, Hx. rewrite (Hp y x) in E; done.
Qed.

Lemma sort_stable_filter (p : A -> bool) l :
  (forall a b, p a = true -> p b = true -> less a b = false) ->
  filter p (sort_stable less l) = filter p l.
Proof.
  intros Hp. induction l as [|x l IH]; [done|].
  simpl. rewrite insert_stable_filter by done.
  by rewrite !filter_cons, IH.
Qed.
End sort_stable.

Lemma StronglySorted_impl {A} (R1 R2 : A -> A -> Prop) l :
  (forall a b, R1 a b -> R2 a b) -> StronglySorted R1 l -> StronglySorted R2 l.
Proof.
  intros HR. induction 1 as [|x l _ IH Hx]; constructor; [done|].
  eapply Forall_impl; [exact Hx|]. auto.
Qed.

(** In a list sorted by decreasing key, the elements that share the first key
    come first: breaking out of a loop at the first other key selects exactly
    them. *)
Lemma take_while_top {A} (key : A -> Z) x l :
  StronglySorted (fun a b => (key b <= key a)%Z) (x :: l) ->
  take_while (fun y => (key y =? key x)%Z) (x :: l)
  = filter (fun y => (key y =? key x)%Z) (x :: l).
Proof.
  intros Hs. apply StronglySorted_inv in Hs as [Hs Hx].
  simpl. rewrite Z.eqb_refl. rewrite filter_cons_True by (by rewrite Z.eqb_refl). f_equal.
  induction Hs as [|y l Hs IH Hy]; [done|]. apply Forall_cons in Hx as [Hyx Hx].
  simpl. destruct (key y =? key x)%Z eqn:E.
  - rewrite filter_cons_True by (rewrite E; exact I). f_equal. by apply IH.
  - rewrite filter_cons_False by (rewrite E; intros []). breflect.
    clear IH Hs. induction Hy as [|z l Hz Hy IH]; [done|].
    apply Forall_cons in Hx as [Hzx Hx]. rewrite filter_cons_False; [by apply IH|].
    intros Hz'%Is_true_true. breflect. lia.
Qed.

(** Maximum of a list by a natural rank, the last of equals winning: the loop
    [for x := range l { if rank(x) >= rank(best) { best = x } }]. *)
Lemma last_max_fold {A} (rank : A -> nat) (best : A) l :
  (forall x, x ∈ l -> rank best <= rank x)%nat -> l <> [] ->
  exists w l1 l2,
    fold_left (fun b x => if (rank b <=? rank x)%nat then x else b) l best = w /\
    l = l1 ++ w :: l2 /\
    (forall y, y ∈ l1 -> rank y <= rank w)%nat /\ (forall y, y ∈ l2 -> rank y < rank w)%nat.
Proof.
  induction l as [|x l IH] using rev_ind; [done|]. intros Hle _.
  rewrite fold_left_app. simpl. destruct l as [|y l'].
  { exists x, [], []. simpl. rewrite (proj2 (Nat.leb_le _ _)) by (apply Hle; set_solver).
    split_and!; [done..|by intros ? ?%elem_of_nil|by intros ? ?%elem_of_nil]. }
  destruct IH as (w & l1 & l2 & -> & Hl & H1 & H2).
  { intros z Hz. apply Hle. set_solver. }
  { done. }
  rewrite Hl. destruct (rank w <=? rank x)%nat eqn:E; breflect.
  - exists x, (l1 ++ w :: l2), []. split_and!; [done..| |by intros ? ?%elem_of_nil].
    intros z [Hz|[->|Hz]%elem_of_cons]%elem_of_app; [|done|].
    + specialize (H1 z Hz). lia.
    + specialize (H2 z Hz). lia.
  - exists w, l1, (l2 ++ [x]). split_and!; [done|by rewrite <- app_assoc|done|].
    intros z [Hz|Hz]%elem_of_app; [by apply H2|]. apply list_elem_of_singleton in Hz. by subst.
Qed.

(** ** Sorting by a string key *)

Definition less_key {A} (key : A -> string) (a b : A) : bool := string_less (key a) (key b).

Lemma sort_key_sorted {A} (key : A -> string) l :
  StronglySorted (fun a b => less_key key b a = false) (sort_stable (less_key key) l).
Proof.
  apply sort_stable_sorted; unfold less_key.
  - intros x y. apply string_less_asym.
  - intros x y z. apply string_less_cotrans.
Qed.

(** Sorting by a key that identifies the elements does not depend on the order
    of the input: ranging over a map and sorting by key is deterministic. *)
Lemma sort_key_unique {A} (key : A -> string) l1 l2 :
  (forall x y, x ∈ l1 -> y ∈ l1 -> key x = key y -> x = y) -> l1 ≡ₚ l2 ->
  sort_stable (less_key key) l1 = sort_stable (less_key key) l2.
Proof.
  intros Hinj Hperm.
  eapply (StronglySorted_unique_strong (fun a b => less_key key b a = false));
    [|apply sort_key_sorted..|].
  - intros x y Hx Hy Hxy Hyx. rewrite elem_of_sort_stable in Hx, Hy. rewrite <- Hperm in Hy.
    apply Hinj; [done..|]. by apply string_less_total.
  - by rewrite !sort_stable_perm.
Qed.

(** The values a [range] over a map visits. *)
Definition map_values {V} `{MapIter} (m : gmap string V) : list V := map snd (map_iter m).

Lemma elem_of_map_values {V} `{MapIter} (m : gmap string V) v :
  v ∈ map_values m <-> exists k, m !! k = Some v.
Proof.
  unfold map_values. rewrite list_elem_of_fmap. split.
  - intros ([k w] & -> & Hin). exists k. rewrite map_iter_perm in Hin. by apply elem_of_map_to_list.
  - intros [k Hk]. exists (k, v). split; [done|]. rewrite map_iter_perm. by apply elem_of_map_to_list.
Qed.

Lemma map_values_perm {V} (I1 I2 : MapIter) (m : gmap string V) :
  @map_values V I1 m ≡ₚ @map_values V I2 m.
Proof. unfold map_values. apply Permutation_map. by rewrite !map_iter_perm. Qed.

(** ** Wrap-around *)

Lemma wrap64_in_range z : in_int64 z -> wrap64 z = z.
Proof. unfold in_int64, wrap64, min_int64, max_int64. intros. rewrite Z.mod_small; lia. Qed.

Lemma wrap64_range z : in_int64 (wrap64 z).
Proof.
  unfold in_int64, wrap64, min_int64, max_int64.
  pose proof (Z.mod_pos_bound (z + 2 ^ 63) (2 ^ 64) ltac:(lia)). lia.
Qed.

Lemma wrap64_add_l a b : wrap64 (wrap64 a + b) = wrap64 (a + b).
Proof.
  unfold wrap64. f_equal.
  replace ((a + 2 ^ 63) mod 2 ^ 64 - 2 ^ 63 + b + 2 ^ 63)%Z with ((a + 2 ^ 63) mod 2 ^ 64 + b)%Z by lia.
  rewrite Z.add_mod_idemp_l by lia. f_equal. lia.
Qed.

(** ** Sums *)

Definition sumZ (l : list Z) : Z := foldr Z.add 0%Z l.

#[export] Instance sumZ_proper : Proper ((≡ₚ) ==> (=)) sumZ.
Proof. induction 1; simpl in *; lia. Qed.

Lemma sumZ_snoc l x : sumZ (l ++ [x]) = (sumZ l + x)%Z.
Proof. rewrite (Permutation_app_comm l [x]). unfold sumZ. cbn. lia. Qed.

(** An int64 accumulator that wraps at every step ends at the wrapped sum. *)
Lemma wrap64_fold_sum l acc :
  fold_left (fun v x => wrap64 (v + x)) l (wrap64 acc) = wrap64 (acc + sumZ l).
Proof.
  revert acc. induction l as [|x l IH]; intros acc; simpl; [by rewrite Z.add_0_r|].
  rewrite wrap64_add_l, IH. f_equal. lia.
Qed.

Lemma map_values_insert_fresh {V} `{MapIter} (m : gmap string V) k v :
  m !! k = None -> map_values (<[k:=v]> m) ≡ₚ v :: map_values m.
Proof.
  intros Hk. unfold map_values. rewrite !map_iter_perm.
  by rewrite (map_to_list_insert m k v Hk).
Qed.

Lemma map_values_delete {V} `{MapIter} (m : gmap string V) k v :
  m !! k = Some v -> map_values m ≡ₚ v :: map_values (delete k m).
Proof.
  intros Hk. rewrite <- (insert_delete_id m k v Hk) at 1.
  apply map_values_insert_fresh. apply lookup_delete_eq.
Qed.

(** Filling a map from a list in which no other element has the key of [x]. *)
Lemma fold_insert_lookup {A} (key : A -> string) l (m : gmap string A) x :
  x ∈ l -> (forall y, y ∈ l -> key y = key x -> y = x) ->
  fold_left (fun m y => <[key y := y]> m) l m !! key x = Some x.
Proof.
  induction l as [|y l IH] using rev_ind; intros Hx Hu; [by apply elem_of_nil in Hx|].
  rewrite fold_left_app. simpl. rewrite lookup_insert. case_decide as Hk.
  - f_equal. apply Hu; [set_solver|done].
  - apply IH; [|set_solver]. apply elem_of_app in Hx as [?|Hx]; [done|].
    apply list_elem_of_singleton in Hx. congruence.
Qed.
