(* ===== verification/Text.v ===== *)
(** * Package [strings]

    The searches and cuts of Go's [strings] that several components use. *)

From S2P Require Import Prelude.

(** [strings.Contains]. *)
Fixpoint Contains (s sub : string) : bool :=
  HasPrefix s sub || match s with EmptyString => false | String _ s' => Contains s' sub end.

Definition contains_any (s : string) (subs : list string) : bool := existsb (Contains s) subs.

(** [strings.HasSuffix], [strings.TrimSuffix]. *)
Definition HasSuffix (s p : string) : bool :=
  (String.length p <=? String.length s)%nat && (str_drop (String.length s - String.length p) s ==s p).
Definition TrimSuffix (s p : string) : string :=
  if HasSuffix s p then str_take (String.length s - String.length p) s else s.

(** [strings.TrimRight] with a cutset of one character. *)
Fixpoint TrimRight (s : string) (c : ascii) : string :=
  match s with
  | EmptyString => EmptyString
  | String d s' => match TrimRight s' c with
                   | EmptyString => if Ascii.eqb d c then EmptyString else String d EmptyString
                   | t => String d t
                   end
  end.

(** ** Lemmas *)

Lemma HasPrefix_spec s p : HasPrefix s p = true <-> exists t, s = p +:+ t.
Proof.
  unfold HasPrefix. revert s. induction p as [|c p IH]; intros s.
  { split; [|destruct s; done]. intros _. exists s. by rewrite sapp_nil_l. }
  destruct s as [|d s]; [split; [done|]; intros [t Ht]; by rewrite sapp_cons in Ht|].
  cbn [String.prefix]. destruct (ascii_dec c d) as [->|Hne].
  - rewrite IH. split; intros [t Ht]; exists t; [by rewrite sapp_cons, Ht|]. rewrite sapp_cons in Ht. by injection Ht.
  - split; [done|]. intros [t Ht]. rewrite sapp_cons in Ht. by injection Ht as <-.
Qed.

Lemma Contains_spec s sub : Contains s sub = true <-> exists a b, s = a +:+ sub +:+ b.
Proof.
  induction s as [|c s IH]; cbn [Contains]; rewrite orb_true_iff, HasPrefix_spec.
  - split; [intros [[t Ht]|?]; [|done]; exists "", t; by rewrite sapp_nil_l|].
    intros (a & b & E). left. destruct a; [|by rewrite sapp_cons in E]. exists b. by rewrite sapp_nil_l in E.
  - rewrite IH. split.
    + intros [[t Ht]|(a & b & ->)]; [exists "", t; by rewrite sapp_nil_l|].
      exists (String c a), b. by rewrite sapp_cons.
    + intros ([|d a] & b & E); [rewrite sapp_nil_l in E; left; by exists b|].
      rewrite sapp_cons in E. injection E as <- ->. right. by exists a, b.
Qed.

Lemma contains_any_spec s subs : contains_any s subs = true <-> exists sub, sub ∈ subs /\ Contains s sub = true.
Proof. unfold contains_any. rewrite existsb_exists. by setoid_rewrite list_elem_of_In. Qed.

Lemma str_take_drop n s : str_take n s +:+ str_drop n s = s.
Proof.
  revert s. induction n as [|n IH]; intros [|c s]; try done. cbn [str_take str_drop]. by rewrite sapp_cons, IH.
Qed.
