(* ===== verification/Float64.v ===== *)
(** * [float64]

    Values are [spec_float], with the roundings of the standard library's
    [SpecFloat] at 53 bits.  Every operation rounds; the compiler is not taken
    to fuse a multiplication with an addition. *)

From Stdlib Require Import SpecFloat.
From S2P Require Import Prelude.

Definition f64_of (m e : Z) : spec_float := binary_normalize 53 1024 m e false.
Definition f64_add : spec_float -> spec_float -> spec_float := SFadd 53 1024.
Definition f64_sub : spec_float -> spec_float -> spec_float := SFsub 53 1024.
Definition f64_mul : spec_float -> spec_float -> spec_float := SFmul 53 1024.
Definition f64_div : spec_float -> spec_float -> spec_float := SFdiv 53 1024.

(** [Hours] of a duration. *)
Definition hour_ns : Z := 3600000000000.
Definition Hours (d : Z) : spec_float :=
  f64_add (f64_of (Z.quot d hour_ns) 0) (f64_div (f64_of (Z.rem d hour_ns) 0) (f64_of hour_ns 0)).

(** [Seconds] of a duration. *)
Definition Seconds (d : Z) : spec_float :=
  f64_add (f64_of (Z.quot d 1000000000) 0) (f64_div (f64_of (Z.rem d 1000000000) 0) (f64_of 1000000000 0)).

(** ** The order

    [SFltb] is a strict weak order on the values that are numbers. *)

Definition is_nan (x : spec_float) : bool := match x with S754_nan => true | _ => false end.

(** A key whose lexicographic order is the order of the values: the rank of
    the class, then the exponent, then the mantissa. *)
Definition f64_key (x : spec_float) : Z * Z * Z :=
  match x with
  | S754_infinity true => (-2, 0, 0)%Z
  | S754_finite true m e => (-1, - e, - Zpos m)%Z
  | S754_zero _ | S754_nan => (0, 0, 0)%Z
  | S754_finite false m e => (1, e, Zpos m)%Z
  | S754_infinity false => (2, 0, 0)%Z
  end.

Definition key_lt (a b : Z * Z * Z) : Prop :=
  (a.1.1 < b.1.1 \/ a.1.1 = b.1.1 /\ (a.1.2 < b.1.2 \/ a.1.2 = b.1.2 /\ a.2 < b.2))%Z.

Lemma SFltb_key x y : is_nan x = false -> is_nan y = false -> SFltb x y = true <-> key_lt (f64_key x) (f64_key y).
Proof.
  intros Hx Hy. unfold SFltb, SFcompare, key_lt.
  destruct x as [sx|sx| |sx mx ex], y as [sy|sy| |sy my ey]; try done; destruct sx, sy; cbn; try (split; [done|lia]);
    try (split; [lia|done]);
    pose proof (Z.compare_spec ex ey); destruct (ex ?= ey)%Z; inversion H; subst; cbn; try (split; [done|lia]); try (split; [lia|done]);
    change (Pos.compare_cont Eq mx my) with (mx ?= my)%positive;
    pose proof (Pos.compare_spec mx my) as Hm; destruct (mx ?= my)%positive; inversion Hm; subst; cbn;
    first [split; [done|lia] | split; [lia|done]].
Qed.

Lemma SFltb_asym x y : SFltb x y = true -> SFltb y x = false.
Proof.
  intros H. assert (is_nan x = false /\ is_nan y = false) as [Hx Hy].
  { unfold SFltb, SFcompare in H. by destruct x as [[]|[]| |[] ? ?], y as [[]|[]| |[] ? ?]. }
  apply SFltb_key in H; [|done..]. apply not_true_iff_false. rewrite SFltb_key by done. unfold key_lt in *. lia.
Qed.

Lemma SFltb_cotrans x y z : is_nan x = false -> is_nan y = false -> is_nan z = false ->
  SFltb y x = false -> SFltb z y = false -> SFltb z x = false.
Proof.
  intros Hx Hy Hz. rewrite <- !not_true_iff_false, !SFltb_key by done. unfold key_lt. lia.
Qed.

(** ** Results that are numbers *)

Lemma shr_1_nonneg r : (0 <= shr_m r -> 0 <= shr_m (shr_1 r))%Z.
Proof. destruct r as [[|[]|[]] ? ?]; cbn; lia. Qed.

Lemma iter_pos_nonneg p r : (0 <= shr_m r -> 0 <= shr_m (SpecFloat.iter_pos shr_1 p r))%Z.
Proof.
  revert r. induction p as [p IH|p IH|]; intros r Hr; cbn [iter_pos]; [|by apply IH, IH|by apply shr_1_nonneg].
  by apply IH, IH, shr_1_nonneg.
Qed.

Lemma shr_fexp_nonneg m e l : (0 <= m -> 0 <= shr_m (shr_fexp 53 1024 m e l).1)%Z.
Proof.
  intros Hm. unfold shr_fexp, shr. assert (0 <= shr_m (shr_record_of_loc m l))%Z by (by destruct l as [|[]]).
  destruct (fexp _ _ _ - e)%Z; [done| |done]. by apply iter_pos_nonneg.
Qed.

(** The values a count, or a sum of counts, takes. *)
Definition counting (x : spec_float) : bool :=
  match x with S754_zero false | S754_finite false _ _ | S754_infinity false => true | _ => false end.

Lemma counting_nan x : counting x = true -> is_nan x = false.
Proof. by destruct x as [[]|[]| |[] ? ?]. Qed.

Lemma round_counting m e l : (0 <= m)%Z -> counting (binary_round_aux 53 1024 false m e l) = true.
Proof.
  intros Hm. unfold binary_round_aux. pose proof (shr_fexp_nonneg m e l Hm) as H1.
  destruct (shr_fexp 53 1024 m e l) as [r1 e1]. cbn [fst] in H1.
  assert (0 <= round_nearest_even (shr_m r1) (loc_of_shr_record r1))%Z as H2.
  { unfold round_nearest_even. destruct (loc_of_shr_record r1) as [|[]]; [lia| |lia..]. destruct (Z.even _); lia. }
  pose proof (shr_fexp_nonneg _ e1 loc_Exact H2) as H3. destruct (shr_fexp 53 1024 _ e1 loc_Exact) as [r2 e2]. cbn [fst] in H3.
  destruct (shr_m r2); [done| |lia]. by destruct (e2 <=? _)%Z.
Qed.

Lemma normalize_counting m e : (0 <= m)%Z -> counting (binary_normalize 53 1024 m e false) = true.
Proof.
  intros Hm. unfold binary_normalize. destruct m as [|p|p]; [done| |lia].
  unfold binary_round. destruct (shl_align _ _ _) as [mz ez]. by apply round_counting.
Qed.

Lemma f64_of_counting n : (0 <= n)%Z -> counting (f64_of n 0) = true.
Proof. apply normalize_counting. Qed.

Lemma f64_add_counting x y : counting x = true -> counting y = true -> counting (f64_add x y) = true.
Proof.
  intros Hx Hy. unfold f64_add, SFadd. destruct x as [[]|[]| |[] mx ex], y as [[]|[]| |[] my ey]; try done.
  apply normalize_counting. cbn [cond_Zopp]. lia.
Qed.

Lemma f64_mul_counting x m e : counting x = true -> counting (f64_mul x (S754_finite false m e)) = true.
Proof.
  intros Hx. unfold f64_mul, SFmul. destruct x as [[]|[]| |[] mx ex]; try done. by apply round_counting.
Qed.

Lemma f64_div_counting x m e : counting x = true -> counting (f64_div x (S754_finite false m e)) = true.
Proof.
  intros Hx. unfold f64_div, SFdiv. destruct x as [[]|[]| |[] mx ex]; try done.
  unfold SFdiv_core_binary. set (s := (ex - e - _)%Z).
  set (m' := match s with Z0 => _ | Zpos _ => _ | Zneg _ => _ end).
  assert (0 <= m')%Z as Hm' by (unfold m'; destruct s; [lia|apply Z.shiftl_nonneg; lia|lia]).
  pose proof (Z_div_mod m' (Zpos m) ltac:(lia)) as Hd. destruct (Z.div_eucl m' (Zpos m)) as [q r]. destruct Hd as [Hd Hr].
  apply round_counting. nia.
Qed.

(** ** Small integers are exact *)

Lemma digits2_shift m k : digits2_pos (Pos.iter xO m k) = (digits2_pos m + k)%positive.
Proof.
  induction k as [|k IH] using Pos.peano_ind; [cbn; lia|]. rewrite Pos.iter_succ. cbn [digits2_pos]. lia.
Qed.

Lemma digits2_bound m n : (Zpos m < 2 ^ Z.of_nat n)%Z -> (Zpos (digits2_pos m) <= Z.of_nat n)%Z.
Proof.
  revert m. induction n as [|n IH]; intros m Hm; [cbn in Hm; lia|].
  rewrite Nat2Z.inj_succ, Z.pow_succ_r in Hm by lia. destruct m as [m|m|]; cbn [digits2_pos]; [| |lia].
  - specialize (IH m ltac:(lia)). lia.
  - specialize (IH m ltac:(lia)). lia.
Qed.

Lemma f64_of_finite n : (0 < n < 2 ^ 53)%Z -> exists m e, f64_of n 0 = S754_finite false m e.
Proof.
  intros [H1 H2]. destruct n as [|p|p]; [lia| |lia]. unfold f64_of, binary_normalize, binary_round.
  pose proof (digits2_bound p 53 H2) as Hd. set (d := Zpos (digits2_pos p)) in *. assert (1 <= d)%Z by lia.
  assert (fexp 53 1024 (d + 0) = d - 53)%Z as Hf by (unfold fexp, emin; lia). rewrite Hf. unfold shl_align.
  assert (exists mz, match (d - 53 - 0)%Z with Zneg k => (Pos.iter xO p k, (d - 53)%Z) | _ => (p, 0%Z) end = (mz, (d - 53)%Z) /\
    Zpos (digits2_pos mz) = 53%Z) as (mz & -> & Hmz).
  { rewrite Z.sub_0_r. destruct (d - 53)%Z as [|k|k] eqn:Ek; [exists p; split; [done|lia]|lia|].
    exists (Pos.iter xO p k). split; [done|]. rewrite digits2_shift. lia. }
  unfold binary_round_aux, shr_fexp. cbn [Zdigits2]. rewrite Hmz.
  assert (fexp 53 1024 (53 + (d - 53)) - (d - 53) = 0)%Z as -> by (unfold fexp, emin; lia). cbn [shr shr_record_of_loc shr_m loc_of_shr_record round_nearest_even].
  cbn [Zdigits2]. rewrite Hmz.
  assert (fexp 53 1024 (53 + (d - 53)) - (d - 53) = 0)%Z as -> by (unfold fexp, emin; lia). cbn [shr shr_m shr_record_of_loc].
  rewrite (proj2 (Z.leb_le _ _)) by lia. by eexists _, _.
Qed.
