(* ===== verification/FloatBounds.v ===== *)
(** * Rounding respects representable bounds

    A rounded product or sum lies on the same side of every representable
    number as the exact one.  Values are compared as integers, in units of
    [2^-4000]. *)

From Stdlib Require Import SpecFloat.
From S2P Require Import Prelude Float64.

(** ** Exact values *)

Definition scale : Z := 4000.
Definition dy (m e : Z) : Z := (m * 2 ^ (e + scale))%Z.

Definition fval (x : spec_float) : Z := match x with S754_finite false m e => dy (Zpos m) e | _ => 0%Z end.

(** The finite non-negative values in canonical form. *)
Definition canon (m : positive) (e : Z) : Prop :=
  (-1074 <= e <= 971 /\ Zpos m < 2 ^ 53 /\ (2 ^ 52 <= Zpos m \/ e = -1074))%Z.
Definition good (x : spec_float) : Prop :=
  match x with S754_zero false => True | S754_finite false m e => canon m e | _ => False end.

(** Representable, not necessarily in canonical form. *)
Definition rep (b c : Z) : Prop := (0 <= b < 2 ^ 53 /\ -1074 <= c)%Z.

Lemma dy_shift m e k : (0 <= k)%Z -> (- scale <= e)%Z -> dy m (e + k) = dy (m * 2 ^ k) e.
Proof. intros. unfold dy. rewrite <- Z.mul_assoc, <- Z.pow_add_r by lia. do 2 f_equal. lia. Qed.

Lemma dy_le m n e : (- scale <= e)%Z -> (dy m e <= dy n e <-> m <= n)%Z.
Proof. intros. unfold dy. pose proof (Z.pow_pos_nonneg 2 (e + scale)). nia. Qed.

Lemma dy_lt m n e : (- scale <= e)%Z -> (dy m e < dy n e <-> m < n)%Z.
Proof. intros. unfold dy. pose proof (Z.pow_pos_nonneg 2 (e + scale)). nia. Qed.

Lemma dy_nonneg m e : (0 <= m)%Z -> (0 <= dy m e)%Z.
Proof. intros. unfold dy. pose proof (Z.pow_nonneg 2 (e + scale)). nia. Qed.

Lemma fval_nonneg x : (0 <= fval x)%Z.
Proof. destruct x as [[]|[]| |[] m e]; try done. by apply dy_nonneg. Qed.

(** ** Digits *)

Lemma digits2_spec m : (2 ^ (Zpos (digits2_pos m) - 1) <= Zpos m < 2 ^ Zpos (digits2_pos m))%Z.
Proof.
  induction m as [m IH|m IH|]; cbn [digits2_pos]; [| |by vm_compute];
    rewrite Pos2Z.inj_succ; set (d := Zpos (digits2_pos m)) in *; replace (Z.succ d - 1)%Z with (Z.succ (d - 1)) by lia;
    rewrite !Z.pow_succ_r by lia; lia.
Qed.

Lemma digits2_le m k : (0 <= k)%Z -> (Zpos m < 2 ^ k)%Z -> (Zpos (digits2_pos m) <= k)%Z.
Proof.
  intros Hk Hm. pose proof (digits2_spec m) as [H _]. apply Z.lt_pred_le, (Z.pow_lt_mono_r_iff 2); lia.
Qed.

Lemma digits2_ge m k : (0 <= k)%Z -> (2 ^ k <= Zpos m)%Z -> (k < Zpos (digits2_pos m))%Z.
Proof. intros Hk Hm. pose proof (digits2_spec m) as [_ H]. apply (Z.pow_lt_mono_r_iff 2); lia. Qed.

(** ** Shifting right keeps the quotient and knows whether it is exact *)

Definition shifted (r : shr_record) (m k : Z) : Prop :=
  shr_m r = (m / 2 ^ k)%Z /\ (shr_r r || shr_s r = false <-> m mod 2 ^ k = 0)%Z.

Lemma shr_1_shifted r m k : (0 <= m)%Z -> (0 <= k)%Z -> shifted r m k -> shifted (shr_1 r) m (k + 1).
Proof.
  intros Hm Hk [Hq Hx]. destruct r as [q r s]. cbn [shr_m shr_r shr_s] in *.
  assert (2 ^ (k + 1) = 2 ^ k * 2)%Z as Hp by (rewrite Z.pow_add_r; lia). pose proof (Z.pow_pos_nonneg 2 k ltac:(lia) Hk) as Hpos.
  assert (0 <= q)%Z by (subst q; apply Z.div_pos; lia).
  unfold shifted. rewrite Hp, <- Z.div_div, Z.rem_mul_r, <- Hq by lia.
  pose proof (Z.mod_pos_bound m (2 ^ k) Hpos).
  assert (forall r' : bool, (q mod 2 = if r' then 1 else 0)%Z ->
    (r' || (r || s) = false <-> m mod 2 ^ k + 2 ^ k * (q mod 2) = 0)%Z) as Hb.
  { intros r' ->. destruct r'; cbn [orb]; [split; [done|lia]|]. rewrite Hx. lia. }
  destruct q as [|[p|p|]|]; [| | | |lia]; cbn [shr_1 shr_m shr_r shr_s]; (split; [|apply Hb]); try done.
  - rewrite (Pos2Z.inj_xI p). Z.div_mod_to_equations; lia.
  - rewrite (Pos2Z.inj_xI p). Z.div_mod_to_equations; lia.
  - rewrite (Pos2Z.inj_xO p). Z.div_mod_to_equations; lia.
  - rewrite (Pos2Z.inj_xO p). Z.div_mod_to_equations; lia.
Qed.

Lemma iter_shifted p r m k : (0 <= m)%Z -> (0 <= k)%Z -> shifted r m k ->
  shifted (SpecFloat.iter_pos shr_1 p r) m (k + Zpos p).
Proof.
  intros Hm. revert r k. induction p as [p IH|p IH|]; intros r k Hk Hs; cbn [SpecFloat.iter_pos].
  - replace (k + Zpos p~1)%Z with (k + 1 + Zpos p + Zpos p)%Z by lia. apply IH; [lia|]. apply IH; [lia|]. by apply shr_1_shifted.
  - replace (k + Zpos p~0)%Z with (k + Zpos p + Zpos p)%Z by lia. apply IH; [lia|]. by apply IH.
  - by apply shr_1_shifted.
Qed.

(** The exponent a value is rounded to. *)
Definition fexp64 (m e : Z) : Z := (Z.max (Zdigits2 m + e - 53) (-1074))%Z.

Lemma shr_fexp_shifted m e : (0 <= m)%Z -> (e <= fexp64 m e)%Z ->
  (shr_fexp 53 1024 m e loc_Exact).2 = fexp64 m e /\
  shifted (shr_fexp 53 1024 m e loc_Exact).1 m (fexp64 m e - e).
Proof.
  intros Hm He. unfold shr_fexp. change (fexp 53 1024 (Zdigits2 m + e)) with (fexp64 m e).
  assert (shifted (shr_record_of_loc m loc_Exact) m 0) as H0.
  { split; cbn; [by rewrite Z.div_1_r|]. by rewrite Z.mod_1_r. }
  unfold shr. destruct (fexp64 m e - e)%Z as [|p|p] eqn:E; [|split; cbn [fst snd]; [lia|]|lia].
  - split; [cbn; lia|done].
  - by apply (iter_shifted p _ m 0).
Qed.

(** ** Rounding *)

Lemma round_nearest_even_spec q r : exists q', round_nearest_even q (loc_of_shr_record r) = q' /\
  (q <= q' <= q + 1)%Z /\ (shr_r r || shr_s r = false -> q' = q).
Proof.
  eexists. split; [reflexivity|]. destruct r as [m [] []]; cbn; (split; [|done]); try lia. destruct (Z.even q); lia.
Qed.

(** A mantissa of at most 53 bits, or [2^53] itself, with its exponent. *)
Lemma second_shift q e : (0 <= q <= 2 ^ 53)%Z -> (-1074 <= e <= 970)%Z -> (2 ^ 52 <= q \/ e = -1074)%Z ->
  let x := let '(mrs, e') := shr_fexp 53 1024 q e loc_Exact in
           match shr_m mrs with
           | Z0 => S754_zero false
           | Zpos m => if Z.leb e' (1024 - 53) then S754_finite false m e' else S754_infinity false
           | Zneg _ => S754_nan
           end in
  good x /\ fval x = dy q e.
Proof.
  intros Hq He Hn. unfold shr_fexp. change (fexp 53 1024 (Zdigits2 q + e)) with (fexp64 q e).
  destruct (decide (q = 2 ^ 53)%Z) as [->|Hne].
  { assert (fexp64 (2 ^ 53) e - e = 1)%Z as -> by (unfold fexp64; change (Zdigits2 (2 ^ 53)) with 54%Z; lia).
    change (2 ^ 53)%Z with 9007199254740992%Z. cbn -[Z.leb Z.add Z.pow Z.mul dy].
    rewrite (proj2 (Z.leb_le _ _)) by lia. split; [unfold good, canon; lia|].
    cbn [fval]. unfold dy. replace (e + 1 + scale)%Z with (Z.succ (e + scale)) by lia.
    rewrite Z.pow_succ_r by (unfold scale; lia). lia. }
  destruct q as [|m|m]; [| |lia].
  { assert (fexp64 0 e - e <= 0)%Z as H0 by (unfold fexp64; cbn [Zdigits2]; lia).
    unfold shr. destruct (fexp64 0 e - e)%Z; [done|lia|done]. }
  assert (fexp64 (Zpos m) e - e <= 0)%Z as H0.
  { unfold fexp64. cbn [Zdigits2]. pose proof (digits2_le m 53 ltac:(lia) ltac:(lia)). lia. }
  assert (forall t, t <= 0 -> shr (shr_record_of_loc (Zpos m) loc_Exact) e t = (shr_record_of_loc (Zpos m) loc_Exact, e))%Z as Hs.
  { intros [|t|t] Ht; [done|lia|done]. }
  rewrite Hs by done. cbn [shr_record_of_loc shr_m]. rewrite (proj2 (Z.leb_le _ _)) by lia. split; [|done].
  unfold good, canon. lia.
Qed.

Lemma fexp64_quotient m e (k := (fexp64 m e - e)%Z) : (0 < m)%Z -> (0 <= k)%Z ->
  (0 <= m / 2 ^ k < 2 ^ 53)%Z /\ (-1074 <= fexp64 m e)%Z /\ (2 ^ 52 <= m / 2 ^ k \/ fexp64 m e = -1074)%Z.
Proof.
  intros Hm Hk. pose proof (Z.pow_pos_nonneg 2 k ltac:(lia) Hk) as Hpos.
  destruct m as [|p|p]; [lia| |lia]. pose proof (digits2_spec p) as [Hlo Hhi]. set (d := Zpos (digits2_pos p)) in *.
  assert (1 <= d)%Z by lia. assert (k = Z.max (d + e - 53) (-1074) - e)%Z as Ek by done. split_and!.
  - by apply Z.div_pos.
  - apply Z.div_lt_upper_bound; [lia|]. eapply Z.lt_le_trans; [exact Hhi|]. rewrite <- Z.pow_add_r by lia.
    apply Z.pow_le_mono_r; lia.
  - unfold fexp64. lia.
  - destruct (decide (d + e - 53 <= -1074)%Z); [right; unfold fexp64; cbn [Zdigits2]; fold d; lia|left].
    apply Z.div_le_lower_bound; [lia|]. rewrite <- Z.pow_add_r by lia. replace (k + 52)%Z with (d - 1)%Z by lia. lia.
Qed.

Lemma round_aux_good m e (k := (fexp64 m e - e)%Z) (x := binary_round_aux 53 1024 false m e loc_Exact) :
  (0 < m)%Z -> (- scale <= e <= fexp64 m e)%Z -> (fexp64 m e <= 970)%Z ->
  good x /\ exists q, fval x = dy q (fexp64 m e) /\ (m / 2 ^ k <= q <= m / 2 ^ k + 1)%Z /\
    (m mod 2 ^ k = 0 -> q = m / 2 ^ k)%Z.
Proof.
  intros Hm He Hb. destruct (shr_fexp_shifted m e ltac:(lia) ltac:(lia)) as [H2 [Hq Hx]].
  destruct (fexp64_quotient m e Hm ltac:(lia)) as (Hr & Hmin & Hn). fold k in Hq, Hx, Hr, Hn.
  subst x. unfold binary_round_aux. destruct (shr_fexp 53 1024 m e loc_Exact) as [r e1]. cbn [fst snd] in *. subst e1.
  destruct (round_nearest_even_spec (shr_m r) r) as (q & Eq & Hqr & Hqe). rewrite Eq. rewrite Hq in Hqr, Hqe.
  destruct (second_shift q (fexp64 m e) ltac:(lia) ltac:(lia) ltac:(lia)) as [Hg Hv].
  split; [exact Hg|]. exists q. split_and!; [exact Hv|lia|lia|]. intros H0. apply Hqe, Hx, H0.
Qed.

(** A representable bound is a multiple of the unit of the quotient, or lies
    below it. *)
Lemma rep_multiple b c q e : rep b c -> (- scale <= e)%Z -> (2 ^ 52 <= q \/ e = -1074)%Z ->
  (exists n, dy b c = dy n e) \/ (dy b c < dy q e)%Z.
Proof.
  intros [Hb Hc] He Hq. unfold scale in *. destruct (decide (e <= c)%Z).
  { left. exists (b * 2 ^ (c - e))%Z. rewrite <- dy_shift by (unfold scale; lia). f_equal. lia. }
  right. assert (2 ^ 52 <= q)%Z by lia. replace e with (c + (e - c))%Z by lia. rewrite dy_shift by (unfold scale; lia).
  apply dy_lt; [unfold scale; lia|]. pose proof (Z.pow_le_mono_r 2 1 (e - c) ltac:(lia) ltac:(lia)).
  assert (2 ^ 52 * 2 ^ 1 <= q * 2 ^ (e - c))%Z by (apply Z.mul_le_mono_nonneg; lia). lia.
Qed.

Theorem round_aux_between m e (x := binary_round_aux 53 1024 false m e loc_Exact) :
  (0 < m)%Z -> (- scale <= e <= fexp64 m e)%Z -> (fexp64 m e <= 970)%Z ->
  good x /\
  (forall b c, rep b c -> dy m e <= dy b c -> fval x <= dy b c)%Z /\
  (forall b c, rep b c -> dy b c <= dy m e -> dy b c <= fval x)%Z.
Proof.
  intros Hm He Hb. destruct (round_aux_good m e Hm He Hb) as [Hg (q & Hv & Hqr & Hqe)]. split; [exact Hg|].
  change (good x) in Hg. fold x in Hv. rewrite Hv. set (e1 := fexp64 m e) in *. set (k := (e1 - e)%Z) in *.
  destruct (fexp64_quotient m e Hm ltac:(unfold e1 in *; lia)) as (_ & _ & Hn). fold e1 in Hn. fold k in Hn.
  assert (- scale <= e1)%Z as He1 by lia.
  pose proof (Z.pow_pos_nonneg 2 k ltac:(lia) ltac:(lia)) as Hpos. pose proof (Z.div_mod m (2 ^ k) ltac:(lia)) as Hdm.
  pose proof (Z.mod_pos_bound m (2 ^ k) Hpos) as Hmod.
  assert (forall n, dy n e1 = dy (n * 2 ^ k) e) as Hs.
  { intros n. rewrite <- dy_shift by lia. f_equal. unfold k. lia. }
  split; intros b c Hr Hbc; destruct (rep_multiple b c _ e1 Hr He1 Hn) as [[n En]|Hlt]; rewrite ?En in *.
  - apply dy_le; [done|]. rewrite Hs in Hbc. apply dy_le in Hbc; [|lia].
    destruct (decide (m mod 2 ^ k = 0)%Z) as [H0|H0]; [rewrite Hqe by done; nia|]. nia.
  - exfalso. rewrite Hs in Hlt. assert (dy (m / 2 ^ k * 2 ^ k) e <= dy m e)%Z by (apply dy_le; lia). lia.
  - apply dy_le; [done|]. rewrite Hs in Hbc. apply dy_le in Hbc; [|lia]. nia.
  - apply Z.lt_le_incl. eapply Z.lt_le_trans; [exact Hlt|]. apply dy_le; lia.
Qed.

(** What rounding an exact value [v] gives. *)
Definition rounds (v : Z) (x : spec_float) : Prop :=
  good x /\
  (forall b c, rep b c -> v <= dy b c -> fval x <= dy b c)%Z /\
  (forall b c, rep b c -> dy b c <= v -> dy b c <= fval x)%Z.

Lemma shl_align_dy m e e' : (- scale <= e')%Z -> let '(m', e1) := shl_align m e e' in
  e1 = Z.min e e' /\ dy (Zpos m') e1 = dy (Zpos m) e /\ (e' <= e -> Zpos m' = Zpos m * 2 ^ (e - e'))%Z.
Proof.
  intros Hs. unfold shl_align. destruct (e' - e)%Z as [|k|k] eqn:E.
  - split_and!; [lia|done|]. intros. replace (e - e')%Z with 0%Z by lia. lia.
  - split_and!; [lia|done|]. lia.
  - assert (Zpos (Pos.iter xO m k) = Zpos m * 2 ^ Zpos k)%Z as Em.
    { clear. induction k as [|k IH] using Pos.peano_ind; [cbn; lia|].
      rewrite Pos.iter_succ, Pos2Z.inj_succ, Z.pow_succ_r by lia. rewrite (Pos2Z.inj_xO (Pos.iter xO m k)), IH. lia. }
    split_and!; [lia| |intros _; rewrite Em; do 2 f_equal; lia].
    rewrite Em, <- dy_shift by lia. f_equal. lia.
Qed.

Lemma binary_round_rounds m e : (- scale <= e)%Z -> (fexp64 (Zpos m) e <= 970)%Z ->
  rounds (dy (Zpos m) e) (binary_round 53 1024 false m e).
Proof.
  intros He Hb. unfold binary_round. change (fexp 53 1024 (Zpos (digits2_pos m) + e)) with (fexp64 (Zpos m) e).
  assert (-1074 <= fexp64 (Zpos m) e)%Z as Hm by (unfold fexp64; lia).
  pose proof (shl_align_dy m e (fexp64 (Zpos m) e) ltac:(unfold scale; lia)) as Ha.
  destruct (shl_align m e _) as [m' e'] eqn:E. destruct Ha as (-> & Hd & Hexp). rewrite <- Hd.
  assert (fexp64 (Zpos m') (Z.min e (fexp64 (Zpos m) e)) = fexp64 (Zpos m) e) as Hf.
  { destruct (decide (fexp64 (Zpos m) e <= e)%Z) as [Hle|Hle].
    - rewrite Z.min_r by done. specialize (Hexp Hle).
      assert (Zpos (digits2_pos m') = Zpos (digits2_pos m) + (e - fexp64 (Zpos m) e))%Z as Ed.
      { pose proof (digits2_spec m) as [H1 H2]. set (d := Zpos (digits2_pos m)) in *. set (j := (e - _)%Z) in *.
        assert (1 <= d)%Z by lia. pose proof (Z.pow_pos_nonneg 2 j ltac:(lia) ltac:(lia)). apply Z.le_antisymm.
        - apply digits2_le; [lia|]. rewrite Hexp, Z.pow_add_r by lia. nia.
        - assert (d + j - 1 < Zpos (digits2_pos m'))%Z; [|lia]. apply digits2_ge; [lia|].
          replace (d + j - 1)%Z with (d - 1 + j)%Z by lia. rewrite Hexp, Z.pow_add_r by lia. nia. }
      unfold fexp64 at 1. cbn [Zdigits2]. rewrite Ed.
      replace (Zpos (digits2_pos m) + (e - fexp64 (Zpos m) e) + fexp64 (Zpos m) e)%Z with (Zpos (digits2_pos m) + e)%Z by lia.
      done.
    - rewrite Z.min_l by lia. unfold shl_align in E. destruct (fexp64 (Zpos m) e - e)%Z eqn:E0; [lia| |lia]. by injection E as <- _. }
  apply round_aux_between; rewrite ?Hf; unfold scale in *; lia.
Qed.

(** ** The order *)

Lemma SFltb_fval x y : good x -> good y -> SFltb x y = true <-> (fval x < fval y)%Z.
Proof.
  intros Hx Hy. rewrite SFltb_key by (by destruct x as [[]|[]| |[] ? ?], y as [[]|[]| |[] ? ?]).
  destruct x as [[]|[]| |[] mx ex], y as [[]|[]| |[] my ey]; try done; unfold key_lt; cbn [f64_key fval fst snd].
  - lia.
  - split; [|lia]. intros _. unfold dy. pose proof (Z.pow_pos_nonneg 2 (ey + scale)). cbn in Hy. unfold canon, scale in *. lia.
  - pose proof (dy_nonneg (Zpos mx) ex ltac:(lia)). lia.
  - destruct Hx as (He1 & Hm1 & Hn1), Hy as (He2 & Hm2 & Hn2).
    assert (forall m1 m2 e1 e2, -1074 <= e1 -> e1 < e2 -> Zpos m1 < 2 ^ 53 -> 2 ^ 52 <= Zpos m2 -> dy (Zpos m1) e1 < dy (Zpos m2) e2)%Z as Hlt.
    { intros m1 m2 e1 e2 H1 H2 H3 H4. replace e2 with (e1 + (e2 - e1))%Z by lia. rewrite dy_shift by (unfold scale; lia).
      apply dy_lt; [unfold scale; lia|]. pose proof (Z.pow_le_mono_r 2 1 (e2 - e1) ltac:(lia) ltac:(lia)).
      assert (2 ^ 52 * 2 ^ 1 <= Zpos m2 * 2 ^ (e2 - e1))%Z by (apply Z.mul_le_mono_nonneg; lia). lia. }
    destruct (Z.lt_trichotomy ex ey) as [H|[->|H]].
    + split; [|lia]. intros _. apply Hlt; lia.
    + rewrite dy_lt by (unfold scale; lia). lia.
    + pose proof (Hlt my mx ey ex). lia.
Qed.

(** ** The unit interval *)

Definition one : spec_float := f64_of 1 0.
Definition unit_float (x : spec_float) : Prop := good x /\ (fval x <= dy 1 0)%Z.

Lemma one_unit : unit_float one.
Proof. split; [change (canon 4503599627370496 (-52)); unfold canon; lia|by vm_compute]. Qed.

Lemma unit_exponent m e : (dy (Zpos m) e <= dy 1 0)%Z -> (- scale <= e)%Z -> (e <= 0)%Z /\ (Zpos m <= 2 ^ (- e))%Z.
Proof.
  intros H He. destruct (decide (e <= 0)%Z) as [Hle|Hgt].
  - split; [done|]. replace 0%Z with (e + - e)%Z in H at 1 by lia. rewrite dy_shift in H by lia. apply dy_le in H; lia.
  - exfalso. replace e with (0 + e)%Z in H by lia. rewrite dy_shift in H by (unfold scale; lia). apply dy_le in H; [|unfold scale; lia].
    pose proof (Z.pow_le_mono_r 2 1 e ltac:(lia) ltac:(lia)). nia.
Qed.

(** A value with a nonpositive exponent, scaled down. *)
Lemma mul_below mx ex y : good (S754_finite false mx ex) -> (ex <= 0)%Z -> unit_float y ->
  let x := S754_finite false mx ex in
  good (f64_mul x y) /\ forall b c, rep b c -> (fval x <= dy b c)%Z -> (fval (f64_mul x y) <= dy b c)%Z.
Proof.
  intros Hx Hex [Hy Hy1]. cbv zeta. destruct y as [[]|[]| |[] my ey]; try done.
  { split; [done|]. intros b c [Hb Hc] _. apply dy_nonneg. lia. }
  cbn [good fval] in *. destruct Hx as (He1 & Hm1 & Hn1), Hy as (He2 & Hm2 & Hn2).
  destruct (unit_exponent my ey Hy1 ltac:(unfold scale; lia)) as [Hey Hpy].
  change (f64_mul (S754_finite false mx ex) (S754_finite false my ey)) with
    (binary_round_aux 53 1024 false (Zpos mx * Zpos my) (ex + ey) loc_Exact).
  assert (Zpos (digits2_pos (mx * my)) <= 106)%Z as Hd.
  { apply digits2_le; [lia|]. rewrite Pos2Z.inj_mul. change (2 ^ 106)%Z with (2 ^ 53 * 2 ^ 53)%Z.
    apply Z.mul_lt_mono_nonneg; lia. }
  assert (2 ^ 52 <= Zpos my -> 53 <= Zpos (digits2_pos (mx * my)))%Z as Hd'.
  { intros. assert (52 < Zpos (digits2_pos (mx * my)))%Z; [|lia]. apply digits2_ge; [lia|]. rewrite Pos2Z.inj_mul. nia. }
  destruct (round_aux_between (Zpos mx * Zpos my) (ex + ey)) as (Hg & Hu & _).
  - lia.
  - unfold fexp64, scale. rewrite <- Pos2Z.inj_mul. cbn [Zdigits2]. destruct Hn2 as [Hn2| ->]; [specialize (Hd' Hn2)|]; lia.
  - unfold fexp64. rewrite <- Pos2Z.inj_mul. cbn [Zdigits2]. lia.
  - split; [done|]. intros b c Hr Hb. apply Hu; [done|]. etrans; [|exact Hb].
    replace ex with (ex + ey + - ey)%Z at 2 by lia. rewrite (dy_shift _ (ex + ey)) by (unfold scale; lia).
    apply dy_le; [unfold scale; lia|]. nia.
Qed.

(** A product of two values between 0 and 1 stays below every representable
    bound of the first. *)
Lemma mul_unit x y : unit_float x -> unit_float y ->
  good (f64_mul x y) /\ forall b c, rep b c -> (fval x <= dy b c)%Z -> (fval (f64_mul x y) <= dy b c)%Z.
Proof.
  intros [Hx Hx1] Hy. destruct x as [[]|[]| |[] mx ex]; try done.
  { destruct Hy as [Hy _]. destruct y as [[]|[]| |[] my ey]; try done;
      (split; [done|]; intros b c [Hb Hc] _; apply dy_nonneg; lia). }
  apply mul_below; [done| |done]. cbn [good fval] in *. destruct Hx as (He1 & Hm1 & Hn1).
  destruct (unit_exponent mx ex Hx1 ltac:(unfold scale; lia)) as [Hex _]. lia.
Qed.

(** Integers below [2 ^ 53] are exact. *)
Lemma f64_of_exact n : (0 < n < 2 ^ 53)%Z -> exists m e, f64_of n 0 = S754_finite false m e /\ good (f64_of n 0) /\
  fval (f64_of n 0) = dy n 0 /\ (e <= 0)%Z.
Proof.
  intros Hn. destruct n as [|p|p]; [lia| |lia].
  destruct (binary_round_rounds p 0) as (Hg & Hu & Hl).
  - unfold scale. lia.
  - unfold fexp64. cbn [Zdigits2]. pose proof (digits2_le p 53 ltac:(lia) ltac:(lia)). lia.
  - destruct (f64_of_finite (Zpos p) Hn) as (m & e & E). exists m, e.
    change (binary_round 53 1024 false p 0) with (f64_of (Zpos p) 0) in *.
    assert (rep (Zpos p) 0) as Hr by (unfold rep; lia).
    assert (fval (f64_of (Zpos p) 0) = dy (Zpos p) 0) as Ef by (apply Z.le_antisymm; [apply Hu|apply Hl]; done).
    split_and!; [done..|]. rewrite E in Hg, Ef. cbn [good fval] in Hg, Ef. destruct Hg as (He & Hm & [H52|He']); [|lia].
    destruct (Z_le_gt_dec e 0) as [|Hgt]; [done|exfalso]. assert (dy (Zpos m) e = dy (Zpos m * 2 ^ e) 0) as Ed.
    { rewrite <- dy_shift by (unfold scale; lia). done. }
    rewrite Ed in Ef. assert (Zpos m * 2 ^ e <= Zpos p)%Z by (apply (dy_le _ _ 0); [unfold scale; lia|lia]).
    assert (2 <= 2 ^ e)%Z by (change 2%Z with (2 ^ 1)%Z at 1; apply Z.pow_le_mono_r; lia). nia.
Qed.

Lemma f64_mul_comm x y : f64_mul x y = f64_mul y x.
Proof.
  unfold f64_mul, SFmul. destruct x as [sx|sx| |sx mx ex], y as [sy|sy| |sy my ey]; try done; rewrite 1?xorb_comm; try done.
  by rewrite Pos.mul_comm, Z.add_comm.
Qed.

(** The complement of a value between 0 and 1. *)
Lemma one_minus x : unit_float x -> rounds (dy 1 0 - fval x) (f64_sub one x).
Proof.
  intros [Hx Hx1]. destruct x as [[]|[]| |[] m e]; try done.
  { change (f64_sub one (S754_zero false)) with one. destruct one_unit as [Hg _].
    change (fval (S754_zero false)) with 0%Z. rewrite Z.sub_0_r. assert (fval one = dy 1 0) as E by by vm_compute.
    split_and!; [done|by rewrite E..]. }
  cbn [good fval] in *. destruct Hx as (He1 & Hm1 & Hn1).
  destruct (unit_exponent m e Hx1 ltac:(unfold scale; lia)) as [Hex Hp].
  unfold f64_sub, SFsub. change one with (S754_finite false 4503599627370496 (-52)). cbn [cond_Zopp].
  set (ez := Z.min (-52) e). assert (-1074 <= ez <= -52)%Z as Hez by lia.
  pose proof (shl_align_dy 4503599627370496 (-52) ez ltac:(unfold scale; lia)) as H1.
  pose proof (shl_align_dy m e ez ltac:(unfold scale; lia)) as H2.
  destruct (shl_align 4503599627370496 (-52) ez) as [m1 e1], (shl_align m e ez) as [m2 e2].
  destruct H1 as (E1 & D1 & _), H2 as (E2 & D2 & _). cbn [fst].
  assert (e1 = ez) as -> by lia. assert (e2 = ez) as -> by lia.
  assert (dy 1 0 = dy (Zpos m1) ez) as Hone by (rewrite D1; by vm_compute).
  rewrite <- D2, Hone. rewrite <- D2, Hone in Hx1. apply dy_le in Hx1; [|unfold scale; lia].
  assert (dy (Zpos m1) ez - dy (Zpos m2) ez = dy (Zpos m1 - Zpos m2) ez)%Z as -> by (unfold dy; lia).
  assert (Zpos m1 <= 2 ^ (- ez))%Z as Hm1'.
  { apply unit_exponent; [lia|unfold scale; lia]. }
  destruct (Zpos m1 - Zpos m2)%Z as [|d|d] eqn:Ed; [|cbn [binary_normalize]|lia].
  { split_and!; [done|..].
    - intros b c [Hb Hc] _. apply dy_nonneg. lia.
    - intros b c Hb. by cbn. }
  apply binary_round_rounds; [unfold scale; lia|]. unfold fexp64. cbn [Zdigits2].
  pose proof (digits2_le d (- ez) ltac:(lia)) as Hd. assert (Zpos d < 2 ^ (- ez))%Z by lia. lia.
Qed.
