(* ===== verification/Group.v ===== *)
(** * Grouping by a key

    Loops that file every element of a list under a key and fold it into the
    group's entry. *)

From S2P Require Import Prelude.

Section group.
Context {A B : Type} (key : A -> string) (fresh : string -> B) (upd : B -> A -> B).

(** An element without a key is passed over. *)
Definition group_step (m : gmap string B) (x : A) : gmap string B :=
  if key x ==s "" then m else <[key x := upd (default (fresh (key x)) (m !! key x)) x]> m.

Definition group (l : list A) : gmap string B := fold_left group_step l ∅.

(** The elements of a group. *)
Definition members (k : string) (l : list A) : list A := filter (fun x => key x = k) l.

Lemma group_snoc l x : group (l ++ [x]) = group_step (group l) x.
Proof. unfold group. by rewrite fold_left_app. Qed.

(** An entry is the fold over the elements of its key, in order. *)
Lemma group_lookup l k : k <> "" ->
  group l !! k = match members k l with [] => None | ms => Some (fold_left upd ms (fresh k)) end.
Proof.
  intros Hk. induction l as [|x l IH] using rev_ind; [done|].
  rewrite group_snoc. unfold group_step, members. rewrite filter_app, filter_cons, filter_nil. fold (members k l).
  destruct (key x ==s "") eqn:E.
  - apply String.eqb_eq in E. rewrite IH, decide_False by congruence. by rewrite app_nil_r.
  - case_decide as Hx.
    + rewrite Hx, lookup_insert_eq, IH. destruct (members k l) as [|y ms]; [done|]. cbn [default].
      change ((y :: ms) ++ [x]) with (y :: (ms ++ [x])). cbn iota.
      change (y :: ms ++ [x]) with ((y :: ms) ++ [x]). by rewrite fold_left_app.
    + rewrite lookup_insert_ne, IH by done. by rewrite app_nil_r.
Qed.

Lemma group_empty l : group l !! "" = None.
Proof.
  induction l as [|x l IH] using rev_ind; [done|]. rewrite group_snoc. unfold group_step.
  destruct (key x ==s "") eqn:E; [done|]. apply String.eqb_neq in E. by rewrite lookup_insert_ne.
Qed.

(** The groups are those of the elements with a key. *)
Lemma group_Some l k e : group l !! k = Some e <-> k <> "" /\ (exists x, x ∈ l /\ key x = k) /\ e = fold_left upd (members k l) (fresh k).
Proof.
  destruct (decide (k = "")) as [->|Hk]; [rewrite group_empty; naive_solver|].
  rewrite group_lookup by done. destruct (members k l) as [|y ms] eqn:Em.
  - split; [done|]. intros (_ & (x & Hx & Hkx) & _). assert (x ∈ members k l) as Hin by (by apply list_elem_of_filter).
    rewrite Em in Hin. by apply elem_of_nil in Hin.
  - assert (y ∈ members k l) as [Hy Hyl]%list_elem_of_filter by (rewrite Em; apply elem_of_cons; by left).
    split; [intros [= <-]; split_and!; [done|by exists y|done]|]. by intros (_ & _ & ->).
Qed.
End group.
