(* ===== verification/Sha256.v ===== *)
(** * SHA-256 and hexadecimal

    The hash of the standard library package [crypto/sha256], executable, and
    [encoding/hex], as the chain of the event log, the Merkle trees and the
    taint fingerprints use them.  Byte slices are byte strings.

    Nothing is assumed of the hash.  Security statements of the development
    end in an alternative that names two different byte strings of the
    execution with one hash. *)

From S2P Require Import Prelude.

(** ** Words of 32 bits *)

Module Sha.
Definition mask32 : N := 0xffffffff%N.
Definition add32 (a b : N) : N := N.land (a + b) mask32.
Definition rotr (n x : N) : N := N.lor (N.shiftr x n) (N.land (N.shiftl x (32 - n)) mask32).
Definition not32 (x : N) : N := N.lxor x 0xffffffff%N.

Definition ch (x y z : N) : N := N.lxor (N.land x y) (N.land (not32 x) z).
Definition maj (x y z : N) : N :=
  N.lxor (N.lxor (N.land x y) (N.land x z)) (N.land y z).
Definition bsig0 (x : N) : N := N.lxor (N.lxor (rotr 2 x) (rotr 13 x)) (rotr 22 x).
Definition bsig1 (x : N) : N := N.lxor (N.lxor (rotr 6 x) (rotr 11 x)) (rotr 25 x).
Definition ssig0 (x : N) : N := N.lxor (N.lxor (rotr 7 x) (rotr 18 x)) (N.shiftr x 3).
Definition ssig1 (x : N) : N := N.lxor (N.lxor (rotr 17 x) (rotr 19 x)) (N.shiftr x 10).

(** The largest [r] below [2 ^ (S k)] times the accumulator's unit with
    [r ^ 3 <= x], by bits. *)
Fixpoint cbrt_bits (k : nat) (acc x : N) : N :=
  let cand := (acc + 2 ^ N.of_nat k)%N in
  let acc' := if (cand * cand * cand <=? x)%N then cand else acc in
  match k with
  | O => acc'
  | S k' => cbrt_bits k' acc' x
  end.

Definition primes : list N :=
  [2; 3; 5; 7; 11; 13; 17; 19; 23; 29; 31; 37; 41; 43; 47; 53; 59; 61; 67; 71; 73; 79; 83;
   89; 97; 101; 103; 107; 109; 113; 127; 131; 137; 139; 149; 151; 157; 163; 167; 173; 179; 181;
   191; 193; 197; 199; 211; 223; 227; 229; 233; 239; 241; 251; 257; 263; 269; 271; 277; 281;
   283; 293; 307; 311]%N.

(** Round constants: the first 32 bits of the fractional parts of the cube
    roots of the first 64 primes; initial state: the same of the square roots
    of the first 8. *)
Definition K : list N :=
  Eval vm_compute in map (fun q => (cbrt_bits 36 0 (q * 2 ^ 96) mod 2 ^ 32)%N) primes.
Definition H0 (i : nat) : N := (N.sqrt (nth i primes 0%N * 2 ^ 64) mod 2 ^ 32)%N.

Record state := St { sa : N; sb : N; sc : N; sd : N; se : N; sf : N; sg : N; sh : N }.
Definition init : state :=
  Eval vm_compute in St (H0 0) (H0 1) (H0 2) (H0 3) (H0 4) (H0 5) (H0 6) (H0 7).

(** One round, with the round constant plus the schedule word. *)
Definition round (s : state) (kw : N) : state :=
  let t1 := add32 (add32 (add32 (sh s) (bsig1 (se s))) (ch (se s) (sf s) (sg s))) kw in
  let t2 := add32 (bsig0 (sa s)) (maj (sa s) (sb s) (sc s)) in
  St (add32 t1 t2) (sa s) (sb s) (sc s) (add32 (sd s) t1) (se s) (sf s) (sg s).

(** The message schedule; [w] holds the last 16 words, oldest first. *)
Fixpoint rounds (ks : list N) (w : list N) (s : state) : state :=
  match ks, w with
  | k :: ks', w0 :: w' =>
      let next := add32 (add32 (ssig1 (nth 13 w' 0%N)) (nth 8 w' 0%N))
                        (add32 (ssig0 (nth 0 w' 0%N)) w0) in
      rounds ks' (w' ++ [next]) (round s (add32 k w0))
  | _, _ => s
  end.

Definition block (s : state) (w : list N) : state :=
  let r := rounds K w s in
  St (add32 (sa s) (sa r)) (add32 (sb s) (sb r)) (add32 (sc s) (sc r)) (add32 (sd s) (sd r))
     (add32 (se s) (se r)) (add32 (sf s) (sf r)) (add32 (sg s) (sg r)) (add32 (sh s) (sh r)).

Fixpoint words (l : list N) : list N :=
  match l with
  | a :: b :: c :: d :: l' =>
      (a * 0x1000000 + b * 0x10000 + c * 0x100 + d)%N :: words l'
  | _ => []
  end.

Fixpoint blocks (fuel : nat) (s : state) (w : list N) : state :=
  match fuel, w with
  | S fuel', _ :: _ => blocks fuel' (block s (firstn 16 w)) (skipn 16 w)
  | _, _ => s
  end.

(** [n] bytes of [x], big-endian. *)
Fixpoint bytes_be (n : nat) (x : N) : list N :=
  match n with
  | O => []
  | S n' => bytes_be n' (N.shiftr x 8) ++ [N.land x 0xff]
  end.

Definition pad (m : list N) : list N :=
  let len := length m in
  let zeros := ((119 - len mod 64) mod 64)%nat in
  m ++ [0x80%N] ++ replicate zeros 0%N ++ bytes_be 8 (8 * N.of_nat len)%N.

Definition digest (m : list N) : list N :=
  let w := words (pad m) in
  let s := blocks (length w) init w in
  concat (map (bytes_be 4) [sa s; sb s; sc s; sd s; se s; sf s; sg s; sh s]).
End Sha.

(** ** Byte strings *)

Definition bytes_of_string (s : string) : list N :=
  map N_of_ascii (String.list_ascii_of_string s).
Definition string_of_bytes (l : list N) : string :=
  String.string_of_list_ascii (map ascii_of_N l).

(** [sha256.Sum256]. *)
Definition sha256 (s : string) : string := string_of_bytes (Sha.digest (bytes_of_string s)).

(** [hex.EncodeToString]. *)
Definition hex_digit (n : N) : ascii :=
  if (n <? 10)%N then ascii_of_N (48 + n) else ascii_of_N (87 + n).
Fixpoint hex (s : string) : string :=
  match s with
  | EmptyString => EmptyString
  | String c s' =>
      String (hex_digit (N_of_ascii c / 16)) (String (hex_digit (N_of_ascii c mod 16)) (hex s'))
  end.

(** ** Lemmas *)

(** The test vectors of FIPS 180-4. *)
Example sha256_abc : hex (sha256 "abc") =
  "ba7816bf8f01cfea414140de5dae2223b00361a396177a9cb410ff61f20015ad".
Proof. vm_compute. reflexivity. Qed.

Example sha256_empty : hex (sha256 "") =
  "e3b0c44298fc1c149afbf4c8996fb92427ae41e4649b934ca495991b7852b855".
Proof. vm_compute. reflexivity. Qed.

Example sha256_two_blocks :
  hex (sha256 "abcdbcdecdefdefgefghfghighijhijkijkljklmklmnlmnomnopnopq") =
  "248d6a61d20638b8e5c026930c3e6039a33ce45964ff2167f6ecedd419db06c1".
Proof. vm_compute. reflexivity. Qed.

Lemma length_bytes_be n x : length (Sha.bytes_be n x) = n.
Proof. revert x; induction n; intros; simpl; rewrite ?length_app, ?IHn; simpl; lia. Qed.

Lemma length_string_of_bytes l : String.length (string_of_bytes l) = length l.
Proof. unfold string_of_bytes. induction l; simpl; congruence. Qed.

Lemma length_sha256 s : String.length (sha256 s) = 32%nat.
Proof.
  unfold sha256. rewrite length_string_of_bytes. unfold Sha.digest.
  cbv zeta. rewrite length_concat, map_map.
  cbn [map]. by rewrite !length_bytes_be.
Qed.

Lemma hex_digit_inj a b : (a < 16)%N -> (b < 16)%N -> hex_digit a = hex_digit b -> a = b.
Proof.
  intros Ha Hb. unfold hex_digit.
  assert (forall n, (n < 256)%N -> N_of_ascii (ascii_of_N n) = n) as Hn
    by (intros; by apply N_ascii_embedding).
  destruct (a <? 10)%N eqn:E1, (b <? 10)%N eqn:E2; intros H%(f_equal N_of_ascii);
    rewrite !Hn in H by lia; rewrite ?N.ltb_lt, ?N.ltb_ge in *; lia.
Qed.

Lemma N_of_ascii_lt c : (N_of_ascii c < 256)%N.
Proof. apply N_ascii_bounded. Qed.

Lemma hex_inj s1 s2 : hex s1 = hex s2 -> s1 = s2.
Proof.
  revert s2. induction s1 as [|c1 s1 IH]; intros [|c2 s2]; simpl; try done.
  intros [= H1 H2 H3%IH]. f_equal; [|done].
  pose proof (N_of_ascii_lt c1). pose proof (N_of_ascii_lt c2).
  assert (N_of_ascii c1 / 16 < 16)%N by (apply N.Div0.div_lt_upper_bound; lia).
  assert (N_of_ascii c2 / 16 < 16)%N by (apply N.Div0.div_lt_upper_bound; lia).
  apply hex_digit_inj in H1; [|done..].
  apply hex_digit_inj in H2; [|apply N.mod_lt; lia..].
  rewrite <- (ascii_N_embedding c1), <- (ascii_N_embedding c2). f_equal.
  rewrite (N.Div0.div_mod (N_of_ascii c1) 16), (N.Div0.div_mod (N_of_ascii c2) 16).
  congruence.
Qed.

Lemma length_hex s : String.length (hex s) = (2 * String.length s)%nat.
Proof. induction s; simpl; lia. Qed.
