(* ===== verification/Utf8.v ===== *)
(** * UTF-8 and decimal text

    The parts of [unicode/utf8], [strconv] and [strings] that the program's
    string handling relies on: decoding a Go string rune by rune as
    [for i, r := range s] does, writing a rune, printing an integer. *)

From Stdlib Require Import Decimal DecimalString DecimalZ.
From S2P Require Import Prelude.

(** ** Runes *)

Definition RuneError : N := 0xFFFD%N.

Definition in_range (lo hi x : N) : bool := ((lo <=? x) && (x <=? hi))%N.

(** [utf8.DecodeRuneInString] on a non-empty string: the rune and its width;
    an ill-formed sequence decodes to [RuneError] with width 1. *)
Definition decode_rune (s : string) : N * nat :=
  match s with
  | EmptyString => (RuneError, 0%nat)
  | String a s1 =>
    let x := N_of_ascii a in
    let bad := (RuneError, 1%nat) in
    if (x <? 0x80)%N then (x, 1%nat)
    else if negb (in_range 0xC2 0xF4 x) then bad
    else match s1 with
    | EmptyString => bad
    | String b s2 =>
      let y := N_of_ascii b in
      let lo := if (x =? 0xE0)%N then 0xA0%N else if (x =? 0xF0)%N then 0x90%N else 0x80%N in
      let hi := if (x =? 0xED)%N then 0x9F%N else if (x =? 0xF4)%N then 0x8F%N else 0xBF%N in
      if negb (in_range lo hi y) then bad
      else if (x <? 0xE0)%N then ((x mod 0x20) * 0x40 + y mod 0x40, 2%nat)%N
      else match s2 with
      | EmptyString => bad
      | String c s3 =>
        let z := N_of_ascii c in
        if negb (in_range 0x80 0xBF z) then bad
        else if (x <? 0xF0)%N
        then ((x mod 0x10) * 0x1000 + (y mod 0x40) * 0x40 + z mod 0x40, 3%nat)%N
        else match s3 with
        | EmptyString => bad
        | String d _ =>
          let w := N_of_ascii d in
          if negb (in_range 0x80 0xBF w) then bad
          else ((x mod 0x8) * 0x40000 + (y mod 0x40) * 0x1000
                + (z mod 0x40) * 0x40 + w mod 0x40, 4%nat)%N
        end
      end
    end
  end.

(** [for i, r := range s]: the byte index, the rune and the bytes it was
    decoded from.  [skip] counts the bytes of the current rune still to pass. *)
Fixpoint range_runes_from (i skip : nat) (s : string) : list (nat * N * string) :=
  match s with
  | EmptyString => []
  | String _ s' =>
    match skip with
    | S k => range_runes_from (S i) k s'
    | O =>
      let '(r, n) := decode_rune s in
      (i, r, str_take n s) :: range_runes_from (S i) (Nat.pred n) s'
    end
  end.
Definition range_runes (s : string) : list (nat * N * string) := range_runes_from 0 0 s.

Definition chr (n : N) : ascii := ascii_of_N n.

(** [strings.Builder.WriteRune]. *)
Definition encode_rune (r : N) : string :=
  let r := if ((0x10FFFF <? r) || in_range 0xD800 0xDFFF r)%N then RuneError else r in
  if (r <? 0x80)%N then String (chr r) EmptyString
  else if (r <? 0x800)%N
  then String (chr (0xC0 + r / 0x40)) (String (chr (0x80 + r mod 0x40)) EmptyString)
  else if (r <? 0x10000)%N
  then String (chr (0xE0 + r / 0x1000))
         (String (chr (0x80 + (r / 0x40) mod 0x40)) (String (chr (0x80 + r mod 0x40)) EmptyString))
  else String (chr (0xF0 + r / 0x40000))
         (String (chr (0x80 + (r / 0x1000) mod 0x40))
           (String (chr (0x80 + (r / 0x40) mod 0x40)) (String (chr (0x80 + r mod 0x40)) EmptyString))).

(** ** Decimal text *)

(** [strconv.Itoa], [fmt.Sprintf("%d")]. *)
Definition dec_string (z : Z) : string := NilZero.string_of_int (Z.to_int z).

(** [strconv.ParseInt(s, 10, _)] without the range check. *)
Definition parse_dec (s : string) : option Z := Z.of_int <$> NilZero.int_of_string s.

(** ** White space *)

(** [unicode.IsSpace] on the runes below U+0100; [strings.TrimSpace] on a
    string whose first and last runes are ASCII compares bytes. *)
Definition is_space (c : ascii) : bool :=
  let n := N_of_ascii c in
  ((n =? 32) || in_range 9 13 n)%N.

Fixpoint trim_left (s : string) : string :=
  match s with
  | String c s' => if is_space c then trim_left s' else s
  | EmptyString => EmptyString
  end.

(** [s] without its trailing white space. *)
Fixpoint trim_right (s : string) : string :=
  match s with
  | EmptyString => EmptyString
  | String c s' =>
    match trim_right s' with
    | EmptyString => if is_space c then EmptyString else String c EmptyString
    | t => String c t
    end
  end.

(** [strings.TrimSpace], for ASCII white space. *)
Definition TrimSpace (s : string) : string := trim_right (trim_left s).

(** [unicode.IsSpace]. *)
Definition IsSpace (r : N) : bool :=
  in_range 9 13 r || (r =? 0x20)%N || (r =? 0x85)%N || (r =? 0xA0)%N || (r =? 0x1680)%N
  || in_range 0x2000 0x200A r || (r =? 0x2028)%N || (r =? 0x2029)%N || (r =? 0x202F)%N
  || (r =? 0x205F)%N || (r =? 0x3000)%N.

Fixpoint drop_while {A} (p : A -> bool) (l : list A) : list A :=
  match l with
  | [] => []
  | x :: l' => if p x then drop_while p l' else l
  end.

(** [strings.TrimSpace], on any text. *)
Definition TrimSpaceU (s : string) : string :=
  let sp := fun x : nat * N * string => IsSpace x.1.2 in
  foldr (fun x acc => x.2 +:+ acc) ""
    (rev (drop_while sp (rev (drop_while sp (range_runes s))))).

(** ** Lemmas *)

Example decode_two : range_runes (String (chr 0xC3) (String (chr 0xA9) "a")) =
  [(0%nat, 0xE9%N, String (chr 0xC3) (String (chr 0xA9) "")); (2%nat, 97%N, "a")].
Proof. reflexivity. Qed.

Lemma parse_dec_string z : parse_dec (dec_string z) = Some z.
Proof.
  unfold parse_dec, dec_string.
  rewrite NilZero.isi; [simpl; by rewrite DecimalZ.of_to|..].
  all: destruct z as [|p|p]; simpl; try discriminate; intros [=E];
    pose proof (DecimalPos.Unsigned.of_to p) as Hp; rewrite E in Hp; discriminate.
Qed.

Lemma dec_string_inj a b : dec_string a = dec_string b -> a = b.
Proof. intros H%(f_equal parse_dec). rewrite !parse_dec_string in H. by injection H. Qed.

Lemma trim_left_head s c s' : trim_left s = String c s' -> is_space c = false.
Proof. induction s as [|d s IH]; simpl; [done|]. destruct (is_space d) eqn:E; [done|]. by intros [= <- <-]. Qed.

Lemma dec_string_no_newline z : no_newline (dec_string z) = true.
Proof.
  assert (forall d, no_newline (NilEmpty.string_of_uint d) = true) as Hu
    by (induction d; simpl; done).
  unfold dec_string. destruct (Z.to_int z) as [d|d]; simpl; destruct d; simpl; rewrite ?Hu; done.
Qed.

(** ** Case *)

(** [strings.ToLower] on ASCII text; other bytes are left alone. *)
Definition lower_char (c : ascii) : ascii :=
  if in_range 65 90 (N_of_ascii c) then chr (N_of_ascii c + 32) else c.
Fixpoint ToLower (s : string) : string :=
  match s with
  | EmptyString => EmptyString
  | String c s' => String (lower_char c) (ToLower s')
  end.

(** [strings.EqualFold] on ASCII text. *)
Definition EqualFold (a b : string) : bool := ToLower a ==s ToLower b.

Lemma ToLower_idem s : ToLower (ToLower s) = ToLower s.
Proof.
  induction s as [|c s IH]; [done|]. cbn [ToLower]. f_equal; [|done].
  destruct c as [[] [] [] [] [] [] [] []]; reflexivity.
Qed.
