(* ===== verification/DecimalText.v ===== *)
(** * Decimal text digit by digit

    [dec_string] of a number from that of its leading digits: the lemmas behind
    the code that prints and reads integers by hand. *)

From Stdlib Require Import Decimal DecimalString DecimalZ DecimalPos DecimalFacts.
From S2P Require Import Prelude Utf8.

Definition digit_char (k : N) : ascii := chr (48 + k).

Lemma digit_cases (k : N) : (k < 10)%N ->
  (k = 0 \/ k = 1 \/ k = 2 \/ k = 3 \/ k = 4 \/ k = 5 \/ k = 6 \/ k = 7 \/ k = 8 \/ k = 9)%N.
Proof. lia. Qed.
Ltac digit_cases H :=
  let E := fresh in pose proof (digit_cases _ H) as E; repeat (destruct E as [->|E]); try subst.

Definition push_digit (k : N) (d : uint) : uint :=
  match k with
  | 0 => D0 d | 1 => D1 d | 2 => D2 d | 3 => D3 d | 4 => D4 d | 5 => D5 d | 6 => D6 d | 7 => D7 d | 8 => D8 d
  | _ => D9 d
  end%N.

Lemma string_of_revapp d d' :
  NilEmpty.string_of_uint (Decimal.revapp d d')
  = NilEmpty.string_of_uint (Decimal.revapp d Decimal.Nil) +:+ NilEmpty.string_of_uint d'.
Proof.
  revert d'. induction d as [|d IH|d IH|d IH|d IH|d IH|d IH|d IH|d IH|d IH|d IH]; intros d'; [done|..];
    cbn [Decimal.revapp]; rewrite IH; symmetry; rewrite IH, sapp_assoc; reflexivity.
Qed.

Lemma string_of_app d d' :
  NilEmpty.string_of_uint (Decimal.app d d') = NilEmpty.string_of_uint d +:+ NilEmpty.string_of_uint d'.
Proof.
  unfold Decimal.app. rewrite string_of_revapp. fold (Decimal.rev (Decimal.rev d)). by rewrite rev_rev.
Qed.

Lemma dec_string_pos p : dec_string (Zpos p) = NilEmpty.string_of_uint (Pos.to_uint p).
Proof.
  unfold dec_string. cbn. pose proof (Unsigned.to_uint_nonnil p). by destruct (Pos.to_uint p).
Qed.

Lemma to_uint_snoc p k : (k < 10)%N ->
  N.to_uint (10 * N.pos p + k) = Decimal.app (Pos.to_uint p) (push_digit k Decimal.Nil).
Proof.
  intros Hk.
  assert (Pos.of_uint (Decimal.app (Pos.to_uint p) (push_digit k Decimal.Nil)) = 10 * N.pos p + k)%N as E.
  { rewrite Unsigned.of_uint_alt. unfold Decimal.app. 
    assert (forall d, Decimal.rev (Decimal.revapp (Decimal.rev d) (push_digit k Decimal.Nil)) = push_digit k (Decimal.rev d)) as ->.
    { intros d. apply to_list_inj. rewrite rev_spec, revapp_spec, rev_spec. unfold push_digit.
      rewrite List.rev_append_rev, List.rev_app_distr, List.rev_involutive. 
      assert (to_list (Decimal.rev d) = List.rev (to_list d)) as Hr by apply rev_spec.
      repeat case_match; cbn; by rewrite Hr. }
    assert (Unsigned.of_lu (push_digit k (Decimal.rev (Pos.to_uint p))) = k + 10 * Unsigned.of_lu (Decimal.rev (Pos.to_uint p)))%N as ->.
    { digit_cases Hk; reflexivity. }
    rewrite <- Unsigned.of_uint_alt, Unsigned.of_to. lia. }
  rewrite <- E, Unsigned.to_of. rewrite unorm_app_l.
  - f_equal. rewrite <- Unsigned.to_of, Unsigned.of_to. done.
  - destruct (Nat.lt_ge_cases (nb_digits (push_digit k Decimal.Nil))
                (nb_digits (unorm (Decimal.app (Pos.to_uint p) (push_digit k Decimal.Nil))))) as [Hl|Hge]; [done|].
    apply unorm_app_zero in Hge. rewrite <- Unsigned.to_of, Unsigned.of_to in Hge.
    by apply Unsigned.to_uint_nonzero in Hge.
Qed.

Lemma dec_string_snoc n k : (0 < n)%Z -> (k < 10)%N ->
  dec_string (10 * n + Z.of_N k) = dec_string n +:+ String (digit_char k) "".
Proof.
  intros Hn Hk. destruct n as [|p|p]; [lia| |lia].
  assert (exists q, 10 * Zpos p + Z.of_N k = Zpos q /\ (10 * N.pos p + k = N.pos q)%N)%Z as (q & -> & Hq).
  { destruct k; [exists (10 * p)%positive|exists (10 * p + p0)%positive]; split; lia. }
  pose proof (to_uint_snoc p k Hk) as Hs. rewrite Hq in Hs. cbn [N.to_uint] in Hs.
  rewrite !dec_string_pos, Hs, string_of_app. f_equal.
  digit_cases Hk; reflexivity.
Qed.

Lemma dec_string_digit k : (k < 10)%N -> dec_string (Z.of_N k) = String (digit_char k) "".
Proof. intros Hk. digit_cases Hk; reflexivity. Qed.

(** Induction on the decimal digits of a natural number. *)
Lemma decimal_ind (P : Z -> Prop) :
  (forall k, (k < 10)%N -> P (Z.of_N k)) ->
  (forall n k, (0 < n)%Z -> (k < 10)%N -> P n -> P (10 * n + Z.of_N k)%Z) ->
  forall n, (0 <= n)%Z -> P n.
Proof.
  intros H0 HS. refine (Zlt_0_ind P _). intros n IH Hn. destruct (decide (n < 10)%Z).
  - replace n with (Z.of_N (Z.to_N n)) by lia. apply H0. lia.
  - replace n with (10 * (n / 10) + Z.of_N (Z.to_N (n mod 10)))%Z by (pose proof (Z.mod_pos_bound n 10); pose proof (Z.div_mod n 10); lia).
    apply HS; [..|apply IH]; try (Z.to_euclidean_division_equations; lia).
Qed.

(** ** Reading integers *)

Definition is_digit (c : ascii) : bool := in_range 48 57 (N_of_ascii c).

Lemma is_digit_char k : (k < 10)%N -> is_digit (digit_char k) = true /\ N_of_ascii (digit_char k) = (48 + k)%N.
Proof. intros Hk. digit_cases Hk; by vm_compute. Qed.

Lemma dec_string_head n : (0 <= n)%Z -> exists c s, dec_string n = String c s /\ is_digit c = true.
Proof.
  revert n. apply decimal_ind.
  - intros k Hk. rewrite dec_string_digit by done. eexists _, _. split; [done|]. by apply is_digit_char.
  - intros n k Hn Hk (c & s & E & Hc). rewrite dec_string_snoc, E by done. by eexists _, _.
Qed.

Definition minus : ascii := "-".
Definition plus : ascii := "+".

(** [strconv.ParseUint(s, 10, 64)]. *)
Definition ParseUint (s : string) : option Z :=
  match s with
  | String c _ => if Ascii.eqb c minus then None
                  else z ← parse_dec s; if (z <? 2 ^ 64)%Z then Some z else None
  | EmptyString => None
  end.

(** [strconv.Atoi]. *)
Definition Atoi (s : string) : option Z :=
  z ← match s with
      | String c s' =>
          if Ascii.eqb c plus
          then match s' with String d _ => if Ascii.eqb d minus then None else parse_dec s' | EmptyString => None end
          else parse_dec s
      | EmptyString => None
      end;
  if (min_int64 <=? z)%Z && (z <=? max_int64)%Z then Some z else None.

Lemma ParseUint_string z : (0 <= z < 2 ^ 64)%Z -> ParseUint (dec_string z) = Some z.
Proof.
  intros [H1 H2]. destruct (dec_string_head z H1) as (c & s & E & Hc). unfold ParseUint. rewrite E.
  destruct (Ascii.eqb c minus) eqn:Em; [apply Ascii.eqb_eq in Em; by subst|].
  rewrite <- E, parse_dec_string. cbn. by rewrite (proj2 (Z.ltb_lt _ _)).
Qed.
