(* ===== verification/FloatText.v ===== *)
(** * Decimal text of a [float64]

    [strconv] on [float64]: the shortest decimal that reads back as the value,
    as [encoding/json] prints it, and the fixed-point forms of [fmt]. *)

From Stdlib Require Import SpecFloat.
From S2P Require Import Prelude Float64 Utf8.

(** [d * 10^q], rounded to nearest. *)
Definition f64_decimal (d : positive) (q : Z) : spec_float :=
  if (0 <=? q)%Z then f64_of (Zpos d * 10 ^ q) 0
  else f64_div (S754_finite false d 0) (S754_finite false (Z.to_pos (10 ^ (- q))) 0).

(** The value [m * 2^e * 10^k] as a fraction. *)
Definition scaled (m : positive) (e k : Z) : Z * Z :=
  (Zpos m * 2 ^ Z.max 0 e * 10 ^ Z.max 0 k, 2 ^ Z.max 0 (- e) * 10 ^ Z.max 0 (- k))%Z.

(** The number of digits before the point: the least [p] with [m * 2^e < 10^p],
    searched upwards from [p]. *)
Fixpoint dec_point (fuel : nat) (m : positive) (e p : Z) : Z :=
  match fuel with
  | O => p
  | S fuel' => let '(n, d) := scaled m e (- p) in if (n <? d)%Z then p else dec_point fuel' m e (p + 1)
  end.

(** The nearest of the two [n]-digit decimals around the value that read back. *)
Definition digits_at (m : positive) (e p n : Z) : option (Z * Z) :=
  let '(a, b) := scaled m e (n - p) in
  let lo := (a / b)%Z in let r := (a - lo * b)%Z in
  let back d := match d with Zpos d' => bool_decide (SFcompare (f64_decimal d' (p - n)) (S754_finite false m e) = Some Eq) | _ => false end in
  let near := if (2 * r <? b)%Z || (2 * r =? b)%Z && Z.even lo then lo else (lo + 1)%Z in
  let far := if (near =? lo)%Z then (lo + 1)%Z else lo in
  if back near then Some (near, p - n)%Z else if back far then Some (far, p - n)%Z else None.

Fixpoint shortest (fuel : nat) (m : positive) (e p n : Z) : Z * Z :=
  match fuel with
  | O => (0, 0)%Z
  | S fuel' => match digits_at m e p n with Some r => r | None => shortest fuel' m e p (n + 1) end
  end.

Fixpoint zeros (n : nat) : string := match n with O => "" | S n' => String "0" (zeros n') end.

(** Digits with a point [q] places from the right; trailing zeros are dropped
    by the choice of the shortest digits. *)
Fixpoint drop_zeros (fuel : nat) (d q : Z) : Z * Z :=
  match fuel with
  | O => (d, q)
  | S f => if (d mod 10 =? 0)%Z && negb (d =? 0)%Z then drop_zeros f (d / 10)%Z (q + 1)%Z else (d, q)
  end.

Definition pointed (d q : Z) : string :=
  if (0 <=? q)%Z then dec_string (d * 10 ^ q)
  else let k := Z.to_nat (- q) in
       let s := dec_string d in
       let s := zeros (S k - String.length s) +:+ s in
       str_take (String.length s - k) s +:+ "." +:+ str_drop (String.length s - k) s.

(** The exponent form: one digit, the others after a point. *)
Definition exponential (d q : Z) : string :=
  let s := dec_string d in
  let x := (q + Z.of_nat (String.length s) - 1)%Z in
  str_take 1 s +:+ (if (String.length s <=? 1)%nat then "" else "." +:+ str_drop 1 s) +:+
  (if (x <? 0)%Z then "e-" +:+ dec_string (- x) else "e+" +:+ dec_string x).

(** The number as [encoding/json] prints it; infinities and NaN do not marshal. *)
Definition json_float (x : spec_float) : option string :=
  match x with
  | S754_zero false => Some "0"
  | S754_zero true => Some "-0"
  | S754_finite s m e =>
      let p := dec_point 700 m e (-330)%Z in
      let '(d, q) := let '(d, q) := shortest 17 m e p 1 in drop_zeros 20 d q in
      let x := (q + Z.of_nat (String.length (dec_string d)))%Z in
      let text := if (x <? -5)%Z || (21 <? x)%Z then exponential d q else pointed d q in
      Some (if s then "-" +:+ text else text)
  | _ => None
  end.

(** ["%.kf"]: rounded to even at [k] places. *)
Definition fixed (k : nat) (x : spec_float) : string :=
  match x with
  | S754_nan => "NaN"
  | S754_infinity s => if s then "-Inf" else "+Inf"
  | S754_zero s => (if s then "-" else "") +:+ pointed 0 (- Z.of_nat k)
  | S754_finite s m e =>
      let '(a, b) := scaled m e (Z.of_nat k) in
      let lo := (a / b)%Z in let r := (a - lo * b)%Z in
      let n := if (2 * r <? b)%Z || (2 * r =? b)%Z && Z.even lo then lo else (lo + 1)%Z in
      (if s then "-" else "") +:+ pointed n (- Z.of_nat k)
  end.

Example json_float_samples :
  map json_float [f64_of 3 0; f64_div (f64_of 1 0) (f64_of 10 0); f64_div (f64_of 17 0) (f64_of 3 0); f64_of 1 70; f64_of 1 (-30); f64_of 0 0]
  = [Some "3"; Some "0.1"; Some "5.666666666666667"; Some "1.1805916207174113e+21"; Some "9.313225746154785e-10"; Some "0"].
Proof. vm_compute. reflexivity. Qed.

Example fixed_samples : map (fixed 1) [f64_of 3 0; f64_div (f64_of 17 0) (f64_of 3 0); f64_div (f64_of 1 0) (f64_of 4 0)] = ["3.0"; "5.7"; "0.2"].
Proof. vm_compute. reflexivity. Qed.

(** ** Reading a JSON number

    The value of a number literal, rounded to nearest. *)

(** The digits at the front of a text: their value, how many, the rest. *)
Fixpoint read_digits (acc : Z) (n : Z) (s : string) : Z * Z * string :=
  match s with
  | String c s' =>
      if in_range 48 57 (N_of_ascii c) then read_digits (acc * 10 + (Z.of_N (N_of_ascii c) - 48))%Z (n + 1)%Z s'
      else (acc, n, s)
  | EmptyString => (acc, n, s)
  end.

Definition number_value (lit : string) : spec_float :=
  let '(neg, s) := match lit with String "-" s => (true, s) | s => (false, s) end in
  let '(whole, _, s) := read_digits 0 0 s in
  let '(d, places, s) := match s with String "." s' => read_digits whole 0 s' | _ => (whole, 0%Z, s) end in
  let x := match s with
           | String c s' =>
               if Ascii.eqb c "e" || Ascii.eqb c "E" then
                 match s' with
                 | String "-" s'' => (- (read_digits 0 0 s'').1.1)%Z
                 | String "+" s'' => (read_digits 0 0 s'').1.1
                 | _ => (read_digits 0 0 s').1.1
                 end
               else 0%Z
           | EmptyString => 0%Z
           end in
  let v := match d with Zpos p => f64_decimal p (x - places) | _ => S754_zero false end in
  if neg then SFopp v else v.

Example number_value_examples :
  number_value "0.85" = f64_decimal 85 (-2) /\ number_value "1" = f64_of 1 0 /\ number_value "-2.5e-1" = SFopp (f64_of 1 (-2)) /\
  option_map number_value (json_float (f64_decimal 7 (-1))) = Some (f64_decimal 7 (-1)).
Proof. vm_compute. done. Qed.
