(* ===== verification/Rfc3339.v ===== *)
(** * Time stamps as text

    The layout [time.RFC3339Nano] of package [time] in UTC, which JSON uses
    for every [time.Time] and which the chain hash covers: printing, parsing,
    and the proof that parsing recovers the printed instant for the years 0 to
    9999, the range [Time.MarshalJSON] accepts. *)

From S2P Require Import Prelude Utf8.

Local Open Scope Z_scope.

(** ** Calendar *)

(** Proleptic Gregorian date of a day number (days since 1970-01-01), with the
    year starting in March internally. *)
Definition civil_of_days (z : Z) : Z * Z * Z :=
  let z' := z + 719468 in
  let era := z' / 146097 in
  let doe := z' mod 146097 in
  let yoe := (doe - doe / 1460 + doe / 36524 - doe / 146096) / 365 in
  let doy := doe - (365 * yoe + yoe / 4 - yoe / 100) in
  let mp := (5 * doy + 2) / 153 in
  let d := doy - (153 * mp + 2) / 5 + 1 in
  let m := if mp <? 10 then mp + 3 else mp - 9 in
  (yoe + era * 400 + (if m <=? 2 then 1 else 0), m, d).

Definition days_of_civil (y m d : Z) : Z :=
  let y' := if m <=? 2 then y - 1 else y in
  let era := y' / 400 in
  let yoe := y' mod 400 in
  let doy := (153 * (if 2 <? m then m - 3 else m + 9) + 2) / 5 + d - 1 in
  let doe := yoe * 365 + yoe / 4 - yoe / 100 + doy in
  era * 146097 + doe - 719468.

(** ** Digits *)

Definition digit (n : Z) : ascii := chr (48 + Z.to_N n).
Definition is_digit (c : ascii) : bool := in_range 48 57 (N_of_ascii c).
Definition digit_val (c : ascii) : Z := Z.of_N (N_of_ascii c) - 48.

(** [n] on exactly [w] digits. *)
Fixpoint digits (w : nat) (n : Z) : string :=
  match w with
  | O => EmptyString
  | S w' => String (digit (n / 10 ^ Z.of_nat w')) (digits w' (n mod 10 ^ Z.of_nat w'))
  end.

Fixpoint read_digits (w : nat) (acc : Z) (s : string) : option (Z * string) :=
  match w, s with
  | O, _ => Some (acc, s)
  | S w', String c s' =>
      if is_digit c then read_digits w' (acc * 10 + digit_val c) s' else None
  | _, EmptyString => None
  end.

Definition read_char (c : ascii) (s : string) : option string :=
  match s with
  | String c' s' => if Ascii.eqb c' c then Some s' else None
  | EmptyString => None
  end.

Fixpoint trim_zeros (s : string) : string :=
  match s with
  | EmptyString => EmptyString
  | String c s' =>
      match trim_zeros s' with
      | EmptyString => if Ascii.eqb c "0" then EmptyString else String c EmptyString
      | t => String c t
      end
  end.

Fixpoint pad_zeros (w : nat) (s : string) : string :=
  match w with
  | O => EmptyString
  | S w' =>
      match s with
      | String c s' => String c (pad_zeros w' s')
      | EmptyString => String "0" (pad_zeros w' EmptyString)
      end
  end.

Fixpoint span_digits (s : string) : string * string :=
  match s with
  | String c s' => if is_digit c then let '(a, b) := span_digits s' in (String c a, b) else (EmptyString, s)
  | EmptyString => (EmptyString, EmptyString)
  end.

(** ** The layout *)

Definition frac_text (ns : Z) : string :=
  match trim_zeros (digits 9 ns) with
  | EmptyString => EmptyString
  | f => String "." f
  end.

(** [t.Format(time.RFC3339Nano)] for [t] in UTC. *)
Definition rfc3339nano (t : Z) : string :=
  let secs := t / 1000000000 in
  let ns := t mod 1000000000 in
  let '(y, m, d) := civil_of_days (secs / 86400) in
  let sod := secs mod 86400 in
  digits 4 y +:+ "-" +:+ digits 2 m +:+ "-" +:+ digits 2 d +:+ "T"
  +:+ digits 2 (sod / 3600) +:+ ":" +:+ digits 2 (sod / 60 mod 60) +:+ ":" +:+ digits 2 (sod mod 60)
  +:+ frac_text ns +:+ "Z".

Definition read_frac (s : string) : option (Z * string) :=
  match s with
  | String "." s' =>
      let '(f, rest) := span_digits s' in
      r ← read_digits 9 0 (pad_zeros 9 f); Some (r.1, rest)
  | _ => Some (0, s)
  end.

(** A field of [w] digits and the separator that follows it. *)
Definition read_field (w : nat) (c : ascii) (s : string) : option (Z * string) :=
  y ← read_digits w 0 s; s' ← read_char c y.2; Some (y.1, s').

(** The instants of the years 0 to 9999. *)
Definition time_ok (t : Z) : Prop := -62167219200 * 1000000000 <= t < 253402300800 * 1000000000.
Definition time_okb (t : Z) : bool :=
  (-62167219200 * 1000000000 <=? t) && (t <? 253402300800 * 1000000000).

(** The ranges [time.Parse] checks: the day exists (the date normalizes to
    itself) and so does the time of day. *)
Definition valid_stamp (y m d h mi sec : Z) : bool :=
  let '(y', m', d') := civil_of_days (days_of_civil y m d) in
  (y' =? y) && (m' =? m) && (d' =? d) && (h <? 24) && (mi <? 60) && (sec <? 60).

(** [time.Parse(time.RFC3339Nano, s)] on stamps in UTC. *)
Definition parse_rfc3339 (s : string) : option Z :=
  y ← read_field 4 "-" s;
  m ← read_field 2 "-" y.2;
  d ← read_field 2 "T" m.2;
  h ← read_field 2 ":" d.2;
  mi ← read_field 2 ":" h.2;
  sec ← read_digits 2 0 mi.2;
  f ← read_frac sec.2;
  s ← read_char "Z" f.2;
  match s with
  | EmptyString =>
      let t := (days_of_civil y.1 m.1 d.1 * 86400 + h.1 * 3600 + mi.1 * 60 + sec.1) * 1000000000 + f.1 in
      if valid_stamp y.1 m.1 d.1 h.1 mi.1 sec.1 && time_okb t then Some t else None
  | _ => None
  end.


(** ** Lemmas *)

Example rfc3339_sample : rfc3339nano 1714564800120000000 = "2024-05-01T12:00:00.12Z".
Proof. reflexivity. Qed.

Example rfc3339_zero : rfc3339nano zero_time = "0001-01-01T00:00:00Z".
Proof. reflexivity. Qed.

Lemma year_of_era doe : 0 <= doe <= 146096 ->
  let yoe := (doe - doe / 1460 + doe / 36524 - doe / 146096) / 365 in
  0 <= yoe < 400 /\ 0 <= doe - (365 * yoe + yoe / 4 - yoe / 100) <= 365.
Proof. intros H yoe. subst yoe. split; Z.div_mod_to_equations; lia. Qed.

Lemma month_of_year doy : 0 <= doy <= 365 ->
  let mp := (5 * doy + 2) / 153 in
  0 <= mp <= 11 /\ 1 <= doy - (153 * mp + 2) / 5 + 1 <= 31.
Proof. intros H mp. subst mp. split; Z.div_mod_to_equations; lia. Qed.

Lemma civil_of_days_spec z y m d : civil_of_days z = (y, m, d) ->
  days_of_civil y m d = z /\ 1 <= m <= 12 /\ 1 <= d <= 31.
Proof.
  unfold civil_of_days. cbv zeta. intros H.
  pose proof (Z.mod_pos_bound (z + 719468) 146097 ltac:(lia)) as Hdoe.
  pose proof (year_of_era ((z + 719468) mod 146097) ltac:(lia)) as [Hyoe Hdoy]. cbv zeta in Hyoe, Hdoy.
  set (doe := (z + 719468) mod 146097) in *.
  set (yoe := (doe - doe / 1460 + doe / 36524 - doe / 146096) / 365) in *.
  set (doy := doe - (365 * yoe + yoe / 4 - yoe / 100)) in *.
  pose proof (month_of_year doy Hdoy) as [Hmp Hd]. cbv zeta in Hmp, Hd.
  set (mp := (5 * doy + 2) / 153) in *.
  pose proof (Z.div_mod (z + 719468) 146097 ltac:(lia)) as Hz. fold doe in Hz.
  injection H as <- <- <-. unfold days_of_civil. cbv zeta.
  assert (Hera : forall e, (yoe + e * 400) / 400 = e /\ (yoe + e * 400) mod 400 = yoe).
  { intros e. rewrite Z.div_add, Z.mod_add by lia. rewrite Z.div_small, Z.mod_small by lia. lia. }
  destruct (mp <? 10) eqn:E; breflect.
  - rewrite (proj2 (Z.leb_gt (mp + 3) 2)), (proj2 (Z.ltb_lt 2 (mp + 3))) by lia.
    rewrite Z.add_0_r. destruct (Hera ((z + 719468) / 146097)) as [-> ->].
    replace (mp + 3 - 3) with mp by lia. lia.
  - rewrite (proj2 (Z.leb_le (mp - 9) 2)), (proj2 (Z.ltb_ge 2 (mp - 9))) by lia.
    replace (yoe + (z + 719468) / 146097 * 400 + 1 - 1) with (yoe + (z + 719468) / 146097 * 400) by lia.
    destruct (Hera ((z + 719468) / 146097)) as [-> ->].
    replace (mp - 9 + 9) with mp by lia. lia.
Qed.

(** The year stays within four digits on the range of [time_ok]. *)
Lemma civil_year_bound z y m d : civil_of_days z = (y, m, d) ->
  -719528 <= z < 2932897 -> 0 <= y < 10000.
Proof.
  intros H Hz. apply civil_of_days_spec in H as (Hd & Hm & Hdd).
  unfold days_of_civil in Hd. cbv zeta in Hd.
  destruct (m <=? 2) eqn:E1; destruct (2 <? m) eqn:E2; breflect; try lia;
    Z.div_mod_to_equations; lia.
Qed.

Lemma digit_spec n : 0 <= n < 10 -> is_digit (digit n) = true /\ digit_val (digit n) = n.
Proof.
  intros H. unfold digit, is_digit, digit_val, chr.
  rewrite N_ascii_embedding by lia. unfold in_range. split; [|lia].
  apply andb_true_iff. split; apply N.leb_le; lia.
Qed.

Lemma read_digits_app w n acc s : 0 <= n < 10 ^ Z.of_nat w ->
  read_digits w acc (digits w n +:+ s) = Some (acc * 10 ^ Z.of_nat w + n, s).
Proof.
  revert n acc. induction w as [|w IH]; intros n acc Hn.
  { simpl in *. do 2 f_equal. lia. }
  rewrite Nat2Z.inj_succ, Z.pow_succ_r in * by lia.
  assert (0 < 10 ^ Z.of_nat w) by (apply Z.pow_pos_nonneg; lia).
  cbn [digits]. rewrite sapp_cons. cbn [read_digits].
  destruct (digit_spec (n / 10 ^ Z.of_nat w)) as [-> ->].
  { split; [apply Z.div_pos; lia|apply Z.div_lt_upper_bound; lia]. }
  rewrite IH by (apply Z.mod_pos_bound; lia). do 2 f_equal.
  rewrite (Z.div_mod n (10 ^ Z.of_nat w)) at 3 by lia. lia.
Qed.

Lemma length_digits w n : String.length (digits w n) = w.
Proof. revert n. induction w; intros; simpl; [done|]. by rewrite IHw. Qed.

Lemma digits_all w n : 0 <= n < 10 ^ Z.of_nat w -> Forall (fun c => is_digit c = true) (String.list_ascii_of_string (digits w n)).
Proof.
  revert n. induction w as [|w IH]; intros n Hn; simpl; [constructor|].
  rewrite Nat2Z.inj_succ, Z.pow_succ_r in * by lia.
  assert (0 < 10 ^ Z.of_nat w) by (apply Z.pow_pos_nonneg; lia).
  constructor.
  - apply digit_spec. split; [apply Z.div_pos; lia|apply Z.div_lt_upper_bound; lia].
  - apply IH, Z.mod_pos_bound. lia.
Qed.

Lemma trim_zeros_all s : Forall (fun c => is_digit c = true) (String.list_ascii_of_string s) ->
  Forall (fun c => is_digit c = true) (String.list_ascii_of_string (trim_zeros s)).
Proof.
  induction s as [|c s IH]; simpl; [done|]. intros [Hc Hs]%Forall_cons. specialize (IH Hs).
  destruct (trim_zeros s); [|by constructor].
  destruct (Ascii.eqb c "0"); by repeat constructor.
Qed.

Lemma pad_trim s : pad_zeros (String.length s) (trim_zeros s) = s.
Proof.
  induction s as [|c s IH]; simpl; [done|].
  destruct (trim_zeros s) as [|c' t] eqn:E.
  - destruct (Ascii.eqb c "0") eqn:Ec.
    + apply Ascii.eqb_eq in Ec as ->. by f_equal.
    + by f_equal.
  - by f_equal.
Qed.

Lemma span_digits_app s c rest :
  Forall (fun c => is_digit c = true) (String.list_ascii_of_string s) -> is_digit c = false ->
  span_digits (s +:+ String c rest) = (s, String c rest).
Proof.
  intros Hs Hc. induction s as [|d s IH]; [by rewrite sapp_nil_l; cbn; rewrite Hc|].
  rewrite sapp_cons. cbn [span_digits String.list_ascii_of_string] in *.
  apply Forall_cons in Hs as [-> Hs]. by rewrite IH.
Qed.

Lemma read_frac_text ns : 0 <= ns < 1000000000 ->
  read_frac (frac_text ns +:+ "Z") = Some (ns, "Z").
Proof.
  intros Hns. unfold frac_text.
  pose proof (pad_trim (digits 9 ns)) as Hpad. rewrite length_digits in Hpad.
  pose proof (trim_zeros_all (digits 9 ns)) as Hall.
  pose proof (read_digits_app 9 ns 0 EmptyString ltac:(lia)) as Hread.
  rewrite sapp_nil_r in Hread.
  destruct (trim_zeros (digits 9 ns)) as [|c t] eqn:E.
  - rewrite <- Hpad in Hread. vm_compute in Hread. injection Hread as <-. done.
  - rewrite sapp_cons. cbn [read_frac].
    rewrite span_digits_app; [|by apply Hall, digits_all|done].
    rewrite Hpad, Hread. done.
Qed.

Lemma read_field_ok w c n s : 0 <= n < 10 ^ Z.of_nat w ->
  read_field w c (digits w n +:+ String c EmptyString +:+ s) = Some (n, s).
Proof.
  intros Hn. unfold read_field. rewrite read_digits_app by done.
  cbn [mbind option_bind fst snd]. change (String c EmptyString +:+ s) with (String c s).
  cbn [read_char]. by rewrite Ascii.eqb_refl.
Qed.

Lemma read_last_ok w n s : 0 <= n < 10 ^ Z.of_nat w ->
  read_digits w 0 (digits w n +:+ s) = Some (n, s).
Proof. intros Hn. by rewrite read_digits_app. Qed.

Lemma clock_parts sod :
  sod / 3600 * 3600 + sod / 60 mod 60 * 60 + sod mod 60 = sod.
Proof. Z.div_mod_to_equations; lia. Qed.

Lemma instant_parts t :
  (t / 1000000000 / 86400 * 86400 + t / 1000000000 mod 86400) * 1000000000 + t mod 1000000000 = t.
Proof.
  pose proof (Z.div_mod (t / 1000000000) 86400 ltac:(lia)).
  pose proof (Z.div_mod t 1000000000 ltac:(lia)). lia.
Qed.

Lemma parse_fields y m d h mi sec ns ft :
  0 <= y < 10000 -> 0 <= m < 100 -> 0 <= d < 100 -> 0 <= h < 100 -> 0 <= mi < 100 ->
  0 <= sec < 100 -> read_frac (ft +:+ "Z") = Some (ns, "Z") ->
  parse_rfc3339 (digits 4 y +:+ "-" +:+ digits 2 m +:+ "-" +:+ digits 2 d +:+ "T"
    +:+ digits 2 h +:+ ":" +:+ digits 2 mi +:+ ":" +:+ digits 2 sec +:+ ft +:+ "Z")
  = let t := (days_of_civil y m d * 86400 + h * 3600 + mi * 60 + sec) * 1000000000 + ns in
    if valid_stamp y m d h mi sec && time_okb t then Some t else None.
Proof.
  intros ?????? Hft. unfold parse_rfc3339.
  rewrite (read_field_ok 4 "-") by lia; cbn [mbind option_bind fst snd].
  rewrite (read_field_ok 2 "-") by lia; cbn [mbind option_bind fst snd].
  rewrite (read_field_ok 2 "T") by lia; cbn [mbind option_bind fst snd].
  rewrite (read_field_ok 2 ":") by lia; cbn [mbind option_bind fst snd].
  rewrite (read_field_ok 2 ":") by lia; cbn [mbind option_bind fst snd].
  rewrite read_last_ok by lia; cbn [mbind option_bind fst snd].
  rewrite Hft; cbn [mbind option_bind fst snd].
  change (read_char "Z" "Z") with (Some EmptyString). done.
Qed.

Lemma clock_bounds sod : 0 <= sod < 86400 ->
  0 <= sod / 3600 < 24 /\ 0 <= sod / 60 mod 60 < 60 /\ 0 <= sod mod 60 < 60.
Proof. intros. Z.div_mod_to_equations; lia. Qed.

Lemma time_okb_ok t : time_okb t = true <-> time_ok t.
Proof. unfold time_okb, time_ok. rewrite andb_true_iff, Z.leb_le, Z.ltb_lt. lia. Qed.

Lemma all_digits_no_newline s : Forall (fun c => is_digit c = true) (String.list_ascii_of_string s) ->
  no_newline s = true.
Proof.
  induction s as [|c s IH]; simpl; [done|]. intros [Hc Hs]%Forall_cons. rewrite IH by done.
  destruct (Ascii.eqb c "010") eqn:E; [|done]. apply Ascii.eqb_eq in E. by subst.
Qed.

Lemma digits_no_newline w n : 0 <= n < 10 ^ Z.of_nat w -> no_newline (digits w n) = true.
Proof. intros. by apply all_digits_no_newline, digits_all. Qed.

Lemma days_bounds t : time_ok t -> -719528 <= t / 1000000000 / 86400 < 2932897.
Proof. unfold time_ok. intros. Z.div_mod_to_equations; lia. Qed.

Lemma parse_rfc3339nano t : time_ok t -> parse_rfc3339 (rfc3339nano t) = Some t.
Proof.
  intros Ht0. pose proof (days_bounds _ Ht0) as Ht. unfold rfc3339nano.
  destruct (civil_of_days (t / 1000000000 / 86400)) as [[y m] d] eqn:E.
  pose proof (civil_of_days_spec _ _ _ _ E) as (Hdays & Hm & Hd).
  pose proof (civil_year_bound _ _ _ _ E Ht) as Hy.
  pose proof (clock_bounds _ (Z.mod_pos_bound (t / 1000000000) 86400 ltac:(lia))) as (Hh & Hmi & Hs).
  pose proof (Z.mod_pos_bound t 1000000000 ltac:(lia)) as Hns.
  rewrite (parse_fields _ _ _ _ _ _ _ _ Hy) by (by apply read_frac_text || lia).
  assert ((days_of_civil y m d * 86400 + t / 1000000000 mod 86400 / 3600 * 3600
      + (t / 1000000000 mod 86400) / 60 mod 60 * 60 + (t / 1000000000 mod 86400) mod 60) * 1000000000
      + t mod 1000000000 = t) as ->.
  { rewrite Hdays. rewrite <- (instant_parts t) at 6.
    rewrite <- (clock_parts (t / 1000000000 mod 86400)) at 4. lia. }
  unfold valid_stamp. rewrite Hdays, E, !Z.eqb_refl.
  rewrite !(proj2 (Z.ltb_lt _ _)) by lia. cbn. by rewrite (proj2 (time_okb_ok t)).
Qed.

Lemma parse_rfc3339_ok s t : parse_rfc3339 s = Some t -> time_ok t.
Proof.
  unfold parse_rfc3339. intros H.
  repeat match type of H with (_ ≫= _) = Some _ => apply bind_Some in H as (? & _ & H) end.
  destruct (_ : string); [|done]. cbv zeta in H. destruct (_ && _) eqn:E; [|done].
  injection H as <-. apply andb_true_iff in E as [_ E]. by apply time_okb_ok.
Qed.

(** A printed instant holds no line break. *)
Lemma rfc3339nano_no_newline t : time_ok t -> no_newline (rfc3339nano t) = true.
Proof.
  intros Ht%days_bounds. unfold rfc3339nano.
  destruct (civil_of_days (t / 1000000000 / 86400)) as [[y m] d] eqn:E.
  pose proof (civil_of_days_spec _ _ _ _ E) as (Hdays & Hm & Hd).
  pose proof (civil_year_bound _ _ _ _ E Ht) as Hy.
  pose proof (clock_bounds _ (Z.mod_pos_bound (t / 1000000000) 86400 ltac:(lia))) as (Hh & Hmi & Hs).
  pose proof (Z.mod_pos_bound t 1000000000 ltac:(lia)) as Hns.
  rewrite !no_newline_app, !digits_no_newline by lia. simpl.
  unfold frac_text. destruct (trim_zeros (digits 9 _)) as [|c f] eqn:Ef; [done|].
  pose proof (trim_zeros_all (digits 9 (t mod 1000000000))) as Hall. rewrite Ef in Hall.
  assert (no_newline (String c f) = true) as Hf.
  { apply all_digits_no_newline, Hall, digits_all. done. }
  cbn in Hf |- *. by rewrite Hf.
Qed.
