(* ===== verification/Json.v ===== *)
(** * JSON values as [encoding/json] handles them

    A value is a tree.  Numbers are kept as their canonical literal (the text
    Marshal prints), strings are the Go strings.  [marshal] prints the text of
    [json.Marshal]; [wire] is the tree that [json.Unmarshal] builds, in an
    [any], from that text: objects become maps, whose keys Marshal prints in
    byte order, the last of several equal keys winning.  Trees whose objects
    already have strictly increasing keys ([canonical]) survive the trip. *)

From S2P Require Import Prelude Sha256 Utf8 Rfc3339.

#[warnings="-register-all"]
Inductive json :=
| JNull
| JBool (b : bool)
| JNum (lit : string)
| JStr (s : string)
| JArr (l : list json)
| JObj (kvs : list (string * json)).

(** ** Printing *)

Definition quote : ascii := chr 34.
Definition backslash : ascii := chr 92.

(** The escape of one rune of a string ([appendString], HTML escaping on);
    [raw] is the text the rune was decoded from. *)
Definition escape_rune (r : N) (raw : string) : string :=
  let hex2 n := String (hex_digit (n / 16)) (String (hex_digit (n mod 16)) EmptyString) in
  if (r <? 0x80)%N then
    if (r =? 34)%N || (r =? 92)%N then String backslash raw
    else if (r =? 8)%N then String backslash "b"
    else if (r =? 12)%N then String backslash "f"
    else if (r =? 10)%N then String backslash "n"
    else if (r =? 13)%N then String backslash "r"
    else if (r =? 9)%N then String backslash "t"
    else if (r <? 32)%N || (r =? 38)%N || (r =? 60)%N || (r =? 62)%N
    then String backslash ("u00" +:+ hex2 r)
    else raw
  else if (r =? RuneError)%N && (String.length raw =? 1)%nat then String backslash "ufffd"
  else if (r =? 0x2028)%N then String backslash "u2028"
  else if (r =? 0x2029)%N then String backslash "u2029"
  else raw.

Definition marshal_string (s : string) : string :=
  String quote (foldr (fun x acc => escape_rune x.1.2 x.2 +:+ acc)
                      (String quote EmptyString) (range_runes s)).

(** [join sep [a; b; c]] is [a sep b sep c]. *)
Fixpoint join (sep : string) (l : list string) : string :=
  match l with
  | [] => EmptyString
  | [a] => a
  | a :: l' => a +:+ sep +:+ join sep l'
  end.

Fixpoint marshal (v : json) : string :=
  match v with
  | JNull => "null"
  | JBool true => "true"
  | JBool false => "false"
  | JNum lit => lit
  | JStr s => marshal_string s
  | JArr l => "[" +:+ join "," (map marshal l) +:+ "]"
  | JObj kvs =>
      "{" +:+ join "," (map (fun '(k, x) => marshal_string k +:+ ":" +:+ marshal x) kvs) +:+ "}"
  end.

(** [%q] on ASCII text. *)
Definition quote_char (c : ascii) : string :=
  let n := N_of_ascii c in
  if (n =? 34)%N then String backslash (String quote "")
  else if (n =? 92)%N then String backslash (String backslash "")
  else if (n =? 7)%N then String backslash "a"
  else if (n =? 8)%N then String backslash "b"
  else if (n =? 12)%N then String backslash "f"
  else if (n =? 10)%N then String backslash "n"
  else if (n =? 13)%N then String backslash "r"
  else if (n =? 9)%N then String backslash "t"
  else if (n =? 11)%N then String backslash "v"
  else if (n <? 32)%N || (n =? 127)%N
  then String backslash (String "x" (String (hex_digit (n / 16)) (String (hex_digit (n mod 16)) "")))
  else String c "".
Definition quoted (s : string) : string :=
  String quote (foldr (fun c acc => quote_char c +:+ acc) (String quote "") (String.list_ascii_of_string s)).

(** ** Reading back *)

(** Assignment [m[k] = v] on a map kept as an association list sorted by key. *)
Fixpoint obj_insert {A} (k : string) (v : A) (l : list (string * A)) : list (string * A) :=
  match l with
  | [] => [(k, v)]
  | (k', v') :: l' =>
      if k ==s k' then (k, v) :: l'
      else if string_less k k' then (k, v) :: l
      else (k', v') :: obj_insert k v l'
  end.

Fixpoint wire (v : json) : json :=
  match v with
  | JArr l => JArr (map wire l)
  | JObj kvs =>
      JObj ((fix go kvs acc :=
               match kvs with
               | [] => acc
               | (k, x) :: kvs' => go kvs' (obj_insert k (wire x) acc)
               end) kvs [])
  | _ => v
  end.

(** Keys strictly increasing. *)
Fixpoint keys_sorted {A} (l : list (string * A)) : bool :=
  match l with
  | [] => true
  | (k, _) :: l' =>
      match l' with
      | [] => true
      | (k', _) :: _ => string_less k k'
      end && keys_sorted l'
  end.

Fixpoint canonical (v : json) : bool :=
  match v with
  | JArr l => forallb canonical l
  | JObj kvs => keys_sorted kvs && forallb (fun '(_, x) => canonical x) kvs
  | _ => true
  end.

(** Lookup of a key in an object, [m[k]]. *)
Fixpoint obj_get {A} (k : string) (l : list (string * A)) : option A :=
  match l with
  | [] => None
  | (k', v) :: l' => if k ==s k' then Some v else obj_get k l'
  end.

(** ** Structs

    A Go struct prints as an object with its fields in declaration order; a
    field tagged [omitempty] is left out when its value is empty.  Fields are
    triples of key, "left out" and value. *)

Definition fields (l : list (string * bool * json)) : list (string * json) :=
  flat_map (fun '(k, left_out, v) => if left_out : bool then [] else [(k, v)]) l.
Definition always (k : string) (v : json) : string * bool * json := (k, false, v).
Definition omitempty (k : string) (empty : bool) (v : json) : string * bool * json := (k, empty, v).
Definition str_field (k s : string) : string * bool * json := (k, s ==s "", JStr s).

(** Decoding one field of an object into a Go variable: a missing or null
    field leaves the zero value, a value of another type is an error. *)
Definition get_str (k : string) (o : list (string * json)) : option string :=
  match obj_get k o with
  | None | Some JNull => Some ""
  | Some (JStr s) => Some s
  | _ => None
  end.
Definition get_map (k : string) (o : list (string * json)) : option (list (string * json)) :=
  match obj_get k o with
  | None | Some JNull => Some []
  | Some (JObj kvs) => Some kvs
  | _ => None
  end.
Definition get_arr (k : string) (o : list (string * json)) : option (list json) :=
  match obj_get k o with
  | None | Some JNull => Some []
  | Some (JArr l) => Some l
  | _ => None
  end.
(** A float64, kept as its literal. *)
Definition get_float (k : string) (o : list (string * json)) : option string :=
  match obj_get k o with
  | None | Some JNull => Some "0"
  | Some (JNum lit) => Some lit
  | _ => None
  end.
(** An integer between [lo] and [hi]. *)
Definition get_int (lo hi : Z) (k : string) (o : list (string * json)) : option Z :=
  match obj_get k o with
  | None | Some JNull => Some 0%Z
  | Some (JNum lit) =>
      z ← parse_dec lit; if ((lo <=? z) && (z <=? hi))%Z then Some z else None
  | _ => None
  end.
Definition get_time (k : string) (o : list (string * json)) : option Z :=
  match obj_get k o with
  | None | Some JNull => Some zero_time
  | Some (JStr s) => parse_rfc3339 s
  | _ => None
  end.

(** ** Lemmas *)

(** Induction over the trees, with hypotheses for the nested lists. *)
Section json_ind.
Context (P : json -> Prop).
Context (Hnull : P JNull) (Hbool : forall b, P (JBool b)) (Hnum : forall n, P (JNum n))
  (Hstr : forall s, P (JStr s)).
Context (Harr : forall l, Forall P l -> P (JArr l)).
Context (Hobj : forall kvs, Forall (fun kv => P kv.2) kvs -> P (JObj kvs)).

Fixpoint json_nested_ind (v : json) : P v :=
  match v with
  | JNull => Hnull
  | JBool b => Hbool b
  | JNum n => Hnum n
  | JStr s => Hstr s
  | JArr l => Harr l ((fix go l : Forall P l :=
      match l with [] => Forall_nil_2 _ | x :: l' => Forall_cons_2 _ _ _ (json_nested_ind x) (go l') end) l)
  | JObj kvs => Hobj kvs ((fix go kvs : Forall (fun kv => P kv.2) kvs :=
      match kvs with
      | [] => Forall_nil_2 _
      | kv :: l' => Forall_cons_2 _ _ _ (json_nested_ind kv.2) (go l')
      end) kvs)
  end.
End json_ind.

(** The object case of [wire] as a left fold. *)
Definition obj_of {A} (kvs : list (string * A)) (acc : list (string * A)) : list (string * A) :=
  fold_left (fun acc '(k, x) => obj_insert k x acc) kvs acc.

Lemma wire_obj kvs : wire (JObj kvs) = JObj (obj_of (map (fun '(k, x) => (k, wire x)) kvs) []).
Proof.
  simpl. f_equal. generalize (@nil (string * json)).
  induction kvs as [|[k x] kvs IH]; intros acc; simpl; [done|apply IH].
Qed.

Lemma keys_sorted_cons {A} k (v : A) l :
  keys_sorted ((k, v) :: l) = true <->
  keys_sorted l = true /\ Forall (fun kv => string_less k kv.1 = true) l.
Proof.
  revert k v. induction l as [|[k' v'] l IH]; intros k v.
  { split; [intros _; by split|done]. }
  change (keys_sorted ((k, v) :: (k', v') :: l))
    with (string_less k k' && keys_sorted ((k', v') :: l)).
  rewrite andb_true_iff, Forall_cons. split.
  - intros [Hk Hs]. split_and!; [done..|].
    apply IH in Hs as [_ Hs]. eapply Forall_impl; [exact Hs|].
    intros [k2 v2]; simpl. intros Hk2.
    by apply string_less_trans with k'.
  - intros [Hs [Hk _]]. done.
Qed.

(** Inserting a key larger than all the others appends it. *)
Lemma obj_insert_last {A} k (v : A) l :
  Forall (fun kv => string_less kv.1 k = true) l -> obj_insert k v l = l ++ [(k, v)].
Proof.
  induction 1 as [|[k' v'] l Hk _ IH]; simpl in *; [done|].
  destruct (k ==s k') eqn:E.
  { breflect. subst. by rewrite string_less_irrefl in Hk. }
  rewrite (string_less_asym _ _ Hk). by rewrite IH.
Qed.

Lemma obj_of_sorted {A} (l acc : list (string * A)) :
  keys_sorted l = true ->
  Forall (fun kv => Forall (fun kv' => string_less kv'.1 kv.1 = true) acc) l ->
  obj_of l acc = acc ++ l.
Proof.
  revert acc. induction l as [|[k v] l IH]; intros acc Hs Hacc; simpl.
  { by rewrite app_nil_r. }
  apply keys_sorted_cons in Hs as [Hs Hk]. apply Forall_cons in Hacc as [Ha Hacc]. simpl in Ha.
  rewrite obj_insert_last by done. rewrite IH; [by rewrite <- app_assoc|done|].
  rewrite Forall_forall in Hacc, Hk |- *. intros kv Hin. apply Forall_app. split.
  - by apply Hacc.
  - repeat constructor. by apply Hk.
Qed.

Lemma wire_canonical v : canonical v = true -> wire v = v.
Proof.
  induction v as [| | | |l IH|kvs IH] using json_nested_ind; intros Hc; try done.
  - simpl in *. f_equal.
    induction IH as [|x l Hx _ IHl]; simpl in *; [done|].
    breflect. by rewrite Hx, IHl.
  - rewrite wire_obj. simpl in Hc. apply andb_true_iff in Hc as [Hs Hc].
    assert (map (fun '(k, x) => (k, wire x)) kvs = kvs) as ->.
    { clear Hs. induction IH as [|[k x] l Hx _ IHl]; simpl in *; [done|].
      breflect. by rewrite Hx, IHl. }
    rewrite obj_of_sorted; [done..|]. apply Forall_forall. by constructor.
Qed.

Lemma obj_insert_sorted {A} k (v : A) l :
  keys_sorted l = true -> keys_sorted (obj_insert k v l) = true.
Proof.
  induction l as [|[k' v'] l IH]; [done|]. intros Hs.
  apply keys_sorted_cons in Hs as [Hs Hk]. simpl.
  destruct (k ==s k') eqn:E; [|destruct (string_less k k') eqn:E2].
  - breflect. subst. apply keys_sorted_cons. by split.
  - apply keys_sorted_cons. split; [by apply keys_sorted_cons|].
    constructor; [done|]. eapply Forall_impl; [exact Hk|]. intros [k2 v2] H2; simpl in *.
    by apply string_less_trans with k'.
  - apply keys_sorted_cons. split; [by apply IH|].
    assert (string_less k' k = true) as Hk'.
    { destruct (string_less k' k) eqn:E3; [done|]. breflect.
      by rewrite (string_less_total _ _ E2 E3) in E. }
    clear -Hk Hk'. induction Hk as [|[k2 v2] l H2 Hk IH]; simpl; [by repeat constructor|].
    destruct (k ==s k2); [by constructor|].
    destruct (string_less k k2); repeat constructor; done.
Qed.

Lemma obj_insert_forall {A} (P : string * A -> Prop) k v l :
  P (k, v) -> Forall P l -> Forall P (obj_insert k v l).
Proof.
  intros Hkv. induction 1 as [|[k' v'] l Hx Hl IH]; simpl; [by constructor|].
  destruct (k ==s k'); [by constructor|].
  destruct (string_less k k'); repeat constructor; done.
Qed.

Lemma forallb_obj_insert {A} (p : string * A -> bool) k v l :
  p (k, v) = true -> forallb p l = true -> forallb p (obj_insert k v l) = true.
Proof. rewrite !forallb_forall, <- !List.Forall_forall.
  apply (obj_insert_forall (fun kv => p kv = true)).
Qed.

(** What Unmarshal builds always has sorted keys, so a second trip changes
    nothing. *)
Lemma canonical_wire v : canonical (wire v) = true.
Proof.
  induction v as [| | | |l IH|kvs IH] using json_nested_ind; try done.
  - simpl. induction IH as [|x l Hx _ IHl]; simpl; [done|]. by rewrite Hx, IHl.
  - rewrite wire_obj. simpl.
    assert (forall acc, keys_sorted acc = true /\ forallb (fun '(_, x) => canonical x) acc = true ->
      let o := obj_of (map (fun '(k, x) => (k, wire x)) kvs) acc in
      keys_sorted o = true /\ forallb (fun '(_, x) => canonical x) o = true) as H.
    { induction IH as [|[k x] l Hx _ IHl]; intros acc Hacc; simpl; [done|].
      apply IHl. destruct Hacc as [H1 H2]. split; [by apply obj_insert_sorted|].
      by apply forallb_obj_insert. }
    destruct (H []) as [-> ->]; done.
Qed.

Lemma wire_idem v : wire (wire v) = wire v.
Proof. apply wire_canonical, canonical_wire. Qed.

(** *** Lookups *)

Lemma obj_get_insert {A} k k' (v : A) l :
  obj_get k (obj_insert k' v l) = if k ==s k' then Some v else obj_get k l.
Proof.
  induction l as [|[k2 v2] l IH]; simpl; [done|].
  destruct (k' ==s k2) eqn:E; simpl.
  - breflect. subst. by destruct (k ==s k2).
  - destruct (string_less k' k2); simpl; [done|]. rewrite IH.
    destruct (k ==s k') eqn:E2; [|done]. breflect. subst.
    by rewrite (eqb_neq_s _ _ E).
Qed.

Lemma obj_get_None {A} k (l : list (string * A)) :
  obj_get k l = None <-> k ∉ l.*1.
Proof.
  induction l as [|[k' v] l IH]; simpl.
  { split; [|done]. intros _ H. by apply elem_of_nil in H. }
  rewrite not_elem_of_cons, <- IH. destruct (k ==s k') eqn:E; breflect; naive_solver.
Qed.

Lemma obj_get_of {A} k (l acc : list (string * A)) : NoDup l.*1 ->
  obj_get k (obj_of l acc) = match obj_get k l with Some v => Some v | None => obj_get k acc end.
Proof.
  revert acc. induction l as [|[k' v] l IH]; intros acc; simpl; [done|].
  intros [Hk Hnd]%NoDup_cons. rewrite IH, obj_get_insert by done.
  destruct (k ==s k') eqn:E; [|done]. breflect. subst.
  by apply obj_get_None in Hk as ->.
Qed.

Lemma obj_get_map {A B} k (f : A -> B) l :
  obj_get k (map (fun '(k, x) => (k, f x)) l) = f <$> obj_get k l.
Proof. induction l as [|[k' v] l IH]; simpl; [done|]. by destruct (k ==s k'). Qed.

Lemma fields_keys l k : k ∈ (fields l).*1 -> k ∈ map (fun x => x.1.1) l.
Proof.
  induction l as [|[[k' e] v] l IH]; simpl; [done|].
  destruct e; simpl; rewrite ?elem_of_cons; naive_solver.
Qed.

Lemma NoDup_fields l : NoDup (map (fun x => x.1.1) l) -> NoDup (fields l).*1.
Proof.
  induction l as [|[[k e] v] l IH]; simpl; [constructor|].
  intros [Hk Hnd]%NoDup_cons. destruct e; simpl; [by apply IH|].
  apply NoDup_cons. split; [|by apply IH]. by intros ?%fields_keys.
Qed.

Lemma obj_get_fields k k' e v l :
  obj_get k (fields ((k', e, v) :: l)) =
  if (k ==s k') && negb e then Some v else obj_get k (fields l).
Proof. simpl. destruct e; simpl; [by rewrite andb_false_r|]. by destruct (k ==s k'). Qed.

(** Unmarshal of a printed struct sees each field, itself read back. *)
Lemma wire_struct l : NoDup (map (fun x => x.1.1) l) -> exists o,
  wire (JObj (fields l)) = JObj o /\ forall k, obj_get k o = wire <$> obj_get k (fields l).
Proof.
  intros Hnd. rewrite wire_obj. eexists. split; [done|]. intros k.
  rewrite obj_get_of, obj_get_map.
  - by destruct (obj_get k (fields l)).
  - assert ((map (fun '(k, x) => (k, wire x)) (fields l)).*1 = (fields l).*1) as ->.
    { clear Hnd. induction (fields l) as [|[] l' IH]; simpl; [done|]. by f_equal. }
    by apply NoDup_fields.
Qed.

(** Maps survive the trip when their keys are sorted and their values do. *)
Definition canonical_map (m : list (string * json)) : bool := canonical (JObj m).

#[export] Hint Resolve wire_canonical canonical_wire : hopframe.
#[export] Hint Rewrite wire_idem : hopframe.
