(* ===== verification/Event.v ===== *)
(** * Events and verdicts

    Packages [pkg/event] (the telemetry envelope sent from sensors to the
    control plane) and [pkg/detect] (categories, modes, fields, verdicts), with
    the JSON form of the envelope and its decoding.

    Go's named string types stay strings, since values outside the declared
    constants reach the code from YAML and JSON. *)

From S2P Require Import Prelude Utf8 Rfc3339 Json.

(** ** pkg/event *)

Definition ProtocolMCP : string := "mcp".
Definition ProtocolA2A : string := "a2a".

Definition DirectionInbound : string := "inbound".
Definition DirectionOutbound : string := "outbound".

Definition ActionAllow : string := "allow".
Definition ActionWarn : string := "warn".
Definition ActionBlock : string := "block".

Definition SeverityInfo : string := "info".
Definition SeverityLow : string := "low".
Definition SeverityMedium : string := "medium".
Definition SeverityHigh : string := "high".
Definition SeverityCritical : string := "critical".

(** A float64 is its JSON literal; ["0"] is the zero value. *)
Record Finding := mkFinding {
  f_RuleID : string;
  f_Category : string;
  f_Severity : string;
  f_Description : string;
  f_Match : string;
  f_Field : string;
  f_Confidence : string;
  f_Metadata : list (string * json)
}.

Record Message := mkMessage {
  m_ID : string;
  m_Method : string;
  m_Params : list (string * json);
  m_Result : list (string * json);
  m_Error : list (string * json);
  m_Raw : string
}.

Record Event := mkEvent {
  ev_Schema : string;
  ev_EventID : string;
  ev_Timestamp : Z;
  ev_SensorID : string;
  ev_TenantID : string;
  ev_AgentRunID : string;
  ev_Counterparty : string;
  ev_Protocol : string;
  ev_Direction : string;
  ev_Source : string;
  ev_Destination : string;
  ev_Message : Message;
  ev_Findings : list Finding;
  ev_Action : string;
  ev_Severity : string;
  ev_LatencyMicros : Z
}.

Definition SchemaVersion : string := "hopframe.event/v1".

Definition no_message : Message := mkMessage "" "" [] [] [] "".

(** [event.New], at time [now]. *)
Definition event_New (now : Z) (sensorID proto dir : string) : Event :=
  mkEvent SchemaVersion "" now sensorID "" "" "" proto dir "" "" no_message [] ActionAllow "" 0.

(** ** The JSON form *)

Definition is_nil {A} (l : list A) : bool := match l with [] => true | _ => false end.

Definition finding_fields (f : Finding) : list (string * bool * json) :=
  [ always "rule_id" (JStr (f_RuleID f));
    always "category" (JStr (f_Category f));
    always "severity" (JStr (f_Severity f));
    str_field "description" (f_Description f);
    str_field "match" (f_Match f);
    str_field "field" (f_Field f);
    omitempty "confidence" (f_Confidence f ==s "0") (JNum (f_Confidence f));
    omitempty "metadata" (is_nil (f_Metadata f)) (JObj (f_Metadata f)) ].
Definition finding_json (f : Finding) : json := JObj (fields (finding_fields f)).

Definition message_fields (m : Message) : list (string * bool * json) :=
  [ str_field "id" (m_ID m);
    str_field "method" (m_Method m);
    omitempty "params" (is_nil (m_Params m)) (JObj (m_Params m));
    omitempty "result" (is_nil (m_Result m)) (JObj (m_Result m));
    omitempty "error" (is_nil (m_Error m)) (JObj (m_Error m));
    str_field "raw" (m_Raw m) ].
Definition message_json (m : Message) : json := JObj (fields (message_fields m)).

Definition event_fields (ev : Event) : list (string * bool * json) :=
  [ always "schema" (JStr (ev_Schema ev));
    always "event_id" (JStr (ev_EventID ev));
    always "timestamp" (JStr (rfc3339nano (ev_Timestamp ev)));
    always "sensor_id" (JStr (ev_SensorID ev));
    str_field "tenant_id" (ev_TenantID ev);
    str_field "agent_run_id" (ev_AgentRunID ev);
    str_field "counterparty" (ev_Counterparty ev);
    always "protocol" (JStr (ev_Protocol ev));
    always "direction" (JStr (ev_Direction ev));
    str_field "source" (ev_Source ev);
    str_field "destination" (ev_Destination ev);
    always "message" (message_json (ev_Message ev));
    omitempty "findings" (is_nil (ev_Findings ev)) (JArr (map finding_json (ev_Findings ev)));
    always "action" (JStr (ev_Action ev));
    str_field "severity" (ev_Severity ev);
    omitempty "latency_micros" (ev_LatencyMicros ev =? 0)%Z (JNum (dec_string (ev_LatencyMicros ev))) ].
Definition event_json (ev : Event) : json := JObj (fields (event_fields ev)).

(** Decoding of the three structs; [None] is a decoding error. *)
Definition finding_of_json (v : json) : option Finding :=
  match v with
  | JObj o =>
      ruleID ← get_str "rule_id" o; category ← get_str "category" o;
      severity ← get_str "severity" o; description ← get_str "description" o;
      mtch ← get_str "match" o; field ← get_str "field" o;
      confidence ← get_float "confidence" o; metadata ← get_map "metadata" o;
      Some (mkFinding ruleID category severity description mtch field confidence metadata)
  | _ => None
  end.

Definition message_of_json (v : option json) : option Message :=
  match v with
  | None | Some JNull => Some no_message
  | Some (JObj o) =>
      id ← get_str "id" o; method ← get_str "method" o;
      params ← get_map "params" o; result ← get_map "result" o;
      err ← get_map "error" o; raw ← get_str "raw" o;
      Some (mkMessage id method params result err raw)
  | _ => None
  end.

Definition event_of_json (v : json) : option Event :=
  match v with
  | JObj o =>
      schema ← get_str "schema" o; eventID ← get_str "event_id" o;
      ts ← get_time "timestamp" o; sensorID ← get_str "sensor_id" o;
      tenantID ← get_str "tenant_id" o; agentRunID ← get_str "agent_run_id" o;
      counterparty ← get_str "counterparty" o; protocol ← get_str "protocol" o;
      direction ← get_str "direction" o; source ← get_str "source" o;
      destination ← get_str "destination" o; message ← message_of_json (obj_get "message" o);
      fs ← get_arr "findings" o; findings ← mapM finding_of_json fs;
      action ← get_str "action" o; severity ← get_str "severity" o;
      latency ← get_int min_int64 max_int64 "latency_micros" o;
      Some (mkEvent schema eventID ts sensorID tenantID agentRunID counterparty protocol
              direction source destination message findings action severity latency)
  | _ => None
  end.

(** ** What a reload makes of an event *)

Definition wire_map (m : list (string * json)) : list (string * json) :=
  match wire (JObj m) with JObj o => o | _ => [] end.
Definition wire_finding (f : Finding) : Finding :=
  mkFinding (f_RuleID f) (f_Category f) (f_Severity f) (f_Description f) (f_Match f)
    (f_Field f) (f_Confidence f) (wire_map (f_Metadata f)).
Definition wire_message (m : Message) : Message :=
  mkMessage (m_ID m) (m_Method m) (wire_map (m_Params m)) (wire_map (m_Result m))
    (wire_map (m_Error m)) (m_Raw m).
Definition wire_event (ev : Event) : Event :=
  mkEvent (ev_Schema ev) (ev_EventID ev) (ev_Timestamp ev) (ev_SensorID ev) (ev_TenantID ev)
    (ev_AgentRunID ev) (ev_Counterparty ev) (ev_Protocol ev) (ev_Direction ev) (ev_Source ev)
    (ev_Destination ev) (wire_message (ev_Message ev)) (map wire_finding (ev_Findings ev))
    (ev_Action ev) (ev_Severity ev) (ev_LatencyMicros ev).

(** An event whose free-form maps hold what Unmarshal builds: every event that
    reached the control plane over HTTP. *)
Definition event_canonical (ev : Event) : bool :=
  canonical_map (m_Params (ev_Message ev)) && canonical_map (m_Result (ev_Message ev))
  && canonical_map (m_Error (ev_Message ev))
  && forallb (fun f => canonical_map (f_Metadata f)) (ev_Findings ev).

(** Values of the Go types that have a JSON form. *)
Definition event_ok (ev : Event) : Prop :=
  time_ok (ev_Timestamp ev) /\ in_int64 (ev_LatencyMicros ev).

(** ** pkg/detect *)

Definition CategoryPromptInjection : string := "prompt-injection".
Definition CategoryToolPoisoning : string := "tool-poisoning".
Definition CategoryCredentialExfiltration : string := "credential-exfiltration".
Definition CategoryPIILeakage : string := "pii-leakage".
Definition CategoryPolicy : string := "policy".
Definition Categories : list string :=
  [CategoryPromptInjection; CategoryToolPoisoning; CategoryCredentialExfiltration;
   CategoryPIILeakage; CategoryPolicy].

Definition ModeMonitor : string := "monitor".
Definition ModeWarn : string := "warn".
Definition ModeBlock : string := "block".

Record Field := mkField { fd_Name : string; fd_Value : string }.

Record Input := mkInput {
  in_Protocol : string;
  in_Direction : string;
  in_Method : string;
  in_Fields : list Field;
  in_Raw : string
}.

(** [Verdict.Add]. *)
Definition verdict_Add (v : list Finding) (f : Finding) : list Finding := v ++ [f].

(** Indexing a Go map literal from strings to ranks: a missing key is 0. *)
Fixpoint rank_of (table : list (string * nat)) (k : string) : nat :=
  match table with
  | [] => 0
  | (k', n) :: table' => if k ==s k' then n else rank_of table' k
  end.

#[global] Arguments rank_of _ _ : simpl never.

Definition severity_ranks : list (string * nat) :=
  [(SeverityInfo, 0); (SeverityLow, 1); (SeverityMedium, 2); (SeverityHigh, 3);
   (SeverityCritical, 4)]%nat.
Definition mode_ranks : list (string * nat) :=
  [(ModeMonitor, 0); (ModeWarn, 1); (ModeBlock, 2)]%nat.

Definition HighestSeverity (findings : list Finding) : string :=
  fold_left (fun highest f =>
    if (rank_of severity_ranks highest <? rank_of severity_ranks (f_Severity f))%nat
    then f_Severity f else highest) findings SeverityInfo.

(** ** Lemmas *)

(** Compute the lookup of a field of a printed struct. *)
Ltac struct_get :=
  repeat (rewrite obj_get_fields; cbn [String.eqb Ascii.eqb Bool.eqb andb]).

Lemma wire_map_canonical m : canonical_map m = true -> wire_map m = m.
Proof. unfold wire_map, canonical_map. intros H. by rewrite wire_canonical. Qed.

Lemma wire_obj_map m : wire (JObj m) = JObj (wire_map m).
Proof. unfold wire_map. by rewrite wire_obj. Qed.

Lemma wire_map_nil : wire_map [] = [].
Proof. reflexivity. Qed.

Lemma get_map_omit (o : list (string * json)) k m :
  obj_get k o = wire <$> (if negb (is_nil m) then Some (JObj m) else None) ->
  get_map k o = Some (wire_map m).
Proof.
  unfold get_map. intros ->. destruct m as [|x m]; [done|].
  cbn [is_nil negb fmap option_fmap option_map]. by rewrite wire_obj_map.
Qed.

Lemma get_str_omit (o : list (string * json)) k s :
  obj_get k o = wire <$> (if negb (s ==s "") then Some (JStr s) else None) ->
  get_str k o = Some s.
Proof. unfold get_str. intros ->. destruct (s ==s "") eqn:E; simpl; breflect; congruence. Qed.

Lemma get_str_always (o : list (string * json)) k s :
  obj_get k o = Some (JStr s) -> get_str k o = Some s.
Proof. unfold get_str. by intros ->. Qed.

Lemma get_float_omit (o : list (string * json)) k lit :
  obj_get k o = wire <$> (if negb (lit ==s "0") then Some (JNum lit) else None) ->
  get_float k o = Some lit.
Proof. unfold get_float. intros ->. destruct (lit ==s "0") eqn:E; simpl; breflect; congruence. Qed.

Lemma get_int_lit lo hi (o : list (string * json)) k z : (lo <= z <= hi)%Z ->
  obj_get k o = Some (JNum (dec_string z)) -> get_int lo hi k o = Some z.
Proof.
  unfold get_int. intros Hz ->. rewrite parse_dec_string. simpl.
  by rewrite (proj2 (Z.leb_le lo z)), (proj2 (Z.leb_le z hi)) by lia.
Qed.

Lemma get_int_omit lo hi (o : list (string * json)) k z : (lo <= z <= hi)%Z ->
  obj_get k o = wire <$> (if negb (z =? 0)%Z then Some (JNum (dec_string z)) else None) ->
  get_int lo hi k o = Some z.
Proof.
  intros Hz. destruct (z =? 0)%Z eqn:E; simpl; intros Ho; breflect.
  - unfold get_int. rewrite Ho. congruence.
  - by apply get_int_lit.
Qed.

(** Decode one field by the matching lemma. *)
Ltac get_field Ho :=
  match goal with
  | |- context [get_str ?k ?o] =>
      first [ erewrite (get_str_always o k) by (rewrite Ho; struct_get; reflexivity)
            | erewrite (get_str_omit o k) by (rewrite Ho; struct_get; reflexivity) ]
  | |- context [get_map ?k ?o] => erewrite (get_map_omit o k) by (rewrite Ho; struct_get; reflexivity)
  | |- context [get_float ?k ?o] => erewrite (get_float_omit o k) by (rewrite Ho; struct_get; reflexivity)
  end; cbn [mbind option_bind].

Lemma finding_reload f : finding_of_json (wire (finding_json f)) = Some (wire_finding f).
Proof.
  unfold finding_json. destruct (wire_struct (finding_fields f)) as (o & -> & Ho).
  { apply (bool_decide_unpack _). reflexivity. }
  unfold finding_of_json, finding_fields, str_field, always, omitempty in *.
  repeat get_field Ho. done.
Qed.

Lemma message_reload m : message_of_json (Some (wire (message_json m))) = Some (wire_message m).
Proof.
  unfold message_json. destruct (wire_struct (message_fields m)) as (o & -> & Ho).
  { apply (bool_decide_unpack _). reflexivity. }
  unfold message_of_json, message_fields, str_field, always, omitempty in *.
  repeat get_field Ho. done.
Qed.

Lemma findings_reload fs :
  mapM finding_of_json (map wire (map finding_json fs)) = Some (map wire_finding fs).
Proof.
  induction fs as [|f fs IH]; [done|]. cbn [map mapM].
  rewrite finding_reload. cbn [mbind option_bind]. by rewrite IH.
Qed.

(** Reading back a printed event succeeds and gives the event with its maps as
    Unmarshal builds them. *)
Lemma event_reload ev : event_ok ev ->
  event_of_json (wire (event_json ev)) = Some (wire_event ev).
Proof.
  intros [Ht Hl]. unfold event_json. destruct (wire_struct (event_fields ev)) as (o & -> & Ho).
  { apply (bool_decide_unpack _). reflexivity. }
  unfold event_of_json, event_fields, str_field, always, omitempty in *.
  repeat get_field Ho.
  assert (get_time "timestamp" o = Some (ev_Timestamp ev)) as ->.
  { unfold get_time. rewrite Ho. struct_get. cbn. by apply parse_rfc3339nano. }
  cbn [mbind option_bind]. repeat get_field Ho.
  assert (message_of_json (obj_get "message" o) = Some (wire_message (ev_Message ev))) as ->.
  { rewrite Ho. struct_get. apply message_reload. }
  cbn [mbind option_bind].
  assert (get_arr "findings" o = Some (map wire (map finding_json (ev_Findings ev)))) as ->.
  { unfold get_arr. rewrite Ho. struct_get. by destruct (ev_Findings ev). }
  cbn [mbind option_bind]. rewrite findings_reload. cbn [mbind option_bind].
  repeat get_field Ho.
  rewrite (get_int_omit _ _ _ _ (ev_LatencyMicros ev)); [done|done|].
  rewrite Ho. by struct_get.
Qed.

Lemma wire_event_canonical ev : event_canonical ev = true -> wire_event ev = ev.
Proof.
  unfold event_canonical. intros H. breflect. destruct ev as [? ? ? ? ? ? ? ? ? ? ? [] fs].
  unfold wire_event, wire_message; simpl in *.
  rewrite !wire_map_canonical by done. f_equal.
  induction fs as [|[] fs IH]; simpl in *; [done|]. breflect.
  unfold wire_finding at 1; simpl. rewrite wire_map_canonical by done. f_equal. by apply IH.
Qed.

(** [HighestSeverity] is an upper bound of the findings' ranks ... *)
Lemma HighestSeverity_from acc fs f :
  let go := fold_left (fun highest f =>
    if (rank_of severity_ranks highest <? rank_of severity_ranks (f_Severity f))%nat
    then f_Severity f else highest) in
  (rank_of severity_ranks acc <= rank_of severity_ranks (go fs acc))%nat /\
  (f ∈ fs -> rank_of severity_ranks (f_Severity f) <= rank_of severity_ranks (go fs acc))%nat /\
  (go fs acc = acc \/ exists g, g ∈ fs /\ f_Severity g = go fs acc).
Proof.
  cbv zeta. revert acc. induction fs as [|g fs IH]; intros acc; simpl.
  { split_and!; [lia|by intros ?%elem_of_nil|by left]. }
  destruct (IH (if (rank_of severity_ranks acc <? rank_of severity_ranks (f_Severity g))%nat
                then f_Severity g else acc)) as (IH1 & IH2 & IH3).
  destruct (_ <? _)%nat eqn:E; breflect; (split; [lia|split]).
  - intros [->|Hf]%elem_of_cons; [lia|auto].
  - right. destruct IH3 as [->|(g' & Hg & <-)]; [exists g|exists g']; set_solver.
  - intros [->|Hf]%elem_of_cons; [lia|auto].
  - destruct IH3 as [->|(g' & Hg & <-)]; [by left|right; exists g'; set_solver].
Qed.

(** *** Decoded events *)

Lemma canonical_obj_get o k v : canonical (JObj o) = true -> obj_get k o = Some v -> canonical v = true.
Proof.
  simpl. intros [_ H]%andb_true_iff. induction o as [|[k' x] o IH]; [done|]. simpl in *. breflect.
  destruct (k ==s k'); [congruence|auto].
Qed.

Lemma canonical_get_map o k m : canonical (JObj o) = true -> get_map k o = Some m -> canonical_map m = true.
Proof.
  unfold get_map. destruct (obj_get k o) as [[]|] eqn:E; intros Hc; try done; intros [= <-]; try done.
  by eapply canonical_obj_get.
Qed.

(** Take a decoder's monadic chain apart. *)
Ltac inv_bind H :=
  repeat match type of H with
  | (_ ≫= _) = Some _ =>
      let x := fresh "x" in let Hx := fresh "Hx" in apply bind_Some in H as (x & Hx & H)
  end.

Lemma decoded_finding v f : canonical v = true -> finding_of_json v = Some f ->
  canonical_map (f_Metadata f) = true.
Proof.
  destruct v; try done. unfold finding_of_json. intros Hc H. inv_bind H. injection H as <-.
  by eapply canonical_get_map.
Qed.

Lemma decoded_message v m : (forall x, v = Some x -> canonical x = true) -> message_of_json v = Some m ->
  canonical_map (m_Params m) = true /\ canonical_map (m_Result m) = true /\ canonical_map (m_Error m) = true.
Proof.
  unfold message_of_json. intros Hc H.
  destruct v as [[]|]; try done; try (by injection H as <-).
  specialize (Hc _ eq_refl). inv_bind H. injection H as <-. simpl.
  split_and!; by eapply canonical_get_map.
Qed.

(** What Unmarshal builds is canonical and within the Go types. *)
Lemma decoded_event v ev : canonical v = true -> event_of_json v = Some ev ->
  event_canonical ev = true /\ in_int64 (ev_LatencyMicros ev).
Proof.
  destruct v as [| | | | |o]; try done. unfold event_of_json. intros Hc H. inv_bind H. injection H as <-. simpl.
  split.
  - unfold event_canonical. simpl.
    match goal with Hm : message_of_json _ = Some _ |- _ => apply decoded_message in Hm as (-> & -> & ->) end;
      [|intros y Hy; by eapply canonical_obj_get]. simpl.
    match goal with Ha : get_arr _ _ = Some ?l, Hm : mapM finding_of_json ?l = Some ?fs |- _ =>
      rename Ha into Harr; rename Hm into Hfs; rename l into js; rename fs into fds end.
    assert (forallb canonical js = true) as Hjs.
    { unfold get_arr in Harr. destruct (obj_get "findings" o) as [y|] eqn:E; [|by injection Harr as <-].
      eapply canonical_obj_get in E; [|done]. destruct y; try done; injection Harr as <-; done. }
    clear -Hjs Hfs. revert fds Hfs. induction js as [|j js IH]; intros fds Hfs; simpl in *.
    { by injection Hfs as <-. }
    inv_bind Hfs. injection Hfs as <-. breflect. simpl. rewrite (decoded_finding j) by done.
    by apply IH.
  - match goal with Hl : get_int _ _ _ _ = Some _ |- _ => unfold get_int in Hl; revert Hl end.
    destruct (obj_get "latency_micros" o) as [[]|]; try done; try (intros [= <-]; unfold in_int64, min_int64, max_int64; lia).
    intros Hl. inv_bind Hl. destruct (_ && _)%Z eqn:E; [|done]. injection Hl as <-. breflect. done.
Qed.

Lemma get_time_ok k o t : get_time k o = Some t -> time_ok t.
Proof.
  unfold get_time. destruct (obj_get k o) as [[]|]; try done; try (intros [= <-]; unfold time_ok, zero_time; lia).
  apply parse_rfc3339_ok.
Qed.

Lemma decoded_event_ok v ev : canonical v = true -> event_of_json v = Some ev -> event_ok ev.
Proof.
  intros Hc H. split; [|by destruct (decoded_event v ev Hc H)]. clear Hc.
  destruct v as [| | | | |o]; try done. unfold event_of_json in H. inv_bind H. injection H as <-. cbn.
  match goal with Ht : get_time _ _ = Some _ |- _ => by apply get_time_ok in Ht end.
Qed.

(** C36. Ingested events are well typed, and stay so: whatever JSON value is
    posted, an event that decoding accepts has maps as Unmarshal builds them, a
    timestamp that can be printed and a latency in the range of its type; and
    every such event is printed and read back unchanged. *)
Theorem ingested_events_typed v ev : event_of_json (wire v) = Some ev ->
  event_canonical ev = true /\ event_ok ev /\ event_of_json (wire (event_json ev)) = Some ev.
Proof.
  intros H. destruct (decoded_event _ _ (canonical_wire v) H) as [Hc _].
  pose proof (decoded_event_ok _ _ (canonical_wire v) H) as Hok.
  split_and!; [done..|]. by rewrite event_reload, wire_event_canonical.
Qed.

Definition posted : json :=
  JObj [("schema", JStr "hopframe.event/v1"); ("event_id", JStr "e1"); ("timestamp", JStr "2024-05-01T12:00:00.12Z");
        ("message", JObj [("params", JObj [("b", JNum "1"); ("a", JNull)])]); ("latency_micros", JNum "7")].

Lemma ingested_events_typed_witness :
  exists ev, event_of_json (wire posted) = Some ev /\ ev_LatencyMicros ev = 7%Z /\
    event_of_json (wire (event_json ev)) = Some ev.
Proof.
  eexists. split; [vm_compute; reflexivity|]. split; [vm_compute; reflexivity|].
  apply (ingested_events_typed posted). vm_compute. reflexivity.
Defined.
