(* ===== verification/Policy.v ===== *)
(** * Policies: resolution and validation

    Package [pkg/policy]: what a policy is, when it applies to an event, how
    the sensor picks the effective mode, and which policies may be stored. *)

From S2P Require Import Prelude Json Event.

(** ** Data *)

(** [Scope]: empty fields mean "any". *)
Record Scope := mkScope { sc_TenantID : string; sc_SensorID : string; sc_ServerName : string }.

Record Selector := mkSelector {
  sel_RuleIDs : list string;
  sel_Categories : list string;
  sel_MinSeverity : string;
  sel_Methods : list string
}.

Record Disposition := mkDisposition { d_Mode : string }.

Record Policy := mkPolicy {
  p_ID : string;
  p_Name : string;
  p_Description : string;
  p_Version : Z;
  p_Enabled : bool;
  p_Scope : Scope;
  p_Selector : Selector;
  p_Disposition : Disposition;
  p_CreatedAt : Z;
  p_UpdatedAt : Z;
  p_CreatedBy : string;
  p_UpdatedBy : string
}.

(** The zero value of the struct. *)
Definition zero_policy : Policy :=
  mkPolicy "" "" "" 0 false (mkScope "" "" "") (mkSelector [] [] "" []) (mkDisposition "")
    zero_time zero_time "" "".

(** The struct [Scope] and [Disposition] as JSON, fields in struct order. *)
Definition scope_json (sc : Scope) : json :=
  JObj (fields [str_field "tenant_id" (sc_TenantID sc); str_field "sensor_id" (sc_SensorID sc);
                str_field "server_name" (sc_ServerName sc)]).
Definition disposition_json (d : Disposition) : json := JObj [("mode", JStr (d_Mode d))].

Record EventContext := mkContext {
  ctx_TenantID : string;
  ctx_SensorID : string;
  ctx_ServerName : string;
  ctx_Method : string
}.

(** ** Matching *)

Definition scope_Matches (s : Scope) (ctx : EventContext) : bool :=
  if (sc_TenantID s !=s "") && (sc_TenantID s !=s ctx_TenantID ctx) then false
  else if (sc_SensorID s !=s "") && (sc_SensorID s !=s ctx_SensorID ctx) then false
  else if (sc_ServerName s !=s "") && (sc_ServerName s !=s ctx_ServerName ctx) then false
  else true.

Definition Specificity (s : Scope) : Z :=
  let score := 0%Z in
  let score := if sc_TenantID s !=s "" then Z.lor score 1 else score in
  let score := if sc_SensorID s !=s "" then Z.lor score 2 else score in
  let score := if sc_ServerName s !=s "" then Z.lor score 4 else score in
  score.

Fixpoint contains (xs : list string) (x : string) : bool :=
  match xs with
  | [] => false
  | v :: xs' => if v ==s x then true else contains xs' x
  end.

Definition severityRank (s : string) : nat :=
  if s ==s SeverityInfo then 0
  else if s ==s SeverityLow then 1
  else if s ==s SeverityMedium then 2
  else if s ==s SeverityHigh then 3
  else if s ==s SeverityCritical then 4
  else 0.

Definition matchesFinding (sel : Selector) (f : Finding) : bool :=
  if negb (is_nil (sel_RuleIDs sel)) && negb (contains (sel_RuleIDs sel) (f_RuleID f)) then false
  else if negb (is_nil (sel_Categories sel)) && negb (contains (sel_Categories sel) (f_Category f)) then false
  else if (sel_MinSeverity sel !=s "")
          && (severityRank (f_Severity f) <? severityRank (sel_MinSeverity sel))%nat then false
  else true.

Definition MatchesAny (sel : Selector) (ctx : EventContext) (findings : list Finding) : bool :=
  if negb (is_nil (sel_Methods sel)) && negb (contains (sel_Methods sel) (ctx_Method ctx)) then false
  else match findings with
  | [] => is_nil (sel_RuleIDs sel) && is_nil (sel_Categories sel) && (sel_MinSeverity sel ==s "")
  | _ => existsb (matchesFinding sel) findings
  end.

(** The three [continue] guards of the loop of [Resolve]. *)
Definition applies (ctx : EventContext) (findings : list Finding) (p : Policy) : bool :=
  if negb (p_Enabled p) then false
  else if negb (scope_Matches (p_Scope p) ctx) then false
  else if negb (MatchesAny (p_Selector p) ctx findings) then false
  else true.

(** ** Resolution *)

Definition mode_rank (m : string) : nat := rank_of mode_ranks m.

(** [Resolve]: the mode and, when a policy decided, that policy. *)
Definition Resolve (policies : list Policy) (ctx : EventContext) (findings : list Finding)
    (defaultMode : string) : string * option Policy :=
  let matches := map (fun p => (p, Specificity (p_Scope p))) (filter (applies ctx findings) policies) in
  match sort_stable (fun a b => (b.2 <? a.2)%Z) matches with
  | [] => (defaultMode, None)
  | top :: rest =>
      let group := take_while (fun m => (m.2 =? top.2)%Z) (top :: rest) in
      let '(chosenMode, winner) :=
        fold_left (fun acc m =>
          let mode := d_Mode (p_Disposition m.1) in
          if (mode_rank acc.1 <=? mode_rank mode)%nat then (mode, m.1) else acc)
          group (ModeMonitor, zero_policy) in
      (chosenMode, Some winner)
  end.

(** ** Validation *)

Inductive validate_error :=
| ErrIDRequired
| ErrNameRequired
| ErrInvalidMode (mode : string)
| ErrInvalidMinSeverity (severity : string).

(** [Validate]: [None] is the nil error. *)
Definition Validate (p : Policy) : option validate_error :=
  if p_ID p ==s "" then Some ErrIDRequired
  else if p_Name p ==s "" then Some ErrNameRequired
  else if negb (contains [ModeMonitor; ModeWarn; ModeBlock] (d_Mode (p_Disposition p)))
  then Some (ErrInvalidMode (d_Mode (p_Disposition p)))
  else if (sel_MinSeverity (p_Selector p) !=s "")
       && negb (contains [SeverityInfo; SeverityLow; SeverityMedium; SeverityHigh; SeverityCritical]
                  (sel_MinSeverity (p_Selector p)))
  then Some (ErrInvalidMinSeverity (sel_MinSeverity (p_Selector p)))
  else None.

(** ** Lemmas *)

Lemma contains_elem xs x : contains xs x = true <-> x ∈ xs.
Proof.
  induction xs as [|v xs IH]; simpl; [split; [done|by intros ?%elem_of_nil]|].
  rewrite elem_of_cons, <- IH. destruct (v ==s x) eqn:E; breflect; naive_solver.
Qed.

Definition pins (x : string) : Z := if x ==s "" then 0%Z else 1%Z.

Lemma Specificity_bits s :
  Specificity s = (pins (sc_TenantID s) + 2 * pins (sc_SensorID s) + 4 * pins (sc_ServerName s))%Z.
Proof.
  unfold Specificity, pins.
  by destruct (sc_TenantID s ==s ""), (sc_SensorID s ==s ""), (sc_ServerName s ==s "").
Qed.

Lemma elem_of_filter_applies p ctx fs (ps : list Policy) :
  p ∈ filter (applies ctx fs) ps <-> p ∈ ps /\ applies ctx fs p = true.
Proof. rewrite list_elem_of_filter, Is_true_true. naive_solver. Qed.

(** The pair of accumulators is the mode of the policy kept so far. *)
Lemma resolve_fold (group : list (Policy * Z)) mode w :
  d_Mode (p_Disposition w) = mode ->
  fold_left (fun acc m =>
      let mode := d_Mode (p_Disposition m.1) in
      if (mode_rank acc.1 <=? mode_rank mode)%nat then (mode, m.1) else acc) group (mode, w)
  = let w' := fold_left (fun b m => if (mode_rank (d_Mode (p_Disposition b)) <=?
                                        mode_rank (d_Mode (p_Disposition m)))%nat then m else b)
                (map fst group) w in
    (d_Mode (p_Disposition w'), w').
Proof.
  revert mode w. induction group as [|m group IH]; intros mode w Hw; simpl; [by subst|].
  subst mode. destruct (_ <=? _)%nat; by rewrite IH.
Qed.

(** Only the first comparison sees the zero policy, whose mode is not the
    initial one. *)
Lemma resolve_fold_start (m : Policy * Z) group :
  fold_left (fun acc m =>
      let mode := d_Mode (p_Disposition m.1) in
      if (mode_rank acc.1 <=? mode_rank mode)%nat then (mode, m.1) else acc)
    (m :: group) (ModeMonitor, zero_policy)
  = let w' := fold_left (fun b m => if (mode_rank (d_Mode (p_Disposition b)) <=?
                                        mode_rank (d_Mode (p_Disposition m)))%nat then m else b)
                (map fst (m :: group)) zero_policy in
    (d_Mode (p_Disposition w'), w').
Proof. simpl. apply resolve_fold. done. Qed.

(** The group the loop visits: the applicable policies of the highest
    specificity, in their original order. *)
Lemma resolve_group (l : list (Policy * Z)) top rest :
  sort_stable (fun a b => (b.2 <? a.2)%Z) l = top :: rest ->
  take_while (fun m => (m.2 =? top.2)%Z) (top :: rest) = filter (fun m => (m.2 =? top.2)%Z) l /\
  (forall m, m ∈ l -> (m.2 <= top.2)%Z).
Proof.
  intros Hs.
  assert (StronglySorted (fun a b => (b.2 <= a.2)%Z) (top :: rest)) as Hsorted.
  { rewrite <- Hs. eapply StronglySorted_impl; [|apply sort_stable_sorted].
    - intros a b H. by apply Z.ltb_ge in H.
    - intros a b. rewrite Z.ltb_lt, Z.ltb_ge. lia.
    - intros a b c. rewrite !Z.ltb_ge. lia. }
  rewrite (take_while_top snd) by done. split.
  - rewrite <- Hs. apply sort_stable_filter. intros a b ??. breflect. apply Z.ltb_ge. lia.
  - intros m Hm. apply StronglySorted_inv in Hsorted as [_ Hall].
    rewrite <- (elem_of_sort_stable (fun a b => (b.2 <? a.2)%Z)), Hs in Hm.
    apply elem_of_cons in Hm as [->|Hm]; [lia|].
    rewrite Forall_forall in Hall. by apply Hall.
Qed.

(** The winner dominates its group. *)
Lemma winner_dominates (app l1 l2 : list Policy) w :
  filter (fun q => (Specificity (p_Scope q) =? Specificity (p_Scope w))%Z) app = l1 ++ w :: l2 ->
  (forall q, q ∈ l1 -> mode_rank (d_Mode (p_Disposition q)) <= mode_rank (d_Mode (p_Disposition w)))%nat ->
  (forall q, q ∈ l2 -> mode_rank (d_Mode (p_Disposition q)) < mode_rank (d_Mode (p_Disposition w)))%nat ->
  forall q, q ∈ app -> Specificity (p_Scope q) = Specificity (p_Scope w) ->
    (mode_rank (d_Mode (p_Disposition q)) <= mode_rank (d_Mode (p_Disposition w)))%nat.
Proof.
  intros Hl H1 H2 q Hq Hspec.
  assert (q ∈ l1 ++ w :: l2) as Hin.
  { rewrite <- Hl. apply list_elem_of_filter. split; [|done].
    apply Is_true_true. by apply Z.eqb_eq. }
  apply elem_of_app in Hin as [Hin|[->|Hin]%elem_of_cons]; [by apply H1|done|].
  apply Nat.lt_le_incl. by apply H2.
Qed.

Definition valid_mode (m : string) : Prop := m ∈ [ModeMonitor; ModeWarn; ModeBlock].

Lemma valid_mode_rank_inj m m' : valid_mode m -> valid_mode m' -> mode_rank m = mode_rank m' -> m = m'.
Proof.
  unfold valid_mode. rewrite !elem_of_cons, !elem_of_nil.
  intros [->|[->|[->|[]]]] [->|[->|[->|[]]]]; vm_compute; intros Hr; first [reflexivity|discriminate Hr].
Qed.

Lemma Validate_mode p : Validate p = None -> valid_mode (d_Mode (p_Disposition p)).
Proof.
  unfold Validate. repeat case_match; try done. breflect. intros _. by apply contains_elem.
Qed.

(** ** Properties *)

(** C17. Resolution.  When no policy applies, the default mode is returned and
    no policy; otherwise the result is the mode of an applicable policy of
    maximal specificity whose mode is the strongest within that specificity,
    the last such policy of the list being the one reported. *)
Theorem Resolve_spec policies ctx findings defaultMode :
  let app := filter (applies ctx findings) policies in
  (app = [] /\ Resolve policies ctx findings defaultMode = (defaultMode, None)) \/
  exists w l1 l2,
    Resolve policies ctx findings defaultMode = (d_Mode (p_Disposition w), Some w) /\
    w ∈ policies /\ applies ctx findings w = true /\
    (forall q, q ∈ app -> (Specificity (p_Scope q) <= Specificity (p_Scope w))%Z) /\
    filter (fun q => (Specificity (p_Scope q) =? Specificity (p_Scope w))%Z) app = l1 ++ w :: l2 /\
    (forall q, q ∈ l1 -> mode_rank (d_Mode (p_Disposition q)) <= mode_rank (d_Mode (p_Disposition w)))%nat /\
    (forall q, q ∈ l2 -> mode_rank (d_Mode (p_Disposition q)) < mode_rank (d_Mode (p_Disposition w)))%nat.
Proof.
  cbv zeta. unfold Resolve.
  set (app := filter (applies ctx findings) policies).
  set (matches := map (fun p => (p, Specificity (p_Scope p))) app).
  destruct (sort_stable _ matches) as [|top rest] eqn:Hsort.
  { left. split; [|done]. pose proof (sort_stable_perm (fun a b => (b.2 <? a.2)%Z) matches) as Hp.
    rewrite Hsort in Hp. apply Permutation_nil_l in Hp. by destruct app. }
  right. cbv zeta. destruct (resolve_group _ _ _ Hsort) as [Hgroup Hmax]. rewrite Hgroup.
  assert (map fst (filter (fun m => (m.2 =? top.2)%Z) matches)
          = filter (fun q => (Specificity (p_Scope q) =? top.2)%Z) app) as Hfst.
  { unfold matches. clear. induction app as [|q app IH]; [done|]. simpl map.
    rewrite !filter_cons. simpl. destruct (decide _); simpl; by rewrite IH. }
  assert (exists m group, filter (fun m => (m.2 =? top.2)%Z) matches = m :: group) as (m & group & Hm).
  { rewrite <- Hgroup. simpl. rewrite Z.eqb_refl. by eauto. }
  rewrite Hm, resolve_fold_start, <- Hm, Hfst. cbv zeta.
  destruct (last_max_fold (fun p => mode_rank (d_Mode (p_Disposition p))) zero_policy
              (filter (fun q => (Specificity (p_Scope q) =? top.2)%Z) app))
    as (w & l1 & l2 & -> & Hl & H1 & H2).
  { intros x _. change (mode_rank (d_Mode (p_Disposition zero_policy))) with 0%nat. lia. }
  { rewrite <- Hfst, Hm. done. }
  assert (w ∈ filter (fun q => (Specificity (p_Scope q) =? top.2)%Z) app) as Hw.
  { rewrite Hl. set_solver. }
  apply list_elem_of_filter in Hw as [Hw%Is_true_true Happ]. breflect.
  pose proof Happ as Happ'. apply elem_of_filter_applies in Happ' as [Hin Ha].
  exists w, l1, l2. split_and!; try done.
  - intros q Hq. rewrite Hw. apply (Hmax (q, Specificity (p_Scope q))).
    unfold matches. apply list_elem_of_fmap. by exists q.
  - by rewrite Hw.
Qed.

(** The specificity order is lexicographic: server pin, then sensor pin,
    then tenant pin; scopes with the same pins are equally specific. *)
Theorem Specificity_order a b :
  (Specificity a < Specificity b)%Z <->
  let '(ta, sa, va) := (pins (sc_TenantID a), pins (sc_SensorID a), pins (sc_ServerName a)) in
  let '(tb, sb, vb) := (pins (sc_TenantID b), pins (sc_SensorID b), pins (sc_ServerName b)) in
  (va < vb \/ (va = vb /\ (sa < sb \/ (sa = sb /\ ta < tb))))%Z.
Proof.
  rewrite !Specificity_bits. unfold pins.
  repeat case_match; lia.
Qed.

(** The effective mode does not depend on the order in which the policies
    are listed, when their dispositions are modes that [Validate] accepts. *)
Theorem Resolve_mode_perm ps ps' ctx findings defaultMode :
  ps ≡ₚ ps' -> Forall (fun p => Validate p = None) ps ->
  (Resolve ps ctx findings defaultMode).1 = (Resolve ps' ctx findings defaultMode).1.
Proof.
  intros Hperm Hval.
  assert (forall q, q ∈ filter (applies ctx findings) ps <-> q ∈ filter (applies ctx findings) ps') as Hf.
  { intros q. rewrite !elem_of_filter_applies. by rewrite Hperm. }
  destruct (Resolve_spec ps ctx findings defaultMode)
    as [[Hnil ->]|(w & l1 & l2 & -> & Hw & Ha & Hmax & Hl & H1 & H2)],
    (Resolve_spec ps' ctx findings defaultMode)
    as [[Hnil' ->]|(w' & l1' & l2' & -> & Hw' & Ha' & Hmax' & Hl' & H1' & H2')]; simpl; [done|..].
  - exfalso. apply (not_elem_of_nil w'). rewrite <- Hnil. apply Hf. by apply elem_of_filter_applies.
  - exfalso. apply (not_elem_of_nil w). rewrite <- Hnil'. apply Hf. by apply elem_of_filter_applies.
  - assert (w ∈ filter (applies ctx findings) ps) as Hin by (by apply elem_of_filter_applies).
    assert (w' ∈ filter (applies ctx findings) ps') as Hin' by (by apply elem_of_filter_applies).
    pose proof (Hmax w' (proj2 (Hf w') Hin')). pose proof (Hmax' w (proj1 (Hf w) Hin)).
    pose proof (winner_dominates _ _ _ _ Hl H1 H2 w' (proj2 (Hf w') Hin') ltac:(lia)).
    pose proof (winner_dominates _ _ _ _ Hl' H1' H2' w (proj1 (Hf w) Hin) ltac:(lia)).
    rewrite Forall_forall in Hval.
    apply valid_mode_rank_inj; [by apply Validate_mode, Hval..| |lia].
    apply Validate_mode, Hval. by rewrite Hperm.
Qed.

(** [Validate] accepts exactly the policies with an id, a name, one of the
    three modes and a known (or no) minimum severity; the first failing check
    names the error. *)
Theorem Validate_spec p :
  (Validate p = None <->
     p_ID p <> "" /\ p_Name p <> "" /\ valid_mode (d_Mode (p_Disposition p)) /\
     sel_MinSeverity (p_Selector p) ∈
       [""; SeverityInfo; SeverityLow; SeverityMedium; SeverityHigh; SeverityCritical]) /\
  (forall m, Validate p = Some (ErrInvalidMode m) ->
     m = d_Mode (p_Disposition p) /\ ~ valid_mode m) /\
  (forall sev, Validate p = Some (ErrInvalidMinSeverity sev) ->
     sev = sel_MinSeverity (p_Selector p) /\ severityRank sev = 0%nat).
Proof.
  unfold Validate, valid_mode. rewrite <- (contains_elem [ModeMonitor; ModeWarn; ModeBlock]).
  rewrite <- (contains_elem ["" ; SeverityInfo; SeverityLow; SeverityMedium; SeverityHigh; SeverityCritical]).
  destruct (p_ID p ==s "") eqn:E1, (p_Name p ==s "") eqn:E2; breflect;
    try (split_and!; [split; [done|tauto]|done..]).
  destruct (contains _ (d_Mode _)) eqn:E3; cbn [negb].
  2:{ split_and!; [split; [done|by intros (_ & _ & ? & _)]|intros m Hm; injection Hm as <-|done].
      split; [done|]. by rewrite <- contains_elem, E3. }
  change (contains ("" :: ?l) ?x) with (if "" ==s x then true else contains l x).
  destruct (sel_MinSeverity (p_Selector p) ==s "") eqn:E4; breflect.
  { rewrite E4. cbn [negb andb String.eqb]. split_and!; [by split|done..]. }
  cbn [negb andb]. rewrite (eqb_neq_s "" _) by congruence.
  destruct (contains _ (sel_MinSeverity _)) eqn:E5; cbn [negb].
  { split_and!; [by split|done..]. }
  split_and!; [split; [done|by intros (_ & _ & _ & ?)]|done|].
  intros sev Hsev. injection Hsev as <-. split; [done|].
  unfold severityRank. cbn [contains] in E5.
  repeat case_match; breflect; subst; congruence.
Qed.

(** ** Witnesses *)

Definition sample_policy (id mode : string) (scope : Scope) : Policy :=
  mkPolicy id id "" 1 true scope (mkSelector [] [] "" []) (mkDisposition mode) 0 0 "" "".

Lemma Resolve_mode_perm_witness :
  let p1 := sample_policy "a" ModeBlock (mkScope "acme" "" "") in
  let p2 := sample_policy "b" ModeWarn (mkScope "" "" "github") in
  let ctx := mkContext "acme" "s1" "github" "tools/call" in
  (Resolve [p1; p2] ctx [] ModeMonitor).1 = (Resolve [p2; p1] ctx [] ModeMonitor).1.
Proof.
  apply Resolve_mode_perm.
  - apply perm_swap.
  - repeat constructor.
Defined.
