(* ===== verification/PolicyStore.v ===== *)
(** * The policy store

    [control-plane/store/policystore.go]: the canonical policies of the
    control plane, an in-memory map mirrored to one JSON document that is
    rewritten through a temporary file on every mutation.

    The file system is the explicit outcome of each write ([persist_outcome]);
    the document is the list of policies it decodes to. *)

From S2P Require Import Prelude Event Policy.

(** ** State *)

(** What reading the store's file finds. *)
Inductive policy_file :=
| FileAbsent
| FileUnreadable
| FileEmpty
| FileCorrupt
| FileDoc (policies : list Policy).

(** How far [persistLocked] gets: the temporary file is encoded, written, then
    renamed over the document. *)
Inductive persist_outcome := PersistOK | EncodeFails | WriteFails | RenameFails.

Inductive store_error :=
| ErrValidate (e : validate_error)
| ErrMkdir
| ErrRead
| ErrDecode
| ErrEncode
| ErrWrite
| ErrRename
| ErrEmptyPath.

Record PolicyStore := mkStore {
  ps_policies : gmap string Policy;
  ps_disk : policy_file;
  ps_listener : bool
}.

(** A call of [PolicyListener.OnPolicyChange]. *)
Record policy_change := mkChange { ch_op : string; ch_policy : Policy; ch_actor : string }.

(** ** Operations *)

(** The map a decoded document fills: later entries replace earlier ones. *)
Definition policies_of_doc (ps : list Policy) : gmap string Policy :=
  fold_left (fun m p => <[p_ID p := p]> m) ps ∅.

Definition loadLocked (f : policy_file) (m : gmap string Policy) : result (gmap string Policy) store_error :=
  match f with
  | FileAbsent => Ok m
  | FileUnreadable => Err ErrRead
  | FileEmpty => Ok m
  | FileCorrupt => Err ErrDecode
  | FileDoc ps => Ok (policies_of_doc ps)
  end.

Definition OpenPolicyStore (path : string) (mkdir_ok : bool) (f : policy_file) (listener : bool)
    : result PolicyStore store_error :=
  if path ==s "" then Err ErrEmptyPath
  else if negb mkdir_ok then Err ErrMkdir
  else match loadLocked f ∅ with
  | Err e => Err e
  | Ok m => Ok (mkStore m f listener)
  end.

Section iteration.
Context `{MapIter}.

Definition Snapshot (s : PolicyStore) : list Policy :=
  sort_stable (less_key p_ID) (map_values (ps_policies s)).

Definition persistLocked (io : persist_outcome) (s : PolicyStore) : PolicyStore * option store_error :=
  let out := sort_stable (less_key p_ID) (map_values (ps_policies s)) in
  match io with
  | EncodeFails => (s, Some ErrEncode)
  | WriteFails => (s, Some ErrWrite)
  | RenameFails => (s, Some ErrRename)
  | PersistOK => (mkStore (ps_policies s) (FileDoc out) (ps_listener s), None)
  end.

Definition policy_Get (s : PolicyStore) (id : string) : option Policy := ps_policies s !! id.

(** The assignments [Put] makes to its copy of the policy before storing it. *)
Definition put_fields (now : Z) (actor : string) (existing : option Policy) (p : Policy) : Policy :=
  let '(version, createdAt, createdBy) :=
    match existing with
    | Some e => (wrap64 (p_Version e + 1), p_CreatedAt e, p_CreatedBy e)
    | None =>
        (if (p_Version p =? 0)%Z then 1%Z else p_Version p,
         if time_IsZero (p_CreatedAt p) then now else p_CreatedAt p,
         if p_CreatedBy p ==s "" then actor else p_CreatedBy p)
    end in
  mkPolicy (p_ID p) (p_Name p) (p_Description p) version (p_Enabled p) (p_Scope p) (p_Selector p)
    (p_Disposition p) createdAt now createdBy actor.

Definition notify (s : PolicyStore) (op : string) (p : Policy) (actor : string) : list policy_change :=
  if ps_listener s then [mkChange op p actor] else [].

(** [Put]: the new state, the result, and the listener calls. *)
Definition Put (now : Z) (io : persist_outcome) (p : Policy) (actor : string) (s : PolicyStore)
    : PolicyStore * result Policy store_error * list policy_change :=
  match Validate p with
  | Some e => (s, Err (ErrValidate e), [])
  | None =>
    let existing := ps_policies s !! p_ID p in
    let op := match existing with Some _ => "update" | None => "create" end in
    let q := put_fields now actor existing p in
    let s1 := mkStore (<[p_ID q := q]> (ps_policies s)) (ps_disk s) (ps_listener s) in
    match persistLocked io s1 with
    | (s2, Some e) => (s2, Err e, [])
    | (s2, None) => (s2, Ok q, notify s2 op q actor)
    end
  end.

(** [Delete]: [Ok None] when there is no such policy. *)
Definition Delete (io : persist_outcome) (id actor : string) (s : PolicyStore)
    : PolicyStore * result (option Policy) store_error * list policy_change :=
  match ps_policies s !! id with
  | None => (s, Ok None, [])
  | Some p =>
    let s1 := mkStore (delete id (ps_policies s)) (ps_disk s) (ps_listener s) in
    match persistLocked io s1 with
    | (s2, Some e) => (mkStore (<[id := p]> (ps_policies s2)) (ps_disk s2) (ps_listener s2), Err e, [])
    | (s2, None) => (s2, Ok (Some p), notify s2 "delete" p actor)
    end
  end.

(** [Version]: the int64 sum of the policy versions. *)
Definition Version (s : PolicyStore) : Z :=
  fold_left (fun v p => wrap64 (v + wrap64 (p_Version p))) (map_values (ps_policies s)) 0%Z.
End iteration.

(** ** Sequences of mutations *)

Inductive mutation :=
| MutPut (now : Z) (io : persist_outcome) (p : Policy) (actor : string)
| MutDelete (io : persist_outcome) (id actor : string).

Definition mutate `{MapIter} (s : PolicyStore) (mu : mutation) : PolicyStore :=
  match mu with
  | MutPut now io p actor => (Put now io p actor s).1.1
  | MutDelete io id actor => (Delete io id actor s).1.1
  end.

(** Every policy is stored under its id. *)
Definition well_keyed (s : PolicyStore) : Prop :=
  forall k p, ps_policies s !! k = Some p -> p_ID p = k.

(** Reopening the file now would give the policies in memory. *)
Definition durable (s : PolicyStore) : Prop :=
  loadLocked (ps_disk s) ∅ = Ok (ps_policies s).

(** The mutation does not ask for a Put whose write fails. *)
Definition put_persists (mu : mutation) : bool :=
  match mu with
  | MutPut _ PersistOK _ _ => true
  | MutPut _ _ _ _ => false
  | MutDelete _ _ _ => true
  end.

(** ** Lemmas *)

Lemma policies_of_doc_lookup ps id :
  policies_of_doc ps !! id = last (filter (fun p => p_ID p ==s id) ps).
Proof.
  induction ps as [|p ps IH] using rev_ind; [apply lookup_empty|].
  unfold policies_of_doc. rewrite fold_left_app. simpl. fold (policies_of_doc ps).
  rewrite filter_app. rewrite (filter_cons _ p []).
  destruct (decide (p_ID p ==s id)) as [E|E].
  - apply Is_true_true in E. breflect. subst. rewrite lookup_insert_eq, filter_nil. by rewrite last_snoc.
  - assert (p_ID p <> id) by (intros Hid; rewrite Hid, eqb_refl_s in E; by apply E).
    rewrite lookup_insert_ne by done. by rewrite IH, filter_nil, app_nil_r.
Qed.

Lemma well_keyed_unique s p q `{MapIter} : well_keyed s ->
  p ∈ map_values (ps_policies s) -> q ∈ map_values (ps_policies s) -> p_ID p = p_ID q -> p = q.
Proof.
  rewrite !elem_of_map_values. intros Hwk [k Hp] [k' Hq] Heq.
  assert (k = k') as -> by (by rewrite <- (Hwk _ _ Hp), <- (Hwk _ _ Hq)). congruence.
Qed.

Lemma elem_of_Snapshot `{MapIter} s p : p ∈ Snapshot s <-> exists k, ps_policies s !! k = Some p.
Proof. unfold Snapshot. by rewrite elem_of_sort_stable, elem_of_map_values. Qed.

(** Loading the sorted snapshot rebuilds the map. *)
Lemma load_snapshot `{MapIter} s : well_keyed s -> policies_of_doc (Snapshot s) = ps_policies s.
Proof.
  intros Hwk. apply map_eq. intros id. rewrite policies_of_doc_lookup.
  destruct (last _) as [p|] eqn:E.
  - apply last_Some_elem_of, list_elem_of_filter in E as [Hid Hin].
    apply Is_true_true in Hid. breflect.
    apply elem_of_Snapshot in Hin as [k Hk]. by rewrite <- Hid, (Hwk _ _ Hk).
  - apply last_None in E. destruct (ps_policies s !! id) as [p|] eqn:Hp; [|done].
    exfalso. apply (not_elem_of_nil p). rewrite <- E. apply list_elem_of_filter.
    split; [|apply elem_of_Snapshot; by eauto].
    rewrite (Hwk _ _ Hp), eqb_refl_s. done.
Qed.

Lemma persist_durable `{MapIter} s s' : well_keyed s ->
  persistLocked PersistOK s = (s', None) -> durable s' /\ ps_policies s' = ps_policies s.
Proof.
  intros Hwk [= <-]. split; [|done]. unfold durable. simpl. f_equal. by apply load_snapshot.
Qed.

Lemma put_fields_ID now actor e p : p_ID (put_fields now actor e p) = p_ID p.
Proof. unfold put_fields. by destruct e. Qed.

Lemma well_keyed_insert s p : well_keyed s ->
  well_keyed (mkStore (<[p_ID p := p]> (ps_policies s)) (ps_disk s) (ps_listener s)).
Proof.
  intros Hwk k q. simpl. rewrite lookup_insert. case_decide; [|apply Hwk]. by intros [= <-].
Qed.

Lemma well_keyed_delete s id : well_keyed s ->
  well_keyed (mkStore (delete id (ps_policies s)) (ps_disk s) (ps_listener s)).
Proof. intros Hwk k q. simpl. intros [_ Hq]%lookup_delete_Some. by apply Hwk. Qed.

Lemma version_sum `{MapIter} s :
  Version s = wrap64 (sumZ (map p_Version (map_values (ps_policies s)))).
Proof.
  unfold Version. generalize (map_values (ps_policies s)). intros l.
  assert (forall acc, fold_left (fun v p => wrap64 (v + wrap64 (p_Version p))) l (wrap64 acc)
                      = wrap64 (acc + sumZ (map p_Version l))) as Hl.
  { induction l as [|p l IH]; intros acc; simpl; [by rewrite Z.add_0_r|].
    rewrite (Z.add_comm (wrap64 acc)), wrap64_add_l, Z.add_comm, wrap64_add_l, IH. f_equal. lia. }
  apply (Hl 0%Z).
Qed.

(** The version after a mutation, up to the wrap-around. *)
Lemma version_insert_fresh `{MapIter} m d l id p : m !! id = None ->
  Version (mkStore (<[id := p]> m) d l) = wrap64 (Version (mkStore m d l) + p_Version p).
Proof.
  intros Hid. rewrite !version_sum, wrap64_add_l. simpl.
  rewrite (map_values_insert_fresh m id p Hid). simpl. f_equal. lia.
Qed.

Lemma version_delete `{MapIter} m d l id p : m !! id = Some p ->
  Version (mkStore (delete id m) d l) = wrap64 (Version (mkStore m d l) - p_Version p).
Proof.
  intros Hid. rewrite !version_sum. simpl.
  rewrite (map_values_delete m id p Hid). simpl.
  rewrite <- Z.add_opp_r, wrap64_add_l. f_equal. lia.
Qed.

Lemma version_replace `{MapIter} m d l id p q : m !! id = Some p ->
  Version (mkStore (<[id := q]> m) d l) = wrap64 (Version (mkStore m d l) + (p_Version q - p_Version p)).
Proof.
  intros Hid. rewrite <- (insert_delete_eq m id q).
  rewrite version_insert_fresh by apply lookup_delete_eq.
  rewrite (version_delete m d l id p Hid), wrap64_add_l. f_equal. lia.
Qed.

Lemma mutate_well_keyed `{MapIter} s mu : well_keyed s -> well_keyed (mutate s mu).
Proof.
  intros Hwk. destruct mu as [now io p actor|io id actor]; simpl.
  - unfold Put. destruct (Validate p); [done|].
    pose proof (well_keyed_insert s (put_fields now actor (ps_policies s !! p_ID p) p) Hwk) as Hins.
    by destruct io.
  - unfold Delete. destruct (ps_policies s !! id) as [p|] eqn:Hp; [|done].
    pose proof (well_keyed_delete s id Hwk) as Hdel.
    destruct io; simpl; [done|..]; rewrite <- (Hwk _ _ Hp) in *;
      rewrite insert_delete_eq; by apply well_keyed_insert.
Qed.

Lemma mutate_durable `{MapIter} s mu :
  well_keyed s -> durable s -> put_persists mu = true -> durable (mutate s mu).
Proof.
  intros Hwk Hd Hio. destruct mu as [now io p actor|io id actor]; simpl in *.
  - unfold Put. destruct (Validate p); [done|]. destruct io; try done.
    eapply (persist_durable (mkStore _ _ _)); [by apply well_keyed_insert|done].
  - unfold Delete. destruct (ps_policies s !! id) as [p|] eqn:Hp; [|done].
    destruct io; simpl.
    + eapply (persist_durable (mkStore _ _ _)); [by apply well_keyed_delete|done].
    + unfold durable in *; simpl. by rewrite insert_delete_id.
    + unfold durable in *; simpl. by rewrite insert_delete_id.
    + unfold durable in *; simpl. by rewrite insert_delete_id.
Qed.

Lemma open_well_keyed path ok f l s : OpenPolicyStore path ok f l = Ok s -> well_keyed s /\ durable s.
Proof.
  unfold OpenPolicyStore. destruct (path ==s ""), ok; simpl; try done.
  destruct (loadLocked f ∅) as [m|] eqn:Hload; [|done]. intros [= <-]. split; [|done].
  intros k p. simpl. destruct f; simplify_eq/=; try (by rewrite lookup_empty).
  rewrite policies_of_doc_lookup. intros Hp%last_Some_elem_of%list_elem_of_filter.
  destruct Hp as [Hid _]. apply Is_true_true in Hid. by breflect.
Qed.

(** A put keeps an existing policy's creation data and adds one to its
    version, whether or not the write to disk succeeds. *)
Definition updates (id : string) (mu : mutation) : bool :=
  match mu with
  | MutPut _ _ p _ => (p_ID p ==s id) && match Validate p with None => true | _ => false end
  | MutDelete _ _ _ => false
  end.
Definition deletes (id : string) (mu : mutation) : bool :=
  match mu with
  | MutDelete PersistOK id' _ => id' ==s id
  | _ => false
  end.

Lemma mutate_lookup `{MapIter} s mu id e :
  ps_policies s !! id = Some e -> deletes id mu = false ->
  exists q, ps_policies (mutate s mu) !! id = Some q /\
    p_CreatedAt q = p_CreatedAt e /\ p_CreatedBy q = p_CreatedBy e /\
    p_Version q = if updates id mu then wrap64 (p_Version e + 1) else p_Version e.
Proof.
  intros He Hdel. destruct mu as [now io p actor|io id' actor]; simpl in *.
  - unfold Put. destruct (Validate p); [exists e; by rewrite andb_false_r|].
    rewrite andb_true_r.
    assert (forall d l, exists q, ps_policies (mkStore
        (<[p_ID (put_fields now actor (ps_policies s !! p_ID p) p) :=
           put_fields now actor (ps_policies s !! p_ID p) p]> (ps_policies s)) d l) !! id = Some q /\
        p_CreatedAt q = p_CreatedAt e /\ p_CreatedBy q = p_CreatedBy e /\
        p_Version q = if p_ID p ==s id then wrap64 (p_Version e + 1) else p_Version e) as Hgen.
    { intros d l. simpl. rewrite put_fields_ID. destruct (p_ID p ==s id) eqn:E; breflect.
      - subst id. rewrite lookup_insert_eq, He. by eexists.
      - rewrite lookup_insert_ne by done. by exists e. }
    by destruct io; simpl; apply (Hgen FileAbsent true).
  - unfold Delete. destruct (ps_policies s !! id') as [p|] eqn:Hp; [|by exists e].
    exists e. destruct io; simpl in *; breflect.
    + by rewrite lookup_delete_ne.
    + by rewrite insert_delete_id.
    + by rewrite insert_delete_id.
    + by rewrite insert_delete_id.
Qed.

(** ** Properties *)


(** A put whose write fails reports the error but keeps the new policy in
    memory, and leaves the file as it was: the policy is served until the
    restart that loses it.  (A failed delete restores the memory.) *)
Theorem Put_failure_not_rolled_back `{MapIter} now io p actor s :
  Validate p = None -> io <> PersistOK ->
  exists e q, Put now io p actor s =
      (mkStore (<[p_ID p := q]> (ps_policies s)) (ps_disk s) (ps_listener s), Err e, []) /\
    p_ID q = p_ID p /\ p_Disposition q = p_Disposition p /\ p_UpdatedAt q = now /\
  forall id s' r ch, Delete io id actor s = (s', r, ch) ->
    ps_policies s' = ps_policies s /\ ps_disk s' = ps_disk s /\ ch = [].
Proof.
  intros Hv Hio. unfold Put. rewrite Hv.
  exists (match io with PersistOK | EncodeFails => ErrEncode | WriteFails => ErrWrite | RenameFails => ErrRename end).
  exists (put_fields now actor (ps_policies s !! p_ID p) p).
  split_and!; [| |by unfold put_fields; destruct (_ !! _)..|].
  - rewrite put_fields_ID. by destruct io.
  - by rewrite put_fields_ID.
  - intros id s' r ch. unfold Delete. destruct (ps_policies s !! id) as [e|] eqn:He;
      [|by intros [= <- <- <-]].
    destruct io; [done|..]; simpl; intros [= <- <- <-]; simpl; by rewrite insert_delete_id.
Qed.

(** While a policy is not deleted, its creation time and creator never
    change, and its version counts the accepted puts to its id. *)
Theorem creation_preserved `{MapIter} id mus s e :
  ps_policies s !! id = Some e -> in_int64 (p_Version e) ->
  forallb (fun mu => negb (deletes id mu)) mus = true ->
  exists q, ps_policies (fold_left mutate mus s) !! id = Some q /\
    p_CreatedAt q = p_CreatedAt e /\ p_CreatedBy q = p_CreatedBy e /\
    p_Version q = wrap64 (p_Version e + Z.of_nat (length (filter (updates id) mus))).
Proof.
  revert s e. induction mus as [|mu mus IH]; intros s e He Hr Hdel; simpl in *.
  { exists e. by rewrite Z.add_0_r, wrap64_in_range. }
  breflect. destruct (mutate_lookup s mu id e He) as (q & Hq & HcA & HcB & Hver); [done|].
  destruct (IH (mutate s mu) q Hq) as (q' & Hq' & HcA' & HcB' & Hver').
  { rewrite Hver. destruct (updates id mu); [apply wrap64_range|done]. }
  { done. }
  exists q'. rewrite HcA', HcB', Hver'. split_and!; [done..|].
  rewrite Hver, filter_cons. destruct (updates id mu).
  - rewrite decide_True, wrap64_add_l by exact I. simpl length. f_equal. lia.
  - rewrite decide_False by (intros []). done.
Qed.

(** ** Witnesses *)


Lemma Put_failure_not_rolled_back_witness : exists e q,
  @Put canonical_iter 7 RenameFails (sample_policy "a" ModeBlock (mkScope "acme" "" "")) "bob"
    (mkStore ∅ FileAbsent true)
  = (mkStore (<["a" := q]> ∅) FileAbsent true, Err e, []) /\ p_ID q = "a".
Proof.
  destruct (@Put_failure_not_rolled_back canonical_iter 7 RenameFails
    (sample_policy "a" ModeBlock (mkScope "acme" "" "")) "bob" (mkStore ∅ FileAbsent true))
    as (e & q & H & Hid & _); [reflexivity|discriminate|].
  exists e, q. split; [exact H|exact Hid].
Defined.

Lemma creation_preserved_witness :
  let p := sample_policy "a" ModeBlock (mkScope "acme" "" "") in
  exists q, ps_policies (fold_left (@mutate canonical_iter)
      [MutPut 5 PersistOK p "bob"; MutPut 6 WriteFails p "eve"] (mkStore {["a" := p]} FileAbsent true)) !! "a"
    = Some q /\ p_CreatedAt q = 0%Z /\ p_CreatedBy q = "" /\ p_Version q = wrap64 3.
Proof.
  apply (@creation_preserved canonical_iter "a"
    [MutPut 5 PersistOK (sample_policy "a" ModeBlock (mkScope "acme" "" "")) "bob";
     MutPut 6 WriteFails (sample_policy "a" ModeBlock (mkScope "acme" "" "")) "eve"]
    (mkStore {["a" := sample_policy "a" ModeBlock (mkScope "acme" "" "")]} FileAbsent true)
    (sample_policy "a" ModeBlock (mkScope "acme" "" ""))).
  - reflexivity.
  - unfold in_int64, min_int64, max_int64. simpl. lia.
  - reflexivity.
Defined.
