(* ===== verification/PolicyClient.v ===== *)
(** * The sensor's policy client

    [pkg/policy/client/client.go]: the engine that holds the snapshot a sensor
    applies, the two requests to the control plane, and the loop that
    heartbeats and refetches.  Each exchange with the control plane is an
    explicit reply. *)

From S2P Require Import Prelude Event Policy.

(** ** Engine *)

(** [Snapshot]. *)
Record Snapshot := mkSnapshot { sn_Version : Z; sn_Policies : list Policy }.

(** [Engine]: the atomically swapped snapshot. *)
Record Engine := mkEngine { en_cur : Snapshot }.

Definition NewEngine : Engine := mkEngine (mkSnapshot 0 []).

Definition engine_Snapshot (e : Engine) : Snapshot := en_cur e.

(** [Swap]: the new engine and the previous snapshot; nil installs the empty
    snapshot. *)
Definition Swap (e : Engine) (s : option Snapshot) : Engine * Snapshot :=
  (mkEngine (default (mkSnapshot 0 []) s), en_cur e).

Definition engine_Resolve (e : Engine) (ctx : EventContext) (findings : list Finding)
    (defaultMode : string) : string * option Policy :=
  Resolve (sn_Policies (en_cur e)) ctx findings defaultMode.

(** ** Requests *)

(** What comes back from an HTTP exchange whose body should decode to [A]. *)
Inductive reply (A : Type) :=
| ConnFailed
| Status (code : Z)
| BadBody
| Body (a : A).
Arguments ConnFailed {A}.
Arguments Status {A} code.
Arguments BadBody {A}.
Arguments Body {A} a.

Inductive client_error :=
| ErrBaseURL
| ErrConn
| ErrStatus (code : Z)
| ErrDecodeBody.

Definition request {A} (baseURL : string) (r : reply A) : result A client_error :=
  if baseURL ==s "" then Err ErrBaseURL
  else match r with
  | ConnFailed => Err ErrConn
  | Status code => Err (ErrStatus code)
  | BadBody => Err ErrDecodeBody
  | Body a => Ok a
  end.

(** [FetchActive]: the body carries the policies and the version. *)
Definition FetchActive (baseURL : string) (r : reply (list Policy * Z)) : result Snapshot client_error :=
  match request baseURL r with
  | Err e => Err e
  | Ok (policies, version) => Ok (mkSnapshot version policies)
  end.

Record HeartbeatAck := mkAck { ack_Ack : bool; ack_PolicyVersion : Z; ack_ContentVersion : string }.

Definition Heartbeat (baseURL : string) (r : reply HeartbeatAck) : result HeartbeatAck client_error :=
  request baseURL r.

(** ** The loop *)

(** Calls of the lifecycle hooks. *)
Inductive hook :=
| OnSwap (s : Snapshot)
| OnError (op : string) (e : client_error).

(** The fetch before the first tick. *)
Definition loop_start (baseURL : string) (fetch : reply (list Policy * Z)) (e : Engine) : Engine * list hook :=
  match FetchActive baseURL fetch with
  | Ok snap => ((Swap e (Some snap)).1, [OnSwap snap])
  | Err err => (e, [OnError "initial fetch" err])
  end.

(** One tick: heartbeat, and a refetch when the acknowledged version differs
    from the applied one. *)
Definition loop_tick (baseURL : string) (hb : reply HeartbeatAck) (fetch : reply (list Policy * Z))
    (e : Engine) : Engine * list hook :=
  match Heartbeat baseURL hb with
  | Err err => (e, [OnError "heartbeat" err])
  | Ok ack =>
    if negb (ack_PolicyVersion ack =? sn_Version (engine_Snapshot e))%Z then
      match FetchActive baseURL fetch with
      | Err err => (e, [OnError "refetch" err])
      | Ok snap => ((Swap e (Some snap)).1, [OnSwap snap])
      end
    else (e, [])
  end.

(** ** Lemmas *)

Lemma FetchActive_Ok url r snap : FetchActive url r = Ok snap ->
  url <> "" /\ r = Body (sn_Policies snap, sn_Version snap).
Proof.
  unfold FetchActive, request. destruct (url ==s "") eqn:E; [done|]. breflect.
  destruct r as [| | |[ps v]]; try done. by intros [= <-].
Qed.

(** Whatever happens on the wire, a tick either leaves the engine alone or
    installs exactly what the control plane sent. *)
Lemma loop_tick_cases url hb fetch e :
  (loop_tick url hb fetch e).1 = e \/
  exists snap, FetchActive url fetch = Ok snap /\ loop_tick url hb fetch e = (mkEngine snap, [OnSwap snap]).
Proof.
  unfold loop_tick. destruct (Heartbeat url hb); [|by left].
  destruct (negb _); [|by left].
  destruct (FetchActive url fetch) as [snap|]; [|by left]. right. by exists snap.
Qed.
