(* ===== verification/Roles.v ===== *)
(** * Roles

    The role table of [control-plane/api/rbac.go]. *)

From S2P Require Import Prelude Event.

Definition RoleViewer : string := "viewer".
Definition RoleEditor : string := "editor".
Definition RoleAdmin : string := "admin".
Definition RoleOwner : string := "owner".
Definition RolePolicyAuthor : string := "policy_author".
Definition RoleTenantAdmin : string := "tenant_admin".
Definition RoleSuperAdmin : string := "super_admin".

(** [roleRank]; indexing an unknown role gives 0. *)
Definition role_ranks : list (string * nat) :=
  [(RoleViewer, 0); (RoleEditor, 1); (RolePolicyAuthor, 1); (RoleAdmin, 2); (RoleTenantAdmin, 2);
   (RoleOwner, 3); (RoleSuperAdmin, 3)]%nat.
Definition roleRank (r : string) : nat := rank_of role_ranks r.

(** [CanonicalRole]; unknown roles give the empty string. *)
Definition CanonicalRole (r : string) : string :=
  if r ==s RoleViewer then RoleViewer
  else if (r ==s RoleEditor) || (r ==s RolePolicyAuthor) then RoleEditor
  else if (r ==s RoleAdmin) || (r ==s RoleTenantAdmin) then RoleAdmin
  else if (r ==s RoleOwner) || (r ==s RoleSuperAdmin) then RoleOwner
  else "".

Definition KnownRoles : list string := [RoleViewer; RoleEditor; RoleAdmin; RoleOwner].

(** ** Lemmas *)

Lemma CanonicalRole_known r : CanonicalRole r <> "" ->
  CanonicalRole r ∈ KnownRoles /\ roleRank (CanonicalRole r) = roleRank r.
Proof.
  unfold CanonicalRole. repeat case_match; intros Hne; try done;
    repeat match goal with
    | Hor : orb _ _ = true |- _ => apply orb_true_iff in Hor as [Hor|Hor]
    end; breflect; subst; (split; [unfold KnownRoles; set_solver|reflexivity]).
Qed.
