(* ===== verification/Tokens.v ===== *)
(** * The API token store

    [control-plane/api/tokens.go]: tokens minted through the API, looked up by
    the hash of their secret, mirrored to a JSON document.  Random bytes, the
    clock and the outcome of each write are arguments. *)

From S2P Require Import Prelude Sha256 Utf8 Rfc3339 Json Event Roles.

(** ** State *)

Record APIToken := mkToken {
  t_ID : string;
  t_Name : string;
  t_Role : string;
  t_TenantID : string;
  t_CreatedAt : Z;
  t_CreatedBy : string;
  t_LastUsed : Z;
  t_Hash : string;
  t_Secret : string
}.

(** The document on disk, each token as the JSON printed for it. *)
Inductive token_file := TFAbsent | TFUnreadable | TFEmpty | TFCorrupt | TFDoc (tokens : list json).

Record TokenStore := mkTokenStore {
  ts_tokens : gmap string APIToken;
  ts_bySalt : gmap string string;
  ts_disk : token_file
}.

Inductive token_error :=
| ErrNameRequired
| ErrInvalidRole (r : string)
| ErrRandom
| ErrPersist
| ErrTokenNotFound (id : string)
| ErrOpen.

(** The JSON of a token; [Hash] is tagged out of it. *)
Definition token_fields (t : APIToken) : list (string * bool * json) :=
  [ always "id" (JStr (t_ID t));
    always "name" (JStr (t_Name t));
    always "role" (JStr (t_Role t));
    str_field "tenant_id" (t_TenantID t);
    always "created_at" (JStr (rfc3339nano (t_CreatedAt t)));
    str_field "created_by" (t_CreatedBy t);
    always "last_used" (JStr (rfc3339nano (t_LastUsed t)));
    str_field "secret" (t_Secret t) ].
Definition token_json (t : APIToken) : json := JObj (fields (token_fields t)).

Definition token_of_json (v : json) : option APIToken :=
  match v with
  | JObj o =>
      id ← get_str "id" o; name ← get_str "name" o; role ← get_str "role" o;
      tenant ← get_str "tenant_id" o; createdAt ← get_time "created_at" o;
      createdBy ← get_str "created_by" o; lastUsed ← get_time "last_used" o;
      secret ← get_str "secret" o;
      Some (mkToken id name role tenant createdAt createdBy lastUsed "" secret)
  | _ => None
  end.

(** ** Operations *)

Definition hashToken (secret : string) : string := hex (sha256 secret).

(** The loop of [OpenTokenStore] over the decoded tokens. *)
Definition load_tokens (ts : list APIToken) : gmap string APIToken * gmap string string :=
  fold_left (fun '(tokens, bySalt) t =>
    (<[t_ID t := t]> tokens,
     if t_Hash t !=s "" then <[t_Hash t := t_ID t]> bySalt else bySalt)) ts (∅, ∅).

Definition OpenTokenStore (path : string) (mkdir_ok : bool) (f : token_file) : result TokenStore token_error :=
  if path ==s "" then Err ErrOpen
  else if negb mkdir_ok then Err ErrOpen
  else match f with
  | TFAbsent | TFEmpty => Ok (mkTokenStore ∅ ∅ f)
  | TFUnreadable | TFCorrupt => Err ErrOpen
  | TFDoc docs =>
    match mapM token_of_json (map wire docs) with
    | None => Err ErrOpen
    | Some ts => let '(tokens, bySalt) := load_tokens ts in Ok (mkTokenStore tokens bySalt f)
    end
  end.

(** Stored tokens and the index agree. *)
Definition with_LastUsed (now : Z) (t : APIToken) : APIToken :=
  mkToken (t_ID t) (t_Name t) (t_Role t) (t_TenantID t) (t_CreatedAt t) (t_CreatedBy t) now
    (t_Hash t) (t_Secret t).
Definition with_Secret (hash secret : string) (t : APIToken) : APIToken :=
  mkToken (t_ID t) (t_Name t) (t_Role t) (t_TenantID t) (t_CreatedAt t) (t_CreatedBy t) (t_LastUsed t)
    hash secret.

Section iteration.
Context `{MapIter}.

(** [persistLocked]: [ok] is whether the write and the rename succeed. *)
Definition token_persist (ok : bool) (s : TokenStore) : TokenStore :=
  if ok then mkTokenStore (ts_tokens s) (ts_bySalt s) (TFDoc (map token_json (map_values (ts_tokens s))))
  else s.

(** [Mint]; [idText] is the hex of the six random bytes and [secretText] the
    base64 text of the other thirty-two, [None] when reading them fails. *)
Definition Mint (now : Z) (ok : bool) (idText secretText : option string)
    (name role tenantID createdBy : string) (s : TokenStore) : TokenStore * result APIToken token_error :=
  if name ==s "" then (s, Err ErrNameRequired)
  else let canon := CanonicalRole role in
  if canon ==s "" then (s, Err (ErrInvalidRole role))
  else match idText, secretText with
  | Some idText, Some secretText =>
    let id := "tok_" +:+ idText in
    let secret := "hf_" +:+ secretText in
    let hash := hashToken secret in
    let t := mkToken id name canon tenantID now createdBy zero_time hash "" in
    let s1 := mkTokenStore (<[id := t]> (ts_tokens s)) (<[hash := id]> (ts_bySalt s)) (ts_disk s) in
    if ok then (token_persist true s1, Ok (with_Secret "" secret t))
    else (mkTokenStore (delete id (ts_tokens s1)) (delete hash (ts_bySalt s1)) (ts_disk s1), Err ErrPersist)
  | _, _ => (s, Err ErrRandom)
  end.

(** [Lookup]: marks the token as used and persists, ignoring write errors. *)
Definition token_Lookup (now : Z) (ok : bool) (secret : string) (s : TokenStore) : TokenStore * option APIToken :=
  if secret ==s "" then (s, None)
  else match ts_bySalt s !! hashToken secret with
  | None => (s, None)
  | Some id =>
    match ts_tokens s !! id with
    | None => (s, None)
    | Some t =>
      let t' := with_LastUsed now t in
      (token_persist ok (mkTokenStore (<[id := t']> (ts_tokens s)) (ts_bySalt s) (ts_disk s)),
       Some (with_Secret "" (t_Secret t') t'))
    end
  end.

Definition token_List (s : TokenStore) : list APIToken :=
  map (with_Secret "" "") (map_values (ts_tokens s)).

Definition Revoke (ok : bool) (id : string) (s : TokenStore) : TokenStore * result unit token_error :=
  match ts_tokens s !! id with
  | None => (s, Err (ErrTokenNotFound id))
  | Some t =>
    let s1 := mkTokenStore (delete id (ts_tokens s)) (delete (t_Hash t) (ts_bySalt s)) (ts_disk s) in
    (token_persist ok s1, if ok then Ok tt else Err ErrPersist)
  end.
End iteration.

(** ** Calls of the store, with the random bytes drawn *)

Inductive token_op :=
| OpMint (now : Z) (ok : bool) (idText secretText : string) (name role tenantID createdBy : string)
| OpLookup (now : Z) (ok : bool) (secret : string)
| OpRevoke (ok : bool) (id : string).

Definition token_run `{MapIter} (s : TokenStore) (o : token_op) : TokenStore :=
  match o with
  | OpMint now ok i x name role tenant by_ => (Mint now ok (Some i) (Some x) name role tenant by_ s).1
  | OpLookup now ok secret => (token_Lookup now ok secret s).1
  | OpRevoke ok id => (Revoke ok id s).1
  end.

(** A mint draws an id and a secret that no stored token has. *)
Definition fresh_op (s : TokenStore) (o : token_op) : Prop :=
  match o with
  | OpMint _ _ i x _ _ _ _ =>
      ts_tokens s !! ("tok_" +:+ i) = None /\
      forall id t, ts_tokens s !! id = Some t -> t_Hash t <> hashToken ("hf_" +:+ x)
  | _ => True
  end.

Fixpoint fresh_run `{MapIter} (s : TokenStore) (ops : list token_op) : Prop :=
  match ops with
  | [] => True
  | o :: ops' => fresh_op s o /\ fresh_run (token_run s o) ops'
  end.

Definition revokes (id : string) (o : token_op) : bool :=
  match o with OpRevoke _ id' => id' ==s id | _ => false end.

(** Every index entry is the hash of its token, ids are keys, and no secret is
    kept. *)
Definition indexed (s : TokenStore) : Prop :=
  (forall h id, ts_bySalt s !! h = Some id ->
     h <> "" /\ exists t, ts_tokens s !! id = Some t /\ t_Hash t = h) /\
  (forall id t, ts_tokens s !! id = Some t ->
     t_ID t = id /\ t_Secret t = "" /\ (t_Hash t = "" \/ ts_bySalt s !! t_Hash t = Some id)).

(** The token [id] answers to the hash [h], with role [r] in tenant [tn]. *)
Definition live (id h r tn : string) (s : TokenStore) : Prop :=
  ts_bySalt s !! h = Some id /\
  exists t, ts_tokens s !! id = Some t /\ t_Hash t = h /\ t_Role t = r /\ t_TenantID t = tn.

(** ** Lemmas *)

Lemma hashToken_inj a b : hashToken a = hashToken b -> sha256 a = sha256 b.
Proof. apply hex_inj. Qed.

Section lemmas.
Context `{MapIter}.

Lemma persist_maps ok s :
  ts_tokens (token_persist ok s) = ts_tokens s /\ ts_bySalt (token_persist ok s) = ts_bySalt s.
Proof. by destruct ok. Qed.

Lemma indexed_maps s s' :
  ts_tokens s' = ts_tokens s -> ts_bySalt s' = ts_bySalt s -> indexed s -> indexed s'.
Proof. unfold indexed. by intros -> ->. Qed.

Lemma live_maps id h r tn s s' :
  ts_tokens s' = ts_tokens s -> ts_bySalt s' = ts_bySalt s -> live id h r tn s -> live id h r tn s'.
Proof. unfold live. by intros -> ->. Qed.

(** The state a mint leaves, when it passes its guards. *)
Lemma Mint_cases now ok i x name role tn by_ s :
  (Mint now ok (Some i) (Some x) name role tn by_ s).1 = s \/
  let id := "tok_" +:+ i in let h := hashToken ("hf_" +:+ x) in
  let t := mkToken id name (CanonicalRole role) tn now by_ zero_time h "" in
  let s' := (Mint now ok (Some i) (Some x) name role tn by_ s).1 in
  if ok then ts_tokens s' = <[id := t]> (ts_tokens s) /\ ts_bySalt s' = <[h := id]> (ts_bySalt s)
  else ts_tokens s' = delete id (<[id := t]> (ts_tokens s)) /\
       ts_bySalt s' = delete h (<[h := id]> (ts_bySalt s)).
Proof.
  unfold Mint. destruct (name ==s ""); [by left|].
  destruct (CanonicalRole role ==s ""); [by left|]. right. by destruct ok.
Qed.

Lemma Lookup_cases now ok x s :
  token_Lookup now ok x s = (s, None) \/
  exists id t, ts_bySalt s !! hashToken x = Some id /\ ts_tokens s !! id = Some t /\
    ts_tokens (token_Lookup now ok x s).1 = <[id := with_LastUsed now t]> (ts_tokens s) /\
    ts_bySalt (token_Lookup now ok x s).1 = ts_bySalt s /\
    (token_Lookup now ok x s).2 = Some (with_Secret "" (t_Secret t) (with_LastUsed now t)).
Proof.
  unfold token_Lookup. destruct (x ==s ""); [by left|].
  destruct (ts_bySalt s !! hashToken x) as [id|] eqn:Hid; [|by left].
  destruct (ts_tokens s !! id) as [t|] eqn:Ht; [|by left].
  right. exists id, t. split_and!; try done; simpl; by destruct ok.
Qed.

Lemma indexed_hash s id id' t t' : indexed s -> ts_bySalt s !! t_Hash t = Some id ->
  ts_tokens s !! id' = Some t' -> t_Hash t' = t_Hash t -> id' = id.
Proof.
  intros [H1 H2] Hs Ht' Hh. destruct (H2 _ _ Ht') as (_ & _ & [E|E]).
  - apply H1 in Hs as [Hne _]. congruence.
  - congruence.
Qed.

Lemma hashToken_nonempty x : hashToken x <> "".
Proof.
  unfold hashToken. intros E. apply (f_equal String.length) in E.
  rewrite length_hex, length_sha256 in E. done.
Qed.

Lemma indexed_add s s' id x t : indexed s ->
  ts_tokens s' = <[id := t]> (ts_tokens s) -> ts_bySalt s' = <[hashToken x := id]> (ts_bySalt s) ->
  ts_tokens s !! id = None -> (forall id t, ts_tokens s !! id = Some t -> t_Hash t <> hashToken x) ->
  t_ID t = id -> t_Secret t = "" -> t_Hash t = hashToken x -> indexed s'.
Proof.
  intros [H1 H2] Ht Hs Hfresh Hx Hid Hsec Hh. unfold indexed. rewrite Ht, Hs. split.
  - intros h' id'. rewrite lookup_insert. case_decide.
    + intros [= <-]. split; [subst; apply hashToken_nonempty|].
      exists t. rewrite lookup_insert_eq. by subst.
    + intros (Hne & t' & Ht' & <-)%H1. split; [done|].
      exists t'. rewrite lookup_insert_ne; [done|]. congruence.
  - intros id' t'. rewrite lookup_insert. case_decide.
    + intros [= <-]. subst. rewrite Hh, lookup_insert_eq. by auto.
    + intros Ht'. destruct (H2 _ _ Ht') as (? & ? & Hor). split_and!; [done..|].
      destruct Hor; [by left|right]. rewrite lookup_insert_ne; [done|]. intros E. by eapply Hx.
Qed.

Lemma indexed_undo s s' id h : indexed s ->
  (forall id' t, ts_tokens s !! id' = Some t -> t_Hash t <> h) -> ts_tokens s !! id = None ->
  ts_tokens s' = delete id (ts_tokens s) -> ts_bySalt s' = delete h (ts_bySalt s) ->
  ts_tokens s' = ts_tokens s /\ ts_bySalt s' = ts_bySalt s.
Proof.
  intros [H1 _] Hh Hid Ht Hs. rewrite Ht, Hs.
  rewrite (delete_id _ _ Hid), delete_id; [done|].
  destruct (ts_bySalt s !! h) as [id'|] eqn:E; [|done].
  apply H1 in E as (_ & t & Ht' & Hh'). by edestruct Hh.
Qed.

Lemma indexed_touch s s' id t now : indexed s -> ts_tokens s !! id = Some t ->
  ts_tokens s' = <[id := with_LastUsed now t]> (ts_tokens s) -> ts_bySalt s' = ts_bySalt s ->
  indexed s'.
Proof.
  intros [H1 H2] Ht Et Es. unfold indexed. rewrite Et, Es. split.
  - intros h id' (Hne & t' & Ht' & <-)%H1. split; [done|].
    rewrite lookup_insert. case_decide; [|by eauto].
    subst. rewrite Ht' in Ht. injection Ht as ->. by eexists.
  - intros id' t'. rewrite lookup_insert. case_decide; [|apply H2].
    intros [= <-]. subst. by apply H2 in Ht.
Qed.

Lemma indexed_revoke s id t : indexed s -> ts_tokens s !! id = Some t ->
  indexed (mkTokenStore (delete id (ts_tokens s)) (delete (t_Hash t) (ts_bySalt s)) (ts_disk s)).
Proof.
  intros Hi Ht. pose proof Hi as [H1 H2]. split; simpl.
  - intros h id' [Hne Hs]%lookup_delete_Some. destruct (H1 _ _ Hs) as (Hh & t' & Ht' & Ehh).
    split; [done|]. exists t'. rewrite lookup_delete_ne; [done|]. intros ->. congruence.
  - intros id' t' [Hne Ht']%lookup_delete_Some. destruct (H2 _ _ Ht') as (? & ? & [E|E]); [by auto|].
    split_and!; [done..|right]. rewrite lookup_delete_ne; [done|]. intros Eh.
    apply Hne. by eapply (indexed_hash s id' id t' t).
Qed.

(** The maps after a fresh mint: the token is added, or nothing changes. *)
Lemma Mint_fresh now ok i x name role tn by_ s :
  let o := OpMint now ok i x name role tn by_ in
  indexed s -> fresh_op s o ->
  (ts_tokens (token_run s o) = ts_tokens s /\ ts_bySalt (token_run s o) = ts_bySalt s) \/
  let id := "tok_" +:+ i in let h := hashToken ("hf_" +:+ x) in
  let t := mkToken id name (CanonicalRole role) tn now by_ zero_time h "" in
  ts_tokens (token_run s o) = <[id := t]> (ts_tokens s) /\
  ts_bySalt (token_run s o) = <[h := id]> (ts_bySalt s).
Proof.
  intros o Hi [Hid Hh]. simpl in *.
  destruct (Mint_cases now ok i x name role tn by_ s) as [->|Hm]; [by left|]. cbv zeta in Hm.
  destruct ok, Hm as [Et Es]; [by right|left].
  rewrite delete_insert_eq in Et. rewrite delete_insert_eq in Es. by apply (indexed_undo s _ _ _ Hi Hh Hid Et Es).
Qed.

Lemma token_run_indexed s o : indexed s -> fresh_op s o -> indexed (token_run s o).
Proof.
  intros Hi Hf. destruct o as [now ok i x name role tn by_|now ok x|ok id].
  - destruct (Mint_fresh now ok i x name role tn by_ s Hi Hf) as [[Et Es]|[Et Es]];
      [by eapply indexed_maps|]. destruct Hf as [Hid Hh].
    eapply indexed_add; [exact Hi|exact Et|exact Es|done..].
  - simpl. destruct (Lookup_cases now ok x s) as [->|(id & t & Hs & Ht & Et & Es & _)]; [done|].
    by eapply indexed_touch.
  - simpl. unfold Revoke. destruct (ts_tokens s !! id) as [t|] eqn:Ht; [|done].
    eapply indexed_maps; [apply persist_maps|apply persist_maps|]. by apply indexed_revoke.
Qed.

Lemma token_run_live s o id h r tn : indexed s -> fresh_op s o -> revokes id o = false ->
  live id h r tn s -> live id h r tn (token_run s o).
Proof.
  intros Hi Hf Hr [Hs (t & Ht & Hh & Hrole & Htn)].
  destruct o as [now ok i x name role tn' by_|now ok x|ok id'].
  - destruct (Mint_fresh now ok i x name role tn' by_ s Hi Hf) as [[Et Es]|[Et Es]];
      unfold live; rewrite Et, Es; [by eauto 10|]. destruct Hf as [Hid Hfh].
    rewrite lookup_insert_ne; [split; [done|]|intros E; eapply Hfh; [exact Ht|congruence]].
    exists t. rewrite lookup_insert_ne; [done|]. congruence.
  - simpl. destruct (Lookup_cases now ok x s) as [->|(id' & t' & Hs' & Ht' & Et & Es & _)];
      [by repeat econstructor|].
    unfold live. rewrite Et, Es. split; [done|]. rewrite lookup_insert. case_decide; [|by eauto].
    subst. rewrite Ht' in Ht. injection Ht as ->. by eexists.
  - simpl in *. breflect. unfold Revoke.
    destruct (ts_tokens s !! id') as [t'|] eqn:Ht'; [|by repeat econstructor].
    eapply live_maps; [apply persist_maps|apply persist_maps|]. unfold live; simpl. subst h.
    rewrite !lookup_delete_ne; [by eauto 10|done|].
    intros E. apply Hr. by eapply (indexed_hash s id id' t t').
Qed.

Lemma token_runs_live ops s id h r tn : indexed s -> fresh_run s ops ->
  forallb (fun o => negb (revokes id o)) ops = true ->
  live id h r tn s -> indexed (fold_left token_run ops s) /\ live id h r tn (fold_left token_run ops s).
Proof.
  revert s. induction ops as [|o ops IH]; intros s Hi Hf Hr Hl; [done|].
  simpl in *. destruct Hf as [Hf Hfs]. breflect.
  apply IH; [by apply token_run_indexed|done..|by apply token_run_live].
Qed.
End lemmas.

(** Reading back a stored token loses its hash. *)
Lemma token_reload t : time_ok (t_CreatedAt t) -> time_ok (t_LastUsed t) ->
  token_of_json (wire (token_json t)) = Some (with_Secret "" (t_Secret t) t).
Proof.
  intros Hc Hu. unfold token_json. destruct (wire_struct (token_fields t)) as (o & -> & Ho).
  { apply (bool_decide_unpack _). reflexivity. }
  unfold token_of_json, token_fields, str_field, always in *.
  repeat get_field Ho.
  assert (get_time "created_at" o = Some (t_CreatedAt t)) as ->.
  { unfold get_time. rewrite Ho. struct_get. cbn. by apply parse_rfc3339nano. }
  cbn [mbind option_bind]. repeat get_field Ho.
  assert (get_time "last_used" o = Some (t_LastUsed t)) as ->.
  { unfold get_time. rewrite Ho. struct_get. cbn. by apply parse_rfc3339nano. }
  cbn [mbind option_bind]. repeat get_field Ho. done.
Qed.

Lemma token_of_json_Hash v t : token_of_json v = Some t -> t_Hash t = "".
Proof.
  destruct v; simpl; try done. intros H.
  repeat match type of H with (_ ≫= _) = Some _ => apply bind_Some in H as (? & _ & H) end.
  by injection H as <-.
Qed.

(** Loading tokens without hashes leaves the index empty. *)
Lemma load_tokens_index ts (m : gmap string APIToken) (b : gmap string string) : (forall t, t ∈ ts -> t_Hash t = "") ->
  (fold_left (fun '(tokens, bySalt) t =>
    (<[t_ID t := t]> tokens,
     if t_Hash t !=s "" then <[t_Hash t := t_ID t]> bySalt else bySalt)) ts (m, b)).2
  = b.
Proof.
  revert m. induction ts as [|t ts IH]; intros m Hts; [done|]. simpl.
  rewrite (Hts t) by set_solver. simpl. apply IH. intros t' Ht'. apply Hts. set_solver.
Qed.

Lemma load_tokens_map ts : (load_tokens ts).1 = fold_left (fun (m : gmap string APIToken) t => <[t_ID t := t]> m) ts ∅.
Proof.
  unfold load_tokens. generalize (∅ : gmap string APIToken) (∅ : gmap string string).
  induction ts as [|t ts IH]; intros m b; simpl; [done|]. by rewrite IH.
Qed.

(** ** Properties *)


(** Minted tokens do not survive a restart.  Whatever the file holds, a
    store opened from it accepts no secret at all; and the file that a
    successful persist writes does open, to a store that still lists every
    token. *)
Theorem reopened_store_rejects `{MapIter} path s :
  path <> "" -> indexed s ->
  (forall id t, ts_tokens s !! id = Some t -> time_ok (t_CreatedAt t) /\ time_ok (t_LastUsed t)) ->
  (forall mkdir_ok f s' now ok secret, OpenTokenStore path mkdir_ok f = Ok s' ->
     token_Lookup now ok secret s' = (s', None)) /\
  exists s', OpenTokenStore path true (ts_disk (token_persist true s)) = Ok s' /\
    forall id t, ts_tokens s !! id = Some t -> ts_tokens s' !! id = Some (with_Secret "" "" t).
Proof.
  intros Hp [_ Hi] Ht. split.
  - intros mk f s' now ok x Ho.
    assert (ts_bySalt s' = ∅) as Hb; [|by unfold token_Lookup; rewrite Hb, lookup_empty; destruct (x ==s "")].
    revert Ho. unfold OpenTokenStore. rewrite (eqb_neq_s _ _ Hp). destruct mk; [simpl|done].
    destruct f as [| | | |docs]; try done; try (by intros [= <-]).
    destruct (mapM token_of_json (map wire docs)) as [ts|] eqn:E; [|done].
    destruct (load_tokens ts) as [m b] eqn:El. intros [= <-]. simpl.
    change b with (m, b).2. rewrite <- El. apply load_tokens_index.
    intros t Hin. apply mapM_Some_1 in E. 
    apply list_elem_of_lookup in Hin as [n Hn].
    destruct (Forall2_lookup_r _ _ _ _ _ E Hn) as (v & _ & Hv). by eapply token_of_json_Hash.
  - unfold OpenTokenStore. rewrite (eqb_neq_s _ _ Hp). simpl.
    assert (mapM token_of_json (map wire (map token_json (map_values (ts_tokens s))))
            = Some (map (with_Secret "" "") (map_values (ts_tokens s)))) as ->.
    { assert (forall t, t ∈ map_values (ts_tokens s) ->
        token_of_json (wire (token_json t)) = Some (with_Secret "" "" t)) as Hl.
      { intros t [id Hid]%elem_of_map_values. destruct (Ht _ _ Hid), (Hi _ _ Hid) as (_ & Hsec & _).
        by rewrite token_reload, Hsec. }
      induction (map_values (ts_tokens s)) as [|t l IH]; [done|]. cbn [map mapM].
      rewrite (Hl t), IH by set_solver. done. }
    exists (mkTokenStore (load_tokens (map (with_Secret "" "") (map_values (ts_tokens s)))).1
      (load_tokens (map (with_Secret "" "") (map_values (ts_tokens s)))).2
      (ts_disk (token_persist true s))).
    split; [by destruct (load_tokens _)|]. simpl.
    intros id t Hid. destruct (Hi _ _ Hid) as (Hkey & _).
    rewrite load_tokens_map. rewrite <- Hkey.
    change (t_ID t) with (t_ID (with_Secret "" "" t)).
    apply (fold_insert_lookup t_ID).
    + apply list_elem_of_fmap. exists t. split; [done|]. apply elem_of_map_values. by exists id.
    + intros y (t' & -> & [id' Hid']%elem_of_map_values)%list_elem_of_fmap. simpl. intros Heq.
      destruct (Hi _ _ Hid') as (Hkey' & _). congruence.
Qed.

(** ** Witnesses *)

Definition empty_tokens : TokenStore := mkTokenStore ∅ ∅ TFAbsent.

Lemma empty_indexed : indexed empty_tokens.
Proof. split; intros ? ?; simpl; rewrite lookup_empty; done. Qed.

Definition sample_token : APIToken :=
  mkToken "tok_01" "ci" "editor" "acme" 5 "bob" zero_time "" "hf_s3cret".
Definition sample_minted : TokenStore :=
  (@Mint canonical_iter 5 true (Some "01") (Some "s3cret") "ci" "policy_author" "acme" "bob" empty_tokens).1.


Lemma reopened_store_rejects_witness :
  let s := (@Mint canonical_iter 5 true (Some "01") (Some "s3cret") "ci" "editor" "acme" "bob" empty_tokens).1 in
  (@token_Lookup canonical_iter 9 true "hf_s3cret" s).2 <> None /\
  exists s', OpenTokenStore "tokens.json" true (ts_disk s) = Ok s' /\
    @token_Lookup canonical_iter 9 true "hf_s3cret" s' = (s', None).
Proof.
  intros s. split; [by vm_compute|].
  assert (indexed s) as Hi.
  { change s with (token_run (H := canonical_iter) empty_tokens
      (OpMint 5 true "01" "s3cret" "ci" "editor" "acme" "bob")).
    apply token_run_indexed; [apply empty_indexed|]. split; [done|].
    intros id t. simpl. by rewrite lookup_empty. }
  destruct (@reopened_store_rejects canonical_iter "tokens.json" s) as [Hr (s' & Ho & _)]; [done|done| |].
  - intros id t. assert (ts_tokens s = {["tok_01" := mkToken "tok_01" "ci" "editor" "acme" 5 "bob" zero_time (hashToken "hf_s3cret") ""]}) as -> by reflexivity.
    intros [<- <-]%lookup_singleton_Some. split; vm_compute; split; discriminate || reflexivity.
  - exists s'. assert (ts_disk s = ts_disk (@token_persist canonical_iter true s)) as -> by reflexivity.
    split; [exact Ho|]. eapply Hr. exact Ho.
Defined.
