(* ===== verification/Users.v ===== *)
(** * Operator accounts and sessions

    [control-plane/api/users.go]: the user directory mirrored to a JSON
    document, and the in-memory sessions issued at login.  The clock, random
    tokens and the outcome of each write are arguments; bcrypt is a parameter,
    and user names are ASCII. *)

From S2P Require Import Prelude Utf8 Rfc3339 Json Event Roles.

(** ** bcrypt *)

(** [GenerateFromPassword] (with its random salt; [None] for the passwords it
    refuses) and [CompareHashAndPassword]. *)
Class Bcrypt := {
  bcrypt_generate : string -> string -> option string;
  bcrypt_compare : string -> string -> bool
}.
(** A hash accepts the password it was made from. *)
Class BcryptLaws `{Bcrypt} : Prop :=
  bcrypt_compare_generate : forall password salt hash,
    bcrypt_generate password salt = Some hash -> bcrypt_compare hash password = true.

(** ** State *)

Record User := mkUser {
  u_Username : string;
  u_PasswordHash : string;
  u_Role : string;
  u_TenantID : string;
  u_CreatedAt : Z;
  u_UpdatedAt : Z;
  u_LastLogin : Z
}.

Record userSession := mkSession {
  us_username : string;
  us_role : string;
  us_tenantID : string;
  us_expiresAt : Z
}.

Inductive user_file := UFAbsent | UFUnreadable | UFEmpty | UFCorrupt | UFDoc (users : list json).

Record UserStore := mkUserStore {
  ust_users : gmap string User;
  ust_sessions : gmap string userSession;
  ust_disk : user_file
}.

Inductive user_error :=
| UErrMissing
| UErrShort
| UErrRole (r : string)
| UErrHash
| UErrExists (name : string)
| UErrNotFound (name : string)
| UErrCredentials
| UErrPersist
| UErrOpen.

Definition sessionTTL : Z := (12 * 3600 * Second)%Z.

Definition user_fields (u : User) : list (string * bool * json) :=
  [ always "username" (JStr (u_Username u));
    always "password_hash" (JStr (u_PasswordHash u));
    always "role" (JStr (u_Role u));
    str_field "tenant_id" (u_TenantID u);
    always "created_at" (JStr (rfc3339nano (u_CreatedAt u)));
    always "updated_at" (JStr (rfc3339nano (u_UpdatedAt u)));
    always "last_login" (JStr (rfc3339nano (u_LastLogin u))) ].
Definition user_json (u : User) : json := JObj (fields (user_fields u)).

Definition user_of_json (v : json) : option User :=
  match v with
  | JObj o =>
      name ← get_str "username" o; hash ← get_str "password_hash" o; role ← get_str "role" o;
      tenant ← get_str "tenant_id" o; createdAt ← get_time "created_at" o;
      updatedAt ← get_time "updated_at" o; lastLogin ← get_time "last_login" o;
      Some (mkUser name hash role tenant createdAt updatedAt lastLogin)
  | _ => None
  end.

(** ** Operations *)

Definition load_users (us : list User) : gmap string User :=
  fold_left (fun m u => <[ToLower (u_Username u) := u]> m) us ∅.

Definition OpenUserStore (path : string) (mkdir_ok : bool) (f : user_file) : result UserStore user_error :=
  if path ==s "" then Err UErrOpen
  else if negb mkdir_ok then Err UErrOpen
  else match f with
  | UFAbsent | UFEmpty => Ok (mkUserStore ∅ ∅ f)
  | UFUnreadable | UFCorrupt => Err UErrOpen
  | UFDoc docs =>
    match mapM user_of_json (map wire docs) with
    | None => Err UErrOpen
    | Some us => Ok (mkUserStore (load_users us) ∅ f)
    end
  end.

Definition HasAny (s : UserStore) : bool := negb (bool_decide (ust_users s = ∅)).

Section operations.
Context `{MapIter} `{Bcrypt}.

(** [persistLocked]: [ok] is whether the write and the rename succeed. *)
Definition user_persist (ok : bool) (s : UserStore) : UserStore :=
  if ok then mkUserStore (ust_users s) (ust_sessions s) (UFDoc (map user_json (map_values (ust_users s))))
  else s.

Definition with_users (m : gmap string User) (s : UserStore) : UserStore :=
  mkUserStore m (ust_sessions s) (ust_disk s).
Definition with_sessions (m : gmap string userSession) (s : UserStore) : UserStore :=
  mkUserStore (ust_users s) m (ust_disk s).

Definition user_Create (now : Z) (salt : string) (ok : bool) (username password role tenantID : string)
    (s : UserStore) : UserStore * result User user_error :=
  if (username ==s "") || (password ==s "") then (s, Err UErrMissing)
  else if (String.length password <? 8)%nat then (s, Err UErrShort)
  else if (roleRank role =? 0)%nat && (role !=s RoleViewer) then (s, Err (UErrRole role))
  else match bcrypt_generate password salt with
  | None => (s, Err UErrHash)
  | Some hash =>
    let u := mkUser username hash role tenantID now now zero_time in
    let key := ToLower username in
    match ust_users s !! key with
    | Some _ => (s, Err (UErrExists username))
    | None =>
      let s1 := with_users (<[key := u]> (ust_users s)) s in
      if ok then (user_persist true s1, Ok u)
      else (with_users (delete key (ust_users s1)) s1, Err UErrPersist)
    end
  end.

Definition set_LastLogin (now : Z) (u : User) : User :=
  mkUser (u_Username u) (u_PasswordHash u) (u_Role u) (u_TenantID u) (u_CreatedAt u) (u_UpdatedAt u) now.

Definition Authenticate (now : Z) (ok : bool) (username password : string) (s : UserStore)
    : UserStore * result User user_error :=
  match ust_users s !! ToLower username with
  | None => (s, Err UErrCredentials)
  | Some u =>
    if negb (bcrypt_compare (u_PasswordHash u) password) then (s, Err UErrCredentials)
    else
      let u' := set_LastLogin now u in
      (user_persist ok (with_users (<[ToLower username := u']> (ust_users s)) s), Ok u')
  end.

(** [IssueSession]; [token] is the random token it draws. *)
Definition IssueSession (now : Z) (token : string) (u : User) (s : UserStore) : UserStore * (string * Z) :=
  let expiresAt := time_Add now sessionTTL in
  (with_sessions (<[token := mkSession (u_Username u) (u_Role u) (u_TenantID u) expiresAt]> (ust_sessions s)) s,
   (token, expiresAt)).

Definition RevokeSession (token : string) (s : UserStore) : UserStore :=
  with_sessions (delete token (ust_sessions s)) s.

(** The lookup [UsernameForSession] and [LookupSession] share: an expired
    session is evicted. *)
Definition find_session (now : Z) (token : string) (s : UserStore) : UserStore * option userSession :=
  if token ==s "" then (s, None)
  else match ust_sessions s !! token with
  | None => (s, None)
  | Some sess =>
      if time_After now (us_expiresAt sess) then (RevokeSession token s, None)
      else (s, Some sess)
  end.

Definition UsernameForSession (now : Z) (token : string) (s : UserStore) : UserStore * string :=
  let '(s', r) := find_session now token s in
  (s', match r with Some sess => us_username sess | None => "" end).

Definition LookupSession (now : Z) (token : string) (s : UserStore) : UserStore * option (string * string) :=
  let '(s', r) := find_session now token s in
  (s', match r with Some sess => Some (us_role sess, us_tenantID sess) | None => None end).

Definition user_Update (now : Z) (ok : bool) (username role tenantID : string) (s : UserStore)
    : UserStore * option user_error :=
  match ust_users s !! ToLower username with
  | None => (s, Some (UErrNotFound username))
  | Some u =>
    let role' := if role !=s "" then role else u_Role u in
    let tenant' := if (tenantID !=s "") || (role !=s "") then
                     if tenantID ==s "-" then "" else if tenantID !=s "" then tenantID else u_TenantID u
                   else u_TenantID u in
    let u' := mkUser (u_Username u) (u_PasswordHash u) role' tenant' (u_CreatedAt u) now (u_LastLogin u) in
    (user_persist ok (with_users (<[ToLower username := u']> (ust_users s)) s),
     if ok then None else Some UErrPersist)
  end.

Definition user_Delete (ok : bool) (username : string) (s : UserStore) : UserStore * option user_error :=
  let key := ToLower username in
  match ust_users s !! key with
  | None => (s, Some (UErrNotFound username))
  | Some _ =>
    let s1 := mkUserStore (delete key (ust_users s))
                (filter (fun kv => EqualFold (us_username kv.2) username = false) (ust_sessions s)) (ust_disk s) in
    (user_persist ok s1, if ok then None else Some UErrPersist)
  end.

Definition SetPassword (now : Z) (salt : string) (ok : bool) (username password : string) (s : UserStore)
    : UserStore * option user_error :=
  if (String.length password <? 8)%nat then (s, Some UErrShort)
  else match bcrypt_generate password salt with
  | None => (s, Some UErrHash)
  | Some hash =>
    match ust_users s !! ToLower username with
    | None => (s, Some (UErrNotFound username))
    | Some u =>
      let u' := mkUser (u_Username u) hash (u_Role u) (u_TenantID u) (u_CreatedAt u) now (u_LastLogin u) in
      (user_persist ok (with_users (<[ToLower username := u']> (ust_users s)) s),
       if ok then None else Some UErrPersist)
    end
  end.

Definition scrub (u : User) : User :=
  mkUser (u_Username u) "" (u_Role u) (u_TenantID u) (u_CreatedAt u) (u_UpdatedAt u) (u_LastLogin u).
Definition user_List (s : UserStore) : list User := map scrub (map_values (ust_users s)).
End operations.

(** ** Sequences of calls *)

Inductive user_op :=
| UCreate (now : Z) (salt : string) (ok : bool) (username password role tenantID : string)
| UAuthenticate (now : Z) (ok : bool) (username password : string)
| UIssue (now : Z) (token : string) (u : User)
| URevoke (token : string)
| ULookup (now : Z) (token : string)
| UUpdate (now : Z) (ok : bool) (username role tenantID : string)
| UDelete (ok : bool) (username : string)
| USetPassword (now : Z) (salt : string) (ok : bool) (username password : string).

Definition user_run `{MapIter} `{Bcrypt} (s : UserStore) (o : user_op) : UserStore :=
  match o with
  | UCreate now salt ok n p r t => (user_Create now salt ok n p r t s).1
  | UAuthenticate now ok n p => (Authenticate now ok n p s).1
  | UIssue now token u => (IssueSession now token u s).1
  | URevoke token => RevokeSession token s
  | ULookup now token => (LookupSession now token s).1
  | UUpdate now ok n r t => (user_Update now ok n r t s).1
  | UDelete ok n => (user_Delete ok n s).1
  | USetPassword now salt ok n p => (SetPassword now salt ok n p s).1
  end.

(** The call neither logs the session out, nor deletes its user, nor draws its
    token again; lookups happen by time [t]. *)
Definition keeps_session (token name : string) (t : Z) (o : user_op) : bool :=
  match o with
  | UIssue _ token' _ | URevoke token' => token' !=s token
  | UDelete _ n => negb (EqualFold name n)
  | ULookup now _ => (now <=? t)%Z
  | _ => true
  end.

(** ** Lemmas *)

Lemma find_session_users now token us : ust_users (find_session now token us).1 = ust_users us.
Proof.
  unfold find_session. destruct (token ==s ""); [done|].
  destruct (ust_sessions us !! token); [|done]. by destruct (time_After _ _).
Qed.

Section lemmas.
Context `{MapIter} `{Bcrypt}.

Lemma user_persist_maps ok s :
  ust_users (user_persist ok s) = ust_users s /\ ust_sessions (user_persist ok s) = ust_sessions s.
Proof. by destruct ok. Qed.

Lemma lookup_session_maps now token token' s sess :
  ust_sessions s !! token = Some sess -> (now <= us_expiresAt sess)%Z ->
  ust_sessions (LookupSession now token' s).1 !! token = Some sess.
Proof.
  intros Hs Ht. unfold LookupSession, find_session. destruct (token' ==s ""); [done|].
  destruct (ust_sessions s !! token') as [sess'|] eqn:E; [|done].
  unfold time_After. destruct (_ <? _)%Z eqn:El; [|done]. breflect. simpl.
  rewrite lookup_delete_ne; [done|]. intros ->. rewrite Hs in E. injection E as ->. lia.
Qed.

(** A session survives every call that does not end it. *)
Lemma user_run_session s o token t sess :
  ust_sessions s !! token = Some sess -> (t <= us_expiresAt sess)%Z ->
  keeps_session token (us_username sess) t o = true ->
  ust_sessions (user_run s o) !! token = Some sess.
Proof.
  intros Hs Ht Hk. destruct o as [now salt ok n p r tn|now ok n p|now tk u|tk|now tk|now ok n r tn|ok n|now salt ok n p];
    simpl in *; breflect.
  - unfold user_Create. repeat case_match; try done; simpl; by destruct ok.
  - unfold Authenticate. repeat case_match; try done; simpl; by destruct ok.
  - by rewrite lookup_insert_ne.
  - by rewrite lookup_delete_ne.
  - apply lookup_session_maps; [done|lia].
  - unfold user_Update. case_match; [|done]. simpl. by destruct ok.
  - unfold user_Delete. case_match; [|done]. simpl.
    rewrite (proj2 (user_persist_maps _ _)). simpl. apply map_lookup_filter_Some. by split.
  - unfold SetPassword. repeat case_match; try done; simpl; by destruct ok.
Qed.

(** A token that has no session, or an expired one, stays that way. *)
Definition dead (token : string) (t : Z) (s : UserStore) : Prop :=
  match ust_sessions s !! token with Some sess => (us_expiresAt sess < t)%Z | None => True end.

Lemma user_run_dead s o token name t : dead token t s -> keeps_session token name t o = true ->
  dead token t (user_run s o).
Proof.
  unfold dead. intros Hs Hk.
  destruct o as [now salt ok n p r tn|now ok n p|now tk u|tk|now tk|now ok n r tn|ok n|now salt ok n p];
    simpl in *; breflect.
  - unfold user_Create. repeat case_match; simplify_eq/=; try done; by destruct ok; simplify_eq/=.
  - unfold Authenticate. repeat case_match; simplify_eq/=; try done; by destruct ok; simplify_eq/=.
  - by rewrite lookup_insert_ne.
  - by rewrite lookup_delete_ne.
  - unfold LookupSession, find_session. destruct (tk ==s ""); [done|].
    destruct (ust_sessions s !! tk) as [sess'|] eqn:E; [|done].
    destruct (time_After _ _); [|done]. simpl. rewrite lookup_delete. by case_decide.
  - unfold user_Update. repeat case_match; simplify_eq/=; try done; by destruct ok; simplify_eq/=.
  - unfold user_Delete. destruct (ust_users s !! ToLower n); [|done]. simpl.
    rewrite (proj2 (user_persist_maps _ _)). simpl. rewrite map_lookup_filter.
    destruct (ust_sessions s !! token) as [sess|]; [|done]. simpl. by case_guard.
  - unfold SetPassword. repeat case_match; simplify_eq/=; try done; by destruct ok; simplify_eq/=.
Qed.
End lemmas.

(** ** Properties *)

(** A session keeps the privileges of the login.  Whatever calls follow a
    login, other than logging out, deleting the user or drawing the same token
    again, the session's token gives the role and tenant the user had when
    signing in until twelve hours after, and nothing later: changing the
    user's role, tenant or password has no effect on it. *)
Theorem session_frozen `{MapIter} `{Bcrypt} now ok name password s s1 u u0 token ops t :
  ust_users s !! ToLower name = Some u0 ->
  Authenticate now ok name password s = (s1, Ok u) -> token <> "" ->
  forallb (keeps_session token (u_Username u) t) ops = true ->
  let s2 := fold_left user_run ops (IssueSession now token u s1).1 in
  (LookupSession t token s2).2 =
    if (now + sessionTTL <? t)%Z then None else Some (u_Role u0, u_TenantID u0).
Proof.
  intros Hu0 Hau Hne Hk s2.
  assert (u_Role u0 = u_Role u /\ u_TenantID u0 = u_TenantID u) as [-> ->].
  { revert Hau. unfold Authenticate. rewrite Hu0. destruct (negb _); [done|]. by intros [= _ <-]. }
  clear Hau. unfold LookupSession, find_session. rewrite (eqb_neq_s _ _ Hne).
  set (sess := mkSession (u_Username u) (u_Role u) (u_TenantID u) (now + sessionTTL)%Z).
  assert (ust_sessions (IssueSession now token u s1).1 !! token = Some sess) as Hs
    by (simpl; by rewrite lookup_insert_eq).
  destruct (now + sessionTTL <? t)%Z eqn:Et; breflect.
  - assert (dead token t s2) as Hd.
    { subst s2. assert (dead token t (IssueSession now token u s1).1) as Hd by (unfold dead; by rewrite Hs).
      clear Hs. revert Hk Hd. generalize (IssueSession now token u s1).1.
      induction ops as [|o ops IH]; intros s0 Hk Hd; [done|]. simpl in *. breflect.
      apply IH; [done|]. by eapply user_run_dead. }
    unfold dead in Hd. destruct (ust_sessions s2 !! token) as [sess'|]; [|done].
    unfold time_After. by rewrite (proj2 (Z.ltb_lt _ _) Hd).
  - assert (ust_sessions s2 !! token = Some sess) as ->.
    { subst s2. revert Hk Hs. generalize (IssueSession now token u s1).1.
      induction ops as [|o ops IH]; intros s0 Hk Hs; [done|]. simpl in *. breflect.
      apply IH; [done|]. by eapply user_run_session. }
    unfold time_After. simpl. by rewrite (proj2 (Z.ltb_ge _ _) Et).
Qed.

(** Deleting a user ends its access.  However the name is cased, after the
    call no session belongs to it and no password signs it in, even when the
    write to disk fails; other users and their sessions are untouched. *)
Theorem delete_locks_out `{MapIter} `{Bcrypt} ok name s s' e :
  is_Some (ust_users s !! ToLower name) -> user_Delete ok name s = (s', e) ->
  (forall token sess, ust_sessions s' !! token = Some sess -> EqualFold (us_username sess) name = false) /\
  (forall now ok' n password, EqualFold n name = true ->
     Authenticate now ok' n password s' = (s', Err UErrCredentials)) /\
  (forall n, EqualFold n name = false -> ust_users s' !! ToLower n = ust_users s !! ToLower n) /\
  (forall token sess, ust_sessions s !! token = Some sess -> EqualFold (us_username sess) name = false ->
     ust_sessions s' !! token = Some sess).
Proof.
  intros [u Hu]. unfold user_Delete. rewrite Hu. intros [= <- _].
  split_and!.
  - intros token sess. rewrite (proj2 (user_persist_maps _ _)). simpl.
    by intros [_ Hs]%map_lookup_filter_Some.
  - intros now ok' n password Hn. unfold Authenticate. rewrite (proj1 (user_persist_maps _ _)). simpl.
    apply String.eqb_eq in Hn. by rewrite Hn, lookup_delete_eq.
  - intros n Hn. rewrite (proj1 (user_persist_maps _ _)). simpl. apply String.eqb_neq in Hn.
    by rewrite lookup_delete_ne by congruence.
  - intros token sess Hs Hn. rewrite (proj2 (user_persist_maps _ _)). simpl.
    by apply map_lookup_filter_Some.
Qed.

(** ** Witnesses *)

(** A bcrypt that keeps the password in its hash. *)
Definition plain_bcrypt : Bcrypt :=
  {| bcrypt_generate p salt := Some (salt +:+ p);
     bcrypt_compare hash p := hash ==s ("salt" +:+ p) |}.

Definition sample_users : UserStore :=
  (@user_Create canonical_iter plain_bcrypt 1 "salt" true "Alice" "password1" RoleOwner "acme"
     (mkUserStore ∅ ∅ UFAbsent)).1.
Definition sample_user : User := mkUser "Alice" "saltpassword1" RoleOwner "acme" 1 1 5.

Lemma session_frozen_witness :
  let s1 := (@Authenticate canonical_iter plain_bcrypt 5 true "alice" "password1" sample_users).1 in
  (LookupSession 9 "tok"
     (fold_left (@user_run canonical_iter plain_bcrypt) [UUpdate 6 true "alice" RoleViewer "zeta"]
        (IssueSession 5 "tok" sample_user s1).1)).2 = Some ("owner", "acme").
Proof.
  apply (@session_frozen canonical_iter plain_bcrypt 5 true "alice" "password1" sample_users _ sample_user
    (mkUser "Alice" "saltpassword1" RoleOwner "acme" 1 1 zero_time) "tok"
    [UUpdate 6 true "alice" RoleViewer "zeta"] 9);
    [vm_compute; reflexivity|vm_compute; reflexivity|discriminate|reflexivity].
Defined.

Lemma delete_locks_out_witness :
  let s' := (@user_Delete canonical_iter true "ALICE" sample_users).1 in
  @Authenticate canonical_iter plain_bcrypt 9 true "alice" "password1" s' = (s', Err UErrCredentials).
Proof.
  apply (@delete_locks_out canonical_iter plain_bcrypt true "ALICE" sample_users _ None);
    [eexists; vm_compute; reflexivity|reflexivity|reflexivity].
Defined.
