(* ===== verification/Server.v ===== *)
(** * Authentication and tenant scope

    [control-plane/api/api.go] (bearer tokens, [auth], [tenantFor]),
    [rbac.go] (role resolution), [login.go] (sessions) and the session half of
    [oidc.go].  The credentials the server resolves a token against are one
    record; resolving evicts expired sessions and marks stored tokens as used,
    so every function returns the new record.  One request reads the clock
    once. *)

From S2P Require Import Prelude Sha256 Utf8 Rfc3339 Json Event Roles Tokens Users.

(** ** Requests *)

(** The parts of an HTTP request that the handlers read.  [rq_scope] is the
    tenant scope [auth] puts in the context: the forced tenant. *)
Record request := mkReq {
  rq_Method : string;
  rq_Path : string;
  rq_Authorization : string;
  rq_TokenParam : string;
  rq_Cookie : string;
  rq_TenantParam : string;
  rq_scope : option string
}.

Definition with_scope (sc : option string) (r : request) : request :=
  mkReq (rq_Method r) (rq_Path r) (rq_Authorization r) (rq_TokenParam r) (rq_Cookie r) (rq_TenantParam r) sc.

Definition bearer_prefix : string := "Bearer ".
Definition bearerToken (h : string) : string :=
  if (7 <? String.length h)%nat && (str_take 7 h ==s bearer_prefix) then str_drop 7 h else "".

(** The token of a request: header, then query, then session cookie. *)
Definition request_token (r : request) : string :=
  let t := bearerToken (rq_Authorization r) in
  if t !=s "" then t
  else if rq_TokenParam r !=s "" then rq_TokenParam r
  else rq_Cookie r.

(** [tenantFor] *)
Definition tenantFor (r : request) : string :=
  match rq_scope r with Some t => t | None => rq_TenantParam r end.

(** ** Credentials *)

Record oidcSession := mkOidc {
  oi_subject : string;
  oi_email : string;
  oi_role : string;
  oi_expiresAt : Z
}.

(** Pending logins and sessions of the identity provider. *)
Record oidcState := mkOidcState {
  oi_states : gmap string Z;
  oi_sessions : gmap string oidcSession;
  oi_groupRoles : gmap string string;
  oi_defaultRole : string;
  oi_ttl : Z
}.

Record Credentials := mkCreds {
  cr_authToken : string;
  cr_tenantTokens : gmap string string;
  cr_roles : gmap string string;
  cr_oidc : option oidcState;
  cr_users : option UserStore;
  cr_tokenStore : option TokenStore
}.

Definition set_users (u : UserStore) (c : Credentials) : Credentials :=
  mkCreds (cr_authToken c) (cr_tenantTokens c) (cr_roles c) (cr_oidc c) (Some u) (cr_tokenStore c).
Definition set_tokenStore (t : TokenStore) (c : Credentials) : Credentials :=
  mkCreds (cr_authToken c) (cr_tenantTokens c) (cr_roles c) (cr_oidc c) (cr_users c) (Some t).
Definition set_oidc (o : oidcState) (c : Credentials) : Credentials :=
  mkCreds (cr_authToken c) (cr_tenantTokens c) (cr_roles c) (Some o) (cr_users c) (cr_tokenStore c).

(** [SetTenantTokens] and [SetRoleTokens] keep the usable entries. *)
Definition SetTenantTokens (m : gmap string string) (c : Credentials) : Credentials :=
  mkCreds (cr_authToken c) (filter (fun kv => kv.1 <> "") m) (cr_roles c) (cr_oidc c) (cr_users c)
    (cr_tokenStore c).
Definition role_usable (k v : string) : bool :=
  negb ((k ==s "") || ((roleRank v =? 0)%nat && (v !=s RoleViewer))).
Definition SetRoleTokens (m : gmap string string) (c : Credentials) : Credentials :=
  mkCreds (cr_authToken c) (cr_tenantTokens c) (filter (fun kv => role_usable kv.1 kv.2 = true) m)
    (cr_oidc c) (cr_users c) (cr_tokenStore c).

(** The test [auth], [requireRole] and [callerHasRole] share: no credentials
    are configured and every request passes. *)
Definition no_auth (c : Credentials) : bool :=
  (cr_authToken c ==s "") && bool_decide (cr_tenantTokens c = ∅) && bool_decide (cr_roles c = ∅)
  && match cr_users c with None => true | Some u => negb (HasAny u) end.

(** [uiRequiresAuth] *)
Definition uiRequiresAuth (c : Credentials) : bool :=
  (cr_authToken c !=s "") || negb (bool_decide (cr_tenantTokens c = ∅))
  || negb (bool_decide (cr_roles c = ∅)) || match cr_oidc c with Some _ => true | None => false end
  || match cr_users c with Some u => HasAny u | None => false end.

(** ** Sessions of the identity provider *)

(** [roleForSession] *)
Definition roleForSession (now : Z) (token : string) (c : Credentials) : Credentials * string :=
  match cr_oidc c with
  | None => (c, "")
  | Some o =>
    if token ==s "" then (c, "")
    else match oi_sessions o !! token with
    | None => (c, "")
    | Some sess =>
      if time_After now (oi_expiresAt sess)
      then (set_oidc (mkOidcState (oi_states o) (delete token (oi_sessions o)) (oi_groupRoles o)
                        (oi_defaultRole o) (oi_ttl o)) c, "")
      else (c, oi_role sess)
    end
  end.

(** [pickRole] on the decoded [groups] claim, non-strings already skipped. *)
Fixpoint pick_group (groups : list string) (m : gmap string string) : option string :=
  match groups with
  | [] => None
  | g :: gs => match m !! g with Some r => Some r | None => pick_group gs m end
  end.
Definition pickRole (groups : list string) (m : gmap string string) (fallback : string) : string :=
  match pick_group groups m with
  | Some r => r
  | None => if fallback !=s "" then fallback else RoleViewer
  end.

(** [handleOIDCLogin] records the drawn state; [handleOIDCCallback] consumes it
    and, when the provider answers with verified claims, mints a session. *)
Definition oidc_login (now : Z) (state : string) (o : oidcState) : oidcState :=
  mkOidcState (<[state := now]> (oi_states o)) (oi_sessions o) (oi_groupRoles o) (oi_defaultRole o) (oi_ttl o).

Record id_claims := mkClaims { cl_sub : string; cl_email : string; cl_groups : list string }.

Definition oidc_callback (now : Z) (session code state : string) (claims : option id_claims) (o : oidcState)
    : oidcState * option (string * string) :=
  if (code ==s "") || (state ==s "") then (o, None)
  else
    let o1 := mkOidcState (delete state (oi_states o)) (oi_sessions o) (oi_groupRoles o)
                (oi_defaultRole o) (oi_ttl o) in
    match oi_states o !! state, claims with
    | None, _ | _, None => (o1, None)
    | Some _, Some cl =>
      let role := pickRole (cl_groups cl) (oi_groupRoles o) (oi_defaultRole o) in
      (mkOidcState (oi_states o1)
         (<[session := mkOidc (cl_sub cl) (cl_email cl) role (time_Add now (oi_ttl o))]> (oi_sessions o1))
         (oi_groupRoles o) (oi_defaultRole o) (oi_ttl o),
       Some (session, role))
    end.

(** ** Resolving a token *)

(** [s.users.LookupSession] when users are configured. *)
Definition lookup_user_session (now : Z) (token : string) (c : Credentials)
    : Credentials * option (string * string) :=
  match cr_users c with
  | None => (c, None)
  | Some u => let '(u', r) := LookupSession now token u in (set_users u' c, r)
  end.

Definition roleForUserSession (now : Z) (token : string) (c : Credentials) : Credentials * string :=
  let '(c', r) := lookup_user_session now token c in
  (c', match r with Some (role, _) => role | None => "" end).

Section iteration.
Context `{MapIter}.

(** [roleAndTenantForStoreToken]; [ok] is whether the store's write succeeds. *)
Definition roleAndTenantForStoreToken (now : Z) (ok : bool) (secret : string) (c : Credentials)
    : Credentials * option (string * string) :=
  match cr_tokenStore c with
  | None => (c, None)
  | Some ts =>
    let '(ts', r) := token_Lookup now ok secret ts in
    (set_tokenStore ts' c, match r with Some t => Some (t_Role t, t_TenantID t) | None => None end)
  end.

Definition roleForToken (now : Z) (ok : bool) (token : string) (c : Credentials) : Credentials * string :=
  if token ==s "" then (c, "")
  else match cr_roles c !! token with
  | Some r => (c, r)
  | None =>
    if (cr_authToken c !=s "") && (token ==s cr_authToken c) then (c, RoleSuperAdmin)
    else match cr_tenantTokens c !! token with
    | Some _ => (c, RolePolicyAuthor)
    | None =>
      let '(c1, r1) := roleForSession now token c in
      if r1 !=s "" then (c1, r1)
      else let '(c2, r2) := roleForUserSession now token c1 in
      if r2 !=s "" then (c2, r2)
      else let '(c3, r3) := roleAndTenantForStoreToken now ok token c2 in
      (c3, match r3 with Some (role, _) => role | None => "" end)
    end
  end.

(** [auth]: [None] is 401; [Some sc] runs the handler with the scope [sc]. *)
Definition auth (now : Z) (ok : bool) (r : request) (c : Credentials) : Credentials * option (option string) :=
  if no_auth c then (c, Some (rq_scope r))
  else
    let got := request_token r in
    if got ==s "" then (c, None)
    else if (cr_authToken c !=s "") && (got ==s cr_authToken c) then (c, Some (rq_scope r))
    else match cr_tenantTokens c !! got with
    | Some tenant => (c, Some (Some tenant))
    | None =>
      match cr_roles c !! got with
      | Some _ => (c, Some (rq_scope r))
      | None =>
        let '(c1, role) := roleForSession now got c in
        if role !=s "" then (c1, Some (rq_scope r))
        else let '(c2, sess) := lookup_user_session now got c1 in
        match sess with
        | Some (_, tenant) => (c2, Some (if tenant !=s "" then Some tenant else rq_scope r))
        | None =>
          let '(c3, tok) := roleAndTenantForStoreToken now ok got c2 in
          match tok with
          | Some (_, tenant) => (c3, Some (if tenant !=s "" then Some tenant else rq_scope r))
          | None => (c3, None)
          end
        end
      end
    end.

(** [requireRole]: 401, 403, or the handler runs. *)
Inductive role_check := RoleOK | RoleUnauthorized | RoleForbidden (role : string).

Definition requireRole (now : Z) (ok : bool) (min : string) (r : request) (c : Credentials)
    : Credentials * role_check :=
  if no_auth c then (c, RoleOK)
  else
    let '(c1, role) := roleForToken now ok (request_token r) c in
    (c1, if role ==s "" then RoleUnauthorized
         else if (roleRank role <? roleRank min)%nat then RoleForbidden role else RoleOK).

Definition callerHasRole (now : Z) (ok : bool) (r : request) (min : string) (c : Credentials)
    : Credentials * bool :=
  if no_auth c then (c, true)
  else
    let '(c1, role) := roleForToken now ok (request_token r) c in
    (c1, (role !=s "") && (roleRank min <=? roleRank role)%nat).

(** [roleOfRequest] *)
Definition roleOfRequest (now : Z) (ok : bool) (r : request) (c : Credentials) : Credentials * string :=
  roleForToken now ok (request_token r) c.
End iteration.

(** [currentUsername] *)
Definition currentUsername (now : Z) (r : request) (c : Credentials) : Credentials * string :=
  match cr_users c with
  | None => (c, "")
  | Some u => let '(u', n) := UsernameForSession now (request_token r) u in (set_users u' c, n)
  end.

(** ** Signing in and out *)

(** [handleLoginSubmit] after the credentials are decoded: the session token,
    its expiry and the user. *)
Definition login `{MapIter} `{Bcrypt} (now : Z) (ok : bool) (token username password : string) (c : Credentials)
    : Credentials * option (string * Z * User) :=
  match cr_users c with
  | None => (c, None)
  | Some us =>
    match Authenticate now ok username password us with
    | (us1, Err _) => (set_users us1 c, None)
    | (us1, Ok u) =>
      let '(us2, (tok, expires)) := IssueSession now token u us1 in
      (set_users us2 c, Some (tok, expires, u))
    end
  end.

(** [handleLogout] *)
Definition logout (r : request) (c : Credentials) : Credentials :=
  if rq_Cookie r ==s "" then c
  else match cr_users c with
  | None => c
  | Some us => set_users (RevokeSession (rq_Cookie r) us) c
  end.

(** ** Well-formed credentials: every role that is bound is a role *)

Definition roles_bound (c : Credentials) : Prop :=
  (forall k r, cr_roles c !! k = Some r -> r <> "") /\
  (forall u k sess, cr_users c = Some u -> ust_sessions u !! k = Some sess -> us_role sess <> "") /\
  (forall ts id t, cr_tokenStore c = Some ts -> ts_tokens ts !! id = Some t -> t_Role t <> "").

(** ** Lemmas *)

Lemma roleForSession_frame now token c :
  let c' := (roleForSession now token c).1 in
  cr_users c' = cr_users c /\ cr_tokenStore c' = cr_tokenStore c.
Proof.
  unfold roleForSession. destruct (cr_oidc c) as [o|]; [|done].
  destruct (token ==s ""); [done|]. destruct (oi_sessions o !! token) as [s|]; [|done].
  by destruct (time_After _ _).
Qed.

Lemma lookup_user_session_bound now token c role tenant : roles_bound c ->
  (lookup_user_session now token c).2 = Some (role, tenant) -> role <> "".
Proof.
  intros (_ & Hu & _). unfold lookup_user_session, LookupSession, find_session.
  destruct (cr_users c) as [u|] eqn:Eu; [|done]. destruct (token ==s ""); [done|].
  destruct (ust_sessions u !! token) as [sess|] eqn:Es; [|done].
  destruct (time_After _ _); [done|]. simpl. intros [= <- _]. by eapply Hu.
Qed.

Lemma lookup_user_session_frame now token c :
  cr_tokenStore (lookup_user_session now token c).1 = cr_tokenStore c.
Proof.
  unfold lookup_user_session. destruct (cr_users c); [|done]. by destruct (LookupSession _ _ _).
Qed.

Lemma store_token_bound `{MapIter} now ok token c role tenant : roles_bound c ->
  (roleAndTenantForStoreToken now ok token c).2 = Some (role, tenant) -> role <> "".
Proof.
  intros (_ & _ & Ht). unfold roleAndTenantForStoreToken. destruct (cr_tokenStore c) as [ts|] eqn:E; [|done].
  destruct (Lookup_cases now ok token ts) as [->|(id & t & _ & Hid & _ & _ & Hr)]; [done|].
  destruct (token_Lookup now ok token ts) as [ts' res]. simpl in Hr. subst res. simpl.
  intros [= <- _]. by eapply Ht.
Qed.

Lemma roles_bound_frame c c' : cr_roles c' = cr_roles c -> cr_users c' = cr_users c ->
  cr_tokenStore c' = cr_tokenStore c -> roles_bound c -> roles_bound c'.
Proof. unfold roles_bound. by intros -> -> ->. Qed.

Lemma roleForSession_roles now token c : cr_roles (roleForSession now token c).1 = cr_roles c.
Proof.
  unfold roleForSession. destruct (cr_oidc c) as [o|]; [|done].
  destruct (token ==s ""); [done|]. destruct (oi_sessions o !! token) as [s|]; [|done].
  by destruct (time_After _ _).
Qed.

Lemma store_token_frame `{MapIter} now ok token c c' : cr_tokenStore c' = cr_tokenStore c ->
  (roleAndTenantForStoreToken now ok token c').2 = (roleAndTenantForStoreToken now ok token c).2.
Proof.
  unfold roleAndTenantForStoreToken. intros ->. destruct (cr_tokenStore c); [|done].
  by destruct (token_Lookup _ _ _ _).
Qed.

Lemma auth_agrees `{MapIter} now ok r c :
  no_auth c = false -> roles_bound c ->
  (is_Some (auth now ok r c).2 <-> (roleForToken now ok (request_token r) c).2 <> "").
Proof.
  intros Hconf Hb. unfold auth, roleForToken. rewrite Hconf.
  destruct (request_token r ==s "") eqn:Et; [by split; [intros []|]|].
  destruct (cr_roles c !! request_token r) as [role|] eqn:Er.
  { pose proof (proj1 Hb _ _ Er) as Hne. simpl.
    destruct (_ && _); [by split; eauto|]. destruct (cr_tenantTokens c !! _); by split; eauto. }
  destruct (_ && _); [by split; eauto|].
  destruct (cr_tenantTokens c !! _); [by split; eauto|].
  pose proof (roleForSession_frame now (request_token r) c) as [Hfu Hft].
  pose proof (roleForSession_roles now (request_token r) c) as Hfr.
  destruct (roleForSession now (request_token r) c) as [c1 r1]. simpl in *.
  destruct (r1 ==s "") eqn:E1; simpl; breflect; [|by split; eauto].
  pose proof (roles_bound_frame c c1 Hfr Hfu Hft Hb) as Hb1.
  pose proof (lookup_user_session_bound now (request_token r) c1) as Hlb.
  pose proof (lookup_user_session_frame now (request_token r) c1) as Hlf.
  unfold roleForUserSession.
  destruct (lookup_user_session now (request_token r) c1) as [c2 [[role2 tenant2]|]]; simpl in *.
  { specialize (Hlb role2 tenant2 Hb1 eq_refl). rewrite (eqb_neq_s _ _ Hlb). simpl. by split; eauto. }
  pose proof (store_token_frame now ok (request_token r) c c2 ltac:(congruence)) as Hsf.
  pose proof (store_token_bound now ok (request_token r) c) as Hsb.
  destruct (roleAndTenantForStoreToken now ok (request_token r) c2) as [c3 [[role3 tenant3]|]]; simpl in *.
  - rewrite <- Hsf in Hsb. specialize (Hsb role3 tenant3 Hb eq_refl). by split; eauto.
  - split; [by intros []|done].
Qed.

(** ** Properties *)

(** Authentication and role resolution agree.  When some credential is
    configured and every bound role is a role, a request passes [auth] exactly
    when its token resolves to a role: no request is let in that [requireRole]
    would call unauthorized, and no token with a role is turned away. *)
Theorem auth_iff_role `{MapIter} now ok r c :
  no_auth c = false -> roles_bound c ->
  (is_Some (auth now ok r c).2 <-> (roleForToken now ok (request_token r) c).2 <> "").
Proof. apply auth_agrees. Qed.

(** An identity provider or minted tokens alone protect nothing.  With no
    static token, no tenant or role tokens and no user account, every request
    passes [auth] and every role check, whatever the provider's sessions and
    the stored tokens are, although the UI demands a login. *)
Theorem oidc_alone_is_open `{MapIter} now ok r o ts min :
  let c := mkCreds "" ∅ ∅ (Some o) None ts in
  auth now ok r c = (c, Some (rq_scope r)) /\ requireRole now ok min r c = (c, RoleOK) /\
  callerHasRole now ok r min c = (c, true) /\ uiRequiresAuth c = true.
Proof. intros c. split_and!; reflexivity. Qed.

(** ** Witnesses *)

Definition sample_creds : Credentials :=
  mkCreds "root" {["t1" := "acme"]} {["ed" := RoleEditor]} None (Some sample_users) (Some empty_tokens).

Lemma auth_iff_role_witness :
  let r := mkReq "GET" "/v1/events" "Bearer nope" "" "" "" None in
  is_Some (@auth canonical_iter 1 true r sample_creds).2 <->
  (@roleForToken canonical_iter 1 true (request_token r) sample_creds).2 <> "".
Proof.
  intros r. apply auth_iff_role; [reflexivity|]. split; [|split].
  - intros k role. simpl. intros [_ <-]%lookup_singleton_Some. discriminate.
  - intros u k sess [= <-]. assert (ust_sessions sample_users = ∅) as -> by (vm_compute; reflexivity).
    by rewrite lookup_empty.
  - intros ts id t [= <-]. simpl. by rewrite lookup_empty.
Defined.
