(* ===== verification/Mcp.v ===== *)
(** * JSON-RPC envelopes and MCP

    [pkg/mcp/mcp.go] and [pkg/mcp/fields.go]: the envelope of a message, the
    decoding of the calls the sensor looks into, the strings a detector scans,
    and the reply to a blocked request.  A body is the tree its text decodes
    to ([None] when the text is empty or not JSON); a [json.RawMessage] field
    is its tree, absent when the key is. *)

From S2P Require Import Prelude Utf8 Json Event.

(** ** Envelopes *)

Definition JSONRPCVersion : string := "2.0".
Definition MethodToolsList : string := "tools/list".
Definition MethodToolsCall : string := "tools/call".
Definition ErrCodeBlockedByPolicy : Z := -32001.

(** [Error]. *)
Record RpcError := mkRpcError { er_Code : Z; er_Message : string; er_Data : option json }.

(** [Envelope]; [a2a.TaskEnvelope] has the same fields. *)
Record Envelope := mkEnvelope {
  env_JSONRPC : string; env_ID : option json; env_Method : string;
  env_Params : option json; env_Result : option json; env_Error : option RpcError
}.

Definition set_Method (m : string) (e : Envelope) : Envelope :=
  mkEnvelope (env_JSONRPC e) (env_ID e) m (env_Params e) (env_Result e) (env_Error e).

Definition is_some {A} (o : option A) : bool := match o with Some _ => true | None => false end.

Definition IsRequest (e : Envelope) : bool := (env_Method e !=s "") && is_some (env_ID e).
Definition IsNotification (e : Envelope) : bool := (env_Method e !=s "") && negb (is_some (env_ID e)).
Definition IsResponse (e : Envelope) : bool := (env_Method e ==s "") && is_some (env_ID e).

(** ** Parsing *)

Inductive parse_error :=
| ErrEmptyOrSyntax
| ErrShape
| ErrVersion (v : string).

(** The [error] member: null leaves the pointer nil. *)
Definition error_of_json (v : option json) : option (option RpcError) :=
  match v with
  | None | Some JNull => Some None
  | Some (JObj o) =>
      code ← get_int min_int64 max_int64 "code" o; message ← get_str "message" o;
      Some (Some (mkRpcError code message (obj_get "data" o)))
  | Some _ => None
  end.

(** Unmarshal into the struct; null leaves it zero. *)
Definition envelope_of_json (v : json) : option Envelope :=
  match v with
  | JNull => Some (mkEnvelope "" None "" None None None)
  | JObj o =>
      jsonrpc ← get_str "jsonrpc" o; method ← get_str "method" o; err ← error_of_json (obj_get "error" o);
      Some (mkEnvelope jsonrpc (obj_get "id" o) method (obj_get "params" o) (obj_get "result" o) err)
  | _ => None
  end.

(** [Parse]. *)
Definition mcp_Parse (body : option json) : result Envelope parse_error :=
  match body with
  | None => Err ErrEmptyOrSyntax
  | Some v =>
    match envelope_of_json v with
    | None => Err ErrShape
    | Some env =>
        if (env_JSONRPC env !=s "") && (env_JSONRPC env !=s JSONRPCVersion)
        then Err (ErrVersion (env_JSONRPC env)) else Ok env
    end
  end.

(** The elements of a batch, up to the first that does not parse. *)
Fixpoint parse_elements (j : nat) (raws : list json) : list Envelope * option (nat * parse_error) :=
  match raws with
  | [] => ([], None)
  | raw :: raws' =>
      match mcp_Parse (Some raw) with
      | Err e => ([], Some (j, e))
      | Ok env => let '(envs, err) := parse_elements (S j) raws' in (env :: envs, err)
      end
  end.

Inductive batch_error :=
| ErrBatchSyntax
| ErrElement (j : nat) (e : parse_error)
| ErrSingle (e : parse_error).

(** [ParseBatch]: the envelopes, whether the text is a batch, and the error;
    [bracket] says that the first character of the text after white space is
    an opening bracket. *)
Definition ParseBatch (bracket : bool) (body : option json) : list Envelope * bool * option batch_error :=
  if bracket then
    match body with
    | Some (JArr raws) =>
        let '(envs, err) := parse_elements 0 raws in
        (envs, true, (fun '(j, e) => ErrElement j e) <$> err)
    | _ => ([], true, Some ErrBatchSyntax)
    end
  else match mcp_Parse body with
       | Err e => ([], false, Some (ErrSingle e))
       | Ok env => ([env], false, None)
       end.

Definition IsNotificationMethod (method : string) : bool :=
  if method ==s "" then false else HasPrefix method "notifications/".

(** ** Decoding calls *)

Record ToolCallParams := mkToolCall { tc_Name : string; tc_Arguments : list (string * json) }.
Record ToolDescription := mkToolDescription {
  td_Name : string; td_Description : string; td_InputSchema : list (string * json)
}.

(** [DecodeToolCallParams]; [None] is an error. *)
Definition DecodeToolCallParams (e : Envelope) : option ToolCallParams :=
  if env_Method e !=s MethodToolsCall then None
  else match env_Params e with
  | None => None
  | Some v =>
    match wire v with
    | JObj o =>
        name ← get_str "name" o; arguments ← get_map "arguments" o;
        if name ==s "" then None else Some (mkToolCall name arguments)
    | _ => None
    end
  end.

Definition tool_of_json (v : json) : option ToolDescription :=
  match v with
  | JNull => Some (mkToolDescription "" "" [])
  | JObj o =>
      name ← get_str "name" o; description ← get_str "description" o; schema ← get_map "inputSchema" o;
      Some (mkToolDescription name description schema)
  | _ => None
  end.

(** [DecodeToolsListResult]: the tools. *)
Definition DecodeToolsListResult (e : Envelope) : option (list ToolDescription) :=
  match env_Result e with
  | None => None
  | Some v =>
    match wire v with
    | JNull => Some []
    | JObj o => get_arr "tools" o ≫= mapM tool_of_json
    | _ => None
    end
  end.

(** [BlockedResponse]: the tree of the reply. *)
Definition BlockedResponse (id : option json) (reason : string) : json :=
  let reason := if reason ==s "" then "blocked by hopframe policy" else reason in
  JObj (fields
    [ always "jsonrpc" (JStr JSONRPCVersion); omitempty "id" (negb (is_some id)) (default JNull id);
      always "error" (JObj (fields [ always "code" (JNum (dec_string ErrCodeBlockedByPolicy));
                                     always "message" (JStr reason) ])) ]).

(** ** Inspectable fields *)

Definition joinPath (parent child : string) : string :=
  if parent ==s "" then child else parent +:+ "." +:+ child.

Section extract.
Context `{MapIter}.

(** [walkValue]: the string leaves below [path]; an object is visited in the
    order of the map. *)
Fixpoint walkValue (path : string) (v : json) : list Field :=
  match v with
  | JStr s => [mkField path s]
  | JObj kvs =>
      flat_map snd (map_iter (list_to_map (map (fun '(k, child) => (k, walkValue (joinPath path k) child)) kvs)))
  | JArr l =>
      (fix go (i : nat) (l : list json) : list Field :=
         match l with
         | [] => []
         | child :: l' => walkValue (joinPath path (dec_string (Z.of_nat i))) child ++ go (S i) l'
         end) 0%nat l
  | _ => []
  end.

(** [ExtractFields], [ExtractTaskFields]. *)
Definition ExtractFields (e : Envelope) : list Field :=
  match env_Params e with Some v => walkValue "params" (wire v) | None => [] end
  ++ match env_Result e with Some v => walkValue "result" (wire v) | None => [] end
  ++ match env_Error e with
     | Some er => if er_Message er !=s "" then [mkField "error.message" (er_Message er)] else []
     | None => []
     end.
End extract.

(** [strings.Trim(s, quote)]. *)
Fixpoint trim_quotes_left (s : string) : string :=
  match s with
  | String c s' => if Ascii.eqb c quote then trim_quotes_left s' else s
  | EmptyString => EmptyString
  end.
Fixpoint trim_quotes_right (s : string) : string :=
  match s with
  | EmptyString => EmptyString
  | String c s' =>
      match trim_quotes_right s' with
      | EmptyString => if Ascii.eqb c quote then EmptyString else String c EmptyString
      | t => String c t
      end
  end.

(** A member decoded into a map, when it is an object. *)
Definition map_member (v : option json) : list (string * json) :=
  match v with
  | Some v => match wire v with JObj o => o | _ => [] end
  | None => []
  end.

(** [MessageFromEnvelope], [MessageFromTaskEnvelope]. *)
Definition MessageFromEnvelope (e : Envelope) (raw : string) : Message :=
  mkMessage
    (match env_ID e with Some v => trim_quotes_right (trim_quotes_left (marshal v)) | None => "" end)
    (env_Method e) (map_member (env_Params e)) (map_member (env_Result e))
    (match env_Error e with
     | Some er => [("code", JNum (dec_string (er_Code er))); ("message", JStr (er_Message er))]
     | None => []
     end) raw.

(** ** The leaves of a tree *)

(** [leaf path v name s]: walking [v] from [path] reaches the string [s] under
    the dotted name [name]. *)
Inductive leaf : string -> json -> string -> string -> Prop :=
| leaf_str path s : leaf path (JStr s) path s
| leaf_obj path kvs k v name s :
    (k, v) ∈ kvs -> leaf (joinPath path k) v name s -> leaf path (JObj kvs) name s
| leaf_arr path l i v name s :
    l !! i = Some v -> leaf (joinPath path (dec_string (Z.of_nat i))) v name s -> leaf path (JArr l) name s.

Lemma keys_sorted_cons_lt {A} k (v : A) l k' v' :
  keys_sorted ((k, v) :: l) = true -> (k', v') ∈ l -> string_less k k' = true.
Proof.
  revert k v. induction l as [|[k2 v2] l IH]; intros k v Hs Hin; [by apply elem_of_nil in Hin|].
  cbn [keys_sorted] in Hs. apply andb_true_iff in Hs as [Hlt Hs].
  apply elem_of_cons in Hin as [[= -> ->]|Hin]; [done|].
  eapply string_less_trans; [exact Hlt|]. by eapply (IH k2 v2).
Qed.

Lemma keys_sorted_NoDup {A} (l : list (string * A)) : keys_sorted l = true -> NoDup l.*1.
Proof.
  induction l as [|[k v] l IH]; intros Hs; cbn; [constructor|]. apply NoDup_cons. split.
  - intros ([k' v'] & Hk & Hin)%list_elem_of_fmap. cbn [fst] in Hk. subst k'.
    pose proof (keys_sorted_cons_lt k v l k v' Hs Hin) as Hlt. by rewrite string_less_irrefl in Hlt.
  - apply IH. cbn [keys_sorted] in Hs. by apply andb_true_iff in Hs as [_ ?].
Qed.

Section walk.
Context `{MapIter}.

Definition walk_list (path : string) : nat -> list json -> list Field :=
  fix go (i : nat) (l : list json) : list Field :=
    match l with
    | [] => []
    | child :: l' => walkValue (joinPath path (dec_string (Z.of_nat i))) child ++ go (S i) l'
    end.

Lemma elem_of_walk_list path i l f :
  f ∈ walk_list path i l <->
  exists j v, l !! j = Some v /\ f ∈ walkValue (joinPath path (dec_string (Z.of_nat (i + j)))) v.
Proof.
  revert i. induction l as [|v l IH]; intros i; cbn [walk_list].
  - split; [by intros ?%elem_of_nil|by intros (? & ? & ? & _)].
  - rewrite elem_of_app, IH. split.
    + intros [Hf|(j & w & Hj & Hf)].
      * exists 0%nat, v. by rewrite Nat.add_0_r.
      * exists (S j), w. split; [done|]. by rewrite Nat.add_succ_r.
    + intros ([|j] & w & Hj & Hf); cbn in Hj.
      * injection Hj as ->. left. by rewrite Nat.add_0_r in Hf.
      * right. exists j, w. split; [done|]. by rewrite Nat.add_succ_r in Hf.
Qed.

Lemma elem_of_walk_obj path kvs f : keys_sorted kvs = true ->
  f ∈ walkValue path (JObj kvs) <-> exists k v, (k, v) ∈ kvs /\ f ∈ walkValue (joinPath path k) v.
Proof.
  intros Hs. cbn [walkValue]. rewrite list_elem_of_In, in_flat_map. setoid_rewrite <- list_elem_of_In.
  set (kfs := map _ kvs). assert (NoDup kfs.*1) as Hnd.
  { assert (kfs.*1 = kvs.*1) as ->; [|by apply keys_sorted_NoDup].
    unfold kfs. clear. induction kvs as [|[k v] kvs IH]; [done|]. cbn. by f_equal. }
  split.
  - intros ([k fs] & Hin & Hf). rewrite map_iter_perm in Hin. apply elem_of_map_to_list in Hin.
    apply elem_of_list_to_map_2 in Hin. unfold kfs in Hin. apply list_elem_of_fmap in Hin as ([k' v] & [= -> ->] & Hin).
    by exists k', v.
  - intros (k & v & Hin & Hf). exists (k, walkValue (joinPath path k) v). split; [|done].
    rewrite map_iter_perm. apply elem_of_map_to_list, elem_of_list_to_map_1; [done|].
    unfold kfs. apply list_elem_of_fmap. by exists (k, v).
Qed.

Lemma walkValue_leaf path v name s : canonical v = true ->
  mkField name s ∈ walkValue path v <-> leaf path v name s.
Proof.
  revert path. induction v as [|b|n|t|l IH|kvs IH] using json_nested_ind; intros path Hc;
    try (split; [by intros ?%elem_of_nil|by inversion 1]).
  - cbn. rewrite list_elem_of_singleton. split; [intros [= -> ->]; constructor|by inversion 1].
  - change (walkValue path (JArr l)) with (walk_list path 0 l). rewrite elem_of_walk_list. cbn [Nat.add].
    cbn [canonical] in Hc. rewrite forallb_forall in Hc. rewrite Forall_forall in IH. split.
    + intros (j & v & Hj & Hf). eapply leaf_arr; [exact Hj|].
      apply list_elem_of_lookup_2 in Hj. apply IH; [done| |done]. apply Hc. by apply list_elem_of_In.
    + inversion 1 as [| |? ? i v ? ? Hi Hl]; simplify_eq. exists i, v. split; [done|].
      apply list_elem_of_lookup_2 in Hi. apply IH; [done| |done]. apply Hc. by apply list_elem_of_In.
  - cbn [canonical] in Hc. apply andb_true_iff in Hc as [Hs Hc]. rewrite elem_of_walk_obj by done.
    rewrite forallb_forall in Hc. rewrite Forall_forall in IH. split.
    + intros (k & v & Hin & Hf). eapply leaf_obj; [exact Hin|].
      apply (IH (k, v)); [done| |done]. by apply (Hc (k, v)), list_elem_of_In.
    + inversion 1 as [|? ? k v ? ? Hin Hl|]; simplify_eq. exists k, v. split; [done|].
      apply (IH (k, v)); [done| |done]. by apply (Hc (k, v)), list_elem_of_In.
Qed.

(** ** Theorems *)

(** Nothing a detector should see is lost: the fields of an envelope are
    exactly the string leaves of its params and of its result, at any depth,
    under their dotted paths, and its error message. *)
Theorem ExtractFields_spec e name s :
  mkField name s ∈ ExtractFields e <->
  (exists v, env_Params e = Some v /\ leaf "params" (wire v) name s) \/
  (exists v, env_Result e = Some v /\ leaf "result" (wire v) name s) \/
  (exists er, env_Error e = Some er /\ er_Message er = s /\ s <> "" /\ name = "error.message").
Proof.
  unfold ExtractFields. rewrite !elem_of_app.
  assert (forall path (o : option json),
    mkField name s ∈ match o with Some v => walkValue path (wire v) | None => [] end
    <-> exists v, o = Some v /\ leaf path (wire v) name s) as Hm.
  { intros path [v|].
    - rewrite walkValue_leaf by apply canonical_wire. naive_solver.
    - split; [by intros ?%elem_of_nil|by intros (? & ? & _)]. }
  rewrite !Hm. destruct (env_Error e) as [er|].
  - destruct (er_Message er ==s "") eqn:E; breflect; cbn [negb].
    + rewrite elem_of_nil. naive_solver.
    + rewrite list_elem_of_singleton. naive_solver.
  - rewrite elem_of_nil. naive_solver.
Qed.
End walk.
