(* ===== verification/A2a.v ===== *)
(** * Agent cards

    [pkg/a2a]: decoding and validation of agent cards, the canonical text a
    card's signature is over, the strings scanned on a card, and the store of
    trusted issuers.  Task envelopes are those of [Mcp], whose [Parse],
    [ExtractFields] and [MessageFromEnvelope] have the same bodies as
    [ParseTask], [ExtractTaskFields] and [MessageFromTaskEnvelope].  Ed25519
    and the PEM reader are parameters. *)

From S2P Require Import Prelude Utf8 Json Event Normalize Mcp.

(** ** Cards *)

Record Provider := mkProvider { pv_Organization : string; pv_URL : string }.
Record Capabilities := mkCapabilities { cp_Streaming : bool; cp_Push : bool; cp_History : bool }.
Record Skill := mkSkill {
  sk_ID : string; sk_Name : string; sk_Description : string;
  sk_Tags : list string; sk_InputModes : list string; sk_OutputModes : list string
}.
Record AgentCard := mkCard {
  cd_Name : string; cd_Description : string; cd_URL : string; cd_Provider : option Provider; cd_Version : string;
  cd_Capabilities : option Capabilities; cd_Skills : list Skill; cd_DocumentationURL : string;
  cd_Authentication : list (string * json); cd_Signature : string
}.

(** *** Decoding *)

Definition get_bool (k : string) (o : list (string * json)) : option bool :=
  match obj_get k o with
  | None | Some JNull => Some false
  | Some (JBool b) => Some b
  | _ => None
  end.

(** One element of a [[]string]. *)
Definition string_elem (v : json) : option string :=
  match v with JStr s => Some s | JNull => Some "" | _ => None end.
Definition get_strings (k : string) (o : list (string * json)) : option (list string) :=
  get_arr k o ≫= mapM string_elem.

(** A pointer to a struct: null leaves it nil. *)
Definition get_ptr {A} (dec : list (string * json) -> option A) (k : string) (o : list (string * json))
    : option (option A) :=
  match obj_get k o with
  | None | Some JNull => Some None
  | Some (JObj m) => Some <$> dec m
  | _ => None
  end.

Definition provider_of (o : list (string * json)) : option Provider :=
  org ← get_str "organization" o; url ← get_str "url" o; Some (mkProvider org url).
Definition capabilities_of (o : list (string * json)) : option Capabilities :=
  s ← get_bool "streaming" o; p ← get_bool "pushNotifications" o; h ← get_bool "stateTransitionHistory" o;
  Some (mkCapabilities s p h).
Definition skill_of (v : json) : option Skill :=
  match v with
  | JNull => Some (mkSkill "" "" "" [] [] [])
  | JObj o =>
      id ← get_str "id" o; name ← get_str "name" o; description ← get_str "description" o;
      tags ← get_strings "tags" o; inp ← get_strings "inputModes" o; out ← get_strings "outputModes" o;
      Some (mkSkill id name description tags inp out)
  | _ => None
  end.

Definition card_of_json (v : json) : option AgentCard :=
  match wire v with
  | JNull => Some (mkCard "" "" "" None "" None [] "" [] "")
  | JObj o =>
      name ← get_str "name" o; description ← get_str "description" o; url ← get_str "url" o;
      provider ← get_ptr provider_of "provider" o; version ← get_str "version" o;
      capabilities ← get_ptr capabilities_of "capabilities" o;
      skills ← get_arr "skills" o ≫= mapM skill_of;
      doc ← get_str "documentationUrl" o; authentication ← get_map "authentication" o;
      signature ← get_str "signature" o;
      Some (mkCard name description url provider version capabilities skills doc authentication signature)
  | _ => None
  end.

Inductive card_error := ErrCardSyntax | ErrCardShape | ErrCardName.

(** [ParseCard]. *)
Definition ParseCard (body : option json) : result AgentCard card_error :=
  match body with
  | None => Err ErrCardSyntax
  | Some v =>
    match card_of_json v with
    | None => Err ErrCardShape
    | Some c => if cd_Name c ==s "" then Err ErrCardName else Ok c
    end
  end.

(** *** Canonical text *)

(** [canonicalJSON]: the keys of each map collected and sorted, then printed
    one after the other. *)
Fixpoint canonicalJSON (v : json) : string :=
  match v with
  | JObj kvs =>
      let printed := map (fun '(k, x) => (k, canonicalJSON x)) kvs in
      "{" +:+ join "," (map (fun '(k, child) => marshal_string k +:+ ":" +:+ child)
                         (sort_stable (less_key fst) printed)) +:+ "}"
  | JArr l => "[" +:+ join "," (map canonicalJSON l) +:+ "]"
  | _ => marshal v
  end.

(** [delete(generic, k)]. *)
Definition obj_delete {A} (k : string) (o : list (string * A)) : list (string * A) :=
  filter (fun kv => kv.1 <> k) o.

(** The canonical text of a body that decodes to a map. *)
Definition card_canonical (raw : option json) : option string :=
  match raw with
  | Some v =>
    match wire v with
    | JObj o => Some (canonicalJSON (JObj (obj_delete "signature" o)))
    | JNull => Some "{}"
    | _ => None
    end
  | None => None
  end.

(** *** Validation *)

Record CardValidationResult := mkValidation {
  vd_Errors : list string; vd_Warnings : list string; vd_Canonical : option string; vd_SignaturePresent : bool
}.

(** The warning of the skill at index [i]. *)
Fixpoint skill_warnings (i : nat) (l : list Skill) : list string :=
  match l with
  | [] => []
  | sk :: l' =>
      (if (sk_ID sk ==s "") && (sk_Name sk ==s "")
       then ["skill[" +:+ dec_string (Z.of_nat i) +:+ "] has neither id nor name"] else [])
      ++ skill_warnings (S i) l'
  end.

(** [ValidateCard]. *)
Definition ValidateCard (card : option AgentCard) (raw : option json) : CardValidationResult :=
  match card with
  | None => mkValidation ["card is nil"] [] None false
  | Some c =>
      mkValidation
        (if TrimSpaceU (cd_Name c) ==s "" then ["name is empty"] else [])
        ((if (cd_URL c !=s "") && negb (HasPrefix (cd_URL c) "https://") && negb (HasPrefix (cd_URL c) "http://")
          then ["url is not http(s)"] else [])
         ++ (if cd_Version c ==s "" then ["version is empty"] else [])
         ++ (if is_nil (cd_Skills c) then ["no skills declared"] else [])
         ++ skill_warnings 0 (cd_Skills c))
        (card_canonical raw) (cd_Signature c !=s "")
  end.

Definition ErrInvalidCard (r : CardValidationResult) : option string :=
  if is_nil (vd_Errors r) then None else Some ("a2a: invalid card: " +:+ join "; " (vd_Errors r)).

(** *** Scanned strings *)

Definition field_if (name value : string) : list Field := if value !=s "" then [mkField name value] else [].

Fixpoint tag_fields (base : string) (j : nat) (tags : list string) : list Field :=
  match tags with
  | [] => []
  | tag :: tags' => mkField (base +:+ ".tags." +:+ dec_string (Z.of_nat j)) tag :: tag_fields base (S j) tags'
  end.

Fixpoint skill_fields (i : nat) (skills : list Skill) : list Field :=
  match skills with
  | [] => []
  | sk :: skills' =>
      let base := "card.skills." +:+ dec_string (Z.of_nat i) in
      field_if (base +:+ ".name") (sk_Name sk) ++ field_if (base +:+ ".description") (sk_Description sk)
      ++ tag_fields base 0 (sk_Tags sk) ++ skill_fields (S i) skills'
  end.

Definition ExtractCardFields (card : option AgentCard) : list Field :=
  match card with
  | None => []
  | Some c =>
      field_if "card.name" (cd_Name c) ++ field_if "card.description" (cd_Description c)
      ++ field_if "card.url" (cd_URL c)
      ++ match cd_Provider c with Some p => field_if "card.provider.organization" (pv_Organization p) | None => [] end
      ++ skill_fields 0 (cd_Skills c)
  end.

(** ** Trusted issuers *)

Class Ed25519 := { ed25519_Verify : string -> string -> string -> bool }.

(** [TrustStore]: public keys by issuer. *)
Definition TrustStore : Type := gmap string string.
Definition NewTrustStore : TrustStore := ∅.
Definition trust_Add (issuer key : string) (t : TrustStore) : TrustStore := <[issuer := key]> t.
Definition trust_Get (issuer : string) (t : TrustStore) : option string := t !! issuer.
Definition trust_Len (t : TrustStore) : nat := size t.

Inductive trust_error :=
| ErrNilCard
| ErrNoSignature
| ErrNoIssuer
| ErrUnknownIssuer (issuer : string)
| ErrDecodeSignature
| ErrDoesNotVerify.

Definition cardIssuer (card : AgentCard) : string :=
  match cd_Provider card with Some p => pv_Organization p | None => "" end.

(** The decoders skip line breaks. *)
Fixpoint drop_breaks (s : string) : string :=
  match s with
  | EmptyString => EmptyString
  | String c s' => if Ascii.eqb c "010" || Ascii.eqb c "013" then drop_breaks s' else String c (drop_breaks s')
  end.

Definition signature_prefix : string := "ed25519:".

Definition decodeSignature (s : string) : option string :=
  let s := if HasPrefix s signature_prefix then str_drop (String.length signature_prefix) s else s in
  head (omap (fun '(url, padded) => b64_decode url padded (drop_breaks s)) [(false, true); (false, false); (true, false)]).

Definition VerifyCard `{Ed25519} (card : option AgentCard) (canonical : string) (t : TrustStore) : result unit trust_error :=
  match card with
  | None => Err ErrNilCard
  | Some c =>
    if cd_Signature c ==s "" then Err ErrNoSignature
    else
      let issuer := cardIssuer c in
      if issuer ==s "" then Err ErrNoIssuer
      else match trust_Get issuer t with
      | None => Err (ErrUnknownIssuer issuer)
      | Some key =>
        match decodeSignature (cd_Signature c) with
        | None => Err ErrDecodeSignature
        | Some sig => if negb (ed25519_Verify key canonical sig) then Err ErrDoesNotVerify else Ok tt
        end
      end
  end.

(** A PEM block: its type and its bytes. *)
Record pem_block := mkPem { pem_Type : string; pem_Bytes : string }.

Definition PublicKeySize : nat := 32.

(** [parseEd25519PublicKeyPEM] on what [pem.Decode] found. *)
Definition parseEd25519PublicKeyPEM (block : option pem_block) : option string :=
  match block with
  | None => None
  | Some b =>
      if (pem_Type b !=s "PUBLIC KEY") && (pem_Type b !=s "ED25519 PUBLIC KEY") then None
      else if (String.length (pem_Bytes b) =? PublicKeySize)%nat then Some (pem_Bytes b)
      else if (PublicKeySize <? String.length (pem_Bytes b))%nat
      then Some (str_drop (String.length (pem_Bytes b) - PublicKeySize) (pem_Bytes b))
      else None
  end.

(** A directory entry: its name without extension, whether it is a [.pem]
    file, and its block when it can be read. *)
Record trust_entry := mkEntryFile { te_Stem : string; te_Pem : bool; te_Read : option (option pem_block) }.

(** [LoadDir]: the store after the entries, and whether all of them loaded;
    an error stops the loop. *)
Fixpoint trust_LoadDir (entries : list trust_entry) (t : TrustStore) : TrustStore * bool :=
  match entries with
  | [] => (t, true)
  | e :: entries' =>
      if negb (te_Pem e) then trust_LoadDir entries' t
      else match te_Read e ≫= parseEd25519PublicKeyPEM with
           | None => (t, false)
           | Some key => trust_LoadDir entries' (trust_Add (te_Stem e) key t)
           end
  end.

(** ** Lemmas on canonical text *)

Lemma sort_sorted_id {A} (l : list (string * A)) : keys_sorted l = true -> sort_stable (less_key fst) l = l.
Proof.
  induction l as [|[k v] l IH]; intros Hs; [done|]. cbn [sort_stable foldr]. fold (sort_stable (less_key fst) l).
  rewrite IH by (cbn [keys_sorted] in Hs; by apply andb_true_iff in Hs as [_ ?]).
  destruct l as [|[k' v'] l]; [done|]. cbn [insert_stable]. unfold less_key. cbn [fst].
  cbn [keys_sorted] in Hs. apply andb_true_iff in Hs as [Hlt _].
  by rewrite (string_less_asym _ _ Hlt).
Qed.

Lemma keys_sorted_map {A B} (f : A -> B) (l : list (string * A)) :
  keys_sorted (map (fun '(k, x) => (k, f x)) l) = keys_sorted l.
Proof. induction l as [|[k v] l IH]; [done|]. cbn. rewrite IH. by destruct l as [|[? ?] ?]. Qed.

Lemma canonicalJSON_marshal v : canonical v = true -> canonicalJSON v = marshal v.
Proof.
  induction v as [|b|n|t|l IH|kvs IH] using json_nested_ind; intros Hc; try done.
  - cbn [canonicalJSON marshal canonical] in *. do 3 f_equal.
    induction IH as [|v l Hv _ IHl]; [done|]. cbn in *. breflect. by rewrite Hv, IHl.
  - cbn [canonicalJSON marshal canonical] in *. apply andb_true_iff in Hc as [Hs Hc].
    rewrite sort_sorted_id by (by rewrite keys_sorted_map). do 3 f_equal. clear Hs.
    induction IH as [|[k v] l Hv _ IHl]; [done|]. cbn in *. breflect. by rewrite Hv, IHl.
Qed.

Lemma obj_get_sorted_head {A} k (v : A) l k' : keys_sorted ((k, v) :: l) = true ->
  string_less k' k = true -> obj_get k' ((k, v) :: l) = None.
Proof.
  intros Hs Hlt. apply obj_get_None. intros ([k2 v2] & -> & Hin)%list_elem_of_fmap. cbn [fst] in *.
  apply elem_of_cons in Hin as [[= -> ->]|Hin].
  - by rewrite string_less_irrefl in Hlt.
  - pose proof (keys_sorted_cons_lt _ _ _ _ _ Hs Hin) as H2.
    pose proof (string_less_trans _ _ _ Hlt H2) as H3. by rewrite string_less_irrefl in H3.
Qed.

(** Sorted objects with the same members are the same. *)
Lemma sorted_ext {A} (a b : list (string * A)) : keys_sorted a = true -> keys_sorted b = true ->
  (forall k, obj_get k a = obj_get k b) -> a = b.
Proof.
  revert b. induction a as [|[k v] a IH]; intros [|[k' v'] b] Ha Hb Hab; [done|..].
  - specialize (Hab k'). cbn in Hab. by rewrite eqb_refl_s in Hab.
  - specialize (Hab k). cbn in Hab. by rewrite eqb_refl_s in Hab.
  - assert (k = k') as <-.
    { apply string_less_total.
      - destruct (string_less k k') eqn:E; [|done]. specialize (Hab k).
        rewrite (obj_get_sorted_head k' v' b k Hb E) in Hab. cbn in Hab. by rewrite eqb_refl_s in Hab.
      - destruct (string_less k' k) eqn:E; [|done]. specialize (Hab k').
        rewrite (obj_get_sorted_head k v a k' Ha E) in Hab. cbn in Hab. by rewrite eqb_refl_s in Hab. }
    pose proof (Hab k) as Hk. cbn in Hk. rewrite eqb_refl_s in Hk. injection Hk as <-. f_equal.
    assert (forall {B} (l : list (string * B)) w, keys_sorted ((k, w) :: l) = true -> obj_get k l = None) as Hno.
    { intros B l w Hl. apply obj_get_None. intros ([k2 v2] & Hk2 & Hin)%list_elem_of_fmap. cbn in Hk2. subst k2.
      pose proof (keys_sorted_cons_lt _ _ _ _ _ Hl Hin) as Hlt. by rewrite string_less_irrefl in Hlt. }
    apply IH.
    + cbn [keys_sorted] in Ha. by apply andb_true_iff in Ha as [_ ?].
    + cbn [keys_sorted] in Hb. by apply andb_true_iff in Hb as [_ ?].
    + intros k2. specialize (Hab k2). cbn in Hab. destruct (k2 ==s k) eqn:E; [|done]. breflect. subst k2.
      by rewrite (Hno _ a v Ha), (Hno _ b v Hb).
Qed.

Lemma obj_get_delete {A} k k' (o : list (string * A)) :
  obj_get k (obj_delete k' o) = if k ==s k' then None else obj_get k o.
Proof.
  unfold obj_delete. induction o as [|[k2 v] o IH]; [by destruct (k ==s k')|]. rewrite filter_cons. cbn [fst].
  case_decide as Hk.
  - cbn. rewrite IH. destruct (k ==s k2) eqn:E; [|done]. breflect. subst k2. by rewrite (eqb_neq_s _ _ Hk).
  - rewrite IH. subst k2. cbn. by destruct (k ==s k').
Qed.

Lemma keys_sorted_delete {A} k (o : list (string * A)) : keys_sorted o = true -> keys_sorted (obj_delete k o) = true.
Proof.
  induction o as [|[k2 v] o IH]; intros Hs; [done|]. unfold obj_delete. rewrite filter_cons. fold (obj_delete k o).
  assert (keys_sorted o = true) as Hs' by (cbn [keys_sorted] in Hs; by apply andb_true_iff in Hs as [_ ?]).
  specialize (IH Hs'). case_decide; [|done]. cbn [keys_sorted]. rewrite IH, andb_true_r.
  destruct (obj_delete k o) as [|[k3 v3] l] eqn:E; [done|].
  assert ((k3, v3) ∈ o) as Hin.
  { assert ((k3, v3) ∈ obj_delete k o) as Hin by (rewrite E; apply elem_of_cons; by left).
    unfold obj_delete in Hin. by apply list_elem_of_filter in Hin as [_ ?]. }
  by eapply keys_sorted_cons_lt.
Qed.

Lemma canonical_obj_delete k o : canonical (JObj o) = true -> canonical (JObj (obj_delete k o)) = true.
Proof.
  cbn [canonical]. intros [Hs Hc]%andb_true_iff. rewrite keys_sorted_delete by done. cbn [andb].
  rewrite forallb_forall in *. intros [k2 v] Hin. apply list_elem_of_In in Hin.
  unfold obj_delete in Hin. apply list_elem_of_filter in Hin as [_ Hin]. apply (Hc (k2, v)). by apply list_elem_of_In.
Qed.

(** ** Theorems *)

(** The canonical text of a card is what json.Marshal prints for the body
    read back without its signature member; so it does not depend on the order
    of members in the text, nor on the signature: two bodies whose other
    members agree have the same canonical text. *)
Theorem card_canonical_spec v o :
  wire v = JObj o ->
  card_canonical (Some v) = Some (marshal (JObj (obj_delete "signature" o))) /\
  forall v' o', wire v' = JObj o' -> (forall k, k <> "signature" -> obj_get k o' = obj_get k o) ->
    card_canonical (Some v') = card_canonical (Some v).
Proof.
  intros Hv. assert (forall v o, wire v = JObj o -> canonical (JObj o) = true) as Hcan.
  { intros w p Hw. rewrite <- Hw. apply canonical_wire. }
  split.
  - unfold card_canonical. rewrite Hv. f_equal. apply canonicalJSON_marshal, canonical_obj_delete. by eapply Hcan.
  - intros v' o' Hv' Hsame. unfold card_canonical. rewrite Hv, Hv'. do 3 f_equal.
    apply sorted_ext.
    + apply keys_sorted_delete. pose proof (Hcan _ _ Hv') as Hc. cbn [canonical] in Hc. by apply andb_true_iff in Hc as [? _].
    + apply keys_sorted_delete. pose proof (Hcan _ _ Hv) as Hc. cbn [canonical] in Hc. by apply andb_true_iff in Hc as [? _].
    + intros k. rewrite !obj_get_delete. destruct (k ==s "signature") eqn:E; [done|]. breflect. by apply Hsame.
Qed.

(** ** Witnesses *)

Definition sample_card : json :=
  JObj [("url", JStr "https://peer"); ("name", JStr "billing"); ("signature", JStr "AAAA")].

Lemma card_canonical_spec_witness :
  card_canonical (Some sample_card)
    = Some (marshal (JObj (obj_delete "signature" [("name", JStr "billing"); ("signature", JStr "AAAA");
                                                    ("url", JStr "https://peer")]))) /\
  forall v' o', wire v' = JObj o' ->
    (forall k, k <> "signature" -> obj_get k o' = obj_get k
       [("name", JStr "billing"); ("signature", JStr "AAAA"); ("url", JStr "https://peer")]) ->
    card_canonical (Some v') = card_canonical (Some sample_card).
Proof. apply (card_canonical_spec sample_card). reflexivity. Defined.
