(* ===== verification/Taint.v ===== *)
(** * Cross-protocol taint

    [pkg/taint/taint.go]: the tracker of tagged values per agent run, the
    fingerprints of a value and the matching of a candidate against them;
    [control-plane/api/taint.go] and [pkg/policy/client/taint.go]: sharing
    taints between sensors through the control plane. *)

From S2P Require Import Prelude Sha256 Utf8 Json Event PolicyClient Normalize.

(** ** Data *)

(** [Source]. *)
Record Source := mkSource { src_Protocol : string; src_Method : string; src_Tool : string; src_Field : string }.

Record Taint := mkTaint {
  ta_ID : string; ta_Source : Source; ta_Fingerprints : gset string; ta_Sample : string; ta_CreatedAt : Z
}.
Definition no_source : Source := mkSource "" "" "" "".
(** [Taint{}]. *)
Definition no_taint : Taint := mkTaint "" no_source ∅ "" zero_time.

(** [Remote]: what a match request answers; a push is an output of [Tag]. *)
Record Remote := mkRemote { remote_Match : string -> list string -> option Taint }.

Record Tracker := mkTracker {
  byRun : gmap string (list Taint); maxPerRun : Z; maxRuns : Z; ttl : Z; remote : option Remote
}.

Definition set_byRun (m : gmap string (list Taint)) (t : Tracker) : Tracker :=
  mkTracker m (maxPerRun t) (maxRuns t) (ttl t) (remote t).

Definition SetRemote (r : option Remote) (t : Tracker) : Tracker :=
  mkTracker (byRun t) (maxPerRun t) (maxRuns t) (ttl t) r.

Definition taint_New (ttl maxPerRun maxRuns : Z) : Tracker :=
  mkTracker ∅ (if (maxPerRun <=? 0)%Z then 64 else maxPerRun)
    (if (maxRuns <=? 0)%Z then 1024 else maxRuns) ttl None.

(** ** Fingerprints *)

Definition shingleWidth : nat := 24.

(** [hex.EncodeToString(sum[:])[:32]]. *)
Definition fingerprint (b : string) : string := str_take 32 (hex (sha256 b)).

(** [b[i : i+shingleWidth]] for every [i] with [i+shingleWidth <= len(b)]. *)
Fixpoint windows (b : string) : list string :=
  match b with
  | EmptyString => []
  | String _ b' => if (shingleWidth <=? String.length b)%nat then str_take shingleWidth b :: windows b' else []
  end.

Definition addShingles (out : gset string) (value : string) : gset string :=
  let b := TrimSpaceU value in
  if (String.length b =? 0)%nat then out
  else if (String.length b <=? shingleWidth)%nat then {[fingerprint b]} ∪ out
  else fold_left (fun out w => {[fingerprint w]} ∪ out) (windows b) out.

Definition truncate (s : string) (n : nat) : string :=
  if (String.length s <=? n)%nat then s
  else str_take n s +:+ encode_rune 0x2026.

(** The id of a taint minted at [now]. *)
Definition newID (now : Z) : string :=
  let b := foldr String "" (map (fun i => chr (Z.to_N (Z.land (Z.shiftr now (8 * Z.of_nat i)) 255))) (seq 0 8)) in
  "t-" +:+ str_take 12 (hex (sha256 b)).

(** [for fp := range set]. *)
Definition set_iter `{MapIter} (X : gset string) : list string := map fst (map_iter (gset_to_gmap tt X)).

Definition FingerprintList `{MapIter} (ta : Taint) : list string := set_iter (ta_Fingerprints ta).

Section views.
Context `{Unicode}.

Definition canonicalViews (value : string) : list string :=
  NormalizeForDetection value :: map NormalizeForDetection (ExtractBase64Candidates value).

Definition shingleSet (value : string) : gset string := fold_left addShingles (canonicalViews value) ∅.
End views.

(** ** Operations *)

(** The newest creation time of a run; [ts[0]] must exist. *)
Definition newest_of (ts : list Taint) : option Z :=
  match ts with
  | [] => None
  | ta :: _ => Some (fold_left (fun n x => if time_After (ta_CreatedAt x) n then ta_CreatedAt x else n) ts (ta_CreatedAt ta))
  end.

(** The last taints, at most [maxPerRun]. *)
Definition keep_last (n : Z) (ts : list Taint) : list Taint :=
  if (n <? Z.of_nat (length ts))%Z then drop (Z.to_nat (Z.of_nat (length ts) - n)) ts else ts.

Section operations.
Context `{MapIter}.

(** One round of the search: [(oldestRun, oldestNewest)], [None] while [first]. *)
Definition evict_scan (best : option (string * Z)) (e : string * list Taint) : option (string * Z) :=
  match newest_of e.2 with
  | None => best
  | Some newest =>
    match best with
    | Some (_, oldest) => if time_Before newest oldest then Some (e.1, newest) else best
    | None => Some (e.1, newest)
    end
  end.

Definition evictIfFull (t : Tracker) : Tracker :=
  if (Z.of_nat (size (byRun t)) <? maxRuns t)%Z then t
  else match fold_left evict_scan (map_iter (byRun t)) None with
       | Some (run, _) => if run ==s "" then t else set_byRun (delete run (byRun t)) t
       | None => t
       end.

(** What [Tag] and [TagFingerprints] share: evict, then record the taint. *)
Definition record_taint (agentRun : string) (ta : Taint) (t : Tracker) : Tracker :=
  let t := evictIfFull t in
  set_byRun (<[agentRun := keep_last (maxPerRun t) (default [] (byRun t !! agentRun) ++ [ta])]> (byRun t)) t.

Definition TagFingerprints (now : Z) (agentRun : string) (src : Source) (sample : string) (fps : list string)
    (t : Tracker) : Tracker * Taint :=
  if (agentRun ==s "") || is_nil fps then (t, no_taint)
  else
    let ta := mkTaint (newID now) src (list_to_set fps) (truncate sample 80) now in
    (record_taint agentRun ta t, ta).

(** [None] is a read of [ts[0]] of an empty run. *)
Definition sweep_step (cutoff : Z) (acc : option (gmap string (list Taint) * nat)) (e : string * list Taint)
    : option (gmap string (list Taint) * nat) :=
  '(m, dropped) ← acc;
  newest ← newest_of e.2;
  Some (if time_Before newest cutoff then (delete e.1 m, S dropped) else (m, dropped)).

Definition Sweep (now : Z) (t : Tracker) : option (Tracker * nat) :=
  if (ttl t <=? 0)%Z then Some (t, 0%nat)
  else
    '(m, dropped) ← fold_left (sweep_step (time_Add now (- ttl t))) (map_iter (byRun t)) (Some (byRun t, 0%nat));
    Some (set_byRun m t, dropped).

Definition taint_List (agentRun : string) (t : Tracker) : list Taint := default [] (byRun t !! agentRun).

Definition Forget (agentRun : string) (t : Tracker) : Tracker * bool :=
  match byRun t !! agentRun with
  | Some _ => (set_byRun (delete agentRun (byRun t)) t, true)
  | None => (t, false)
  end.

(** [Stats]: runs and taints. *)
Definition taint_Stats (t : Tracker) : nat * nat :=
  (size (byRun t), fold_left (fun n e => (n + length e.2)%nat) (map_iter (byRun t)) 0%nat).

Definition matchLocal (agentRun : string) (shingles : gset string) (t : Tracker) : option Taint :=
  List.find (fun ta => existsb (fun fp => bool_decide (fp ∈ ta_Fingerprints ta)) (set_iter shingles))
    (default [] (byRun t !! agentRun)).

Definition MatchFingerprints (agentRun : string) (fps : list string) (t : Tracker) : option Taint :=
  if (agentRun ==s "") || is_nil fps then None
  else matchLocal agentRun (list_to_set fps) t.

Context `{Unicode}.

(** The tracker, the taint, and the push to the shared backend. *)
Definition Tag (now : Z) (agentRun : string) (src : Source) (value : string) (t : Tracker)
    : Tracker * Taint * option (string * Taint) :=
  if (agentRun ==s "") || (TrimSpaceU value ==s "") then (t, no_taint, None)
  else
    let ta := mkTaint (newID now) src (shingleSet value) (truncate value 80) now in
    (record_taint agentRun ta t, ta,
     match remote t with Some _ => Some (agentRun, ta) | None => None end).

Definition Match (agentRun value : string) (t : Tracker) : option Taint :=
  if (agentRun ==s "") || (value ==s "") then None
  else
    let shingles := shingleSet value in
    match matchLocal agentRun shingles t with
    | Some ta => Some ta
    | None => match remote t with
              | Some r => remote_Match r agentRun (set_iter shingles)
              | None => None
              end
    end.

Fixpoint MatchAny (agentRun : string) (values : list string) (t : Tracker) : option Taint :=
  match values with
  | [] => None
  | v :: values' => match Match agentRun v t with Some ta => Some ta | None => MatchAny agentRun values' t end
  end.
End operations.

(** ** Sharing through the control plane

    Request and response bodies are the trees their texts decode to; the text
    of a body is [marshal] of its tree. *)

Definition source_fields (s : Source) : list (string * bool * json) :=
  [ always "protocol" (JStr (src_Protocol s)); always "method" (JStr (src_Method s));
    str_field "tool" (src_Tool s); str_field "field" (src_Field s) ].
Definition source_json (s : Source) : json := JObj (fields (source_fields s)).

Definition source_of_json (o : list (string * json)) : option Source :=
  p ← get_str "protocol" o; m ← get_str "method" o; t ← get_str "tool" o; f ← get_str "field" o;
  Some (mkSource p m t f).

(** One element of a [[]string]; null leaves the zero value. *)
Definition str_of_json (v : json) : option string :=
  match v with JStr s => Some s | JNull => Some "" | _ => None end.

Definition get_strs (k : string) (o : list (string * json)) : option (list string) :=
  get_arr k o ≫= mapM str_of_json.

(** [taintRegisterBody], [taintMatchBody]. *)
Definition register_body_fields `{MapIter} (agentRun : string) (ta : Taint) : list (string * bool * json) :=
  [ always "agent_run" (JStr agentRun); always "source" (source_json (ta_Source ta));
    str_field "sample" (ta_Sample ta);
    always "fingerprints" (JArr (map JStr (FingerprintList ta))) ].
Definition match_body_fields (agentRun : string) (fps : list string) : list (string * bool * json) :=
  [ always "agent_run" (JStr agentRun); always "fingerprints" (JArr (map JStr fps)) ].

(** [http.MaxBytesReader(w, r.Body, 1<<20)]: the decoder reads the whole value. *)
Definition max_body : N := 0x100000.
Definition decode_body (v : json) : option (list (string * json)) :=
  if (max_body <? N.of_nat (String.length (marshal v)))%N then None
  else match wire v with
       | JObj o => Some o
       | JNull => Some []
       | _ => None
       end.

(** [handleTaintRegister] on a POST with the body [v]: the registry and the
    status code. *)
Definition handleTaintRegister `{MapIter} (now : Z) (v : json) (taints : option Tracker) : option Tracker * Z :=
  match taints with
  | None => (taints, 503%Z)
  | Some t =>
    match o ← decode_body v;
          run ← get_str "agent_run" o; m ← get_map "source" o; src ← source_of_json m;
          sample ← get_str "sample" o; fps ← get_strs "fingerprints" o;
          Some (run, src, sample, fps) with
    | None => (taints, 400%Z)
    | Some (run, src, sample, fps) =>
        if (run ==s "") || is_nil fps then (taints, 400%Z)
        else (Some (TagFingerprints now run src sample fps t).1, 204%Z)
    end
  end.

(** [taintMatchResp]. *)
Record taintMatchResp := mkResp { tr_Hit : bool; tr_ID : string; tr_Source : Source; tr_Sample : string }.

(** [handleTaintMatch] on a POST: a verdict, or the status of an error. *)
Definition handleTaintMatch `{MapIter} (v : json) (taints : option Tracker) : reply taintMatchResp :=
  match taints with
  | None => Body (mkResp false "" no_source "")
  | Some t =>
    match o ← decode_body v;
          run ← get_str "agent_run" o; fps ← get_strs "fingerprints" o; Some (run, fps) with
    | None => Status 400
    | Some (run, fps) =>
        match MatchFingerprints run fps t with
        | None => Body (mkResp false "" no_source "")
        | Some hit => Body (mkResp true (ta_ID hit) (ta_Source hit) (ta_Sample hit))
        end
    end
  end.

(** [TaintSync.Push]: the body of the request. *)
Definition sync_Push `{MapIter} (agentRun : string) (ta : Taint) : json :=
  JObj (fields (register_body_fields agentRun ta)).

(** [TaintSync.Match], [exchange] answering the request. *)
Definition sync_Match (baseURL : string) (exchange : json -> reply taintMatchResp)
    (agentRun : string) (fps : list string) : option Taint :=
  if is_nil fps then None
  else match PolicyClient.request baseURL (exchange (JObj (fields (match_body_fields agentRun fps)))) with
       | Ok r => if tr_Hit r then Some (mkTaint (tr_ID r) (tr_Source r) ∅ (tr_Sample r) zero_time) else None
       | Err _ => None
       end.

(** The remote of a sensor whose requests reach the control plane's registry. *)
Definition TaintSync `{MapIter} (baseURL : string) (taints : option Tracker) : Remote :=
  mkRemote (sync_Match baseURL (fun v => handleTaintMatch v taints)).

(** ** Lemmas on fingerprints *)

#[local] Opaque sha256.

(** The texts [addShingles] hashes. *)
Definition hashed_parts (value : string) : list string :=
  let b := TrimSpaceU value in
  if (String.length b =? 0)%nat then []
  else if (String.length b <=? shingleWidth)%nat then [b] else windows b.

Lemma elem_of_fold_add (fp : string) ws (out : gset string) :
  fp ∈ fold_left (fun out w => {[fingerprint w]} ∪ out) ws out
  <-> fp ∈ out \/ exists w, w ∈ ws /\ fp = fingerprint w.
Proof.
  revert out. induction ws as [|w ws IH]; intros out; cbn [fold_left].
  - split; [by left|]. by intros [?|(? & ?%elem_of_nil & _)].
  - rewrite IH, elem_of_union, elem_of_singleton. setoid_rewrite elem_of_cons. naive_solver.
Qed.

Lemma elem_of_addShingles fp out value :
  fp ∈ addShingles out value <-> fp ∈ out \/ exists w, w ∈ hashed_parts value /\ fp = fingerprint w.
Proof.
  rewrite <- elem_of_fold_add. unfold addShingles, hashed_parts.
  destruct (_ =? 0)%nat; [done|]. by destruct (_ <=? _)%nat.
Qed.

Lemma elem_of_fold_views fp views out :
  fp ∈ fold_left addShingles views out
  <-> fp ∈ out \/ exists v w, v ∈ views /\ w ∈ hashed_parts v /\ fp = fingerprint w.
Proof.
  revert out. induction views as [|v views IH]; intros out; cbn [fold_left].
  - split; [by left|]. by intros [?|(? & ? & ?%elem_of_nil & _)].
  - rewrite IH, elem_of_addShingles. split.
    + intros [[?|(w & ? & ?)]|(v' & w & ? & ?)]; [by left|right..].
      * exists v, w. split; [apply elem_of_cons; by left|done].
      * exists v', w. split; [apply elem_of_cons; by right|done].
    + intros [?|(v' & w & [->|?]%elem_of_cons & ? & ?)]; [by left; left| |].
      * left. right. by exists w.
      * right. by exists v', w.
Qed.

Lemma elem_of_shingleSet `{Unicode} fp value :
  fp ∈ shingleSet value
  <-> exists v w, v ∈ canonicalViews value /\ w ∈ hashed_parts v /\ fp = fingerprint w.
Proof.
  unfold shingleSet. rewrite elem_of_fold_views. split; [|by right].
  intros [?%elem_of_empty|?]; done.
Qed.

Lemma windows_app a x b : String.length x = shingleWidth -> x ∈ windows (a +:+ x +:+ b).
Proof.
  intros Hx. induction a as [|c a IH].
  - rewrite sapp_nil_l. destruct x as [|c x]; [done|]. rewrite sapp_cons. cbn [windows].
    rewrite (proj2 (Nat.leb_le _ _)) by (rewrite <- sapp_cons, sapp_length; lia).
    apply elem_of_cons. left. by rewrite <- Hx, <- sapp_cons, str_take_app.
  - rewrite sapp_cons. cbn [windows].
    rewrite (proj2 (Nat.leb_le _ _)) by (rewrite <- sapp_cons, !sapp_length; lia).
    apply elem_of_cons. by right.
Qed.

Lemma hashed_parts_app v a x b :
  TrimSpaceU v = a +:+ x +:+ b -> String.length x = shingleWidth -> x ∈ hashed_parts v.
Proof.
  intros Hv Hx. unfold hashed_parts. rewrite Hv, !sapp_length, Hx.
  rewrite (proj2 (Nat.eqb_neq _ _)) by (unfold shingleWidth; lia).
  destruct (_ <=? _)%nat eqn:E; [|by apply windows_app]. breflect.
  destruct a; [|cbn [String.length] in E; lia]. destruct b; [|cbn [String.length] in E; lia].
  rewrite sapp_nil_l, sapp_nil_r. by apply list_elem_of_singleton.
Qed.

Lemma hashed_parts_nonempty v : TrimSpaceU v <> "" -> exists w, w ∈ hashed_parts v.
Proof.
  intros Hv. unfold hashed_parts. destruct (TrimSpaceU v) as [|c b]; [done|]. cbn [String.length Nat.eqb].
  destruct (_ <=? _)%nat eqn:E; [by eexists; apply list_elem_of_singleton|]. breflect.
  exists (str_take shingleWidth (String c b)). cbn [windows].
  rewrite (proj2 (Nat.leb_le _ _)) by (cbn [String.length]; lia). apply elem_of_cons. by left.
Qed.

Lemma elem_of_set_iter `{MapIter} fp X : fp ∈ set_iter X <-> fp ∈ X.
Proof.
  unfold set_iter. rewrite list_elem_of_fmap. setoid_rewrite map_iter_perm. split.
  - intros ([k []] & -> & Hin%elem_of_map_to_list). by apply lookup_gset_to_gmap_Some in Hin as [? _].
  - intros Hin. exists (fp, tt). split; [done|]. apply elem_of_map_to_list. by apply lookup_gset_to_gmap_Some.
Qed.

Lemma list_to_set_iter `{MapIter} X : (list_to_set (set_iter X) : gset string) = X.
Proof. apply leibniz_equiv. intros fp. by rewrite elem_of_list_to_set, elem_of_set_iter. Qed.

(** ** Lemmas on matching *)

Section matching.
Context `{MapIter}.

Lemma shares_true X ta :
  existsb (fun fp => bool_decide (fp ∈ ta_Fingerprints ta)) (set_iter X) = true
  <-> exists fp, fp ∈ X /\ fp ∈ ta_Fingerprints ta.
Proof.
  rewrite existsb_exists. split.
  - intros (fp & Hin & Hfp%bool_decide_eq_true). exists fp. split; [|done].
    by apply elem_of_set_iter, list_elem_of_In.
  - intros (fp & Hin & Hfp). exists fp. split; [|by apply bool_decide_eq_true].
    by apply list_elem_of_In, elem_of_set_iter.
Qed.

Lemma matchLocal_Some run X t ta : matchLocal run X t = Some ta ->
  ta ∈ taint_List run t /\ exists fp, fp ∈ X /\ fp ∈ ta_Fingerprints ta.
Proof.
  unfold matchLocal. intros Hf. apply List.find_some in Hf as [Hin Hs].
  split; [by apply list_elem_of_In|by apply shares_true].
Qed.

Lemma matchLocal_hit run X t ta fp :
  ta ∈ taint_List run t -> fp ∈ X -> fp ∈ ta_Fingerprints ta -> exists ta', matchLocal run X t = Some ta'.
Proof.
  intros Hin HX Hta. unfold matchLocal. fold (taint_List run t).
  destruct (List.find _ _) as [ta'|] eqn:E; [by exists ta'|]. exfalso.
  eapply List.find_none in E; [|by apply list_elem_of_In].
  enough (existsb (fun fp => bool_decide (fp ∈ ta_Fingerprints ta)) (set_iter X) = true) by congruence.
  apply shares_true. by exists fp.
Qed.

Lemma keep_last_last n ts ta : (1 <= n)%Z -> ta ∈ keep_last n (ts ++ [ta]).
Proof.
  intros Hn. unfold keep_last. destruct (_ <? _)%Z eqn:E; [|set_solver]. breflect.
  rewrite length_app in *. cbn [length] in *.
  rewrite drop_app_le by lia. set_solver.
Qed.

Lemma set_byRun_fields m t :
  maxPerRun (set_byRun m t) = maxPerRun t /\ maxRuns (set_byRun m t) = maxRuns t
  /\ remote (set_byRun m t) = remote t /\ ttl (set_byRun m t) = ttl t /\ byRun (set_byRun m t) = m.
Proof. done. Qed.

Lemma evictIfFull_fields t :
  maxPerRun (evictIfFull t) = maxPerRun t /\ maxRuns (evictIfFull t) = maxRuns t
  /\ remote (evictIfFull t) = remote t /\ ttl (evictIfFull t) = ttl t.
Proof. unfold evictIfFull. repeat case_match; done. Qed.

Lemma record_taint_listed run ta t : (1 <= maxPerRun t)%Z -> ta ∈ taint_List run (record_taint run ta t).
Proof.
  intros Hn. unfold taint_List, record_taint. cbn [set_byRun byRun]. rewrite lookup_insert_eq.
  apply keep_last_last. by destruct (evictIfFull_fields t) as [-> _].
Qed.
End matching.

(** ** Lemmas on eviction *)

Lemma newest_of_Some ts : ts <> [] -> exists n, newest_of ts = Some n.
Proof. destruct ts; [done|]. by eexists. Qed.

Lemma evict_scan_spec l best :
  match fold_left evict_scan l best with
  | Some (r, n) =>
      (best = Some (r, n) \/ exists ts, (r, ts) ∈ l /\ newest_of ts = Some n) /\
      (forall r' n', best = Some (r', n') -> (n <= n')%Z) /\
      (forall r' ts' n', (r', ts') ∈ l -> newest_of ts' = Some n' -> (n <= n')%Z)
  | None => best = None /\ forall r' ts', (r', ts') ∈ l -> newest_of ts' = None
  end.
Proof.
  revert best. induction l as [|[r0 ts0] l IH]; intros best; cbn [fold_left].
  { destruct best as [[r n]|]; [|by split; [|intros ? ? ?%elem_of_nil]].
    split_and!; [by left|intros ? ? [= -> ->]; lia|by intros ? ? ? ?%elem_of_nil]. }
  specialize (IH (evict_scan best (r0, ts0))).
  destruct (fold_left evict_scan l _) as [[r n]|].
  - destruct IH as (Hwhere & Hbest & Hl). unfold evict_scan in Hwhere, Hbest. cbn [fst snd] in *.
    assert (forall n', newest_of ts0 = Some n' -> (n <= n')%Z) as H0.
    { intros n' Hn. rewrite Hn in Hbest. destruct best as [[rb nb]|]; [|by eapply Hbest].
      destruct (time_Before n' nb) eqn:E; [by eapply Hbest|]. unfold time_Before in E. breflect.
      specialize (Hbest _ _ eq_refl). lia. }
    split_and!.
    + destruct Hwhere as [Hb|(ts & ? & ?)]; [|right; exists ts; split; [apply elem_of_cons; by right|done]].
      destruct (newest_of ts0) as [n0|] eqn:E0; [|by left].
      destruct best as [[rb nb]|]; [destruct (time_Before n0 nb); [|by left]|].
      all: injection Hb as -> ->; right; exists ts0; split; [apply elem_of_cons; by left|done].
    + intros r' n' ->. destruct (newest_of ts0) as [n0|] eqn:E0; [|by eapply Hbest].
      destruct (time_Before n0 n') eqn:E; [|by eapply Hbest]. unfold time_Before in E. breflect.
      specialize (Hbest _ _ eq_refl). lia.
    + intros r' ts' n' [[= -> ->]|?]%elem_of_cons Hn; [by apply H0|by eapply Hl].
  - destruct IH as [Hb Hl]. unfold evict_scan in Hb. cbn [fst snd] in Hb.
    destruct (newest_of ts0) as [n0|] eqn:E0.
    { destruct best as [[rb nb]|]; [destruct (time_Before n0 nb)|]; done. }
    split; [done|]. intros r' ts' [[= -> ->]|?]%elem_of_cons; [done|by eapply Hl].
Qed.

(** The table as the operations keep it: no more than [maxRuns] runs, each
    with a name and between one and [maxPerRun] taints. *)
Definition run_ok (maxPerRun : Z) (run : string) (ts : list Taint) : Prop :=
  run <> "" /\ ts <> [] /\ (Z.of_nat (length ts) <= maxPerRun)%Z.

Definition tracker_ok (t : Tracker) : Prop :=
  (1 <= maxPerRun t)%Z /\ (1 <= maxRuns t)%Z /\ (Z.of_nat (size (byRun t)) <= maxRuns t)%Z /\
  map_Forall (run_ok (maxPerRun t)) (byRun t).

Section eviction.
Context `{MapIter}.

Lemma elem_of_map_iter {V} (m : gmap string V) k v : (k, v) ∈ map_iter m <-> m !! k = Some v.
Proof. rewrite map_iter_perm. apply elem_of_map_to_list. Qed.

(** On a full table, exactly one run goes: one whose newest taint is oldest. *)
Lemma evictIfFull_full t : tracker_ok t -> ~ (Z.of_nat (size (byRun t)) < maxRuns t)%Z ->
  exists run ts n, byRun t !! run = Some ts /\ newest_of ts = Some n /\
    evictIfFull t = set_byRun (delete run (byRun t)) t /\
    forall run' ts' n', byRun t !! run' = Some ts' -> newest_of ts' = Some n' -> (n <= n')%Z.
Proof.
  intros (Hp & Hr & Hsz & Hall) Hfull. unfold evictIfFull.
  rewrite (proj2 (Z.ltb_ge _ _)) by lia.
  pose proof (evict_scan_spec (map_iter (byRun t)) None) as Hscan.
  destruct (fold_left evict_scan _ _) as [[run n]|].
  - destruct Hscan as ([?|(ts & Hin & Hn)] & _ & Hmin); [done|]. apply elem_of_map_iter in Hin.
    destruct (Hall _ _ Hin) as (Hne & _). rewrite (eqb_neq_s _ _ Hne).
    exists run, ts, n. split_and!; [done..|]. intros r' ts' n' Hl. apply elem_of_map_iter in Hl. by eapply Hmin.
  - destruct Hscan as [_ Hnone]. exfalso.
    destruct (map_choose (byRun t)) as (run & ts & Hin).
    { intros E. rewrite E, map_size_empty in Hfull. lia. }
    destruct (Hall _ _ Hin) as (_ & Hne & _). destruct (newest_of_Some ts Hne) as [n Hn].
    apply elem_of_map_iter in Hin. rewrite (Hnone _ _ Hin) in Hn. done.
Qed.

Lemma evictIfFull_room t : (Z.of_nat (size (byRun t)) < maxRuns t)%Z -> evictIfFull t = t.
Proof. intros Hlt. unfold evictIfFull. by rewrite (proj2 (Z.ltb_lt _ _)). Qed.

Lemma evictIfFull_ok t : tracker_ok t ->
  tracker_ok (evictIfFull t) /\ (Z.of_nat (size (byRun (evictIfFull t))) < maxRuns t)%Z.
Proof.
  intros Hok. pose proof Hok as (Hp & Hr & Hsz & Hall).
  destruct (decide (Z.of_nat (size (byRun t)) < maxRuns t)%Z) as [Hlt|Hfull].
  { by rewrite evictIfFull_room. }
  destruct (evictIfFull_full t Hok Hfull) as (run & ts & n & Hin & _ & -> & _).
  assert (size (delete run (byRun t)) = Nat.pred (size (byRun t))) as Hd by (by rewrite map_size_delete, Hin).
  assert (0 < size (byRun t))%nat by (apply Nat.neq_0_lt_0, map_size_non_empty_iff; intros E; by rewrite E in Hin).
  unfold tracker_ok. cbn [set_byRun byRun maxPerRun maxRuns]. rewrite Hd. split_and!; [lia..| |lia].
  by apply map_Forall_delete.
Qed.

Lemma keep_last_length n ts : (1 <= n)%Z -> ts <> [] ->
  keep_last n ts <> [] /\ (Z.of_nat (length (keep_last n ts)) <= n)%Z.
Proof.
  intros Hn Hts. unfold keep_last. destruct (_ <? _)%Z eqn:E; breflect; [|done].
  rewrite length_drop. split; [|lia]. intros Hnil%(f_equal length). rewrite length_drop in Hnil. simpl in Hnil. lia.
Qed.

Lemma record_taint_ok run ta t : run <> "" -> tracker_ok t -> tracker_ok (record_taint run ta t).
Proof.
  intros Hrun Hok. destruct (evictIfFull_ok t Hok) as [(Hp & Hr & Hsz & Hall) Hlt].
  unfold record_taint. set (t' := evictIfFull t) in *.
  unfold tracker_ok. cbn [set_byRun byRun maxPerRun maxRuns]. split_and!; [done..| |].
  - rewrite map_size_insert. destruct (evictIfFull_fields t) as (_ & Hmr & _). fold t' in Hmr.
    case_match; unfold id; lia.
  - apply map_Forall_insert_2; [|done]. split; [done|]. apply keep_last_length; [done|].
    by destruct (default [] _).
Qed.

Lemma sweep_fold cutoff l m d :
  (forall e, e ∈ l -> e.2 <> []) -> exists d', fold_left (sweep_step cutoff) l (Some (m, d)) =
    Some (foldl (fun m e => match newest_of e.2 with
                            | Some n => if time_Before n cutoff then delete e.1 m else m
                            | None => m end) m l, d').
Proof.
  revert m d. induction l as [|e l IH]; intros m d Hne; [by exists d|]. cbn [fold_left].
  unfold sweep_step at 2. cbn [mbind option_bind].
  destruct (newest_of_Some e.2) as [n Hn]; [apply Hne, elem_of_cons; by left|]. rewrite Hn. cbn [mbind option_bind].
  assert (forall x, x ∈ l -> x.2 <> []) as Hne' by (intros x Hx; apply Hne, elem_of_cons; by right).
  cbn [foldl]. rewrite Hn. destruct (time_Before n cutoff); by apply IH.
Qed.

Lemma sweep_sub cutoff l (m : gmap string (list Taint)) :
  foldl (fun m e => match newest_of e.2 with
                    | Some n => if time_Before n cutoff then delete e.1 m else m
                    | None => m end) m l ⊆ m.
Proof.
  revert m. induction l as [|e l IH]; intros m; [done|]. cbn [foldl].
  etrans; [apply IH|]. repeat case_match; [apply delete_subseteq|done..].
Qed.

Lemma Sweep_ok now t : tracker_ok t -> exists t' d, Sweep now t = Some (t', d) /\ tracker_ok t'
  /\ maxPerRun t' = maxPerRun t /\ maxRuns t' = maxRuns t.
Proof.
  intros Hok. unfold Sweep. destruct (ttl t <=? 0)%Z; [by eauto 10|].
  destruct Hok as (Hp & Hr & Hsz & Hall).
  destruct (sweep_fold (time_Add now (- ttl t)) (map_iter (byRun t)) (byRun t) 0) as [d ->].
  { intros [k ts] Hin%elem_of_map_iter. by destruct (Hall _ _ Hin) as (_ & ? & _). }
  cbn [mbind option_bind]. eexists _, d. split; [done|]. split; [|done].
  pose proof (sweep_sub (time_Add now (- ttl t)) (map_iter (byRun t)) (byRun t)) as Hsub.
  unfold tracker_ok. cbn [set_byRun byRun maxPerRun maxRuns]. split_and!; [done..| |].
  - apply map_subseteq_size in Hsub. lia.
  - intros k ts Hk. eapply Hall, lookup_weaken; [exact Hk|exact Hsub].
Qed.
End eviction.

Lemma sweep_lookup cutoff l (m : gmap string (list Taint)) k :
  NoDup l.*1 ->
  foldl (fun m e => match newest_of e.2 with
                    | Some n => if time_Before n cutoff then delete e.1 m else m
                    | None => m end) m l !! k
  = match find (fun e => e.1 ==s k) l with
    | Some e => match newest_of e.2 with
                | Some n => if time_Before n cutoff then None else m !! k
                | None => m !! k
                end
    | None => m !! k
    end.
Proof.
  revert m. induction l as [|[k0 ts0] l IH]; intros m; cbn [foldl find fst snd]; [done|].
  intros [Hk0 Hnd]%NoDup_cons. rewrite IH by done.
  destruct (k0 ==s k) eqn:E; breflect.
  - subst k0. assert (List.find (fun e => e.1 ==s k) l = None) as ->.
    { destruct (List.find _ l) as [[k' ts']|] eqn:F; [|done]. apply List.find_some in F as [Hin Heq].
      cbn in Heq. breflect. subst k'. destruct Hk0. apply list_elem_of_fmap. exists (k, ts').
      split; [done|by apply list_elem_of_In]. }
    cbn [snd]. destruct (newest_of ts0); [|done]. destruct (time_Before _ _); [apply lookup_delete_eq|done].
  - assert (forall m' : gmap string (list Taint), (match newest_of ts0 with
      | Some n => if time_Before n cutoff then delete k0 m' else m' | None => m' end) !! k = m' !! k) as Hm.
    { intros m'. destruct (newest_of ts0); [|done]. destruct (time_Before _ _); [by apply lookup_delete_ne|done]. }
    by rewrite Hm.
Qed.

Lemma find_map_iter `{MapIter} {V} (m : gmap string V) k :
  List.find (fun e => e.1 ==s k) (map_iter m) = (fun v => (k, v)) <$> m !! k.
Proof.
  destruct (List.find _ _) as [[k' v]|] eqn:F.
  - apply List.find_some in F as [Hin Heq]. cbn in Heq. breflect. subst k'.
    apply list_elem_of_In, elem_of_map_iter in Hin. by rewrite Hin.
  - destruct (m !! k) as [v|] eqn:E; [|done]. apply elem_of_map_iter, list_elem_of_In in E.
    apply (List.find_none _ _ F) in E. cbn in E. by rewrite eqb_refl_s in E.
Qed.

Lemma NoDup_map_iter_keys `{MapIter} {V} (m : gmap string V) : NoDup (map_iter m).*1.
Proof. rewrite map_iter_perm. apply NoDup_fst_map_to_list. Qed.

Lemma sweep_lookup_map `{MapIter} cutoff (m : gmap string (list Taint)) k :
  foldl (fun m e => match newest_of e.2 with
                    | Some n => if time_Before n cutoff then delete e.1 m else m
                    | None => m end) m (map_iter m) !! k
  = match m !! k with
    | Some ts => match newest_of ts with
                 | Some n => if time_Before n cutoff then None else Some ts
                 | None => Some ts
                 end
    | None => None
    end.
Proof.
  rewrite sweep_lookup by apply NoDup_map_iter_keys. rewrite find_map_iter.
  by destruct (m !! k) as [ts|] eqn:E.
Qed.

(** ** Reachable trackers *)

Section reach.
Context `{MapIter} `{Unicode}.

Inductive taint_step : Tracker -> Tracker -> Prop :=
| step_Tag now run src value t : taint_step t (Tag now run src value t).1.1
| step_TagFingerprints now run src sample fps t : taint_step t (TagFingerprints now run src sample fps t).1
| step_Forget run t : taint_step t (Forget run t).1
| step_Sweep now t t' d : Sweep now t = Some (t', d) -> taint_step t t'
| step_SetRemote r t : taint_step t (SetRemote r t).

Lemma tracker_ok_New ttl mp mr : tracker_ok (taint_New ttl mp mr).
Proof.
  unfold tracker_ok, taint_New. cbn [maxPerRun maxRuns byRun]. rewrite map_size_empty.
  split_and!; [split_ifs; lia..|]. apply map_Forall_empty.
Qed.

Lemma tracker_ok_delete run t : tracker_ok t -> tracker_ok (set_byRun (delete run (byRun t)) t).
Proof.
  intros (Hp & Hr & Hsz & Hall). unfold tracker_ok. cbn [set_byRun byRun maxPerRun maxRuns].
  pose proof (map_subseteq_size _ _ (delete_subseteq (byRun t) run)).
  split_and!; [lia..|by apply map_Forall_delete].
Qed.

Lemma taint_step_ok t t' : taint_step t t' -> tracker_ok t -> tracker_ok t'.
Proof.
  intros Hstep Hok. destruct Hstep as [now run src value t|now run src sample fps t|run t|now t t' d Hs|r t].
  - unfold Tag. destruct (_ || _) eqn:E; [done|]. breflect. by apply record_taint_ok.
  - unfold TagFingerprints. destruct (_ || _) eqn:E; [done|]. breflect. by apply record_taint_ok.
  - unfold Forget. destruct (byRun t !! run); [|done]. by apply tracker_ok_delete.
  - destruct (Sweep_ok now t Hok) as (t2 & d2 & Hs2 & ? & _). rewrite Hs in Hs2. by injection Hs2 as -> ->.
  - done.
Qed.

Lemma reachable_ok ttl mp mr t : rtc taint_step (taint_New ttl mp mr) t -> tracker_ok t.
Proof.
  intros Hr. pose proof (tracker_ok_New ttl mp mr) as Hok. revert Hok.
  induction Hr as [|t1 t2 t3 H1 _ IH]; [done|]. intros Hok. by apply IH, (taint_step_ok t1).
Qed.

(** ** Theorems on one tracker *)

(** A hit on a shared text of the fingerprint width. *)
Lemma tagged_window_hits now run src value t view view' value' a x b c d :
  run <> "" -> (1 <= maxPerRun t)%Z -> TrimSpaceU value <> "" ->
  view ∈ canonicalViews value -> TrimSpaceU view = a +:+ x +:+ b ->
  view' ∈ canonicalViews value' -> TrimSpaceU view' = c +:+ x +:+ d ->
  String.length x = shingleWidth ->
  exists ta, matchLocal run (shingleSet value') (Tag now run src value t).1.1 = Some ta.
Proof.
  intros Hrun Hp Hv Hview Hx Hview' Hx' Hlen.
  unfold Tag. rewrite (eqb_neq_s _ _ Hrun), (eqb_neq_s _ _ Hv). cbn [orb fst snd].
  eapply (matchLocal_hit _ _ _ _ (fingerprint x)); [by apply record_taint_listed|..];
    cbn [ta_Fingerprints]; apply elem_of_shingleSet; eexists _, x; split_and!; try done;
    by eapply hashed_parts_app.
Qed.

Lemma Match_of_local run value t ta : run <> "" -> value <> "" ->
  matchLocal run (shingleSet value) t = Some ta -> Match run value t = Some ta.
Proof. intros Hr Hv Hm. unfold Match. by rewrite (eqb_neq_s _ _ Hr), (eqb_neq_s _ _ Hv), Hm. Qed.

Lemma canonicalViews_nonempty value view x : view ∈ canonicalViews value ->
  TrimSpaceU view = x -> x <> "" -> value <> "".
Proof.
  intros Hview Hx Hne ->. cbn in Hview. apply list_elem_of_singleton in Hview as ->. by rewrite <- Hx in Hne.
Qed.
End reach.

(** ** Lemmas on sharing *)

Lemma source_reload s : exists o, wire (source_json s) = JObj o /\ source_of_json o = Some s.
Proof.
  unfold source_json. destruct (wire_struct (source_fields s)) as (o & -> & Ho).
  { apply (bool_decide_unpack _). reflexivity. }
  exists o. split; [done|]. unfold source_of_json, source_fields, str_field, always, omitempty in *.
  repeat get_field Ho. by destruct s.
Qed.

Lemma strs_reload l : mapM str_of_json (map wire (map JStr l)) = Some l.
Proof. induction l as [|s l IH]; [done|]. cbn [map mapM wire str_of_json]. cbn [mbind option_bind]. by rewrite IH. Qed.

Lemma get_strs_always (o : list (string * json)) k l :
  obj_get k o = Some (wire (JArr (map JStr l))) -> get_strs k o = Some l.
Proof. unfold get_strs, get_arr. intros ->. cbn [wire mbind option_bind]. apply strs_reload. Qed.

Definition fits (v : json) : Prop := (N.of_nat (String.length (marshal v)) <= max_body)%N.

Lemma fits_ltb v : fits v -> (max_body <? N.of_nat (String.length (marshal v)))%N = false.
Proof. unfold fits. intros Hf. by apply N.ltb_ge. Qed.

Section sharing.
Context `{MapIter}.

Lemma register_pushed now run ta t : run <> "" -> ta_Fingerprints ta <> ∅ -> fits (sync_Push run ta) ->
  handleTaintRegister now (sync_Push run ta) (Some t)
  = (Some (TagFingerprints now run (ta_Source ta) (ta_Sample ta) (FingerprintList ta) t).1, 204%Z).
Proof.
  intros Hrun Hne Hfits. unfold handleTaintRegister, decode_body. rewrite fits_ltb by done.
  unfold sync_Push. destruct (wire_struct (register_body_fields run ta)) as (o & -> & Ho).
  { apply (bool_decide_unpack _). reflexivity. }
  cbn [mbind option_bind]. destruct (source_reload (ta_Source ta)) as (so & Hso & Hsrc).
  unfold register_body_fields, str_field, always, omitempty in Ho.
  assert (get_map "source" o = Some so) as Hmap.
  { assert (obj_get "source" o = Some (wire (source_json (ta_Source ta)))) as Hget
      by (rewrite Ho; struct_get; reflexivity).
    unfold get_map. by rewrite Hget, Hso. }
  get_field Ho. rewrite Hmap. cbn [mbind option_bind]. rewrite Hsrc. cbn [mbind option_bind]. get_field Ho.
  rewrite (get_strs_always o "fingerprints" (FingerprintList ta)) by (rewrite Ho; struct_get; reflexivity).
  cbn [mbind option_bind]. rewrite (eqb_neq_s _ _ Hrun).
  destruct (FingerprintList ta) eqn:E; [|done].
  destruct Hne. apply leibniz_equiv. intros fp. split; [|by intros ?%elem_of_empty].
  intros Hfp%elem_of_set_iter. unfold FingerprintList in E. rewrite E in Hfp. by apply elem_of_nil in Hfp.
Qed.

Lemma remote_match_body run fps : exists o, wire (JObj (fields (match_body_fields run fps))) = JObj o /\
  get_str "agent_run" o = Some run /\ get_strs "fingerprints" o = Some fps.
Proof.
  destruct (wire_struct (match_body_fields run fps)) as (o & -> & Ho).
  { apply (bool_decide_unpack _). reflexivity. }
  exists o. unfold match_body_fields, always in Ho. split_and!; [done| |].
  - by get_field Ho.
  - apply get_strs_always. rewrite Ho. struct_get. reflexivity.
Qed.

(** A sensor asking the control plane sees what the registry holds. *)
Lemma sync_Match_spec url run fps t : url <> "" ->
  fits (JObj (fields (match_body_fields run fps))) ->
  remote_Match (TaintSync url (Some t)) run fps
  = (fun ta => mkTaint (ta_ID ta) (ta_Source ta) ∅ (ta_Sample ta) zero_time) <$> MatchFingerprints run fps t.
Proof.
  intros Hurl Hfits. unfold TaintSync, sync_Match. cbn [remote_Match].
  destruct fps as [|fp fps]; [unfold MatchFingerprints; cbn [is_nil]; by rewrite orb_true_r|]. cbn [is_nil].
  unfold PolicyClient.request. rewrite (eqb_neq_s _ _ Hurl).
  unfold handleTaintMatch, decode_body. rewrite fits_ltb by done.
  destruct (remote_match_body run (fp :: fps)) as (o & -> & Hrun & Hfps).
  cbn [mbind option_bind]. rewrite Hrun. cbn [mbind option_bind]. rewrite Hfps. cbn [mbind option_bind].
  by destruct (MatchFingerprints run (fp :: fps) t).
Qed.

Lemma TagFingerprints_listed now run src sample X t : (1 <= maxPerRun t)%Z -> run <> "" -> X <> ∅ ->
  exists ta, ta_Fingerprints ta = X /\ ta ∈ taint_List run (TagFingerprints now run src sample (set_iter X) t).1.
Proof.
  intros Hp Hrun HX. unfold TagFingerprints. rewrite (eqb_neq_s _ _ Hrun).
  destruct (set_iter X) as [|fp l] eqn:E.
  { destruct HX. apply leibniz_equiv. intros fp. split; [|by intros ?%elem_of_empty].
    intros Hfp%elem_of_set_iter. rewrite E in Hfp. by apply elem_of_nil in Hfp. }
  cbn [is_nil orb fst]. rewrite <- E. eexists. split; [|by apply record_taint_listed].
  apply list_to_set_iter.
Qed.

Lemma MatchFingerprints_hit run X t ta fp : run <> "" ->
  ta ∈ taint_List run t -> fp ∈ X -> fp ∈ ta_Fingerprints ta ->
  exists ta', MatchFingerprints run (set_iter X) t = Some ta'.
Proof.
  intros Hrun Hin HX Hfp. unfold MatchFingerprints. rewrite (eqb_neq_s _ _ Hrun).
  destruct (set_iter X) as [|f l] eqn:E.
  { apply elem_of_set_iter in HX. rewrite E in HX. by apply elem_of_nil in HX. }
  cbn [is_nil orb]. rewrite <- E, list_to_set_iter. by eapply matchLocal_hit.
Qed.
End sharing.

Section theorems.
Context `{MapIter} `{Unicode}.

(** Exfiltration is seen: once a value has been tagged for a run, any
    value of that run that shares 24 consecutive bytes with it, in one of the
    canonical views of both, matches. *)
Theorem shared_window_detected now run src value t view view' value' a x b c d :
  run <> "" -> tracker_ok t -> TrimSpaceU value <> "" ->
  view ∈ canonicalViews value -> TrimSpaceU view = a +:+ x +:+ b ->
  view' ∈ canonicalViews value' -> TrimSpaceU view' = c +:+ x +:+ d ->
  String.length x = shingleWidth ->
  exists ta, Match run value' (Tag now run src value t).1.1 = Some ta /\
    ta ∈ taint_List run (Tag now run src value t).1.1 /\
    exists fp, fp ∈ shingleSet value' /\ fp ∈ ta_Fingerprints ta.
Proof.
  intros Hrun (Hp & _) Hv Hview Hx Hview' Hx' Hlen.
  destruct (tagged_window_hits now run src value t view view' value' a x b c d) as [ta Hta]; try done.
  exists ta. split; [|by apply matchLocal_Some]. apply Match_of_local; [done| |done].
  eapply canonicalViews_nonempty; [exact Hview'|exact Hx'|].
  intros E%(f_equal String.length). rewrite !sapp_length, Hlen in E. cbn in E. unfold shingleWidth in E. lia.
Qed.

(** C23. A tagged secret is recognised when it leaves base64-encoded, inside
    any text that sets the encoding off: the encoded form of a printable
    secret matches the taint of the plain one. *)
Theorem base64_exfiltration_detected now run src secret t ps qs :
  run <> "" -> tracker_ok t -> TrimSpaceU secret <> "" ->
  TrimSpaceU (NormalizeForDetection secret) <> "" ->
  Forall valid_rune ps -> Forall valid_rune qs ->
  (forall r, last ps = Some r -> isBase64Rune r = false) ->
  (forall r, head qs = Some r -> isBase64Rune r = false) ->
  (24 <= N.of_nat (String.length (b64_encode secret)) <= 16384)%N -> isMostlyPrintable secret = true ->
  exists ta, Match run (write_runes ps +:+ b64_encode secret +:+ write_runes qs)
               (Tag now run src secret t).1.1 = Some ta.
Proof.
  intros Hrun (Hp & _) Hv Hn Hps Hqs Hl Hh Hlen Hpr.
  set (text := write_runes ps +:+ b64_encode secret +:+ write_runes qs).
  assert (secret ∈ ExtractBase64Candidates text) as Hc by (by apply base64_payload_in).
  destruct (hashed_parts_nonempty _ Hn) as [w Hw].
  assert (text <> "") as Htext by (intros E; by rewrite E in Hc; apply elem_of_nil in Hc).
  destruct (matchLocal_hit run (shingleSet text) (Tag now run src secret t).1.1
    (mkTaint (newID now) src (shingleSet secret) (truncate secret 80) now) (fingerprint w)) as [ta Hta].
  - unfold Tag. rewrite (eqb_neq_s _ _ Hrun), (eqb_neq_s _ _ Hv). by apply record_taint_listed.
  - apply elem_of_shingleSet. exists (NormalizeForDetection secret), w. split_and!; [|done..].
    apply elem_of_cons. right. by apply list_elem_of_fmap_2.
  - apply elem_of_shingleSet. exists (NormalizeForDetection secret), w. split_and!; [|done..].
    apply elem_of_cons. by left.
  - exists ta. by apply Match_of_local.
Qed.

(** Whatever a tracker goes through after [New], it holds at most
    [maxRuns] runs of one to [maxPerRun] taints each; a sweep never reads the
    first taint of an empty run, and keeps exactly the runs whose newest taint
    is not older than the time to live. *)
Theorem tracker_bounded ttl0 mp mr t now :
  rtc taint_step (taint_New ttl0 mp mr) t ->
  tracker_ok t /\
  exists t' dropped, Sweep now t = Some (t', dropped) /\
    forall run, byRun t' !! run =
      match byRun t !! run with
      | Some ts => match newest_of ts with
                   | Some n => if (0 <? ttl t)%Z && (n <? now - ttl t)%Z then None else Some ts
                   | None => Some ts
                   end
      | None => None
      end.
Proof.
  intros Hr. pose proof (reachable_ok _ _ _ _ Hr) as Hok. split; [done|].
  destruct Hok as (_ & _ & _ & Hall). unfold Sweep. destruct (ttl t <=? 0)%Z eqn:E; breflect.
  { exists t, 0%nat. split; [done|]. intros run. rewrite (proj2 (Z.ltb_ge 0 (ttl t))) by lia.
    destruct (byRun t !! run); [|done]. by destruct (newest_of _). }
  destruct (sweep_fold (time_Add now (- ttl t)) (map_iter (byRun t)) (byRun t) 0) as [d ->].
  { intros [k ts] Hin%elem_of_map_iter. by destruct (Hall _ _ Hin) as (_ & ? & _). }
  eexists _, d. split; [done|]. intros run. cbn [set_byRun byRun].
  rewrite (proj2 (Z.ltb_lt 0 (ttl t))) by lia. apply sweep_lookup_map.
Qed.

(** When the table is full and the run being tagged is the one whose
    newest taint is oldest, making room drops that run's own taints, although
    no new run needs a place: only the new taint of the run is left. *)
Theorem full_table_forgets_own now run src value t ts n :
  tracker_ok t -> Z.of_nat (size (byRun t)) = maxRuns t ->
  run <> "" -> TrimSpaceU value <> "" ->
  byRun t !! run = Some ts -> newest_of ts = Some n ->
  (forall run' ts' n', run' <> run -> byRun t !! run' = Some ts' -> newest_of ts' = Some n' -> (n < n')%Z) ->
  let '(t', ta, _) := Tag now run src value t in byRun t' = <[run := [ta]]> (byRun t).
Proof.
  intros Hok Hfull Hrun Hv Hin Hn Hold.
  unfold Tag. rewrite (eqb_neq_s _ _ Hrun), (eqb_neq_s _ _ Hv). cbn [orb].
  destruct (evictIfFull_full t Hok) as (r & ts' & n' & Hr & Hn' & Hev & Hmin); [lia|].
  assert (r = run) as ->.
  { destruct (decide (r = run)) as [|Hne]; [done|].
    specialize (Hold _ _ _ Hne Hr Hn'). specialize (Hmin _ _ _ Hin Hn). lia. }
  unfold record_taint. rewrite Hev. cbn [set_byRun byRun maxPerRun]. rewrite lookup_delete_eq. cbn [default app].
  rewrite insert_delete_eq. f_equal. unfold keep_last. destruct Hok as (Hp & _).
  by rewrite (proj2 (Z.ltb_ge _ _)) by (cbn [length]; lia).
Qed.

(** C24. A leak between two sensors is caught through the control plane: sensor
    A tags a value and pushes it, the control plane registers it, and sensor B,
    which has never seen the run, matches any value sharing a 24-byte window
    with it, as long as both requests fit the body limit. *)
Theorem cross_sensor_leak_detected now now' run src value ta tA tB cp url view view' value' a x b c d :
  (Tag now run src value tA).2 = Some (run, ta) -> tracker_ok cp ->
  view ∈ canonicalViews value -> TrimSpaceU view = a +:+ x +:+ b ->
  view' ∈ canonicalViews value' -> TrimSpaceU view' = c +:+ x +:+ d ->
  String.length x = shingleWidth -> url <> "" ->
  fits (sync_Push run ta) -> fits (JObj (fields (match_body_fields run (set_iter (shingleSet value'))))) ->
  exists cp' hit,
    handleTaintRegister now' (sync_Push run ta) (Some cp) = (Some cp', 204%Z) /\
    Match run value' (SetRemote (Some (TaintSync url (Some cp'))) tB) = Some hit.
Proof.
  intros Htag (Hp & _) Hview Hx Hview' Hx' Hlen Hurl Hfits Hfits'.
  unfold Tag in Htag. destruct (_ || _) eqn:Eg; [done|]. breflect. cbn [fst snd] in Htag.
  destruct (remote tA); [|done]. injection Htag as Hta. rename H1 into Hrun.
  assert (fingerprint x ∈ shingleSet value) as Hfp.
  { apply elem_of_shingleSet. exists view, x. split_and!; [done|by eapply hashed_parts_app|done]. }
  assert (fingerprint x ∈ shingleSet value') as Hfp'.
  { apply elem_of_shingleSet. exists view', x. split_and!; [done|by eapply hashed_parts_app|done]. }
  assert (shingleSet value <> ∅) as Hne by (intros E; rewrite E in Hfp; by apply elem_of_empty in Hfp).
  rewrite register_pushed by (try done; by rewrite <- Hta).
  eexists.
  destruct (TagFingerprints_listed now' run (ta_Source ta) (ta_Sample ta) (shingleSet value) cp) as (tc & Htc & Hin);
    [done..|].
  destruct (MatchFingerprints_hit run (shingleSet value') _ tc (fingerprint x) Hrun Hin Hfp') as [hit Hhit];
    [by rewrite Htc|].
  assert (value' <> "") as Hv'.
  { eapply canonicalViews_nonempty; [exact Hview'|exact Hx'|].
    intros E%(f_equal String.length). rewrite !sapp_length, Hlen in E. cbn in E. unfold shingleWidth in E. lia. }
  unfold Match. rewrite (eqb_neq_s _ _ Hrun), (eqb_neq_s _ _ Hv'). cbn [orb].
  destruct (matchLocal run (shingleSet value') _) as [ta'|]; [by exists ta'|].
  cbn [SetRemote remote]. rewrite sync_Match_spec by done. unfold FingerprintList.
  rewrite <- Hta in *. cbn [ta_Fingerprints ta_Source ta_Sample] in *. rewrite Hhit. by eexists.
Qed.
End theorems.

(** ** Witnesses *)

#[local] Transparent sha256.

Section witnesses.
#[local] Existing Instances canonical_iter ascii_tables.

Definition w_secret : string := "token=ghp_abcdefghijklmnopqrs".
Definition w_src : Source := mkSource "mcp" "tools/call" "read_file" "result".
Definition w_tracker : Tracker := taint_New 0 0 0.
Definition w_sensor : Tracker := SetRemote (Some (TaintSync "http://cp" (Some w_tracker))) w_tracker.
Definition w_taint : Taint := mkTaint (newID 7) w_src (shingleSet w_secret) (truncate w_secret 80) 7.

Lemma shared_window_detected_witness :
  exists ta, Match "run-1" ("send " +:+ w_secret) (Tag 7 "run-1" w_src w_secret w_tracker).1.1 = Some ta /\
    ta ∈ taint_List "run-1" (Tag 7 "run-1" w_src w_secret w_tracker).1.1 /\
    exists fp, fp ∈ shingleSet ("send " +:+ w_secret) /\ fp ∈ ta_Fingerprints ta.
Proof.
  apply (shared_window_detected 7 "run-1" w_src w_secret w_tracker w_secret ("send " +:+ w_secret)
    ("send " +:+ w_secret) "" "token=ghp_abcdefghijklmn" "opqrs" "send " "opqrs").
  - done.
  - apply tracker_ok_New.
  - done.
  - vm_compute. left.
  - vm_compute. reflexivity.
  - vm_compute. left.
  - vm_compute. reflexivity.
  - reflexivity.
Defined.

Lemma base64_exfiltration_detected_witness :
  exists ta, Match "run-1" ("blob: " +:+ b64_encode w_secret +:+ ".") (Tag 7 "run-1" w_src w_secret w_tracker).1.1
    = Some ta.
Proof.
  apply (base64_exfiltration_detected 7 "run-1" w_src w_secret w_tracker [98; 108; 111; 98; 58; 32]%N [46]%N).
  - done.
  - apply tracker_ok_New.
  - done.
  - vm_compute. discriminate.
  - repeat constructor; simpl; lia.
  - repeat constructor; simpl; lia.
  - by intros r [= <-].
  - by intros r [= <-].
  - split; apply N.leb_le; vm_compute; reflexivity.
  - vm_compute. reflexivity.
Defined.

Lemma tracker_bounded_witness :
  tracker_ok (Tag 7 "run-1" w_src w_secret w_tracker).1.1 /\
  exists t' dropped, Sweep 9 (Tag 7 "run-1" w_src w_secret w_tracker).1.1 = Some (t', dropped) /\
    forall run, byRun t' !! run =
      match byRun (Tag 7 "run-1" w_src w_secret w_tracker).1.1 !! run with
      | Some ts => match newest_of ts with
                   | Some n => if (0 <? 0)%Z && (n <? 9 - 0)%Z then None else Some ts
                   | None => Some ts
                   end
      | None => None
      end.
Proof.
  apply (tracker_bounded 0 0 0 (Tag 7 "run-1" w_src w_secret w_tracker).1.1 9).
  eapply rtc_l; [apply step_Tag|apply rtc_refl].
Defined.

Definition w_full : Tracker := (Tag 7 "run-1" w_src w_secret (taint_New 0 64 1)).1.1.

Lemma full_table_forgets_own_witness :
  let '(t', ta, _) := Tag 8 "run-1" w_src "another value of the same run" w_full in
  byRun t' = <["run-1" := [ta]]> (byRun w_full).
Proof.
  apply (full_table_forgets_own 8 "run-1" w_src "another value of the same run" w_full [w_taint] 7).
  - apply (taint_step_ok (taint_New 0 64 1)); [apply step_Tag|apply tracker_ok_New].
  - reflexivity.
  - done.
  - vm_compute. discriminate.
  - vm_compute. reflexivity.
  - reflexivity.
  - intros run' ts' n' Hne Hl. unfold w_full in Hl.
    assert (byRun (Tag 7 "run-1" w_src w_secret (taint_New 0 64 1)).1.1 = {["run-1" := [w_taint]]}) as E
      by (vm_compute; reflexivity).
    rewrite E, lookup_singleton_ne in Hl by exact (not_eq_sym Hne). discriminate Hl.
Defined.

Lemma cross_sensor_leak_detected_witness :
  exists cp' hit,
    handleTaintRegister 8 (sync_Push "run-1" w_taint) (Some w_tracker) = (Some cp', 204%Z) /\
    Match "run-1" ("send " +:+ w_secret) (SetRemote (Some (TaintSync "http://cp" (Some cp'))) w_tracker) = Some hit.
Proof.
  apply (cross_sensor_leak_detected 7 8 "run-1" w_src w_secret w_taint w_sensor w_tracker w_tracker "http://cp"
    w_secret ("send " +:+ w_secret) ("send " +:+ w_secret) "" "token=ghp_abcdefghijklmn" "opqrs" "send " "opqrs").
  - vm_compute. reflexivity.
  - apply tracker_ok_New.
  - vm_compute. left.
  - vm_compute. reflexivity.
  - vm_compute. left.
  - vm_compute. reflexivity.
  - reflexivity.
  - done.
  - unfold fits. apply N.leb_le. vm_compute. reflexivity.
  - unfold fits. apply N.leb_le. vm_compute. reflexivity.
Defined.
End witnesses.
