(* ===== verification/TaskState.v ===== *)
(** * Task lifecycle tracking

    [internal/taskstate/taskstate.go]: the table of A2A tasks a sensor has
    observed, the lifecycle check of each observed transition, and the check of
    a history that a peer declares all at once.  The table maps ids to tasks;
    nothing mutates a task outside [Update]. *)

From S2P Require Import Prelude.

(** ** Data *)

Definition StateUnknown : string := "".
Definition StateSubmitted : string := "submitted".
Definition StateWorking : string := "working".
Definition StateInputRequired : string := "input-required".
Definition StateCompleted : string := "completed".
Definition StateCanceled : string := "canceled".
Definition StateFailed : string := "failed".

Record Transition := mkTransition { tn_State : string; tn_At : Z }.

Record Task := mkTask {
  tk_ID : string; tk_Counterparty : string; tk_Created : Z; tk_Updated : Z; tk_Current : string;
  tk_History : list Transition; tk_FirstFingerprint : string; tk_SuspiciousReasons : list string
}.

(** [Finding]. *)
Record TaskFinding := mkTaskFinding { tf_Code : string; tf_Message : string }.

(** [Tracker]. *)
Record TaskTracker := mkTaskTracker { tasks : gmap string Task; maxLifetime : Z; maxTasks : Z }.

Definition task_New (maxLifetime maxTasks : Z) : TaskTracker :=
  mkTaskTracker ∅ maxLifetime (if (maxTasks <=? 0)%Z then 4096 else maxTasks).

Definition set_tasks (m : gmap string Task) (t : TaskTracker) : TaskTracker :=
  mkTaskTracker m (maxLifetime t) (maxTasks t).

(** ** The lifecycle *)

Definition firstState (s : string) : string := if s ==s StateUnknown then StateSubmitted else s.

Definition allowed (from : string) : list string :=
  if from ==s StateUnknown
  then [StateSubmitted; StateWorking; StateInputRequired; StateCompleted; StateCanceled; StateFailed]
  else if from ==s StateSubmitted
  then [StateWorking; StateInputRequired; StateCanceled; StateFailed; StateCompleted]
  else if from ==s StateWorking then [StateInputRequired; StateCompleted; StateCanceled; StateFailed]
  else if from ==s StateInputRequired then [StateWorking; StateCanceled; StateFailed; StateCompleted]
  else [].

Definition validTransition (from to : string) : bool := existsb (fun s => s ==s to) (allowed from).

Definition state_skip : TaskFinding :=
  mkTaskFinding "task.state_skip" "task reported completed without ever entering working (no work in between)".
Definition declared_invalid (from to : string) : TaskFinding :=
  mkTaskFinding "task.invalid_transition" ("declared invalid state transition " +:+ from +:+ " -> " +:+ to).

(** The loop over adjacent states. *)
Fixpoint declared_steps (history : list string) : list TaskFinding :=
  match history with
  | prev :: rest =>
      match rest with
      | s :: _ =>
          (if s ==s prev then [] else if negb (validTransition prev s) then [declared_invalid prev s] else [])
          ++ declared_steps rest
      | [] => []
      end
  | [] => []
  end.

Definition ValidateDeclaredHistory (history : list string) : list TaskFinding :=
  let sawWorking := existsb (fun s => (s ==s StateWorking) || (s ==s StateInputRequired)) history in
  let reachedCompleted := existsb (fun s => s ==s StateCompleted) history in
  (if reachedCompleted && negb sawWorking then [state_skip] else []) ++ declared_steps history.

(** ** Operations *)

Section operations.
Context `{MapIter}.

(** One round of the search for the oldest entry. *)
Definition oldest_scan (oldest : option Task) (e : string * Task) : option Task :=
  match oldest with
  | None => Some e.2
  | Some o => if time_Before (tk_Updated e.2) (tk_Updated o) then Some e.2 else oldest
  end.

Definition task_evictIfFull (t : TaskTracker) : TaskTracker :=
  if (Z.of_nat (size (tasks t)) <? maxTasks t)%Z then t
  else match fold_left oldest_scan (map_iter (tasks t)) None with
       | Some oldest => set_tasks (delete (tk_ID oldest) (tasks t)) t
       | None => t
       end.

(** The task created by a first observation. *)
Definition new_task (now : Z) (id counterparty newState fingerprint : string) : Task :=
  let current := firstState newState in
  mkTask id counterparty now now current [mkTransition current now] fingerprint [].

(** The counterparty after an observation, and what it raises. *)
Definition merge_counterparty (counterparty : string) (task : Task) : string * list TaskFinding :=
  if (counterparty !=s "") && (tk_Counterparty task ==s "") then (counterparty, [])
  else if (counterparty !=s "") && (tk_Counterparty task !=s counterparty)
  then (counterparty,
        [mkTaskFinding "task.counterparty_changed"
           ("task counterparty changed mid-flight (was " +:+ tk_Counterparty task +:+ ", now "
            +:+ counterparty +:+ ")")])
  else (tk_Counterparty task, []).

(** The state and the history after an observation, and what it raises. *)
Definition merge_state (now : Z) (newState : string) (task : Task)
    : string * list Transition * list TaskFinding :=
  if (newState !=s StateUnknown) && (newState !=s tk_Current task)
  then (newState, tk_History task ++ [mkTransition newState now],
        if negb (validTransition (tk_Current task) newState)
        then [mkTaskFinding "task.invalid_transition"
                ("invalid state transition " +:+ tk_Current task +:+ " -> " +:+ newState)]
        else [])
  else (tk_Current task, tk_History task, []).

(** The drift check, [current] being the state after the observation. *)
Definition drift (fingerprint current : string) (task : Task) : list TaskFinding :=
  if (fingerprint !=s "") && (tk_FirstFingerprint task !=s "")
     && (tk_FirstFingerprint task !=s fingerprint) && (current !=s StateSubmitted)
  then [mkTaskFinding "task.scope_drift" "task message fingerprint differs from initial submission"]
  else [].

(** A later observation merged into the task. *)
Definition merge_task (now : Z) (counterparty newState fingerprint : string) (task : Task) : Task * list TaskFinding :=
  let '(cp, f1) := merge_counterparty counterparty task in
  let '(current, history, f2) := merge_state now newState task in
  let findings := f1 ++ f2 ++ drift fingerprint current task in
  (mkTask (tk_ID task) cp (tk_Created task) now current history (tk_FirstFingerprint task)
     (tk_SuspiciousReasons task ++ map tf_Code findings), findings).

(** [Update]: the tracker, the task ([None] is nil) and the new findings. *)
Definition Update (now : Z) (id counterparty newState fingerprint : string) (t : TaskTracker)
    : TaskTracker * option Task * list TaskFinding :=
  if id ==s "" then (t, None, [])
  else match tasks t !! id with
       | None =>
           let t := task_evictIfFull t in
           let task := new_task now id counterparty newState fingerprint in
           (set_tasks (<[id := task]> (tasks t)) t, Some task, [])
       | Some task =>
           let '(task', findings) := merge_task now counterparty newState fingerprint task in
           (set_tasks (<[id := task']> (tasks t)) t, Some task', findings)
       end.

(** In progress, for [CheckLongRunning]. *)
Definition in_progress (s : string) : bool :=
  (s ==s StateWorking) || (s ==s StateSubmitted) || (s ==s StateInputRequired).

Definition CheckLongRunning (now : Z) (t : TaskTracker) : list Task :=
  if (maxLifetime t <=? 0)%Z then []
  else sort_stable (fun a b => time_Before (tk_Created a) (tk_Created b))
         (filter (fun task => in_progress (tk_Current task)
                              && (maxLifetime t <=? time_Sub now (tk_Created task))%Z)
            (map_values (tasks t))).

Definition task_List (t : TaskTracker) : list Task :=
  sort_stable (fun a b => time_After (tk_Updated a) (tk_Updated b)) (map_values (tasks t)).

Definition task_Len (t : TaskTracker) : nat := size (tasks t).
Definition task_Get (id : string) (t : TaskTracker) : option Task := tasks t !! id.

Definition task_Forget (id : string) (t : TaskTracker) : TaskTracker * bool :=
  match tasks t !! id with
  | Some _ => (set_tasks (delete id (tasks t)) t, true)
  | None => (t, false)
  end.
End operations.

(** ** The lifecycle as a specification *)

(** A move the protocol allows. *)
Inductive lifecycle : string -> string -> Prop :=
| lc_submit s : In s [StateWorking; StateInputRequired; StateCompleted; StateCanceled; StateFailed] ->
    lifecycle StateSubmitted s
| lc_work s : In s [StateInputRequired; StateCompleted; StateCanceled; StateFailed] -> lifecycle StateWorking s
| lc_input s : In s [StateWorking; StateCompleted; StateCanceled; StateFailed] -> lifecycle StateInputRequired s
| lc_unknown s : In s [StateSubmitted; StateWorking; StateInputRequired; StateCompleted; StateCanceled; StateFailed] ->
    lifecycle StateUnknown s.

(** Adjacent states are equal or one allowed move apart. *)
Fixpoint legal_history (history : list string) : Prop :=
  match history with
  | prev :: rest => match rest with s :: _ => s = prev \/ lifecycle prev s | [] => True end /\ legal_history rest
  | [] => True
  end.

(** The number of adjacent pairs that are neither equal nor an allowed move. *)
Fixpoint illegal_moves (history : list string) : nat :=
  match history with
  | prev :: rest =>
      match rest with
      | s :: _ => (if s ==s prev then 0 else if validTransition prev s then 0 else 1)%nat
      | [] => 0%nat
      end + illegal_moves rest
  | [] => 0
  end%nat.

Definition is_invalid_code (c : string) : bool := c ==s "task.invalid_transition".
Definition invalid_codes (cs : list string) : nat := length (filter is_invalid_code cs).

(** What every stored task satisfies. *)
Definition task_ok (id : string) (task : Task) : Prop :=
  id <> "" /\ tk_ID task = id /\
  (exists h at_, tk_History task = h ++ [mkTransition (tk_Current task) at_]) /\
  tk_Current task <> StateUnknown /\
  invalid_codes (tk_SuspiciousReasons task) = illegal_moves (map tn_State (tk_History task)).

(** ** Lemmas on histories *)

Lemma validTransition_lifecycle a b : validTransition a b = true <-> lifecycle a b.
Proof.
  unfold validTransition. rewrite existsb_exists. split.
  - intros (s & Hin & Heq). breflect. subst s. unfold allowed in Hin.
    destruct (a ==s StateUnknown) eqn:E0; [breflect; subst a; by apply lc_unknown|].
    destruct (a ==s StateSubmitted) eqn:E1; [breflect; subst a; apply lc_submit|].
    { simpl in *. naive_solver. }
    destruct (a ==s StateWorking) eqn:E2; [breflect; subst a; by apply lc_work|].
    destruct (a ==s StateInputRequired) eqn:E3; [breflect; subst a; apply lc_input|done].
    simpl in *. naive_solver.
  - intros Hl. exists b. split; [|apply eqb_refl_s].
    destruct Hl as [s Hin|s Hin|s Hin|s Hin]; simpl in *; naive_solver.
Qed.

Lemma illegal_moves_snoc h a b :
  illegal_moves (h ++ [a; b]) =
  (illegal_moves (h ++ [a]) + (if b ==s a then 0 else if validTransition a b then 0 else 1))%nat.
Proof.
  induction h as [|x h IH]; [cbn; lia|]. rewrite <- !app_comm_cons. cbn [illegal_moves]. rewrite IH.
  destruct h as [|y h]; cbn [app]; lia.
Qed.

Lemma invalid_codes_app a b : invalid_codes (a ++ b) = (invalid_codes a + invalid_codes b)%nat.
Proof. unfold invalid_codes. by rewrite filter_app, length_app. Qed.

Lemma declared_steps_codes h : invalid_codes (map tf_Code (declared_steps h)) = illegal_moves h.
Proof.
  induction h as [|a [|b h] IH]; [done..|]. cbn [declared_steps illegal_moves] in *.
  rewrite map_app, invalid_codes_app, IH. f_equal.
  destruct (b ==s a); [done|]. destruct (validTransition a b); done.
Qed.

Lemma legal_history_steps h : legal_history h <-> declared_steps h = [].
Proof.
  induction h as [|a [|b h] IH]; [done|by split|]. cbn [declared_steps legal_history] in *.
  rewrite IH. destruct (b ==s a) eqn:E; breflect.
  - split; [by intros [_ ?]|]. intros ?. split; [by left|done].
  - destruct (validTransition a b) eqn:V; cbn [negb app].
    + apply validTransition_lifecycle in V. split; [by intros [_ ?]|]. intros ?. split; [by right|done].
    + split; [|done]. intros [[?|Hl] _]; [done|]. apply validTransition_lifecycle in Hl. congruence.
Qed.

Lemma legal_history_moves h : legal_history h <-> illegal_moves h = 0%nat.
Proof.
  induction h as [|a [|b h] IH]; [done|by split|]. cbn [illegal_moves legal_history] in *.
  rewrite IH. destruct (b ==s a) eqn:E; breflect.
  - split; [by intros [_ ?]|]. intros ?. split; [by left|done].
  - destruct (validTransition a b) eqn:V.
    + apply validTransition_lifecycle in V. split; [by intros [_ ?]|]. intros ?. split; [by right|done].
    + split; [|lia]. intros [[?|Hl] _]; [done|]. apply validTransition_lifecycle in Hl. congruence.
Qed.

Lemma ValidateDeclaredHistory_codes h :
  invalid_codes (map tf_Code (ValidateDeclaredHistory h)) = illegal_moves h.
Proof.
  unfold ValidateDeclaredHistory. rewrite map_app, invalid_codes_app, declared_steps_codes.
  by destruct (_ && _).
Qed.

(** ** Lemmas on the table *)

Lemma new_task_ok now id cp st fp : id <> "" -> task_ok id (new_task now id cp st fp).
Proof.
  intros Hid. unfold task_ok, new_task. cbn. split_and!; [done..| | |done].
  - by exists [], now.
  - unfold firstState. destruct (st ==s StateUnknown) eqn:E; by breflect.
Qed.

Lemma merge_task_ok now id cp st fp task : task_ok id task -> task_ok id (merge_task now cp st fp task).1.
Proof.
  intros (Hid & Hk & (h & at_ & Hh) & Hcur & Hn). unfold merge_task.
  assert (invalid_codes (map tf_Code (merge_counterparty cp task).2) = 0%nat) as Hf1
    by (unfold merge_counterparty; by repeat destruct (_ && _)).
  assert (forall cur, invalid_codes (map tf_Code (drift fp cur task)) = 0%nat) as Hf3
    by (intros cur; unfold drift; by destruct (_ && _)).
  destruct (merge_counterparty cp task) as [cp' f1]. cbn [snd] in Hf1.
  destruct (merge_state now st task) as [[cur hist] f2] eqn:Ech.
  unfold task_ok. cbn [fst tk_ID tk_History tk_Current tk_SuspiciousReasons].
  rewrite !map_app, !invalid_codes_app, Hf1, Hf3, Hn. unfold merge_state in Ech.
  destruct (_ && _) eqn:E in Ech; injection Ech as <- <- <-.
  - breflect. split_and!; [done..|by eexists _, _|done|].
    rewrite Hh, !map_app. cbn [map tn_State]. rewrite <- app_assoc. cbn [app].
    rewrite illegal_moves_snoc. rewrite (eqb_neq_s st (tk_Current task)) by done.
    destruct (validTransition _ _); cbn [negb map tf_Code];
      [change (invalid_codes []) with 0%nat|change (invalid_codes ["task.invalid_transition"]) with 1%nat]; lia.
  - split_and!; [done..|by eexists _, _|done|cbn; lia].
Qed.

Definition table_ok (t : TaskTracker) : Prop :=
  (1 <= maxTasks t)%Z /\ (Z.of_nat (size (tasks t)) <= maxTasks t)%Z /\ map_Forall task_ok (tasks t).

Section reach.
Context `{MapIter}.

Inductive task_step : TaskTracker -> TaskTracker -> Prop :=
| step_Update now id cp st fp t : task_step t (Update now id cp st fp t).1.1
| step_Forget id t : task_step t (task_Forget id t).1.

(** The task the scan stops at is one of the table, with the oldest update. *)
Lemma oldest_scan_spec (l : list (string * Task)) o :
  match fold_left oldest_scan l o with
  | Some w => (o = Some w \/ exists k, (k, w) ∈ l) /\
              (forall x, o = Some x -> (tk_Updated w <= tk_Updated x)%Z) /\
              (forall k x, (k, x) ∈ l -> (tk_Updated w <= tk_Updated x)%Z)
  | None => o = None /\ l = []
  end.
Proof.
  revert o. induction l as [|[k0 x0] l IH]; intros o; cbn [fold_left].
  { destruct o as [w|]; [|done]. split_and!; [by left|intros ? [= ->]; lia|by intros ? ? ?%elem_of_nil]. }
  specialize (IH (oldest_scan o (k0, x0))). destruct (fold_left oldest_scan l _) as [w|].
  - destruct IH as (Hw & Ho & Hl). unfold oldest_scan in Hw, Ho. cbn [snd] in Hw, Ho.
    assert ((tk_Updated w <= tk_Updated x0)%Z /\ forall x, o = Some x -> (tk_Updated w <= tk_Updated x)%Z) as [H0 H1].
    { destruct o as [x|]; [|by split; [apply Ho|]].
      destruct (time_Before _ _) eqn:E; specialize (Ho _ eq_refl); unfold time_Before in E; breflect;
        (split; [lia|intros ? [= <-]; lia]). }
    split_and!; [|done|].
    + destruct Hw as [Hw|[k ?]]; [|right; exists k; apply elem_of_cons; by right].
      destruct o as [x|]; [destruct (time_Before _ _); [|by left]|].
      all: injection Hw as <-; right; exists k0; apply elem_of_cons; by left.
    + intros k x [[= -> ->]|?]%elem_of_cons; [done|by eapply Hl].
  - destruct IH as [Ho _]. unfold oldest_scan in Ho. destruct o; [destruct (time_Before _ _)|]; done.
Qed.

Lemma task_evictIfFull_ok t : table_ok t ->
  table_ok (task_evictIfFull t) /\ (Z.of_nat (size (tasks (task_evictIfFull t))) < maxTasks t)%Z
  /\ maxTasks (task_evictIfFull t) = maxTasks t.
Proof.
  intros (Hm & Hsz & Hall). unfold task_evictIfFull. destruct (_ <? _)%Z eqn:E; breflect; [done|].
  pose proof (oldest_scan_spec (map_iter (tasks t)) None) as Hs.
  destruct (fold_left oldest_scan _ _) as [w|].
  - destruct Hs as ([?|[k Hin]] & _); [done|].
    rewrite map_iter_perm in Hin. apply elem_of_map_to_list in Hin.
    destruct (Hall _ _ Hin) as (_ & -> & _).
    assert (size (delete k (tasks t)) = Nat.pred (size (tasks t))) as Hd by (by rewrite map_size_delete, Hin).
    unfold table_ok. cbn [set_tasks tasks maxTasks]. rewrite Hd.
    split_and!; [done|lia|by apply map_Forall_delete|lia|done].
  - destruct Hs as [_ Hnil]. exfalso.
    assert (length (map_iter (tasks t)) = size (tasks t)) as Hl
      by (by rewrite map_iter_perm, length_map_to_list).
    rewrite Hnil in Hl. cbn in Hl. lia.
Qed.

Lemma task_step_ok t t' : task_step t t' -> table_ok t -> table_ok t'.
Proof.
  intros [now id cp st fp t1|id t1] Hok.
  - unfold Update. destruct (id ==s "") eqn:Eid; [done|]. breflect.
    destruct (tasks t1 !! id) as [task|] eqn:Et.
    + pose proof (merge_task_ok now id cp st fp task) as Hmerge.
      destruct (merge_task now cp st fp task) as [task' fs]. cbn [fst] in *.
      destruct Hok as (Hm & Hsz & Hall). unfold table_ok. cbn [set_tasks tasks maxTasks].
      rewrite map_size_insert, Et. split_and!; [done..|]. apply map_Forall_insert_2; [|done].
      apply Hmerge. by apply Hall.
    + destruct (task_evictIfFull_ok t1 Hok) as ((Hm & Hsz & Hall) & Hlt & Heq).
      unfold table_ok. cbn [fst set_tasks tasks maxTasks]. split_and!; [done| |].
      * rewrite map_size_insert. case_match; unfold Datatypes.id; lia.
      * apply map_Forall_insert_2; [|done]. by apply new_task_ok.
  - unfold task_Forget. destruct (tasks t1 !! id) eqn:Et; [|done]. destruct Hok as (Hm & Hsz & Hall).
    unfold table_ok. cbn [fst set_tasks tasks maxTasks].
    pose proof (map_subseteq_size _ _ (delete_subseteq (tasks t1) id)).
    split_and!; [done|lia|by apply map_Forall_delete].
Qed.

Lemma reachable_table ml mt t : rtc task_step (task_New ml mt) t -> table_ok t.
Proof.
  intros Hr. assert (table_ok (task_New ml mt)) as Hok.
  { unfold table_ok, task_New. cbn [tasks maxTasks]. rewrite map_size_empty.
    split_and!; [split_ifs; lia..|apply map_Forall_empty]. }
  revert Hok. induction Hr as [|t1 t2 t3 H1 _ IH]; [done|]. intros Hok. by apply IH, (task_step_ok t1).
Qed.
End reach.

Lemma ValidateDeclaredHistory_nil h :
  ValidateDeclaredHistory h = [] <->
  legal_history h /\ (StateCompleted ∈ h -> StateWorking ∈ h \/ StateInputRequired ∈ h).
Proof.
  unfold ValidateDeclaredHistory. rewrite legal_history_steps.
  set (w := existsb (fun s => (s ==s StateWorking) || (s ==s StateInputRequired)) h).
  set (c := existsb (fun s => s ==s StateCompleted) h).
  assert (w = true <-> StateWorking ∈ h \/ StateInputRequired ∈ h) as Hw.
  { unfold w. rewrite existsb_exists. setoid_rewrite orb_true_iff. setoid_rewrite String.eqb_eq.
    setoid_rewrite list_elem_of_In. naive_solver. }
  assert (c = true <-> StateCompleted ∈ h) as Hc.
  { unfold c. rewrite existsb_exists. setoid_rewrite String.eqb_eq. setoid_rewrite list_elem_of_In. naive_solver. }
  rewrite <- Hw, <- Hc. destruct c, w; cbn; naive_solver.
Qed.

(** ** Theorems *)

(** A declared history passes exactly when every step is a repetition or an
    allowed move and nothing is completed without work. *)
Theorem declared_history_clean h :
  ValidateDeclaredHistory h = [] <->
  legal_history h /\ (StateCompleted ∈ h -> StateWorking ∈ h \/ StateInputRequired ∈ h).
Proof. apply ValidateDeclaredHistory_nil. Qed.

Section theorems.
Context `{MapIter}.

(** C25. However a tracker has been updated, it holds at most [maxTasks] tasks,
    and what it recorded of a task is what a validator of the whole history
    would find: the recorded history ends in the current state, the number of
    invalid transitions that were reported one by one is the number that
    [ValidateDeclaredHistory] reports on the recorded history, and there is
    none exactly when the history is a legal run of the lifecycle. *)
Theorem tracked_history_sound ml mt t :
  rtc task_step (task_New ml mt) t ->
  (Z.of_nat (size (tasks t)) <= maxTasks t)%Z /\
  forall id task, task_Get id t = Some task ->
    tk_ID task = id /\
    tn_State <$> last (tk_History task) = Some (tk_Current task) /\
    invalid_codes (tk_SuspiciousReasons task)
      = invalid_codes (map tf_Code (ValidateDeclaredHistory (map tn_State (tk_History task)))) /\
    (invalid_codes (tk_SuspiciousReasons task) = 0%nat <-> legal_history (map tn_State (tk_History task))).
Proof.
  intros Hr. destruct (reachable_table _ _ _ Hr) as (_ & Hsz & Hall). split; [done|].
  intros id task Hin. destruct (Hall _ _ Hin) as (_ & Hid & (h & at_ & Hh) & _ & Hn).
  split_and!; [done| | |].
  - rewrite Hh, last_snoc. done.
  - by rewrite ValidateDeclaredHistory_codes.
  - by rewrite legal_history_moves, Hn.
Qed.
End theorems.

Definition w_tasks : TaskTracker :=
  (@Update canonical_iter 3 "t" "peer" StateWorking "f"
     (@Update canonical_iter 2 "t" "peer" StateCompleted "f"
        (@Update canonical_iter 1 "t" "peer" StateUnknown "f" (task_New 0 2)).1.1).1.1).1.1.

Lemma tracked_history_sound_witness :
  (Z.of_nat (size (tasks w_tasks)) <= maxTasks w_tasks)%Z /\
  forall id task, task_Get id w_tasks = Some task ->
    tk_ID task = id /\
    tn_State <$> last (tk_History task) = Some (tk_Current task) /\
    invalid_codes (tk_SuspiciousReasons task)
      = invalid_codes (map tf_Code (ValidateDeclaredHistory (map tn_State (tk_History task)))) /\
    (invalid_codes (tk_SuspiciousReasons task) = 0%nat <-> legal_history (map tn_State (tk_History task))).
Proof.
  apply (@tracked_history_sound canonical_iter 0 2 w_tasks).
  do 3 (eapply rtc_r; [|apply step_Update]). apply rtc_refl.
Defined.

(** The third update of the example, from completed back to working, is
    reported. *)
Example replay_reported :
  tk_SuspiciousReasons <$> task_Get "t" w_tasks = Some ["task.invalid_transition"].
Proof. vm_compute. reflexivity. Qed.
