(* ===== verification/Quarantine.v ===== *)
(** * Quarantined tools

    [internal/quarantine/quarantine.go]: the table of tools whose calls are
    blocked.  Each operation holds the lock for its whole body except [Lookup],
    which reads under the read lock, releases it, and takes the write lock to
    delete an expired entry: its two halves are two steps. *)

From S2P Require Import Prelude.

(** ** Data *)

Record Entry := mkEntry {
  q_Tool : string; q_Reason : string; q_RuleID : string; q_Severity : string; q_AddedAt : Z; q_ExpiresAt : Z
}.

Record QSet := mkQSet { q_ttl : Z; entries : gmap string Entry }.

Definition quarantine_New (ttl : Z) : QSet := mkQSet ttl ∅.

(** ** Operations *)

Definition Quarantine (now : Z) (tool reason ruleID severity : string) (s : QSet) : QSet * Entry :=
  let exp := if (0 <? q_ttl s)%Z then time_Add now (q_ttl s) else zero_time in
  let e := mkEntry tool reason ruleID severity now exp in
  (mkQSet (q_ttl s) (<[tool := e]> (entries s)), e).

Definition expired (now : Z) (e : Entry) : bool :=
  negb (time_IsZero (q_ExpiresAt e)) && time_After now (q_ExpiresAt e).

(** What the read under the lock decides: a miss, a hit, or to go on and
    delete the entry. *)
Inductive lookup_decision :=
| LookupMiss
| LookupHit (e : Entry)
| LookupExpired.

Definition lookup_read (now : Z) (tool : string) (s : QSet) : lookup_decision :=
  match entries s !! tool with
  | None => LookupMiss
  | Some e => if expired now e then LookupExpired else LookupHit e
  end.

Definition lookup_delete (tool : string) (s : QSet) : QSet := mkQSet (q_ttl s) (delete tool (entries s)).

(** [Lookup], nothing else running. *)
Definition q_Lookup (now : Z) (tool : string) (s : QSet) : QSet * option Entry :=
  match lookup_read now tool s with
  | LookupMiss => (s, None)
  | LookupHit e => (s, Some e)
  | LookupExpired => (lookup_delete tool s, None)
  end.

Definition q_Clear (tool : string) (s : QSet) : QSet * bool :=
  match entries s !! tool with
  | Some _ => (mkQSet (q_ttl s) (delete tool (entries s)), true)
  | None => (s, false)
  end.

(** One round of the loop of [List]. *)
Definition list_step (now : Z) (acc : gmap string Entry * list Entry) (x : string * Entry)
    : gmap string Entry * list Entry :=
  let '(m, out) := acc in
  if expired now x.2 then (delete x.1 m, out) else (m, out ++ [x.2]).

Definition q_List `{MapIter} (now : Z) (s : QSet) : QSet * list Entry :=
  let '(m, out) := fold_left (list_step now) (map_iter (entries s)) (entries s, []) in
  (mkQSet (q_ttl s) m, out).

Definition q_Len (s : QSet) : nat := size (entries s).

(** ** Interleavings

    The table, the clock, and the tools for which some [Lookup] stands between
    its two halves. *)

Record shared := mkShared { sh_set : QSet; sh_now : Z; sh_pending : list string }.

Inductive q_op :=
| OpTick (now : Z)
| OpQuarantine (tool reason ruleID severity : string)
| OpLookup (tool : string)
| OpLookupDelete (tool : string)
| OpClear (tool : string)
| OpList.

Definition with_set (s : QSet) (c : shared) : shared := mkShared s (sh_now c) (sh_pending c).

(** One lookup fewer. *)
Fixpoint remove_one (tool : string) (l : list string) : list string :=
  match l with
  | [] => []
  | t :: l' => if t ==s tool then l' else t :: remove_one tool l'
  end.

(** [None]: the step is not enabled. *)
Definition q_step `{MapIter} (op : q_op) (c : shared) : option shared :=
  match op with
  | OpTick now => if (sh_now c <=? now)%Z then Some (mkShared (sh_set c) now (sh_pending c)) else None
  | OpQuarantine tool reason ruleID severity =>
      Some (with_set (Quarantine (sh_now c) tool reason ruleID severity (sh_set c)).1 c)
  | OpLookup tool =>
      match lookup_read (sh_now c) tool (sh_set c) with
      | LookupExpired => Some (mkShared (sh_set c) (sh_now c) (tool :: sh_pending c))
      | _ => Some c
      end
  | OpLookupDelete tool =>
      if bool_decide (tool ∈ sh_pending c)
      then Some (mkShared (lookup_delete tool (sh_set c)) (sh_now c)
                   (remove_one tool (sh_pending c)))
      else None
  | OpClear tool => Some (with_set (q_Clear tool (sh_set c)).1 c)
  | OpList => Some (with_set (q_List (sh_now c) (sh_set c)).1 c)
  end.

Fixpoint q_run `{MapIter} (ops : list q_op) (c : shared) : option shared :=
  match ops with
  | [] => Some c
  | op :: ops' => q_step op c ≫= q_run ops'
  end.

(** ** Lemmas *)

Lemma elem_of_remove_one t tool l : t ∈ remove_one tool l -> t ∈ l.
Proof.
  induction l as [|x l IH]; [done|]. cbn [remove_one]. rewrite elem_of_cons.
  destruct (x ==s tool); [by right|]. rewrite elem_of_cons. naive_solver.
Qed.

(** An entry that is still active at [until]. *)
Definition active_until (until : Z) (e : Entry) : Prop := expired until e = false.

Lemma expired_mono now now' e : (now <= now')%Z -> expired now' e = false -> expired now e = false.
Proof.
  unfold expired, time_After. intros Hle He. destruct (time_IsZero _); [done|]. cbn in *. breflect.
  apply Z.ltb_ge. lia.
Qed.

Lemma list_step_lookup now l (m : gmap string Entry) out tool :
  (forall k e, (k, e) ∈ l -> k = tool -> expired now e = false) ->
  (fold_left (list_step now) l (m, out)).1 !! tool = m !! tool.
Proof.
  revert m out. induction l as [|[k e] l IH]; intros m out Hl; [done|]. cbn [fold_left].
  assert (forall m' out', (fold_left (list_step now) l (m', out')).1 !! tool = m' !! tool) as IH'.
  { intros m' out'. apply IH. intros k' e' Hin. apply Hl. apply elem_of_cons. by right. }
  unfold list_step at 2. cbn [fst snd]. destruct (expired now e) eqn:E; [|apply IH'].
  rewrite IH'. apply lookup_delete_ne. intros ->.
  rewrite (Hl tool e) in E; [done|apply elem_of_cons; by left|done].
Qed.

Section run.
Context `{MapIter}.

(** The tool is held until [until]: an active entry is stored, and no lookup
    is about to delete it before then. *)
Definition held (until : Z) (tool : string) (c : shared) : Prop :=
  (exists e, entries (sh_set c) !! tool = Some e /\ active_until until e) /\ tool ∉ sh_pending c.

Lemma Quarantine_active now until tool r i v s :
  (if 0 <? q_ttl s then until <= now + q_ttl s else True)%Z -> active_until until (Quarantine now tool r i v s).2.
Proof.
  unfold active_until, expired, Quarantine. cbn [snd q_ExpiresAt]. destruct (0 <? q_ttl s)%Z.
  - intros Hle. unfold time_After, time_Add. rewrite (proj2 (Z.ltb_ge _ _)) by lia. by rewrite andb_false_r.
  - intros _. unfold time_IsZero. by rewrite Z.eqb_refl.
Qed.

Lemma q_step_held op c c' until tool :
  q_step op c = Some c' -> op <> OpClear tool -> held until tool c ->
  (if 0 <? q_ttl (sh_set c) then until <= sh_now c + q_ttl (sh_set c) else True)%Z ->
  (sh_now c' <= until)%Z ->
  held until tool c' /\ q_ttl (sh_set c') = q_ttl (sh_set c) /\ (sh_now c <= sh_now c')%Z.
Proof.
  intros Hstep Hclear ((e & He & Ha) & Hp) Httl Hnow. destruct op as [now|t r i v|t|t|t|]; cbn in Hstep.
  - destruct (_ <=? _)%Z eqn:E; [|done]. breflect. injection Hstep as <-. cbn in *.
    split_and!; [|done|done]. split; [by exists e|done].
  - injection Hstep as <-. cbn [with_set sh_set sh_now sh_pending] in *. split_and!; [|done|lia]. split; [|done].
    destruct (decide (t = tool)) as [->|Hne].
    + exists (Quarantine (sh_now c) tool r i v (sh_set c)).2. split; [apply lookup_insert_eq|].
      by apply Quarantine_active.
    + exists e. split; [|done]. cbn. by rewrite lookup_insert_ne.
  - unfold lookup_read in Hstep. destruct (entries (sh_set c) !! t) as [e'|] eqn:E.
    2:{ injection Hstep as <-. split_and!; [|done|lia]. split; [by exists e|done]. }
    destruct (expired (sh_now c) e') eqn:X; injection Hstep as <-; cbn in *;
      (split_and!; [|done|lia]); (split; [by exists e|]); [|done].
    intros [->|?]%elem_of_cons; [|done]. rewrite He in E. injection E as <-.
    rewrite (expired_mono _ until) in X; done.
  - destruct (bool_decide _) eqn:E; [|done]. apply bool_decide_eq_true in E. injection Hstep as <-.
    assert (t <> tool) as Hne by (by intros ->).
    cbn in *. split_and!; [|done|lia]. split.
    + exists e. cbn. by rewrite lookup_delete_ne.
    + by intros ?%elem_of_remove_one.
  - injection Hstep as <-. assert (t <> tool) as Hne by (intros ->; by apply Hclear).
    unfold q_Clear in *. destruct (entries (sh_set c) !! t) eqn:E; cbn in *;
      (split_and!; [|done|lia]); (split; [exists e|done]); cbn; by rewrite ?lookup_delete_ne.
  - injection Hstep as <-. unfold q_List in *.
    pose proof (list_step_lookup (sh_now c) (map_iter (entries (sh_set c))) (entries (sh_set c)) [] tool) as Hl.
    destruct (fold_left _ _ _) as [m out]. cbn in *. split_and!; [|done|lia]. split; [|done].
    exists e. split; [|done]. cbn. rewrite Hl; [done|].
    intros k e' Hin ->. rewrite map_iter_perm in Hin. apply elem_of_map_to_list in Hin.
    rewrite He in Hin. injection Hin as <-. by eapply expired_mono.
Qed.

Lemma q_run_held ops c c' until tool :
  q_run ops c = Some c' -> OpClear tool ∉ ops -> held until tool c ->
  (if 0 <? q_ttl (sh_set c) then until <= sh_now c + q_ttl (sh_set c) else True)%Z ->
  (sh_now c' <= until)%Z -> held until tool c'.
Proof.
  revert c. induction ops as [|op ops IH]; intros c Hrun Hcl Hheld Httl Hnow.
  { by injection Hrun as <-. }
  cbn in Hrun. destruct (q_step op c) as [c1|] eqn:E; [|done]. cbn in Hrun.
  apply not_elem_of_cons in Hcl as [Hop Hcl].
  assert (sh_now c1 <= sh_now c')%Z as Hmono.
  { clear -Hrun. revert c1 Hrun. induction ops as [|o ops IH]; intros c1 Hrun; [by injection Hrun as <-|].
    cbn in Hrun. destruct (q_step o c1) as [c2|] eqn:E; [|done]. cbn in Hrun. specialize (IH _ Hrun).
    enough (sh_now c1 <= sh_now c2)%Z by lia. destruct o; cbn in E; repeat case_match; try done;
      simplify_eq; cbn; breflect; lia. }
  destruct (q_step_held op c c1 until tool) as (Hh & Ht & Hn); [done..|lia|].
  apply (IH c1); [done..| |done]. rewrite Ht. destruct (0 <? _)%Z; [lia|done].
Qed.
End run.

(** ** Theorems *)

Section theorems.
Context `{MapIter}.

(** A quarantine holds for its time to live: if no lookup of the tool was
    about to delete an expired entry when the tool was quarantined, then
    whatever operations interleave afterwards, other than clearing the tool,
    it is found quarantined until the time to live has passed. *)
Theorem quarantine_holds tool reason ruleID severity ops c c' :
  tool ∉ sh_pending c ->
  q_run (OpQuarantine tool reason ruleID severity :: ops) c = Some c' ->
  OpClear tool ∉ ops ->
  ((0 < q_ttl (sh_set c))%Z -> (sh_now c' <= sh_now c + q_ttl (sh_set c))%Z) ->
  exists e, lookup_read (sh_now c') tool (sh_set c') = LookupHit e.
Proof.
  intros Hp Hrun Hcl Hnow. cbn [q_run q_step mbind option_bind] in Hrun.
  set (c1 := with_set _ c) in Hrun.
  assert (held (sh_now c') tool c') as ((e & He & Ha) & _).
  { apply (q_run_held ops c1); [done..| | |lia].
    - split; [|done]. eexists. split; [apply lookup_insert_eq|]. apply Quarantine_active.
      destruct (0 <? _)%Z eqn:E; [breflect; by apply Hnow|done].
    - cbn. destruct (0 <? _)%Z eqn:E; [breflect; by apply Hnow|done]. }
  exists e. unfold lookup_read. rewrite He. unfold active_until in Ha. by rewrite Ha.
Qed.
End theorems.

Definition w_ops : list q_op :=
  [OpQuarantine "shell" "poisoned" "r1" "high"; OpTick 11; OpLookup "shell";
   OpQuarantine "shell" "poisoned again" "r1" "high"; OpLookupDelete "shell"].

Definition w_start : shared := mkShared (quarantine_New 10) 0 [].

(** The condition on pending lookups is needed: a lookup that saw the old
    entry expire, and deletes after the tool was quarantined afresh, removes
    the fresh entry, and the tool is allowed again. *)
Theorem lookup_drops_refresh `{MapIter} :
  exists c, q_run w_ops w_start = Some c /\ sh_now c = 11%Z /\
    lookup_read 11 "shell" (sh_set c) = LookupMiss.
Proof. eexists. split_and!; vm_compute; reflexivity. Qed.

Lemma quarantine_holds_witness :
  exists e, lookup_read 9 "shell"
    (sh_set (default w_start (@q_run canonical_iter
       [OpQuarantine "shell" "poisoned" "r1" "high"; OpTick 9; OpList; OpClear "curl"] w_start))) = LookupHit e.
Proof.
  apply (@quarantine_holds canonical_iter "shell" "poisoned" "r1" "high" [OpTick 9; OpList; OpClear "curl"] w_start
    (default w_start (@q_run canonical_iter
       [OpQuarantine "shell" "poisoned" "r1" "high"; OpTick 9; OpList; OpClear "curl"] w_start))).
  - apply not_elem_of_nil.
  - vm_compute. reflexivity.
  - rewrite !not_elem_of_cons. split_and!; [done..|apply not_elem_of_nil].
  - intros _. vm_compute. discriminate.
Defined.
