(* ===== verification/Http.v ===== *)
(** * What the proxies share: headers, exchanges, effects

    The helpers that [internal/proxy/proxy.go] and
    [internal/a2aproxy/a2aproxy.go] both carry ([copyHeaders], [singleJoin],
    [agentRunIDFromRequest]) and the vocabulary of their models: a request, the
    answer of the upstream server, and the list of effects of a handler in the
    order in which it performs them.  The text of a body is decoded by
    [Unmarshal], the parameter that stands for the syntax of [encoding/json]. *)

From S2P Require Import Prelude Utf8 Json Event Ruleset Mcp.

(** ** The text of a body *)

(** [json.Unmarshal] into [any] and the text of its error. *)
Class JsonText := { Unmarshal : string -> option json; UnmarshalError : string -> string }.

(** The error text of a failed [mcp.Parse] ([pkg = "mcp"]). *)
Definition parse_error_text `{JsonText} (empty parse version data : string) (e : parse_error) : string :=
  match e with
  | ErrVersion v => version +:+ quoted v
  | _ => if data ==s "" then empty else parse +:+ UnmarshalError data
  end.

Definition ParseText `{JsonText} (data : string) : result Envelope parse_error := mcp_Parse (Unmarshal data).

(** ** Headers *)

(** [http.Header], with canonical keys. *)
Definition Header : Type := gmap string (list string).

Definition h_Get (k : string) (h : Header) : string := hd "" (default [] (h !! k)).
Definition h_Set (k v : string) (h : Header) : Header := <[k := [v]]> h.
Definition h_Add (k v : string) (h : Header) : Header := <[k := default [] (h !! k) ++ [v]]> h.

Definition hop_by_hop : list string :=
  ["Connection"; "Keep-Alive"; "Proxy-Authenticate"; "Proxy-Authorization"; "Te"; "Trailer"; "Transfer-Encoding"; "Upgrade"].

Definition copyHeaders `{MapIter} (dst src : Header) : Header :=
  fold_left (fun dst e =>
    if bool_decide (e.1 ∈ hop_by_hop) then dst else fold_left (fun dst v => h_Add e.1 v dst) e.2 dst)
    (map_iter src) dst.

Definition headerAgentRunID : string := "X-Hopframe-Agent-Run-Id".
Definition headerCounterparty : string := "X-Hopframe-Counterparty".

(** ** Paths *)

Definition slash : ascii := "/".

Fixpoint last_char (s : string) : option ascii :=
  match s with
  | EmptyString => None
  | String c EmptyString => Some c
  | String _ s' => last_char s'
  end.

Definition ends_slash (a : string) : bool := match last_char a with Some c => Ascii.eqb c slash | None => false end.
Definition starts_slash (b : string) : bool := match b with String c _ => Ascii.eqb c slash | EmptyString => false end.

Definition singleJoin (a b : string) : string :=
  if (a ==s "") || (a ==s "/") then b
  else if (b ==s "") || (b ==s "/") then a
  else if ends_slash a && starts_slash b then a +:+ str_drop 1 b
  else if negb (ends_slash a) && negb (starts_slash b) then a +:+ "/" +:+ b
  else a +:+ b.

(** ** Addresses *)

(** The parts of a text around the last occurrence of a character. *)
Fixpoint cut_last (c : ascii) (s : string) : option (string * string) :=
  match s with
  | EmptyString => None
  | String d s' =>
      match cut_last c s' with
      | Some (x, y) => Some (String d x, y)
      | None => if Ascii.eqb d c then Some (EmptyString, s') else None
      end
  end.

(** The parts around the first occurrence. *)
Fixpoint cut_first (c : ascii) (s : string) : option (string * string) :=
  match s with
  | EmptyString => None
  | String d s' =>
      if Ascii.eqb d c then Some (EmptyString, s')
      else match cut_first c s' with Some (x, y) => Some (String d x, y) | None => None end
  end.

Definition has_char (c : ascii) (s : string) : bool := match cut_first c s with Some _ => true | None => false end.

(** The host of [net.SplitHostPort]; [None] is its error. *)
Definition split_host (hostport : string) : option string :=
  match cut_last ":" hostport with
  | None => None
  | Some (before, port) =>
      match before with
      | String "[" inner =>
          match cut_first "]" inner with
          | Some (host, EmptyString) =>
              if has_char "[" (inner +:+ ":" +:+ port) || has_char "]" port then None else Some host
          | _ => None
          end
      | _ => if has_char ":" before || has_char "[" hostport || has_char "]" hostport then None else Some before
      end
  end.

(** ** Exchanges *)

Record Request := mkRequest {
  rq_Method : string; rq_Path : string; rq_RawQuery : string; rq_Host : string;
  rq_Header : Header; rq_RemoteAddr : string;
  rq_Body : result string string     (* the bytes read, or the read error *)
}.

(** The request that goes to the upstream server. *)
Record UpRequest := mkUpRequest {
  up_Method : string; up_Path : string; up_RawQuery : string; up_Header : Header; up_Body : string
}.

(** What comes back: no answer, or an answer whose body was read to the end or
    broke off with an error. *)
Inductive up_reply :=
| UpFailed (err : string)
| UpAnswer (code : Z) (h : Header) (body : string) (broken : option string).

(** What a handler does, in order. *)
Inductive effect :=
| Emitted (ev : Event)                                  (* Emitter.Emit *)
| Sent (u : UpRequest)                                  (* client.Do *)
| Replied (code : Z) (h : Header) (body : string)       (* the whole answer *)
| Failed (code : Z) (text : string)                     (* http.Error *)
| Streaming (code : Z) (h : Header)                     (* the head of a stream *)
| Chunk (text : string).                                (* one write and flush *)

(** A path that [cleanPath] leaves alone: rooted, without empty, [.] or [..]
    elements; it may end in a slash. *)
Definition clean_element (e : string) : bool := negb ((e ==s "") || (e ==s ".") || (e ==s "..")).
Definition is_clean (path : string) : bool :=
  match split_on "/" path with
  | "" :: e :: es =>
      let all := e :: es in
      let last := List.last all "" in
      forallb clean_element (removelast all) && negb ((last ==s ".") || (last ==s ".."))
  | _ => false
  end.

(** The upstream URL: its path, its query and its text. *)
Record Url := mkUrl { url_Path : string; url_RawQuery : string; url_String : string }.

(** What a handler draws from its surroundings: the clock, the stamp that the
    event ids of malformed messages carry, fresh event ids, the measured
    latency, and the run id it would generate. *)
Record Ambient := mkAmbient {
  am_now : Z; am_stamp : string; am_evid : nat -> string; am_latency : Z; am_runID : string
}.

Definition agentRunIDFromRequest (a : Ambient) (r : Request) : string :=
  let v := h_Get headerAgentRunID (rq_Header r) in
  if v !=s "" then v else am_runID a.

(** Setting the run and the counterparty of an event. *)
Definition set_AgentRunID (run : string) (ev : Event) : Event :=
  mkEvent (ev_Schema ev) (ev_EventID ev) (ev_Timestamp ev) (ev_SensorID ev) (ev_TenantID ev) run
    (ev_Counterparty ev) (ev_Protocol ev) (ev_Direction ev) (ev_Source ev) (ev_Destination ev) (ev_Message ev)
    (ev_Findings ev) (ev_Action ev) (ev_Severity ev) (ev_LatencyMicros ev).
Definition set_Counterparty (cp : string) (ev : Event) : Event :=
  mkEvent (ev_Schema ev) (ev_EventID ev) (ev_Timestamp ev) (ev_SensorID ev) (ev_TenantID ev) (ev_AgentRunID ev)
    cp (ev_Protocol ev) (ev_Direction ev) (ev_Source ev) (ev_Destination ev) (ev_Message ev)
    (ev_Findings ev) (ev_Action ev) (ev_Severity ev) (ev_LatencyMicros ev).

(** The event of a message that does not parse. *)
Definition malformed_event (now : Z) (evid sensor tenant run proto dir source dest method raw action rule desc : string) : Event :=
  let ev := event_New now sensor proto dir in
  mkEvent (ev_Schema ev) evid (ev_Timestamp ev) (ev_SensorID ev) tenant run (ev_Counterparty ev) (ev_Protocol ev)
    (ev_Direction ev) source dest (mkMessage "" method [] [] [] raw)
    [mkFinding rule "policy" SeverityLow desc "" "" "0" []] action SeverityLow (ev_LatencyMicros ev).

(** ** Lines of a stream *)

Definition newline : string := String (chr 10) "".

(** [bufio.ScanLines]: a carriage return before the newline goes, and the last
    line needs no newline. *)
Definition drop_cr (s : string) : string :=
  match last_char s with
  | Some c => if Ascii.eqb c (chr 13) then str_take (String.length s - 1) s else s
  | None => s
  end.

Definition text_lines (s : string) : list string :=
  let parts := split_on (chr 10) s in
  match last parts with
  | Some EmptyString => removelast parts
  | _ => parts
  end.

(** The lines a scanner with a buffer of [max] bytes returns. *)
Fixpoint scanned (max : N) (ls : list string) : list string :=
  match ls with
  | [] => []
  | l :: ls' => if (max <=? N.of_nat (String.length l))%N then [] else drop_cr l :: scanned max ls'
  end.

Definition scanner_max : N := 0x800000.

(** ** Lemmas on headers and effects *)

(** What the handler sends upstream and what it gives the client. *)
Definition sent (es : list effect) : list UpRequest :=
  flat_map (fun e => match e with Sent u => [u] | _ => [] end) es.
Definition emitted (es : list effect) : list Event :=
  flat_map (fun e => match e with Emitted ev => [ev] | _ => [] end) es.

Lemma sent_cons e es : sent (e :: es) = match e with Sent u => [u] | _ => [] end ++ sent es.
Proof. done. Qed.
Lemma sent_app a b : sent (a ++ b) = sent a ++ sent b.
Proof. apply flat_map_app. Qed.
Lemma emitted_app a b : emitted (a ++ b) = emitted a ++ emitted b.
Proof. apply flat_map_app. Qed.
