(* ===== verification/Gateway.v ===== *)
(** * The gateway

    [internal/gateway/gateway.go]: many MCP servers behind one address.  Each
    route is a proxy of its own; the routes share one pipeline. *)

From S2P Require Import Prelude Text Json Mcp Pipeline Quarantine Http Proxy.
From S2P Require Import Event Normalize.

Record Route := mkRoute { ro_Name : string; ro_Prefix : string; ro_Upstream : string }.

Record compiledRoute := mkCompiled { cr_name : string; cr_prefix : string; cr_proxy : ProxyServer }.

(** [strings.TrimRight(s, "/")]. *)
Fixpoint trim_slashes (s : string) : string :=
  match s with
  | "" => ""
  | String c s' => match trim_slashes s' with
                   | "" => if Ascii.eqb c slash then "" else String c ""
                   | t => String c t
                   end
  end.

(** The loop of [New]; [parse] is [url.Parse]. *)
Fixpoint compile_routes (parse : string -> result Url string) (timeout : Z) (failOpen : bool)
    (seen : list string) (routes : list Route) : result (list compiledRoute) string :=
  match routes with
  | [] => Ok []
  | rt :: routes' =>
      if (ro_Prefix rt ==s "") || (ro_Upstream rt ==s "")
      then Err ("gateway: route " +:+ quoted (ro_Name rt) +:+ " needs both prefix and upstream")
      else let prefix := trim_slashes (ro_Prefix rt) in
      if bool_decide (prefix ∈ seen) then Err ("gateway: duplicate route prefix " +:+ quoted prefix)
      else match proxy_New true true (ro_Upstream rt) (parse (ro_Upstream rt)) "" timeout failOpen with
      | Err e => Err ("gateway: route " +:+ quoted (ro_Name rt) +:+ ": " +:+ e)
      | Ok p =>
          match compile_routes parse timeout failOpen (prefix :: seen) routes' with
          | Err e => Err e
          | Ok compiled => Ok (mkCompiled (ro_Name rt) prefix p :: compiled)
          end
      end
  end.

Definition longer (a b : compiledRoute) : bool := (String.length (cr_prefix b) <? String.length (cr_prefix a))%nat.

Definition gateway_New (pipeline emitter : bool) (parse : string -> result Url string) (routes : list Route)
    (timeout : Z) (failOpen : bool) : result (list compiledRoute) string :=
  if negb pipeline then Err "gateway: pipeline is required"
  else if negb emitter then Err "gateway: emitter is required"
  else match routes with
  | [] => Err "gateway: at least one route is required"
  | _ => match compile_routes parse timeout failOpen [] routes with
         | Err e => Err e
         | Ok compiled => Ok (sort_stable longer compiled)
         end
  end.

(** [Routes]. *)
Definition gateway_Routes (routes : list compiledRoute) : list string := map cr_name routes.

Definition covers (path prefix : string) : bool := (path ==s prefix) || HasPrefix path (prefix +:+ "/").

Fixpoint match_route (path : string) (routes : list compiledRoute) : option compiledRoute :=
  match routes with
  | [] => None
  | rt :: routes' => if covers path (cr_prefix rt) then Some rt else match_route path routes'
  end.

Definition stripPrefix (path prefix : string) : string :=
  let rest := TrimPrefix path prefix in if rest ==s "" then "/" else rest.

Definition with_path (path : string) (r : Request) : Request :=
  mkRequest (rq_Method r) path (rq_RawQuery r) (rq_Host r) (rq_Header r) (rq_RemoteAddr r) (rq_Body r).

Section gateway.
Context `{MapIter} `{Unicode} `{JsonText}.

(** [ServeHTTP]; [up] answers for every server, by its URL. *)
Definition gateway_ServeHTTP (routes : list compiledRoute) (a : Ambient) (r : Request)
    (up : string -> UpRequest -> up_reply) (p : Pipeline) : Pipeline * list effect :=
  if (rq_Path r ==s "/healthz") && ((rq_Method r ==s "GET") || (rq_Method r ==s "HEAD"))
  then (p, [Replied 200 (h_Set "Content-Type" "application/json" ∅) (marshal (JObj [("status", JStr "ok")]))])
  else match match_route (rq_Path r) routes with
  | None => (p, [Failed 404 ("no hopframe route for path " +:+ rq_Path r)])
  | Some rt =>
      proxy_ServeHTTP (cr_proxy rt) a (with_path (stripPrefix (rq_Path r) (cr_prefix rt)) r)
        (up (url_String (px_upstream (cr_proxy rt)))) p
  end.
End gateway.

(** ** Prefixes *)

(** A path is covered by a prefix when it continues it at a segment boundary. *)
Lemma covers_spec path prefix : covers path prefix = true <-> path = prefix \/ exists x, path = prefix +:+ "/" +:+ x.
Proof.
  unfold covers. rewrite orb_true_iff, String.eqb_eq, HasPrefix_spec. split; (intros [?|[x ->]]; [by left|right]); exists x; by rewrite sapp_assoc.
Qed.

Lemma covers_length path p1 p2 : covers path p1 = true -> covers path p2 = true ->
  String.length p1 = String.length p2 -> p1 = p2.
Proof.
  assert (forall p1 p2 x y, p1 +:+ x = p2 +:+ y -> String.length p1 = String.length p2 -> p1 = p2) as Happ.
  { clear. induction p1 as [|c p1 IH]; intros [|d p2] x y; cbn; [done..|]. intros [= -> E] [= ?]. f_equal. by eapply IH. }
  rewrite !covers_spec. intros [->|[x ->]] [E|[y E]] Hl.
  - done.
  - apply (Happ _ _ "" ("/" +:+ y)); [|done]. by rewrite sapp_nil_r.
  - apply (Happ _ _ ("/" +:+ x) ""); [|done]. by rewrite sapp_nil_r.
  - by apply (Happ _ _ ("/" +:+ x) ("/" +:+ y)).
Qed.

Lemma stripPrefix_spec path prefix : covers path prefix = true ->
  starts_slash (stripPrefix path prefix) = true /\
  (path = prefix +:+ stripPrefix path prefix \/ path = prefix /\ stripPrefix path prefix = "/").
Proof.
  intros [->|[x ->]]%covers_spec; unfold stripPrefix.
  - assert (TrimPrefix prefix prefix = "") as -> by (rewrite <- (sapp_nil_r prefix) at 1; apply TrimPrefix_app).
    split; [done|by right].
  - rewrite TrimPrefix_app. split; [done|by left].
Qed.

(** ** The table of routes *)

(** The route comes from the configuration. *)
Definition configured (parse : string -> result Url string) (rs : list Route) (rt : compiledRoute) : Prop :=
  exists x, x ∈ rs /\ cr_name rt = ro_Name x /\ cr_prefix rt = trim_slashes (ro_Prefix x) /\
    parse (ro_Upstream x) = Ok (px_upstream (cr_proxy rt)).

Lemma compile_routes_spec parse timeout fo seen rs routes :
  compile_routes parse timeout fo seen rs = Ok routes ->
  NoDup (map cr_prefix routes) /\ Forall (fun rt => cr_prefix rt ∉ seen) routes /\
  Forall (fun rt => configured parse rs rt /\ px_FailOpen (cr_proxy rt) = fo) routes /\
  map cr_prefix routes = map (fun x => trim_slashes (ro_Prefix x)) rs.
Proof.
  revert seen routes. induction rs as [|x rs IH]; intros seen routes; cbn [compile_routes].
  { intros [= <-]. split_and!; constructor. }
  destruct (_ || _) eqn:Ene; [done|]. apply orb_false_iff in Ene as [_ Eu]. apply String.eqb_neq in Eu.
  case_bool_decide as Hin; [done|]. unfold proxy_New. cbn [negb].
  rewrite (proj2 (String.eqb_neq _ _)) by done. destruct (parse (ro_Upstream x)) as [u|] eqn:Ep; [|done].
  destruct (compile_routes _ _ _ _ rs) as [l|] eqn:Er; [|done]. intros [= <-].
  destruct (IH _ _ Er) as (Hnd & Hseen & Hconf & Hmap). cbn [map]. split_and!.
  - constructor; [|done]. intros (rt & Heq & Hrt)%list_elem_of_fmap. rewrite Forall_forall in Hseen.
    apply (Hseen rt Hrt). cbn in Heq. rewrite <- Heq. apply elem_of_cons. by left.
  - constructor; [done|]. eapply Forall_impl; [exact Hseen|]. intros rt Hn Hs. apply Hn. apply elem_of_cons. by right.
  - constructor.
    + split; [|done]. exists x. split_and!; [apply elem_of_cons; by left|done..].
    + eapply Forall_impl; [exact Hconf|]. intros rt [(y & Hy & ?) ?]. split; [|done]. exists y. split; [apply elem_of_cons; by right|done].
  - by rewrite Hmap.
Qed.

Section routing.
Context (parse : string -> result Url string) (rs : list Route) (timeout : Z) (fo : bool) (routes : list compiledRoute).
Context (Hnew : gateway_New true true parse rs timeout fo = Ok routes).

Lemma routes_spec :
  StronglySorted (fun a b => longer b a = false) routes /\ NoDup (map cr_prefix routes) /\
  Forall (fun rt => configured parse rs rt /\ px_FailOpen (cr_proxy rt) = fo) routes /\
  map cr_prefix routes ≡ₚ map (fun x => trim_slashes (ro_Prefix x)) rs.
Proof.
  unfold gateway_New in Hnew. cbn [negb] in Hnew. destruct rs as [|x rs']; [done|].
  destruct (compile_routes parse timeout fo [] (x :: rs')) as [l|] eqn:Er; [|done]. injection Hnew as <-.
  destruct (compile_routes_spec _ _ _ _ _ _ Er) as (Hnd & _ & Hconf & Hmap).
  pose proof (sort_stable_perm longer l) as Hp. split_and!.
  - apply sort_stable_sorted; unfold longer; intros; rewrite ?Nat.ltb_ge, ?Nat.ltb_lt in *; lia.
  - by rewrite Hp.
  - by rewrite Hp.
  - by rewrite Hp, Hmap.
Qed.

Lemma match_route_Some path l rt : match_route path l = Some rt -> rt ∈ l /\ covers path (cr_prefix rt) = true.
Proof.
  induction l as [|x l IH]; [done|]. cbn. destruct (covers path (cr_prefix x)) eqn:E.
  - intros [= ->]. split; [apply elem_of_cons; by left|done].
  - intros [? ?]%IH. split; [apply elem_of_cons; by right|done].
Qed.

Lemma match_route_None path l : match_route path l = None <-> Forall (fun rt => covers path (cr_prefix rt) = false) l.
Proof.
  induction l as [|x l IH]; [by split|]. cbn. rewrite Forall_cons. destruct (covers path (cr_prefix x)); [|tauto].
  split; [done|]. by intros [? _].
Qed.

Lemma match_route_first path l rt : StronglySorted (fun a b => longer b a = false) l -> NoDup (map cr_prefix l) ->
  rt ∈ l -> covers path (cr_prefix rt) = true ->
  (forall rt', rt' ∈ l -> covers path (cr_prefix rt') = true -> rt' = rt \/ longer rt rt' = true) ->
  match_route path l = Some rt.
Proof.
  induction 1 as [|x l Hs IH Hall]; [by intros _ ?%elem_of_nil|]. intros [Hx Hnd]%NoDup_cons Hin Hc Hbest. cbn.
  destruct (covers path (cr_prefix x)) eqn:E.
  - destruct (Hbest x) as [->|Hl]; [apply elem_of_cons; by left|done|done|]. apply elem_of_cons in Hin as [->|Hin]; [done|].
    rewrite Forall_forall in Hall. specialize (Hall rt Hin). by rewrite Hl in Hall.
  - apply elem_of_cons in Hin as [->|Hin]; [congruence|]. apply IH; [done..|]. intros rt' Hrt'. apply Hbest. apply elem_of_cons. by right.
Qed.

Lemma match_route_best path l rt : StronglySorted (fun a b => longer b a = false) l -> NoDup (map cr_prefix l) ->
  match_route path l = Some rt ->
  forall rt', rt' ∈ l -> covers path (cr_prefix rt') = true -> rt' = rt \/ longer rt rt' = true.
Proof.
  induction 1 as [|x l Hs IH Hall]; [done|]. intros [Hx Hnd]%NoDup_cons. cbn. destruct (covers path (cr_prefix x)) eqn:E.
  - intros [= ->] rt' [->|Hin]%elem_of_cons Hc; [by left|right]. rewrite Forall_forall in Hall. specialize (Hall rt' Hin).
    unfold longer in Hall |- *. apply Nat.ltb_lt. apply Nat.ltb_ge in Hall.
    assert (String.length (cr_prefix rt') <> String.length (cr_prefix rt)) as Hne; [|lia].
    intros Heq. apply Hx. rewrite <- (covers_length path (cr_prefix rt') (cr_prefix rt)) by done.
    by apply (list_elem_of_fmap_2 cr_prefix).
  - intros Hm rt' [->|Hin]%elem_of_cons Hc; [congruence|]. by apply IH.
Qed.

(** A request goes to the most specific route: the route that answers for a
    path is the one with the longest configured prefix that ends at a segment
    boundary of the path, whatever the order of the configuration; there is
    none only when no configured prefix covers the path; and the server sees
    the path without that prefix, starting with a slash. *)
Theorem gateway_routing path :
  (forall rt, match_route path routes = Some rt <->
     rt ∈ routes /\ covers path (cr_prefix rt) = true /\
     forall rt', rt' ∈ routes -> covers path (cr_prefix rt') = true -> rt' = rt \/ longer rt rt' = true) /\
  (match_route path routes = None <-> forall x, x ∈ rs -> covers path (trim_slashes (ro_Prefix x)) = false) /\
  (forall rt, match_route path routes = Some rt -> configured parse rs rt /\
     starts_slash (stripPrefix path (cr_prefix rt)) = true /\
     (path = cr_prefix rt +:+ stripPrefix path (cr_prefix rt) \/ path = cr_prefix rt /\ stripPrefix path (cr_prefix rt) = "/")).
Proof.
  destruct routes_spec as (Hs & Hnd & Hconf & Hmap). split_and!.
  - intros rt. split; [|intros (? & ? & ?); by apply match_route_first].
    intros Hm. destruct (match_route_Some _ _ _ Hm). split_and!; [done..|]. by apply match_route_best.
  - rewrite match_route_None, <- (Forall_map cr_prefix (fun pr => covers path pr = false)), Hmap, Forall_map, Forall_forall. done.
  - intros rt Hm. destruct (match_route_Some _ _ _ Hm) as [Hin Hc]. rewrite Forall_forall in Hconf.
    split; [by apply Hconf|]. by apply stripPrefix_spec.
Qed.
End routing.

(** ** One pipeline behind every route *)

Section shared.
Context `{MapIter} `{Unicode} `{JsonText}.

Definition gateway_exchange : Type := Ambient * Request * (string -> UpRequest -> up_reply).

Definition gateway_run (routes : list compiledRoute) (xs : list gateway_exchange) (p : Pipeline) : Pipeline :=
  fold_left (fun p x => (gateway_ServeHTTP routes x.1.1 x.1.2 x.2 p).1) xs p.

Lemma gateway_held until ttl tool start routes a r up p :
  window_ok until ttl start -> in_window until start a -> p_held until tool ttl p ->
  p_held until tool ttl (gateway_ServeHTTP routes a r up p).1.
Proof.
  intros Hw Ha Hh. unfold gateway_ServeHTTP. destruct (_ && _); [done|]. destruct (match_route _ _); [|done].
  by apply (ServeHTTP_held until ttl tool start).
Qed.

End shared.

(** ** Witnesses *)

#[local] Existing Instances canonical_iter ascii_tables w_docs.

Definition sample_parse (u : string) : result Url string := Ok (mkUrl "/mcp" "" u).
Definition sample_table : list Route :=
  [mkRoute "files" "/files" "http://files.local/mcp"; mkRoute "tools" "/files/tools/" "http://tools.local/mcp"].
Definition sample_routes : list compiledRoute :=
  match gateway_New true true sample_parse sample_table 0 false with Ok l => l | Err _ => [] end.

Lemma gateway_routing_witness :
  match_route "/files/tools/list" sample_routes = head sample_routes /\
  (match_route "/filesystem" sample_routes = None <->
     forall x, x ∈ sample_table -> covers "/filesystem" (trim_slashes (ro_Prefix x)) = false).
Proof.
  pose proof (gateway_routing sample_parse sample_table 0 false sample_routes eq_refl) as Hg.
  split; [vm_compute; reflexivity|apply (Hg "/filesystem")].
Defined.

