(* ===== verification/ExtAuthz.v ===== *)
(** * The external-authorization adapter

    [internal/extauthz/extauthz.go]: the allow or deny decision for a gateway
    that forwards the request itself. *)

From S2P Require Import Prelude Utf8 Json Event Policy PolicyClient Normalize Ruleset Mcp A2a Taint Quarantine Pipeline Http Proxy.

(** ** The server *)

Record AuthzServer := mkAuthz { az_FailOpen : bool; az_DestLabel : string; az_bodyMax : N }.

Definition headerDecision : string := "X-Hopframe-Decision".
Definition headerFinding : string := "X-Hopframe-Finding".
Definition defaultBodyMaxBytes : Z := 1048576.

Definition authz_New (pipeline emitter failOpen : bool) (destLabel : string) (bodyMaxBytes : Z) : result AuthzServer string :=
  if negb pipeline then Err "extauthz: pipeline is required"
  else if negb emitter then Err "extauthz: emitter is required"
  else Ok (mkAuthz failOpen destLabel (Z.to_N (if (bodyMaxBytes <=? 0)%Z then defaultBodyMaxBytes else bodyMaxBytes))).

Definition clientSource (r : Request) : string :=
  let xff := h_Get "X-Forwarded-For" (rq_Header r) in
  if xff !=s "" then
    match cut_first "," xff with
    | Some (hop, _) => TrimSpaceU hop
    | None => TrimSpaceU xff
    end
  else default (rq_RemoteAddr r) (split_host (rq_RemoteAddr r)).

Definition authz_dest (s : AuthzServer) (r : Request) : string :=
  if az_DestLabel s !=s "" then az_DestLabel s else rq_Host r.

(** ** Decisions *)

Definition topFindingID (findings : list Finding) : string :=
  match List.find (fun f => (f_Severity f ==s SeverityCritical) || (f_Severity f ==s SeverityHigh)) findings with
  | Some f => f_RuleID f
  | None => match findings with f :: _ => f_RuleID f | [] => "" end
  end.

Definition allow (run : string) : effect := Replied 200 (h_Set headerAgentRunID run (h_Set headerDecision "allow" ∅)) "".

Definition deny (id : option json) (run reason findingID : string) : effect :=
  let h := h_Set headerAgentRunID run (h_Set headerDecision "block" ∅) in
  Replied 403 (h_Set "Content-Type" "application/json" (if findingID !=s "" then h_Set headerFinding findingID h else h))
    (blocked_text id reason).

Definition onError (s : AuthzServer) (run : string) : effect :=
  if az_FailOpen s then allow run else deny None run "blocked by hopframe: internal error" "".

Section authz.
Context `{MapIter} `{JsonText}.

Definition authz_malformed (s : AuthzServer) (a : Ambient) (r : Request) (p : Pipeline) (body err run action : string) : effect :=
  Emitted (malformed_event (am_now a) ("ev-malformed-" +:+ am_stamp a) (pl_SensorID p) (pl_TenantID p) run
             ProtocolMCP DirectionInbound (clientSource r) (authz_dest s r) "" body action
             "envelope.malformed" ("MCP envelope failed to parse: " +:+ err)).

(** What [io.ReadAll] returns through the limit: the text, and whether it is
    over the limit. *)
Definition limited (max : N) (body : string) : string * bool :=
  if (max <? N.of_nat (String.length body))%N then (str_take (N.to_nat max) body, true) else (body, false).

(** [ServeHTTP]. *)
Definition authz_ServeHTTP (s : AuthzServer) (a : Ambient) (r : Request) (p : Pipeline) : Pipeline * list effect :=
  if (rq_Path r ==s "/healthz") && ((rq_Method r ==s "GET") || (rq_Method r ==s "HEAD"))
  then (p, [Replied 200 ∅ (marshal (JObj [("status", JStr "ok")]))])
  else
    let run := agentRunIDFromRequest a r in
    match rq_Body r with
    | Err _ => (p, [onError s run])
    | Ok body =>
        let '(body, over) := limited (az_bodyMax s) body in
        if over then
          (p, [authz_malformed s a r p body "MCP request body exceeds inspection limit" run ActionBlock;
               deny None run "blocked by hopframe: mcp request body exceeds inspection limit" "envelope.body_too_large"])
        else match ParseText body with
        | Err e =>
            (p, [authz_malformed s a r p body (mcp_error body e) run (if az_FailOpen s then ActionAllow else ActionBlock);
                 if az_FailOpen s then allow run
                 else deny None run "blocked by hopframe: invalid mcp envelope" "envelope.malformed"])
        | Ok env =>
            let '(p1, res) := EvaluateMCP (am_now a) (am_evid a 0) (am_latency a) env body DirectionInbound
                                (clientSource r) (authz_dest s r) p in
            match res with
            | Err _ => (p1, [onError s run])
            | Ok res =>
                (p1, [Emitted (set_AgentRunID run (er_Event res));
                      if er_Block res then deny (env_ID env) run (er_BlockReason res) (topFindingID (ev_Findings (er_Event res)))
                      else allow run])
            end
        end
    end.
End authz.

(** ** The decision *)

Definition decision (es : list effect) : option bool :=
  match last es with
  | Some (Replied 200 _ _) => Some true
  | Some (Replied 403 _ _) => Some false
  | _ => None
  end.

Section facts.
Context `{MapIter} `{Unicode} `{JsonText}.

Definition health_check (r : Request) : bool :=
  (rq_Path r ==s "/healthz") && ((rq_Method r ==s "GET") || (rq_Method r ==s "HEAD")).

(** The message as the adapter evaluates it. *)
Definition authz_outcome (s : AuthzServer) (a : Ambient) (r : Request) (p : Pipeline) (body : string)
    : option (result EvalResult string) :=
  match ParseText body with
  | Err _ => None
  | Ok env => Some (EvaluateMCP (am_now a) (am_evid a 0) (am_latency a) env body DirectionInbound
                      (clientSource r) (authz_dest s r) p).2
  end.

(** Every check gets an answer, and it is to allow in two cases only: the
    whole body was read, parsed and evaluated, and the pipeline let it pass; or
    the adapter fails open and reading, parsing or evaluating failed, but never
    for a body over the limit, of which a part would go on uninspected. *)
Theorem authz_decision s a r p : health_check r = false ->
  exists allowed, decision (authz_ServeHTTP s a r p).2 = Some allowed /\
  (allowed = true <->
   match rq_Body r with
   | Err _ => az_FailOpen s = true
   | Ok body =>
       (N.of_nat (String.length body) <= az_bodyMax s)%N /\
       match authz_outcome s a r p body with
       | Some (Ok res) => er_Block res = false
       | Some (Err _) | None => az_FailOpen s = true
       end
   end).
Proof.
  intros Hh. unfold health_check in Hh. unfold authz_ServeHTTP, authz_outcome. rewrite Hh.
  destruct (rq_Body r) as [body|e].
  2:{ unfold onError, decision, deny, allow. destruct (az_FailOpen s); [by exists true|exists false]. by split. }
  unfold limited. destruct (_ <? _)%N eqn:El; [apply N.ltb_lt in El|apply N.ltb_ge in El].
  { exists false. split; [done|]. split; [done|]. intros [? _]. lia. }
  destruct (ParseText body) as [env|e].
  - destruct (EvaluateMCP _ _ _ _ _ _ _ _ _) as [p1 [res|e]]; cbn [snd].
    + destruct (er_Block res); [exists false|exists true]; (split; [done|]); split; try done; by intros [_ ?].
    + unfold onError. destruct (az_FailOpen s); [exists true|exists false]; (split; [done|]); split; try done; by intros [_ ?].
  - destruct (az_FailOpen s); [exists true|exists false]; (split; [done|]); split; try done; by intros [_ ?].
Qed.

End facts.

(** ** Witnesses *)

Section witnesses.
#[local] Existing Instances canonical_iter ascii_tables literal_regex.
#[local] Instance w_docs : JsonText := docs_json [d_call].

Definition w_authz : AuthzServer := mkAuthz false "http://tools.local/mcp" 1048576.
Definition w_check : Request := mkRequest "POST" "/mcp" "" "gw" (h_Set "X-Forwarded-For" "10.0.0.7:5000, 10.1.1.1" ∅) "10.0.0.7:5000" (Ok (marshal d_call)).
Definition w_poisoned : Pipeline :=
  set_Quarantine (Some (Quarantine 1 "shell" "poisoned" "tp" "high" (quarantine_New 100)).1) w_proxy_pipe.

Lemma authz_decision_witness :
  exists allowed, decision (authz_ServeHTTP w_authz (w_ambient 5) w_check w_poisoned).2 = Some allowed /\
  (allowed = true <->
   (N.of_nat (String.length (marshal d_call)) <= 1048576)%N /\
   match authz_outcome w_authz (w_ambient 5) w_check w_poisoned (marshal d_call) with
   | Some (Ok res) => er_Block res = false
   | Some (Err _) | None => false = true
   end).
Proof. apply (authz_decision w_authz (w_ambient 5) w_check w_poisoned). reflexivity. Defined.

Definition w_outcome : EvalResult :=
  match authz_outcome w_authz (w_ambient 5) w_check w_poisoned (marshal d_call) with
  | Some (Ok res) => res
  | _ => mkEval (event_New 0 "" "" "") "" false ""
  end.


Example w_denied : decision (authz_ServeHTTP w_authz (w_ambient 5) w_check w_poisoned).2 = Some false.
Proof. vm_compute. reflexivity. Qed.
End witnesses.
