(* ===== verification/StdioProxy.v ===== *)
(** * The stdio proxy

    [internal/stdioproxy/stdioproxy.go]: one message per line between a client
    and a child process.  The two directions run in goroutines of their own
    over one pipeline; a session is a sequence of lines from either side, each
    handled to its end.  A line is what the scanner returns, so it holds no
    newline. *)

From S2P Require Import Prelude Utf8 Json Event Policy PolicyClient Normalize Ruleset Mcp A2a Taint Quarantine Pipeline Http Proxy.

(** ** The session *)

Record StdioOptions := mkStdio { so_Command : string; so_FailOpen : bool }.

Definition stdio_validate (pipeline emitter : bool) (command : string) : option string :=
  if negb pipeline then Some "stdioproxy: pipeline is required"
  else if negb emitter then Some "stdioproxy: emitter is required"
  else if command ==s "" then Some "stdioproxy: command is required"
  else None.

Inductive stdio_effect :=
| StdioEmit (ev : Event)
| ToChild (text : string)
| ToClient (text : string).

(** [bytesTrimSpace]. *)
Definition stdio_space (c : ascii) : bool :=
  let n := N_of_ascii c in (n =? 32)%N || (n =? 9)%N || (n =? 13)%N || (n =? 10)%N.
Fixpoint trim_left (s : string) : string :=
  match s with
  | String c s' => if stdio_space c then trim_left s' else s
  | EmptyString => EmptyString
  end.
Fixpoint trim_right (s : string) : string :=
  match s with
  | EmptyString => EmptyString
  | String c s' =>
      match trim_right s' with
      | EmptyString => if stdio_space c then EmptyString else String c EmptyString
      | t => String c t
      end
  end.
Definition bytesTrimSpace (s : string) : string := trim_right (trim_left s).

(** [writeClient]: a newline unless there is one. *)
Definition writeClient (line : string) : stdio_effect :=
  ToClient (match last_char line with
            | Some c => if Ascii.eqb c (chr 10) then line else line +:+ newline
            | None => newline
            end).

Section stdio.
Context `{MapIter} `{Unicode} `{JsonText}.

Definition stdio_malformed (o : StdioOptions) (a : Ambient) (p : Pipeline) (body err run dir : string) : stdio_effect :=
  StdioEmit (malformed_event (am_now a) ("ev-malformed-" +:+ am_stamp a) (pl_SensorID p) (pl_TenantID p) run
               ProtocolMCP dir "client" ("child:" +:+ so_Command o) "" body ActionAllow
               "envelope.malformed" ("MCP envelope failed to parse: " +:+ err)).

(** [evaluateAndForward]; [child_ok] is whether a write to the child
    succeeds, and the result whether the reading goes on. *)
Definition evaluateAndForward (o : StdioOptions) (a : Ambient) (line dir run : string) (child_ok : bool) (p : Pipeline)
    : Pipeline * list stdio_effect * bool :=
  match ParseText line with
  | Err e =>
      let m := stdio_malformed o a p line (mcp_error line e) run dir in
      if so_FailOpen o then (p, [m; ToChild (line +:+ newline)], child_ok)
      else (p, [m; writeClient (blocked_text None ("invalid mcp envelope: " +:+ mcp_error line e))], true)
  | Ok env =>
      let '(p1, res) := EvaluateMCP (am_now a) (am_evid a 0) (am_latency a) env line dir "client" ("child:" +:+ so_Command o) p in
      match res with
      | Err e =>
          if so_FailOpen o then (p1, [ToChild (line +:+ newline)], child_ok)
          else (p1, [writeClient (blocked_text (env_ID env) ("pipeline error: " +:+ e))], true)
      | Ok res =>
          let m := StdioEmit (set_AgentRunID run (er_Event res)) in
          if er_Block res then (p1, [m; writeClient (blocked_text (env_ID env) (er_BlockReason res))], true)
          else (p1, [m; ToChild (line +:+ newline)], child_ok)
      end
  end.

(** [evaluateAndForwardOutbound]. *)
Definition evaluateAndForwardOutbound (o : StdioOptions) (a : Ambient) (line run : string) (p : Pipeline)
    : Pipeline * list stdio_effect :=
  match ParseText line with
  | Err e => (p, [stdio_malformed o a p line (mcp_error line e) run DirectionOutbound; writeClient line])
  | Ok env =>
      let '(p1, res) := EvaluateMCP (am_now a) (am_evid a 0) (am_latency a) env line DirectionOutbound
                          ("child:" +:+ so_Command o) "client" p in
      match res with
      | Err _ => (p1, [writeClient line])
      | Ok res =>
          let p2 := (TagMCPResult (am_now a) env run p1).1.1 in
          (p2, [StdioEmit (set_AgentRunID run (er_Event res));
                if er_Block res then writeClient (blocked_text (env_ID env) (er_BlockReason res)) else writeClient line])
      end
  end.

(** ** Runs *)

Inductive stdio_line :=
| FromClient (a : Ambient) (line : string) (child_ok : bool)
| FromChild (a : Ambient) (line : string).

(** The loops: an empty line is skipped; [reading] turns false when the child
    is gone, and the client's lines are no longer read. *)
Record session := mkSession { ss_pipe : Pipeline; ss_reading : bool }.

Definition stdio_step (o : StdioOptions) (run : string) (st : session) (l : stdio_line) : session * list stdio_effect :=
  match l with
  | FromClient a line child_ok =>
      if negb (ss_reading st) || (bytesTrimSpace line ==s "") then (st, [])
      else let '(p, es, go) := evaluateAndForward o a line DirectionInbound run child_ok (ss_pipe st) in (mkSession p go, es)
  | FromChild a line =>
      if bytesTrimSpace line ==s "" then (st, [])
      else let '(p, es) := evaluateAndForwardOutbound o a line run (ss_pipe st) in (mkSession p (ss_reading st), es)
  end.

Fixpoint stdio_run (o : StdioOptions) (run : string) (st : session) (ls : list stdio_line) : session * list stdio_effect :=
  match ls with
  | [] => (st, [])
  | l :: ls' =>
      let '(st1, es) := stdio_step o run st l in
      let '(st2, es') := stdio_run o run st1 ls' in (st2, es ++ es')
  end.

(** ** Theorems *)

(** What the child reads. *)
Definition to_child (es : list stdio_effect) : list string :=
  flat_map (fun e => match e with ToChild t => [t] | _ => [] end) es.

(** The line passes the pipeline in the state [p]. *)
Definition line_passes (o : StdioOptions) (a : Ambient) (line : string) (p : Pipeline) : Prop :=
  exists env res, ParseText line = Ok env /\
    (EvaluateMCP (am_now a) (am_evid a 0) (am_latency a) env line DirectionInbound "client" ("child:" +:+ so_Command o) p).2 = Ok res /\
    er_Block res = false.

(** The lines that may reach the child, in order, from the state on. *)
Inductive child_reads (o : StdioOptions) (run : string) : session -> list stdio_line -> list string -> Prop :=
| reads_nil st : child_reads o run st [] []
| reads_skip st l ls ts : child_reads o run (stdio_step o run st l).1 ls ts -> child_reads o run st (l :: ls) ts
| reads_line st a line child_ok ls ts : ss_reading st = true -> line_passes o a line (ss_pipe st) ->
    child_reads o run (stdio_step o run st (FromClient a line child_ok)).1 ls ts ->
    child_reads o run st (FromClient a line child_ok :: ls) ((line +:+ newline) :: ts).

Lemma stdio_step_child o run st l : so_FailOpen o = false ->
  to_child (stdio_step o run st l).2 = [] \/
  exists a line child_ok, l = FromClient a line child_ok /\ ss_reading st = true /\ line_passes o a line (ss_pipe st) /\
    to_child (stdio_step o run st l).2 = [line +:+ newline].
Proof.
  intros Hfo. destruct l as [a line child_ok|a line]; cbn [stdio_step].
  - destruct (ss_reading st) eqn:Er; cbn [negb orb]; [|by left]. destruct (bytesTrimSpace line ==s ""); [by left|].
    unfold evaluateAndForward. destruct (ParseText line) as [env|e] eqn:Hp; [|rewrite Hfo; by left].
    destruct (EvaluateMCP _ _ _ _ _ _ _ _ _) as [p1 [res|e]] eqn:He; [|rewrite Hfo; by left].
    destruct (er_Block res) eqn:Hb; [by left|]. right. exists a, line, child_ok. split_and!; [done..| |done].
    exists env, res. by rewrite He.
  - left. destruct (_ ==s ""); [done|]. unfold evaluateAndForwardOutbound. destruct (ParseText line); [|done].
    destruct (EvaluateMCP _ _ _ _ _ _ _ _ _) as [p1 [res|e]]; [|done]. by destruct (er_Block res).
Qed.

(** In a session that fails closed, however the lines of the two sides
    interleave, the child reads, in order and unchanged, lines of the client
    that the pipeline let pass in the state it had reached, and nothing
    else. *)
Theorem stdio_gate o run st ls : so_FailOpen o = false ->
  child_reads o run st ls (to_child (stdio_run o run st ls).2).
Proof.
  intros Hfo. revert st. induction ls as [|l ls IH]; intros st; [constructor|]. cbn [stdio_run].
  pose proof (stdio_step_child o run st l Hfo) as Hs. specialize (IH (stdio_step o run st l).1).
  destruct (stdio_step o run st l) as [st1 es] eqn:E. cbn [fst snd] in *.
  destruct (stdio_run o run st1 ls) as [st2 es']. cbn [snd] in *. unfold to_child. rewrite flat_map_app. fold (to_child es) (to_child es').
  destruct Hs as [->|(a & line & child_ok & -> & Hr & Hp & ->)]; cbn [app].
  - apply reads_skip. by rewrite E.
  - apply reads_line; [done..|]. by rewrite E.
Qed.

(** On this transport the answers teach the pipeline nothing: a line from
    the child that names no method, as no JSON-RPC response does, leaves the
    quarantine and the taint table as they are, whatever it contains, since
    the method of the request is not remembered. *)
Theorem stdio_answers_teach_nothing o run st a line env :
  ParseText line = Ok env -> env_Method env = "" ->
  (stdio_step o run st (FromChild a line)).1 = st.
Proof.
  intros Hp Hm. cbn [stdio_step]. destruct (_ ==s ""); [done|]. unfold evaluateAndForwardOutbound. rewrite Hp.
  assert ((EvaluateMCP (am_now a) (am_evid a 0) (am_latency a) env line DirectionOutbound ("child:" +:+ so_Command o) "client"
             (ss_pipe st)).1 = ss_pipe st) as Hk.
  { unfold EvaluateMCP. destruct (run_detectors _ _ _); [|done]. unfold quarantine_check, quarantine_learn. rewrite Hm.
    change ("" ==s MethodToolsCall) with false. change ("" ==s MethodToolsList) with false. cbn [andb].
    destruct (pl_Quarantine (ss_pipe st)) as [q|] eqn:Hq; destruct (resolveMode _ _ _); cbn [fst]; by rewrite ?Hq. }
  destruct (EvaluateMCP _ _ _ _ _ _ _ _ _) as [p1 res]. cbn [fst] in Hk. subst p1.
  assert ((TagMCPResult (am_now a) env run (ss_pipe st)).1.1 = ss_pipe st) as Ht.
  { unfold TagMCPResult. destruct (pl_Taint (ss_pipe st)); [|done]. rewrite Hm. change ("" !=s MethodToolsCall) with true.
    by rewrite orb_true_r. }
  destruct res as [res|e]; cbn [fst]; rewrite ?Ht; by destruct st.
Qed.
End stdio.

(** ** Witnesses *)

Section witnesses.
#[local] Existing Instances canonical_iter ascii_tables literal_regex.
#[local] Instance w_docs : JsonText := docs_json [d_list; d_call].

Definition w_options : StdioOptions := mkStdio "python" false.
Definition w_session : session := mkSession w_proxy_pipe true.

Lemma stdio_answers_teach_nothing_witness :
  (stdio_step w_options "run-1" w_session (FromChild (w_ambient 5) (marshal d_list))).1 = w_session.
Proof.
  apply (stdio_answers_teach_nothing w_options "run-1" w_session (w_ambient 5) (marshal d_list)
    (mkEnvelope "2.0" (Some (JNum "1")) "" None (Some d_tools) None)); vm_compute; reflexivity.
Defined.

Lemma stdio_gate_witness :
  child_reads w_options "run-1" w_session [FromChild (w_ambient 5) (marshal d_list); FromClient (w_ambient 6) (marshal d_call) true]
    (to_child (stdio_run w_options "run-1" w_session
       [FromChild (w_ambient 5) (marshal d_list); FromClient (w_ambient 6) (marshal d_call) true]).2).
Proof. apply stdio_gate. reflexivity. Defined.

(** The poisoned tool of the list is called: the call goes through. *)
Example w_poisoned_call_passes :
  to_child (stdio_run w_options "run-1" w_session
    [FromChild (w_ambient 5) (marshal d_list); FromClient (w_ambient 6) (marshal d_call) true]).2 = [marshal d_call +:+ newline].
Proof. vm_compute. reflexivity. Qed.
End witnesses.
