(* ===== verification/Counterparty.v ===== *)
(** * Counterparty reputation

    [internal/counterparty/counterparty.go]: the table of peers a sensor has
    exchanged tasks with, their counters, and a risk score that decays.  The
    score is a [float64]: [spec_float], with the roundings of the standard
    library's [SpecFloat] at 53 bits.  Each operation holds the lock for its
    whole body. *)

From Stdlib Require Import SpecFloat.
From S2P Require Import Prelude Event Float64.

(** ** Data *)

Definition weightInfo : spec_float := f64_of 0 0.
Definition weightLow : spec_float := f64_of 1 (-2).
Definition weightMedium : spec_float := f64_of 1 0.
Definition weightHigh : spec_float := f64_of 5 (-1).
Definition weightCritical : spec_float := f64_of 5 0.
Definition weightBlock : spec_float := f64_of 4 0.
Definition decayPerHour : spec_float := f64_of 1 (-1).

(** [Entry]. *)
Record Peer := mkPeer {
  pe_ID : string; pe_FirstSeen : Z; pe_LastSeen : Z; pe_Requests : Z; pe_Findings : Z; pe_Warnings : Z;
  pe_Blocks : Z; pe_RiskScore : spec_float; pe_LastSeverity : string
}.

Record Observation := mkObs { ob_Counterparty : string; ob_Findings : Z; ob_Action : string; ob_Severity : string }.

(** [Registry] is its map. *)
Abbreviation Registry := (gmap string Peer).

Record Alarm := mkAlarm { al_Code : string; al_Message : string }.

(** ** Operations *)

Definition severityWeight (s : string) : spec_float :=
  if s ==s "low" then weightLow
  else if s ==s "medium" then weightMedium
  else if s ==s "high" then weightHigh
  else if s ==s "critical" then weightCritical
  else weightInfo.

Definition actionWeight (a : string) : spec_float := if a ==s "block" then weightBlock else f64_of 0 0.

Definition decayFactor (hours : spec_float) : spec_float :=
  let f := f64_sub (f64_of 1 0) (f64_mul decayPerHour hours) in
  if SFltb f (f64_of 0 0) then f64_of 0 0 else f.

(** The score carried over to [now]. *)
Definition decayed (now : Z) (e : Peer) : spec_float :=
  if time_IsZero (pe_LastSeen e) then pe_RiskScore e
  else let hours := Hours (time_Sub now (pe_LastSeen e)) in
       if SFltb (f64_of 0 0) hours then f64_mul (pe_RiskScore e) (decayFactor hours) else pe_RiskScore e.

Definition new_peer (now : Z) (id : string) : Peer := mkPeer id now zero_time 0 0 0 0 (f64_of 0 0) "".

Definition ten : spec_float := f64_of 10 0.

(** The entry after an observation, and whether the alarm is raised. *)
Definition observe_entry (now : Z) (o : Observation) (e : Peer) : Peer * bool :=
  let score := f64_add (decayed now e) (f64_add (severityWeight (ob_Severity o)) (actionWeight (ob_Action o))) in
  (mkPeer (pe_ID e) (pe_FirstSeen e) now (wrap64 (pe_Requests e + 1)) (wrap64 (pe_Findings e + ob_Findings o))
     (if ob_Action o ==s "warn" then wrap64 (pe_Warnings e + 1) else pe_Warnings e)
     (if ob_Action o ==s "block" then wrap64 (pe_Blocks e + 1) else pe_Blocks e) score
     (if ob_Severity o !=s "" then ob_Severity o else pe_LastSeverity e),
   SFleb ten score &&
   SFltb (f64_sub (f64_sub score (severityWeight (ob_Severity o))) (actionWeight (ob_Action o))) ten).

Definition Observe (now : Z) (o : Observation) (r : Registry) : Registry * option Peer * option Alarm :=
  if ob_Counterparty o ==s "" then (r, None, None)
  else
    let e := default (new_peer now (ob_Counterparty o)) (r !! ob_Counterparty o) in
    let '(e', alarm) := observe_entry now o e in
    (<[ob_Counterparty o := e']> r, Some e',
     if alarm then Some (mkAlarm "counterparty.risk_threshold"
                           ("counterparty " +:+ ob_Counterparty o +:+ " crossed risk threshold (10)"))
     else None).

(** [sort.Slice] by descending score: entries of equal score keep the order of
    the map's iteration, which is arbitrary. *)
Fixpoint insert_peer (e : Peer) (l : list Peer) : list Peer :=
  match l with
  | [] => [e]
  | x :: l' => if SFltb (pe_RiskScore x) (pe_RiskScore e) then e :: l else x :: insert_peer e l'
  end.

Definition peer_List `{MapIter} (limit : Z) (r : Registry) : list Peer :=
  let out := fold_left (fun acc e => insert_peer e.2 acc) (map_iter r) [] in
  if (0 <? limit)%Z && (limit <? Z.of_nat (length out))%Z then take (Z.to_nat limit) out else out.

Definition peer_Get (id : string) (r : Registry) : option Peer := r !! id.
Definition peer_Len (r : Registry) : nat := size r.

(** ** Histories *)

(** The table after a history of timed observations. *)
Definition observe_all (h : list (Z * Observation)) : Registry :=
  fold_left (fun r x => (Observe x.1 x.2 r).1.1) h ∅.

(** The observations of one peer. *)
Definition of_peer (id : string) (h : list (Z * Observation)) : list (Z * Observation) :=
  filter (fun x => ob_Counterparty x.2 = id) h.

(** ** Lemmas *)

Lemma observe_all_snoc h x : observe_all (h ++ [x]) = (Observe x.1 x.2 (observe_all h)).1.1.
Proof. unfold observe_all. by rewrite fold_left_app. Qed.

Lemma Observe_lookup now o r id : id <> "" ->
  (Observe now o r).1.1 !! id =
  if decide (ob_Counterparty o = id) then Some (observe_entry now o (default (new_peer now id) (r !! id))).1 else r !! id.
Proof.
  intros Hid. unfold Observe. destruct (ob_Counterparty o ==s "") eqn:E.
  - apply String.eqb_eq in E. by rewrite E, decide_False.
  - destruct (observe_entry _ _ _) as [e' al] eqn:Eo. cbn [fst]. case_decide as Hd.
    + subst id. rewrite lookup_insert_eq. by rewrite Eo.
    + by rewrite lookup_insert_ne.
Qed.

Lemma of_peer_snoc id h x :
  of_peer id (h ++ [x]) = of_peer id h ++ (if decide (ob_Counterparty x.2 = id) then [x] else []).
Proof. unfold of_peer. rewrite filter_app, filter_cons, filter_nil. done. Qed.

Definition count_action (a : string) (h : list (Z * Observation)) : Z :=
  sumZ (map (fun x => if ob_Action x.2 ==s a then 1 else 0)%Z h).

Lemma wrap64_if (b : bool) n : (if b then wrap64 (wrap64 n + 1) else wrap64 n) = wrap64 (n + if b then 1 else 0).
Proof. destruct b; [apply wrap64_add_l|by rewrite Z.add_0_r]. Qed.

(** ** Theorems *)

(** The ledger of a peer is its history: after any observations the table
    has an entry for a peer exactly when it was observed, first and last seen
    when it was first and last observed, with the number of its requests,
    findings, warnings and blocks as 64-bit integers; observations of other
    peers do not touch it, and those without a name are not recorded. *)
Theorem ledger h id : id <> "" ->
  match of_peer id h with
  | [] => peer_Get id (observe_all h) = None
  | x :: _ => exists e, peer_Get id (observe_all h) = Some e /\
      pe_FirstSeen e = x.1 /\ Some (pe_LastSeen e) = option_map fst (last (of_peer id h)) /\
      pe_Requests e = wrap64 (Z.of_nat (length (of_peer id h))) /\
      pe_Findings e = wrap64 (sumZ (map (fun x => ob_Findings x.2) (of_peer id h))) /\
      pe_Warnings e = wrap64 (count_action "warn" (of_peer id h)) /\
      pe_Blocks e = wrap64 (count_action "block" (of_peer id h))
  end.
Proof.
  intros Hid. unfold peer_Get. induction h as [|[now o] h IH] using rev_ind; [apply lookup_empty|].
  rewrite of_peer_snoc, observe_all_snoc, Observe_lookup by done. cbn [fst snd].
  case_decide as Hd; [|by rewrite app_nil_r].
  destruct (of_peer id h) as [|x l] eqn:El.
  - rewrite IH. cbn [app]. eexists. split; [done|]. cbn.
    split_and!; try done; unfold count_action; cbn; rewrite ?Z.add_0_r; try done; by destruct (_ ==s _).
  - destruct IH as (e & He & H1 & H2 & H3 & H4 & H5 & H6). rewrite He. change (default (new_peer now id) (Some e)) with e. cbn [app].
    eexists. split; [done|]. rewrite app_comm_cons.
    unfold count_action in *. rewrite last_snoc, !map_app, length_app. cbn [map fst snd]. rewrite !sumZ_snoc.
    cbn [observe_entry fst pe_FirstSeen pe_LastSeen pe_Requests pe_Findings pe_Warnings pe_Blocks].
    rewrite H3, H4, H5, H6. split_and!; [done|done| |apply wrap64_add_l|apply wrap64_if|apply wrap64_if].
    rewrite wrap64_add_l. cbn [length]. f_equal. lia.
Qed.

Lemma ledger_witness :
  exists e, peer_Get "acme" (observe_all [(5, mkObs "acme" 2 "block" "high"); (6, mkObs "" 1 "warn" "low")]%Z) = Some e /\
    pe_FirstSeen e = 5%Z /\ Some (pe_LastSeen e) = Some 5%Z /\ pe_Requests e = wrap64 1 /\ pe_Findings e = wrap64 2 /\
    pe_Warnings e = wrap64 0 /\ pe_Blocks e = wrap64 1.
Proof.
  apply (ledger [(5, mkObs "acme" 2 "block" "high"); (6, mkObs "" 1 "warn" "low")]%Z "acme"). apply String.eqb_neq. reflexivity.
Defined.

(** The score does not halve: two hours after the last observation, when
    the half-life the code announces has passed once, nothing is left of it,
    so that a peer one high finding short of the alarm starts again from
    zero. *)
Theorem decay_forgets :
  let h := [(1, mkObs "acme" 1 "allow" "critical"); (1, mkObs "acme" 1 "allow" "high")]%Z in
  let later := (1 + 2 * hour_ns)%Z in
  (pe_RiskScore <$> peer_Get "acme" (observe_all h)) = Some (f64_of 15 (-1)) /\
  (decayed later <$> peer_Get "acme" (observe_all h)) = Some (f64_of 0 0) /\
  (Observe later (mkObs "acme" 1 "allow" "high") (observe_all h)).2 = None /\
  (Observe 1 (mkObs "acme" 1 "allow" "high") (observe_all h)).2 <> None.
Proof. split_and!; vm_compute; done. Qed.
