(* ===== verification/Merkle.v ===== *)
(** * Export bundles

    [pkg/audit/sign.go]: the Merkle tree over the leaves of an export, its
    audit paths and their verification.  Leaves and hashes are byte strings. *)

From S2P Require Import Prelude Sha256 Utf8 Json.

(** ** The tree *)

Record MerkleTree := mkTree { mt_levels : list (list string) }.

Record ProofStep := mkStep { ps_Sibling : string; ps_RightSibling : bool }.

(** A level of odd length repeats its last node. *)
Definition pad_odd (l : list string) : list string :=
  if Nat.odd (length l) then match last l with Some x => l ++ [x] | None => l end else l.

(** The inner loop: the hashes of the adjacent pairs. *)
Fixpoint hash_pairs (l : list string) : list string :=
  match l with
  | a :: b :: l' => sha256 (a +:+ b) :: hash_pairs l'
  | _ => []
  end.

Definition next_level (current : list string) : list string := hash_pairs (pad_odd current).

(** The loop of [NewMerkleTree]; the length of a level bounds the number of
    levels above it. *)
Fixpoint levels_from (fuel : nat) (current : list string) : list (list string) :=
  match fuel with
  | O => [current]
  | S fuel' =>
      if (1 <? length current)%nat then current :: levels_from fuel' (next_level current) else [current]
  end.

Definition NewMerkleTree (leaves : list string) : MerkleTree :=
  match leaves with
  | [] => mkTree [[sha256 ""]]
  | _ => mkTree (levels_from (length leaves) leaves)
  end.

(** [Root]; [None] is nil. *)
Definition Root (t : MerkleTree) : option string := top ← last (mt_levels t); head top.

(** ** Audit paths *)

(** The loop of [Proof], below the last level. *)
Fixpoint proof_loop (levels : list (list string)) (idx : nat) : option (list ProofStep) :=
  match levels with
  | nodes :: rest =>
    match rest with
    | [] => Some []
    | _ =>
      let paired := pad_odd nodes in
      step ← (if Nat.even idx
              then x ← paired !! S idx; Some (mkStep x true)
              else x ← paired !! pred idx; Some (mkStep x false));
      path ← proof_loop rest (Nat.div2 idx);
      Some (step :: path)
    end
  | [] => Some []
  end.

(** [Proof]: [Some []] is the nil path; [None] would be an index out of
    range. *)
Definition merkle_Proof (t : MerkleTree) (i : Z) : option (list ProofStep) :=
  match mt_levels t with
  | [] => Some []
  | leaves :: _ =>
      if (i <? 0)%Z then Some []
      else if (Z.of_nat (length leaves) <=? i)%Z then Some []
      else proof_loop (mt_levels t) (Z.to_nat i)
  end.

(** What one step of [VerifyProof] hashes, and the step itself. *)
Definition step_input (cur : string) (s : ProofStep) : string :=
  if ps_RightSibling s then cur +:+ ps_Sibling s else ps_Sibling s +:+ cur.
Definition verify_step (cur : string) (s : ProofStep) : string := sha256 (step_input cur s).

(** The byte comparison of [VerifyProof] is string equality. *)
Definition VerifyProof (leaf : string) (path : list ProofStep) (expectedRoot : string) : bool :=
  fold_left verify_step path leaf ==s expectedRoot.

(** All the inputs hashed while verifying. *)
Fixpoint verify_inputs (cur : string) (path : list ProofStep) : list string :=
  match path with
  | [] => []
  | s :: path' => step_input cur s :: verify_inputs (verify_step cur s) path'
  end.

(** ** Lemmas *)

#[local] Opaque sha256.

Lemma pair_ind (P : list string -> Prop) :
  P [] -> (forall a, P [a]) -> (forall a b l, P l -> P (a :: b :: l)) -> forall l, P l.
Proof.
  intros H0 H1 H2. assert (forall l, P l /\ forall a, P (a :: l)) as H; [|intros l; apply H].
  induction l as [|b l [IH1 IH2]]; [by split; auto|]. split; [done|]. intros a. by apply H2.
Qed.

Lemma length_hash_pairs l : length (hash_pairs l) = Nat.div2 (length l).
Proof. induction l as [|a|a b l IH] using pair_ind; simpl; congruence. Qed.

Lemma hash_pairs_lookup l k a b : l !! (2 * k)%nat = Some a -> l !! S (2 * k) = Some b ->
  hash_pairs l !! k = Some (sha256 (a +:+ b)).
Proof.
  revert k. induction l as [|x|x y l IH] using pair_ind; intros k; [done| |].
  - destruct k as [|k]; [done|]. replace (2 * S k)%nat with (S (S (2 * k))) by lia. done.
  - destruct k as [|k]; simpl; [by intros [= ->] [= ->]|].
    replace (k + S (k + 0))%nat with (S (2 * k)) by lia. apply IH.
Qed.

Lemma length_pad_odd l : length (pad_odd l) = (2 * Nat.div2 (S (length l)))%nat.
Proof.
  unfold pad_odd. pose proof (Nat.odd_spec (length l)) as Ho. pose proof (Nat.even_spec (length l)) as He.
  destruct (Nat.odd (length l)) eqn:E.
  - destruct (proj1 Ho eq_refl) as [k Hk]. destruct (last l) as [x|] eqn:El.
    + rewrite length_app, Hk. simpl length. replace (S (2 * k + 1)) with (2 * S k)%nat by lia.
      rewrite Nat.div2_double. lia.
    + apply last_None in El. by subst.
  - rewrite <- Nat.negb_even in E. apply negb_false_iff in E. destruct (proj1 He E) as [k Hk].
    rewrite Hk, Nat.div2_succ_double. done.
Qed.

Lemma length_next_level l : length (next_level l) = Nat.div2 (S (length l)).
Proof. unfold next_level. by rewrite length_hash_pairs, length_pad_odd, Nat.div2_double. Qed.

Lemma pad_odd_lookup l i x : l !! i = Some x -> pad_odd l !! i = Some x.
Proof.
  intros Hi. unfold pad_odd. destruct (Nat.odd (length l)); [|done].
  destruct (last l); [|done]. by apply lookup_app_l_Some.
Qed.

(** A pair of a level and its parent. *)
Lemma next_level_pair l k : (2 * k < length l)%nat -> exists a b,
  pad_odd l !! (2 * k)%nat = Some a /\ pad_odd l !! S (2 * k) = Some b /\
  next_level l !! k = Some (sha256 (a +:+ b)).
Proof.
  intros Hk. destruct (pad_odd l !! (2 * k)%nat) as [a|] eqn:Ea.
  2:{ apply lookup_ge_None in Ea. rewrite length_pad_odd in Ea.
      pose proof (Nat.div2_odd (S (length l))). destruct (Nat.odd _); simpl in *; lia. }
  destruct (pad_odd l !! S (2 * k)) as [b|] eqn:Eb.
  2:{ apply lookup_ge_None in Eb. rewrite length_pad_odd in Eb. 
      apply lookup_lt_Some in Ea. rewrite length_pad_odd in Ea. lia. }
  exists a, b. split_and!; [done..|]. by apply hash_pairs_lookup.
Qed.

Lemma div2_decompose i : (if Nat.even i then i = 2 * Nat.div2 i else i = S (2 * Nat.div2 i))%nat.
Proof.
  pose proof (Nat.div2_odd i) as H. rewrite <- Nat.negb_even in H.
  destruct (Nat.even i); simpl in H; lia.
Qed.

(** A level is shorter than the one below it, so the loop ends. *)
Lemma next_level_shrinks l : (1 < length l)%nat -> (0 < length (next_level l) < length l)%nat.
Proof.
  rewrite length_next_level. generalize (length l). intros n Hn.
  pose proof (Nat.div2_odd (S n)). destruct (Nat.odd (S n)); cbn [Nat.b2n] in *; lia.
Qed.

Lemma levels_step f cur : (1 < length cur)%nat ->
  levels_from (S f) cur = cur :: levels_from f (next_level cur).
Proof. intros H. simpl. by rewrite (proj2 (Nat.ltb_lt _ _) H). Qed.

(** The fuel does not matter once it covers the level. *)
Lemma levels_fuel f f' cur : (length cur <= S f)%nat -> (length cur <= S f')%nat ->
  levels_from f cur = levels_from f' cur.
Proof.
  revert f' cur. induction f as [|f IH]; intros f' cur Hf Hf'.
  - destruct f'; simpl; [done|]. by rewrite (proj2 (Nat.ltb_ge _ _)) by lia.
  - destruct (1 <? length cur)%nat eqn:E; breflect.
    + destruct f' as [|f']; [lia|]. simpl. rewrite (proj2 (Nat.ltb_lt _ _)) by lia. f_equal.
      pose proof (next_level_shrinks cur E). apply IH; lia.
    + simpl. rewrite (proj2 (Nat.ltb_ge _ _)) by lia. destruct f'; simpl; [done|].
      by rewrite (proj2 (Nat.ltb_ge _ _)) by lia.
Qed.

(** Enough fuel: the levels end in a single node. *)
Lemma levels_end fuel cur : (0 < length cur <= S fuel)%nat ->
  exists r, last (levels_from fuel cur) = Some [r].
Proof.
  revert cur. induction fuel as [|fuel IH]; intros cur Hl.
  - destruct cur as [|r []]; simpl in *; try lia. by exists r.
  - simpl. destruct (1 <? length cur)%nat eqn:E; breflect.
    + destruct (IH (next_level cur)) as [r Hr].
      { pose proof (next_level_shrinks cur E). lia. }
      exists r. rewrite last_cons, Hr. done.
    + destruct cur as [|r []]; simpl in *; try lia. by exists r.
Qed.

(** The path of an index leads from its node to the root. *)
Lemma proof_loop_complete fuel cur i x : (0 < length cur <= S fuel)%nat -> cur !! i = Some x ->
  exists path r, proof_loop (levels_from fuel cur) i = Some path /\
    last (levels_from fuel cur) = Some [r] /\ fold_left verify_step path x = r.
Proof.
  revert cur i x. induction fuel as [|fuel IH]; intros cur i x Hl Hi.
  - destruct cur as [|r []]; simpl in *; try lia. apply list_lookup_singleton_Some in Hi as [-> ->].
    by exists [], x.
  - simpl levels_from. destruct (1 <? length cur)%nat eqn:E; breflect.
    2:{ destruct cur as [|r []]; simpl in *; try lia. apply list_lookup_singleton_Some in Hi as [-> ->].
        by exists [], x. }
    pose proof (lookup_lt_Some _ _ _ Hi) as Hlt. pose proof (div2_decompose i) as Hd.
    destruct (next_level_pair cur (Nat.div2 i)) as (a & b & Ha & Hb & Hn); [destruct (Nat.even i); lia|].
    assert (0 < length (next_level cur) <= S fuel)%nat as Hl'.
    { pose proof (next_level_shrinks cur E). lia. }
    destruct (IH (next_level cur) (Nat.div2 i) _ Hl' Hn) as (path & r & Hp & Hr & Hf).
    cbn [proof_loop]. apply pad_odd_lookup in Hi.
    destruct (levels_from fuel (next_level cur)) as [|l0 ls] eqn:El; [done|].
    rewrite Hp. destruct (Nat.even i) eqn:Ee.
    + rewrite Hd, Hb. rewrite Hd in Hi. assert (a = x) as -> by congruence. cbn [mbind option_bind].
      eexists _, r. split; [done|]. split; [by rewrite last_cons, Hr|done].
    + rewrite Hd. cbn [pred]. rewrite Ha. rewrite Hd in Hi. assert (b = x) as -> by congruence.
      cbn [mbind option_bind]. eexists _, r. split; [done|]. split; [by rewrite last_cons, Hr|done].
Qed.

Definition is_digest (s : string) : Prop := String.length s = 32%nat.

Lemma digest_next_level l : Forall is_digest (next_level l).
Proof.
  unfold next_level. generalize (pad_odd l). clear l. intros l.
  induction l as [|a|a b l IH] using pair_ind; simpl; [done|done|].
  constructor; [apply length_sha256|done].
Qed.

Lemma digest_pad_odd l : Forall is_digest l -> Forall is_digest (pad_odd l).
Proof.
  intros H. unfold pad_odd. destruct (Nat.odd _); [|done]. destruct (last l) eqn:E; [|done].
  apply Forall_app. split; [done|]. repeat constructor.
  apply last_Some_elem_of in E. rewrite Forall_forall in H. by apply H.
Qed.

Lemma proof_loop_digests fuel cur i path : Forall is_digest cur ->
  proof_loop (levels_from fuel cur) i = Some path -> Forall (fun s => is_digest (ps_Sibling s)) path.
Proof.
  revert cur i path. induction fuel as [|fuel IH]; intros cur i path Hd; simpl.
  { intros [= <-]. constructor. }
  destruct (1 <? length cur)%nat; [|intros [= <-]; constructor].
  cbn [proof_loop]. destruct (levels_from fuel (next_level cur)) as [|l0 ls] eqn:El; [intros [= <-]; constructor|].
  intros H. apply bind_Some in H as (step & Hs & H). apply bind_Some in H as (path' & Hp & [= <-]).
  rewrite <- El in Hp. apply IH in Hp; [|apply digest_next_level].
  constructor; [|done]. apply digest_pad_odd in Hd. rewrite Forall_forall in Hd.
  destruct (Nat.even i); apply bind_Some in Hs as (x & Hx & [= <-]); simpl;
    by apply Hd, list_elem_of_lookup_2 in Hx || (apply list_elem_of_lookup_2 in Hx; by apply Hd).
Qed.

(** Two verifications that reach the same root from the same side at every
    step agree, or hash two different inputs to the same value. *)
Lemma verify_binding path path' x x' :
  is_digest x -> is_digest x' ->
  Forall (fun s => is_digest (ps_Sibling s)) path -> Forall (fun s => is_digest (ps_Sibling s)) path' ->
  map ps_RightSibling path = map ps_RightSibling path' ->
  fold_left verify_step path x = fold_left verify_step path' x' ->
  (x = x' /\ path = path') \/
  exists a b, a ∈ verify_inputs x path /\ b ∈ verify_inputs x' path' /\ a <> b /\ sha256 a = sha256 b.
Proof.
  revert path' x x'. induction path as [|s path IH]; intros [|s' path'] x x' Hx Hx' Hp Hp'; try done; simpl.
  { intros _ ->. by left. }
  intros [= Hdir Hdirs] Hf. apply Forall_cons in Hp as [Hs Hp], Hp' as [Hs' Hp'].
  destruct (IH path' (verify_step x s) (verify_step x' s')) as [[Heq ->]|(a & b & Ha & Hb & Hab)];
    [apply length_sha256|apply length_sha256|done..| |].
  2:{ right. exists a, b. rewrite !elem_of_cons. tauto. }
  destruct (decide (step_input x s = step_input x' s')) as [Hin|Hne].
  2:{ right. exists (step_input x s), (step_input x' s'). rewrite !elem_of_cons. auto. }
  left. unfold step_input in Hin. rewrite Hdir in Hin.
  destruct s as [sib d], s' as [sib' d']. simpl in *. subst d.
  destruct d'; apply sapp_inj_length in Hin as [-> ->]; try done; unfold is_digest in *; congruence.
Qed.

(** *** The root binds the leaves *)

(** The inputs hashed for one level, and for all of them. *)
Fixpoint pair_inputs (l : list string) : list string :=
  match l with a :: b :: l' => (a +:+ b) :: pair_inputs l' | _ => [] end.
Fixpoint tree_inputs (fuel : nat) (cur : list string) : list string :=
  match fuel with
  | O => []
  | S fuel' => if (1 <? length cur)%nat then pair_inputs (pad_odd cur) ++ tree_inputs fuel' (next_level cur) else []
  end.
Definition merkle_inputs (leaves : list string) : list string := tree_inputs (length leaves) leaves.

(** Two different inputs, one on each side, with the same hash. *)
Definition collision (xs ys : list string) : Prop := exists a b, a ∈ xs /\ b ∈ ys /\ a <> b /\ sha256 a = sha256 b.

Lemma collision_mono xs ys xs' ys' : xs ⊆ xs' -> ys ⊆ ys' -> collision xs ys -> collision xs' ys'.
Proof. intros H1 H2 (a & b & ? & ? & ?). exists a, b. auto. Qed.

Lemma pairs_bind l l' : length l = length l' -> Forall is_digest l -> Forall is_digest l' -> Nat.Even (length l) ->
  hash_pairs l = hash_pairs l' -> l = l' \/ collision (pair_inputs l) (pair_inputs l').
Proof.
  revert l'. induction l as [|a|a b l IH] using pair_ind; intros [|a' [|b' l']] Hl Hd Hd' He; try discriminate Hl.
  - by left.
  - by destruct He as [k Hk]; cbn in Hk; lia.
  - apply Forall_cons in Hd as [Ha [Hb Hd]%Forall_cons]. apply Forall_cons in Hd' as [Ha' [Hb' Hd']%Forall_cons].
    cbn [hash_pairs pair_inputs]. intros E.
    pose proof (f_equal (hd "") E) as E1. pose proof (f_equal tl E) as E2. cbn [hd tl] in E1, E2. clear E.
    destruct (decide (a +:+ b = a' +:+ b')) as [Eab|Hne].
    + apply sapp_inj_length in Eab as [-> ->]; [|unfold is_digest in *; congruence].
      destruct (IH l') as [->|Hc]; [by injection Hl|done|done| |done|by left|right; eapply collision_mono; [| |exact Hc]; set_solver].
      destruct He as [k Hk]. cbn in Hk. exists (k - 1)%nat. lia.
    + right. exists (a +:+ b), (a' +:+ b'). rewrite !elem_of_cons. auto.
Qed.

Lemma pad_odd_inj l l' : length l = length l' -> pad_odd l = pad_odd l' -> l = l'.
Proof.
  intros Hl E. apply (f_equal (take (length l))) in E. revert E. unfold pad_odd.
  assert (forall l0 : list string, length l0 = length l ->
    take (length l) (if Nat.odd (length l0) then match last l0 with Some x => l0 ++ [x] | None => l0 end else l0) = l0) as Ht.
  { intros l0 E0. rewrite <- E0. destruct (Nat.odd _); [|apply take_ge; lia]. destruct (last l0); [|apply take_ge; lia].
    by rewrite take_app_length. }
  by rewrite !Ht.
Qed.

Lemma levels_bind f cur cur' : length cur = length cur' -> (0 < length cur <= S f)%nat ->
  Forall is_digest cur -> Forall is_digest cur' ->
  last (levels_from f cur) ≫= head = last (levels_from f cur') ≫= head ->
  cur = cur' \/ collision (tree_inputs f cur) (tree_inputs f cur').
Proof.
  assert (forall l l' : list string, length l = 1%nat -> length l' = 1%nat -> head l = head l' -> l = l') as Hone.
  { intros [|x [|]] [|x' [|]]; cbn; try discriminate. intros _ _ [= ->]. done. }
  revert cur cur'. induction f as [|f IH]; intros cur cur' Hl Hf Hd Hd'; cbn [levels_from tree_inputs].
  { cbn [last mbind option_bind]. intros E. left. apply Hone; [lia|lia|exact E]. }
  rewrite <- Hl. destruct (1 <? length cur)%nat eqn:E1.
  2: { apply Nat.ltb_ge in E1. cbn [last mbind option_bind]. intros E. left. apply Hone; [lia|lia|exact E]. }
  apply Nat.ltb_lt in E1. pose proof (next_level_shrinks cur E1) as Hs.
  assert (Hnl : length (next_level cur) = length (next_level cur')) by (rewrite !length_next_level; congruence).
  destruct (levels_end f (next_level cur) ltac:(lia)) as [r Hr].
  destruct (levels_end f (next_level cur') ltac:(lia)) as [r' Hr'].
  rewrite !last_cons. intros E.
  destruct (IH (next_level cur) (next_level cur') Hnl ltac:(lia) (digest_next_level _) (digest_next_level _)) as [En|Hc].
  - revert E. by destruct (last (levels_from f (next_level cur))), (last (levels_from f (next_level cur'))).
  - destruct (pairs_bind (pad_odd cur) (pad_odd cur')) as [Ep|Hc]; [| | | |exact En| |].
    + rewrite !length_pad_odd. congruence.
    + by apply digest_pad_odd.
    + by apply digest_pad_odd.
    + rewrite length_pad_odd. by eexists.
    + left. by apply pad_odd_inj.
    + right. eapply collision_mono; [| |exact Hc]; set_solver.
  - right. eapply collision_mono; [| |exact Hc]; set_solver.
Qed.

Lemma NewMerkleTree_levels leaves : leaves <> [] ->
  mt_levels (NewMerkleTree leaves) = levels_from (length leaves) leaves.
Proof. by destruct leaves. Qed.

Lemma Root_Some leaves : exists r, Root (NewMerkleTree leaves) = Some r.
Proof.
  destruct leaves as [|x l]; [by eexists|]. unfold Root. rewrite NewMerkleTree_levels by done.
  destruct (levels_end (length (x :: l)) (x :: l)) as [r ->]; [cbn; lia|]. by eexists.
Qed.

Lemma root_binds leaves leaves' : length leaves = length leaves' -> leaves <> [] ->
  Forall is_digest leaves -> Forall is_digest leaves' ->
  Root (NewMerkleTree leaves) = Root (NewMerkleTree leaves') ->
  leaves = leaves' \/ collision (merkle_inputs leaves) (merkle_inputs leaves').
Proof.
  intros Hl Hne Hd Hd'. unfold Root, merkle_inputs. rewrite !NewMerkleTree_levels by (done || by intros ->; destruct leaves).
  rewrite <- Hl. apply levels_bind; [done|destruct leaves; cbn in *; [done|lia]|done|done].
Qed.

Lemma merkle_Proof_loop leaves (i : nat) x : leaves !! i = Some x ->
  merkle_Proof (NewMerkleTree leaves) (Z.of_nat i) = proof_loop (levels_from (length leaves) leaves) i.
Proof.
  intros Hi. pose proof (lookup_lt_Some _ _ _ Hi) as Hl. unfold merkle_Proof.
  rewrite NewMerkleTree_levels by (by intros ->).
  assert (exists rest, levels_from (length leaves) leaves = leaves :: rest) as [rest Hr].
  { destruct (length leaves); simpl; [by eexists|]. destruct (_ <? _)%nat; by eexists. }
  rewrite Hr. rewrite (proj2 (Z.ltb_ge _ _)) by lia. rewrite (proj2 (Z.leb_gt _ _)) by lia.
  by rewrite Nat2Z.id.
Qed.

Lemma proof_complete leaves i x : leaves !! i = Some x ->
  exists path root, merkle_Proof (NewMerkleTree leaves) (Z.of_nat i) = Some path /\
    Root (NewMerkleTree leaves) = Some root /\ fold_left verify_step path x = root.
Proof.
  intros Hi. pose proof (lookup_lt_Some _ _ _ Hi) as Hl.
  destruct (proof_loop_complete (length leaves) leaves i x) as (path & r & Hp & Hr & Hf); [lia|done|].
  exists path, r. rewrite (merkle_Proof_loop _ _ _ Hi). split; [done|]. split; [|done].
  unfold Root. rewrite NewMerkleTree_levels by (by intros ->). by rewrite Hr.
Qed.

(** ** Properties *)

(** Every leaf has a proof.  For every leaf of a tree, [Proof] returns a
    path, and [VerifyProof] accepts the leaf with that path against the root. *)
Theorem merkle_complete leaves i x : leaves !! i = Some x ->
  exists path root, merkle_Proof (NewMerkleTree leaves) (Z.of_nat i) = Some path /\
    Root (NewMerkleTree leaves) = Some root /\ VerifyProof x path root = true.
Proof.
  intros Hi. destruct (proof_complete leaves i x Hi) as (path & root & Hp & Hr & Hf).
  exists path, root. split_and!; [done..|]. unfold VerifyProof. by rewrite Hf, eqb_refl_s.
Qed.

(** Proofs bind.  A 32-byte value that verifies against the root along a
    path of 32-byte siblings turning the way of leaf [i] is that leaf, with
    that leaf's own path, unless the two verifications hash two different
    inputs to the same SHA-256. *)
Theorem merkle_sound leaves i leaf path root x path' :
  Forall is_digest leaves -> leaves !! i = Some leaf ->
  merkle_Proof (NewMerkleTree leaves) (Z.of_nat i) = Some path -> Root (NewMerkleTree leaves) = Some root ->
  is_digest x -> Forall (fun s => is_digest (ps_Sibling s)) path' ->
  map ps_RightSibling path' = map ps_RightSibling path -> VerifyProof x path' root = true ->
  (x = leaf /\ path' = path) \/
  exists a b, a ∈ verify_inputs x path' /\ b ∈ verify_inputs leaf path /\ a <> b /\ sha256 a = sha256 b.
Proof.
  intros Hd Hi Hp Hr Hx Hs Hdir Hv. unfold VerifyProof in Hv. breflect.
  destruct (proof_complete leaves i leaf Hi) as (path0 & root0 & Hp0 & Hr0 & Hf0).
  assert (path0 = path) as -> by congruence. assert (root0 = root) as -> by congruence.
  apply verify_binding; [done| |done| |done|congruence].
  - rewrite Forall_forall in Hd. by eapply Hd, list_elem_of_lookup_2.
  - rewrite (merkle_Proof_loop _ _ _ Hi) in Hp. by eapply proof_loop_digests.
Qed.

(** The last leaf of an odd tree counts twice.  Appending the last leaf
    again to a list of odd length (at least three) gives the same root, so a
    root does not determine the number of leaves. *)
Theorem merkle_duplicate_last leaves x : Nat.odd (length leaves) = true -> (1 < length leaves)%nat ->
  last leaves = Some x -> Root (NewMerkleTree (leaves ++ [x])) = Root (NewMerkleTree leaves).
Proof.
  intros Ho Hl Hx. unfold Root.
  rewrite !NewMerkleTree_levels by (by (intros ->) || (destruct leaves; done)).
  assert (pad_odd leaves = leaves ++ [x]) as Hp by (unfold pad_odd; by rewrite Ho, Hx).
  assert (pad_odd (leaves ++ [x]) = leaves ++ [x]) as Hp'.
  { unfold pad_odd. by rewrite length_app, Nat.odd_add, Ho. }
  assert (next_level (leaves ++ [x]) = next_level leaves) as Hn by (unfold next_level; by rewrite Hp, Hp').
  pose proof (next_level_shrinks leaves Hl) as Hsh.
  destruct (length leaves) as [|n] eqn:En; [lia|].
  rewrite length_app, En. simpl length. rewrite Nat.add_1_r.
  rewrite (levels_step (S n) (leaves ++ [x])) by (rewrite length_app; simpl; lia).
  rewrite (levels_step n leaves) by lia. rewrite Hn.
  rewrite (levels_fuel (S n) n) by lia. rewrite !last_cons.
  destruct (levels_end n (next_level leaves)) as [r ->]; [lia|done].
Qed.

(** ** Witnesses *)

#[local] Transparent sha256.

Definition sample_leaves : list string := map sha256 ["a"; "b"; "c"].

Lemma merkle_complete_witness : exists path root,
  merkle_Proof (NewMerkleTree sample_leaves) 2 = Some path /\
  Root (NewMerkleTree sample_leaves) = Some root /\ VerifyProof (sha256 "c") path root = true.
Proof. exact (merkle_complete sample_leaves 2 (sha256 "c") eq_refl). Defined.

Definition sample_path : list ProofStep := default [] (merkle_Proof (NewMerkleTree sample_leaves) 2).
Definition sample_root : string := default "" (Root (NewMerkleTree sample_leaves)).

Lemma merkle_sound_witness :
  (sha256 "c" = sha256 "c" /\ sample_path = sample_path) \/
  exists a b, a ∈ verify_inputs (sha256 "c") sample_path /\ b ∈ verify_inputs (sha256 "c") sample_path /\ a <> b /\
    sha256 a = sha256 b.
Proof.
  apply (merkle_sound sample_leaves 2 (sha256 "c") sample_path sample_root (sha256 "c") sample_path).
  - repeat constructor; apply length_sha256.
  - reflexivity.
  - vm_compute. reflexivity.
  - vm_compute. reflexivity.
  - apply length_sha256.
  - repeat constructor; vm_compute; reflexivity.
  - reflexivity.
  - vm_compute. reflexivity.
Defined.

Lemma merkle_duplicate_last_witness :
  Root (NewMerkleTree (sample_leaves ++ [sha256 "c"])) = Root (NewMerkleTree sample_leaves).
Proof. apply merkle_duplicate_last; [reflexivity|simpl; lia|reflexivity]. Defined.
