(* ===== verification/EventStore.v ===== *)
(** * The append-only event log

    [control-plane/store/store.go] and [retention.go]: the hash-chained log of
    the control plane, its verification, replay and rotation.

    The log file is a list of lines at the level of JSON trees: a line holds
    the tree its text decodes to, or is corrupt.  Writes, syncs and the file
    operations of a rotation take their outcome as an argument, and leave on
    disk what that outcome leaves. *)

From S2P Require Import Prelude Sha256 Utf8 Rfc3339 Json Event.

(** ** Data *)

Record Rec := mkRec {
  r_Seq : Z;
  r_IngestAt : Z;
  r_PrevHash : string;
  r_Hash : string;
  r_Event : option Event
}.

Definition genesisHash : string := "0000000000000000000000000000000000000000000000000000000000000000".

(** One line of the log; a corrupt line only has a length. *)
Inductive line :=
| LEmpty
| LCorrupt (len : N)
| LJson (v : json).

(** The log and its [.genesis] sidecar.  [dk_torn] says that the last line has
    no newline yet, so that the next write continues it. *)
Record Disk := mkDisk {
  dk_lines : list line;
  dk_torn : bool;
  dk_genesis : option string
}.

Record Store := mkEventStore {
  es_path : string;
  es_open : bool;
  es_seq : Z;
  es_prevHash : string;
  es_cache : list Rec;
  es_cacheCap : Z;
  es_retention : Z;
  es_chainStart : string;
  es_disk : Disk
}.

Inductive store_err :=
| EEmptyPath
| EOpen
| EClosed
| EMarshal
| EWrite
| ESync
| EParse
| EScan
| EChain (r : Rec)
| EMismatch (r : Rec)
| ERotate.

(** ** JSON form of a record *)

Definition event_opt_json (e : option Event) : json :=
  match e with Some ev => event_json ev | None => JNull end.

(** [json.Marshal] fails on an event dated outside the years 0 to 9999. *)
Definition event_marshals (e : option Event) : bool :=
  match e with Some ev => time_okb (ev_Timestamp ev) | None => true end.

Definition record_fields (r : Rec) : list (string * bool * json) :=
  [ always "seq" (JNum (dec_string (r_Seq r)));
    always "ingest_at" (JStr (rfc3339nano (r_IngestAt r)));
    always "prev_hash" (JStr (r_PrevHash r));
    always "hash" (JStr (r_Hash r));
    always "event" (event_opt_json (r_Event r)) ].
Definition record_json (r : Rec) : json := JObj (fields (record_fields r)).
Definition record_marshals (r : Rec) : bool := time_okb (r_IngestAt r) && event_marshals (r_Event r).

Definition max_uint64 : Z := (2 ^ 64 - 1)%Z.

Definition record_of_json (v : json) : option Rec :=
  match v with
  | JObj o =>
      seq ← get_int 0 max_uint64 "seq" o; at_ ← get_time "ingest_at" o;
      prev ← get_str "prev_hash" o; hash ← get_str "hash" o;
      ev ← match obj_get "event" o with
           | None | Some JNull => Some None
           | Some e => Some <$> event_of_json e
           end;
      Some (mkRec seq at_ prev hash ev)
  | _ => None
  end.

(** ** The hash chain *)

Definition newline : string := String (chr 10) "".

(** The bytes [computeHash] feeds to SHA-256. *)
Definition hash_text (r : Rec) : string :=
  dec_string (r_Seq r) +:+ newline +:+ rfc3339nano (r_IngestAt r) +:+ newline
  +:+ r_PrevHash r +:+ newline
  +:+ (if event_marshals (r_Event r) then marshal (event_opt_json (r_Event r)) else "").
Definition computeHash (r : Rec) : string := hex (sha256 (hash_text r)).

(** ** Scanning the file *)

(** The scanner's 16 MiB token limit. *)
Definition max_line : N := 16777216%N.
Definition line_len (l : line) : N :=
  match l with
  | LEmpty => 0
  | LCorrupt n => n
  | LJson v => N.of_nat (String.length (marshal v))
  end%N.
Definition too_long (l : line) : bool := (max_line <=? line_len l)%N.

(** Decode one line; [None] is an Unmarshal error. *)
Definition line_record (l : line) : option Rec :=
  match l with LJson v => record_of_json (wire v) | _ => None end.

(** The lines a scan loop sees, empty ones skipped, and whether the scan ends
    without error. *)
Fixpoint scan_lines (ls : list line) : list (line * option Rec) * bool :=
  match ls with
  | [] => ([], true)
  | l :: ls' =>
      if too_long l then ([], false)
      else let '(rs, ok) := scan_lines ls' in
      match l with
      | LEmpty => (rs, ok)
      | _ => ((l, line_record l) :: rs, ok)
      end
  end.

(** ** Operations *)

(** [appendCacheLocked] *)
Definition appendCacheLocked (cap : Z) (cache : list Rec) (r : Rec) : list Rec :=
  if (cap <=? 0)%Z then cache
  else let cache' := cache ++ [r] in
  if (cap <? Z.of_nat (length cache'))%Z then drop (length cache' - Z.to_nat cap) cache' else cache'.

(** The loop of [replay]: the state after the records read, and whether all of
    them parsed. *)
Fixpoint replay_loop (cap : Z) (rs : list (line * option Rec)) (cache : list Rec) (prev : string) (seq : Z)
    : list Rec * string * Z * bool :=
  match rs with
  | [] => (cache, prev, seq, true)
  | (_, None) :: _ => (cache, prev, seq, false)
  | (_, Some r) :: rs' => replay_loop cap rs' (appendCacheLocked cap cache r) (r_Hash r) (r_Seq r)
  end.

Definition replay (s : Store) : Store * option store_err :=
  if negb (es_open s) then (s, Some EClosed)
  else let '(rs, scan_ok) := scan_lines (dk_lines (es_disk s)) in
  let '(cache, prev, seq, ok) := replay_loop (es_cacheCap s) rs [] (es_chainStart s) 0 in
  let set seq prev := mkEventStore (es_path s) true seq prev cache (es_cacheCap s) (es_retention s)
                        (es_chainStart s) (es_disk s) in
  if negb ok then (set (es_seq s) (es_prevHash s), Some EParse)
  else if negb scan_ok then (set (es_seq s) (es_prevHash s), Some EScan)
  else (set seq prev, None).

(** [OpenWithOptions]; [file_ok] is whether the log opens. *)
Definition OpenWithOptions (path : string) (retention cacheCap : Z) (file_ok : bool) (d : Disk)
    : result Store store_err :=
  if path ==s "" then Err EEmptyPath
  else let cap := if (cacheCap <=? 0)%Z then 1024%Z else cacheCap in
  if negb file_ok then Err EOpen
  else
    let start := match dk_genesis d with
                 | Some g => let h := TrimSpace g in
                             if (String.length h =? 64)%nat then h else genesisHash
                 | None => genesisHash
                 end in
    match replay (mkEventStore path true 0 genesisHash [] cap retention start d) with
    | (_, Some e) => Err e
    | (s, None) => Ok s
    end.

(** What a failed write leaves behind, and the outcome of an append. *)
Inductive append_io :=
| AppendOK
| WriteNothing
| WritePart (n : N)
| WriteNoNewline
| SyncFails.

(** The line that results from writing [l] to the file. *)
Definition push_line (l : line) (d : Disk) (torn : bool) : Disk :=
  if dk_torn d then
    match last (dk_lines d) with
    | Some l0 => mkDisk (removelast (dk_lines d) ++ [LCorrupt (line_len l0 + line_len l)]) torn (dk_genesis d)
    | None => mkDisk [l] torn (dk_genesis d)
    end
  else mkDisk (dk_lines d ++ [l]) torn (dk_genesis d).

Definition append_disk (io : append_io) (r : Rec) (d : Disk) : Disk :=
  match io with
  | AppendOK | SyncFails => push_line (LJson (record_json r)) d false
  | WriteNothing => d
  | WritePart n => push_line (LCorrupt n) d true
  | WriteNoNewline => push_line (LJson (record_json r)) d true
  end.

Definition with_disk (d : Disk) (s : Store) : Store :=
  mkEventStore (es_path s) (es_open s) (es_seq s) (es_prevHash s) (es_cache s) (es_cacheCap s)
    (es_retention s) (es_chainStart s) d.

(** The record [Append] builds for [ev]. *)
Definition new_record (now : Z) (ev : Event) (s : Store) : Rec :=
  let rec := mkRec (wrapu64 (es_seq s + 1)) now (es_prevHash s) "" (Some ev) in
  mkRec (r_Seq rec) (r_IngestAt rec) (r_PrevHash rec) (computeHash rec) (r_Event rec).

Definition Append (now : Z) (io : append_io) (ev : Event) (s : Store) : Store * result Rec store_err :=
  let rec := new_record now ev s in
  if negb (record_marshals rec) then (s, Err EMarshal)
  else if negb (es_open s) then (s, Err EClosed)
  else
    let s1 := with_disk (append_disk io rec (es_disk s)) s in
    match io with
    | AppendOK =>
        (mkEventStore (es_path s) (es_open s) (r_Seq rec) (r_Hash rec)
           (appendCacheLocked (es_cacheCap s) (es_cache s) rec) (es_cacheCap s) (es_retention s)
           (es_chainStart s) (es_disk s1), Ok rec)
    | SyncFails => (s1, Err ESync)
    | _ => (s1, Err EWrite)
    end.

(** The loop of [Verify]. *)
Fixpoint verify_loop (prev : string) (rs : list (line * option Rec)) : option store_err :=
  match rs with
  | [] => None
  | (_, None) :: _ => Some EParse
  | (_, Some r) :: rs' =>
      if r_PrevHash r !=s prev then Some (EChain r)
      else if r_Hash r !=s computeHash r then Some (EMismatch r)
      else verify_loop (r_Hash r) rs'
  end.

Definition Verify (s : Store) : option store_err :=
  if negb (es_open s) then Some EClosed
  else let '(rs, scan_ok) := scan_lines (dk_lines (es_disk s)) in
  match verify_loop (es_chainStart s) rs with
  | Some e => Some e
  | None => if scan_ok then None else Some EScan
  end.

(** *** Rotation *)

(** How far [Rotate] gets: the temporary file is created, filled and closed,
    the log closed, the temporary file renamed over it, the sidecar written,
    the log reopened. *)
Inductive rotate_io :=
| RotateOK
| RotTmpFails
| RotCloseFails
| RotRenameFails
| RotGenesisFails (rest : option string)
| RotReopenFails.

Definition expired (cutoff : Z) (x : line * option Rec) : bool :=
  match x.2 with None => true | Some r => time_Before (r_IngestAt r) cutoff end.

(** The copying loop: kept lines, new chain start, count of dropped lines. *)
Definition rotate_step (cutoff : Z) (acc : list line * string * bool * Z) (x : line * option Rec)
    : list line * string * bool * Z :=
  let '(out, start, wroteFirst, dropped) := acc in
  match x with
  | (_, None) => (out, start, wroteFirst, dropped + 1)%Z
  | (l, Some r) =>
      if time_Before (r_IngestAt r) cutoff then (out, start, wroteFirst, dropped + 1)%Z
      else (out ++ [l], if wroteFirst then start else r_PrevHash r, true, dropped)
  end.

Definition Rotate (now : Z) (io : rotate_io) (s : Store) : Store * (Z * Z) * option store_err :=
  if (es_retention s <=? 0)%Z then (s, (0, 0)%Z, None)
  else
    let cutoff := time_Add now (- es_retention s) in
    if negb (es_open s) then (s, (0, 0)%Z, Some EClosed)
    else
      let '(rs, scan_ok) := scan_lines (dk_lines (es_disk s)) in
      let '(out, start, _, dropped) := fold_left (rotate_step cutoff) rs ([], es_chainStart s, false, 0%Z) in
      let kept := Z.of_nat (length out) in
      let set open chainStart d := mkEventStore (es_path s) open (es_seq s) (es_prevHash s) (es_cache s)
                                     (es_cacheCap s) (es_retention s) chainStart d in
      if negb scan_ok then (s, (kept, dropped), Some EScan)
      else match io with
      | RotTmpFails => (s, (kept, dropped), Some ERotate)
      | RotCloseFails | RotRenameFails => (set false (es_chainStart s) (es_disk s), (kept, dropped), Some ERotate)
      | RotGenesisFails rest =>
          (set false (es_chainStart s) (mkDisk out false rest), (kept, dropped), Some ERotate)
      | RotReopenFails => (set false start (mkDisk out false (Some start)), (kept, dropped), Some ERotate)
      | RotateOK =>
          let '(s', e) := replay (set true start (mkDisk out false (Some start))) in
          (s', (kept, dropped), e)
      end.

(** *** Reading *)

Record Query := mkQuery {
  q_Limit : Z;
  q_Action : string;
  q_Severity : string;
  q_MinSeverity : string;
  q_Method : string;
  q_Category : string;
  q_Search : string;
  q_SinceSeq : Z;
  q_TenantID : string
}.

(** [strings.Contains]. *)
Definition str_contains (s sub : string) : bool :=
  match String.index 0 sub s with Some _ => true | None => false end.

Definition meetsMinSeverity (have min : string) : bool :=
  (rank_of severity_ranks min <=? rank_of severity_ranks have)%nat.

(** A filter of [match] is off when its parameter is empty. *)
Definition wants (param : string) (ok : bool) : bool := (param ==s "") || ok.

Definition match_event (ev : Event) (q : Query) : bool :=
  wants (q_TenantID q) (ev_TenantID ev ==s q_TenantID q)
  && wants (q_Action q) (ev_Action ev ==s q_Action q)
  && wants (q_Method q) (m_Method (ev_Message ev) ==s q_Method q)
  && wants (q_Severity q) (ev_Severity ev ==s q_Severity q)
  && wants (q_MinSeverity q) (meetsMinSeverity (ev_Severity ev) (q_MinSeverity q))
  && wants (q_Category q) (existsb (fun f => f_Category f ==s q_Category q) (ev_Findings ev))
  && wants (q_Search q) (str_contains (m_Raw (ev_Message ev)) (q_Search q)).

(** No filter is on. *)
Definition no_filter (q : Query) : bool :=
  forallb (fun p => p ==s "") [q_TenantID q; q_Action q; q_Method q; q_Severity q; q_MinSeverity q;
                               q_Category q; q_Search q].

(** [match]; [None] is the nil dereference on a record without an event. *)
Definition match_record (r : Rec) (q : Query) : option bool :=
  match r_Event r with
  | Some ev => Some (match_event ev q)
  | None => if no_filter q then Some true else None
  end.

(** The loop of [Read] over the cache, newest first, with the records found so
    far counted. *)
Fixpoint read_loop (q : Query) (limit : Z) (found : Z) (rs : list Rec) : option (list Rec) :=
  match rs with
  | [] => Some []
  | r :: rs' =>
      if negb (q_SinceSeq q =? 0)%Z && (r_Seq r <=? q_SinceSeq q)%Z then Some []
      else ok ← match_record r q;
      if (ok : bool) then
        if (limit <=? found + 1)%Z then Some [r]
        else out ← read_loop q limit (found + 1) rs'; Some (r :: out)
      else read_loop q limit found rs'
  end.

Definition Read (q : Query) (s : Store) : option (list Rec) :=
  let limit := if (q_Limit q <=? 0)%Z then 50%Z else q_Limit q in
  read_loop q limit 0 (rev (es_cache s)).

Definition Timeline (agentRunID tenantID : string) (s : Store) : list Rec :=
  filter (fun r => match r_Event r with
                   | None => false
                   | Some ev => (ev_AgentRunID ev ==s agentRunID)
                                && wants tenantID (ev_TenantID ev ==s tenantID)
                   end : bool) (es_cache s).

(** [Stats] *)
Definition store_Stats (s : Store) : Z * string * string := (es_seq s, es_path s, es_prevHash s).

(** ** Logs written by the store

    The specification of the file: the list of records whose lines it holds. *)

Definition log_of (rs : list Rec) : list line := map (fun r => LJson (record_json r)) rs.

(** A record that reads back as itself. *)
Definition rec_ok (r : Rec) : Prop :=
  time_ok (r_IngestAt r) /\ (0 <= r_Seq r <= max_uint64)%Z /\
  too_long (LJson (record_json r)) = false /\
  exists ev, r_Event r = Some ev /\ event_canonical ev = true /\ event_ok ev.

(** Every record carries its hash and the hash of its predecessor. *)
Fixpoint chained (start : string) (rs : list Rec) : Prop :=
  match rs with
  | [] => True
  | r :: rs' => r_PrevHash r = start /\ r_Hash r = computeHash r /\ chained (r_Hash r) rs'
  end.

Definition last_hash (start : string) (rs : list Rec) : string :=
  match last rs with Some r => r_Hash r | None => start end.
Definition last_seq (rs : list Rec) : Z := match last rs with Some r => r_Seq r | None => 0%Z end.

(** The last [cap] records. *)
Definition last_n {A} (cap : Z) (l : list A) : list A := drop (length l - Z.to_nat cap) l.

Definition is_hash (h : string) : Prop := exists s, h = hex s /\ String.length s = 32%nat.

(** The start of the chain that opening the store would read. *)
Definition disk_start (d : Disk) : string :=
  match dk_genesis d with
  | Some g => let h := TrimSpace g in if (String.length h =? 64)%nat then h else genesisHash
  | None => genesisHash
  end.

(** The store [s] holds exactly the log [rs]. *)
Record holds (s : Store) (rs : list Rec) : Prop := {
  h_open : es_open s = true;
  h_lines : dk_lines (es_disk s) = log_of rs;
  h_torn : dk_torn (es_disk s) = false;
  h_start : disk_start (es_disk s) = es_chainStart s;
  h_hash : is_hash (es_chainStart s);
  h_recs : Forall rec_ok rs;
  h_chain : chained (es_chainStart s) rs;
  h_order : StronglySorted (fun a b => r_Seq a < r_Seq b)%Z rs;
  h_seq : es_seq s = last_seq rs;
  h_prev : es_prevHash s = last_hash (es_chainStart s) rs;
  h_cap : (0 < es_cacheCap s)%Z;
  h_cache : es_cache s = last_n (es_cacheCap s) rs
}.

(** ** Lemmas *)

Lemma record_reload r : rec_ok r -> line_record (LJson (record_json r)) = Some r.
Proof.
  intros (Ht & Hs & _ & ev & He & Hc & Hev). unfold line_record, record_json.
  destruct (wire_struct (record_fields r)) as (o & -> & Ho).
  { apply (bool_decide_unpack _). reflexivity. }
  unfold record_of_json, record_fields, always in *.
  rewrite (get_int_lit _ _ _ _ (r_Seq r)) by (done || (rewrite Ho; by struct_get)).
  cbn [mbind option_bind].
  assert (get_time "ingest_at" o = Some (r_IngestAt r)) as ->.
  { unfold get_time. rewrite Ho. struct_get. cbn. by apply parse_rfc3339nano. }
  cbn [mbind option_bind]. repeat get_field Ho.
  assert (obj_get "event" o = Some (wire (event_json ev))) as ->.
  { rewrite Ho. struct_get. by rewrite He. }
  assert (exists o', wire (event_json ev) = JObj o') as [o' Ho'] by (unfold event_json; rewrite wire_obj; by eexists).
  pose proof (event_reload ev Hev) as Hr. rewrite Ho' in *. rewrite Hr, wire_event_canonical by done.
  cbn. rewrite <- He. by destruct r.
Qed.

Lemma scan_log rs : Forall rec_ok rs ->
  scan_lines (log_of rs) = (map (fun r => (LJson (record_json r), Some r)) rs, true).
Proof.
  induction 1 as [|r rs Hr _ IH]; [done|].
  pose proof Hr as (_ & _ & Hl & _). cbn [log_of map scan_lines]. rewrite Hl.
  change (map (fun r => LJson (record_json r)) rs) with (log_of rs).
  by rewrite IH, record_reload.
Qed.

Lemma verify_chained start rs :
  verify_loop start (map (fun r => (LJson (record_json r), Some r)) rs) = None <-> chained start rs.
Proof.
  revert start. induction rs as [|r rs IH]; intros start; simpl; [done|].
  destruct (r_PrevHash r ==s start) eqn:E1; breflect; simpl; [|naive_solver].
  destruct (r_Hash r ==s computeHash r) eqn:E2; breflect; simpl; [|naive_solver].
  rewrite IH. naive_solver.
Qed.

Lemma append_cache_last_n cap rs r : (0 < cap)%Z ->
  appendCacheLocked cap (last_n cap rs) r = last_n cap (rs ++ [r]).
Proof.
  intros Hcap. unfold appendCacheLocked, last_n.
  rewrite (proj2 (Z.leb_gt cap 0)) by lia. rewrite !length_app, length_drop. simpl.
  destruct (cap <? _)%Z eqn:E; breflect.
  - rewrite drop_app_le by (rewrite length_drop; lia).
    rewrite drop_drop, drop_app_le by lia. do 2 f_equal. lia.
  - rewrite drop_app_le by lia. do 2 f_equal. lia.
Qed.

Lemma last_hash_cons prev r rs : last_hash prev (r :: rs) = last_hash (r_Hash r) rs.
Proof.
  unfold last_hash. rewrite last_cons. by destruct (last rs).
Qed.

Lemma last_hash_app start rs rs' : last_hash start (rs ++ rs') = last_hash (last_hash start rs) rs'.
Proof. revert start. induction rs as [|r rs IH]; intros start; [done|]. cbn [app]. by rewrite !last_hash_cons. Qed.

Lemma replay_log cap rs : (0 < cap)%Z -> forall rs0 prev0,
  replay_loop cap (map (fun r => (LJson (record_json r), Some r)) rs) (last_n cap rs0) prev0 (last_seq rs0)
  = (last_n cap (rs0 ++ rs), last_hash prev0 rs, last_seq (rs0 ++ rs), true).
Proof.
  intros Hcap. induction rs as [|r rs IH]; intros rs0 prev0; simpl.
  { by rewrite app_nil_r. }
  rewrite append_cache_last_n by done.
  replace (r_Seq r) with (last_seq (rs0 ++ [r])) by (unfold last_seq; by rewrite last_snoc).
  by rewrite IH, <- app_assoc, last_hash_cons.
Qed.

Lemma holds_Verify s rs : holds s rs -> Verify s = None.
Proof.
  intros []. unfold Verify. rewrite h_open0, h_lines0, scan_log by done. simpl.
  by rewrite (proj2 (verify_chained _ _)).
Qed.

Lemma holds_replay s rs : holds s rs -> forall seq prev cache,
  replay (mkEventStore (es_path s) true seq prev cache (es_cacheCap s) (es_retention s)
            (es_chainStart s) (es_disk s)) = (s, None).
Proof.
  intros [] seq prev cache. unfold replay. simpl. rewrite h_lines0, scan_log by done.
  change (replay_loop _ _ [] _ 0) with
    (replay_loop (es_cacheCap s) (map (fun r => (LJson (record_json r), Some r)) rs)
       (last_n (es_cacheCap s) []) (es_chainStart s) (last_seq [])).
  rewrite replay_log by done. simpl.
  rewrite <- h_cache0, <- h_seq0, <- h_prev0. destruct s; simpl in *. by subst.
Qed.

(** Reopening recovers the store from its file. *)
Lemma holds_reopen s rs : holds s rs -> es_path s <> "" ->
  OpenWithOptions (es_path s) (es_retention s) (es_cacheCap s) true (es_disk s) = Ok s.
Proof.
  intros Hs Hp. unfold OpenWithOptions. rewrite (eqb_neq_s _ _ Hp).
  pose proof (h_cap _ _ Hs) as Hcap. rewrite (proj2 (Z.leb_gt (es_cacheCap s) 0)) by lia. simpl.
  pose proof (h_start _ _ Hs) as Hst. unfold disk_start in Hst. rewrite Hst.
  by rewrite (holds_replay s rs).
Qed.

(** *** Hashes as the start of a chain *)

Lemma hex_not_space s : forallb (fun c => negb (is_space c)) (String.list_ascii_of_string (hex s)) = true.
Proof.
  induction s as [|c s IH]; simpl; [done|]. rewrite IH, andb_true_r.
  destruct c as [[] [] [] [] [] [] [] []]; reflexivity.
Qed.

Lemma trim_right_not_space s : forallb (fun c => negb (is_space c)) (String.list_ascii_of_string s) = true ->
  trim_right s = s.
Proof.
  induction s as [|c s IH]; simpl; [done|]. intros H. breflect. rewrite IH by done.
  destruct s; [|done]. by destruct (is_space c).
Qed.

Lemma TrimSpace_not_space s : forallb (fun c => negb (is_space c)) (String.list_ascii_of_string s) = true ->
  TrimSpace s = s.
Proof.
  unfold TrimSpace. intros H. assert (trim_left s = s) as ->; [|by apply trim_right_not_space].
  destruct s as [|c s]; simpl in *; [done|]. breflect. by destruct (is_space c).
Qed.

Lemma is_hash_compute r : is_hash (computeHash r).
Proof. exists (sha256 (hash_text r)). by rewrite length_sha256. Qed.

Lemma is_hash_length h : is_hash h -> String.length h = 64%nat.
Proof. intros (s & -> & Hs). rewrite length_hex, Hs. done. Qed.

Lemma is_hash_start h ls torn : is_hash h -> disk_start (mkDisk ls torn (Some h)) = h.
Proof.
  intros Hh. unfold disk_start. simpl. pose proof (is_hash_length _ Hh) as Hl.
  destruct Hh as (s & -> & _). rewrite TrimSpace_not_space by apply hex_not_space. by rewrite Hl.
Qed.

Lemma genesis_is_hash : is_hash genesisHash.
Proof. exists (String.string_of_list_ascii (repeat (chr 0) 32)). split; reflexivity. Qed.

(** *** Chains *)

Lemma chained_app start rs rs' :
  chained start (rs ++ rs') <-> chained start rs /\ chained (last_hash start rs) rs'.
Proof.
  revert start. induction rs as [|r rs IH]; intros start; simpl; [tauto|].
  rewrite IH, last_hash_cons. tauto.
Qed.

Lemma chained_hash start rs : is_hash start -> chained start rs -> is_hash (last_hash start rs).
Proof.
  revert start. induction rs as [|r rs IH]; intros start Hs; simpl; [done|].
  intros (_ & Hr & Hc). rewrite last_hash_cons. apply IH; [|done]. rewrite Hr. apply is_hash_compute.
Qed.

Lemma last_hash_snoc start rs r : last_hash start (rs ++ [r]) = r_Hash r.
Proof. unfold last_hash. by rewrite last_snoc. Qed.

Lemma last_seq_snoc rs r : last_seq (rs ++ [r]) = r_Seq r.
Proof. unfold last_seq. by rewrite last_snoc. Qed.

Lemma sorted_snoc {A} (R : A -> A -> Prop) l x :
  StronglySorted R l -> Forall (fun a => R a x) l -> StronglySorted R (l ++ [x]).
Proof.
  induction 1 as [|y l _ IH Hy]; simpl; [by repeat constructor|].
  intros [Hyx Hl]%Forall_cons. constructor; [by apply IH|].
  apply Forall_app. split; [done|]. by constructor.
Qed.

Lemma sorted_last_seq rs : StronglySorted (fun a b => r_Seq a < r_Seq b)%Z rs ->
  Forall (fun a => r_Seq a <= last_seq rs)%Z rs.
Proof.
  induction rs as [|r rs IH] using rev_ind; [done|]. intros Hs.
  rewrite last_seq_snoc. apply Forall_app. split; [|by repeat constructor].
  clear IH. induction rs as [|y rs IH]; [done|]. simpl in Hs. apply StronglySorted_inv in Hs as [Hs Hy].
  constructor; [|by apply IH]. apply Forall_app in Hy as [_ Hy]. apply Forall_inv in Hy. lia.
Qed.

Lemma last_seq_range rs : Forall rec_ok rs -> (0 <= last_seq rs <= max_uint64)%Z.
Proof.
  unfold last_seq. destruct (last rs) eqn:E; [|unfold max_uint64; lia].
  apply last_Some_elem_of in E. rewrite Forall_forall. intros H. by destruct (H _ E) as (_ & ? & _).
Qed.

(** *** Append *)

(** What an append needs so that its line reads back: an event as decoded from
    JSON, a sequence number below the maximum, a line below the scanner's
    limit. *)
Definition storable (now : Z) (ev : Event) (s : Store) : Prop :=
  event_canonical ev = true /\ in_int64 (ev_LatencyMicros ev) /\ (es_seq s < max_uint64)%Z /\
  too_long (LJson (record_json (new_record now ev s))) = false.

Lemma holds_append s rs now ev : holds s rs -> storable now ev s ->
  record_marshals (new_record now ev s) = true ->
  exists s', Append now AppendOK ev s = (s', Ok (new_record now ev s)) /\
    es_path s' = es_path s /\ es_retention s' = es_retention s /\ es_cacheCap s' = es_cacheCap s /\
    holds s' (rs ++ [new_record now ev s]).
Proof.
  intros Hs (Hc & Hl & Hq & Hlen) Hm. unfold Append. rewrite Hm. destruct Hs. rewrite h_open0. simpl.
  eexists. split; [done|]. split_and!; [done..|].
  assert (r_Seq (new_record now ev s) = last_seq rs + 1)%Z as Hseq.
  { simpl. rewrite h_seq0 in *. pose proof (last_seq_range _ h_recs0).
    unfold wrapu64, max_uint64 in *. apply Z.mod_small. lia. }
  unfold record_marshals in Hm. simpl in Hm. apply andb_true_iff in Hm as [Hn Ht].
  assert (rec_ok (new_record now ev s)) as Hok.
  { split; [by apply time_okb_ok|]. split.
    - rewrite Hseq. pose proof (last_seq_range _ h_recs0). rewrite h_seq0 in Hq. lia.
    - split; [done|]. exists ev. split_and!; [done..|]. split; [by apply time_okb_ok|done]. }
  constructor; simpl.
  - done.
  - unfold push_line. rewrite h_torn0, h_lines0. unfold log_of. by rewrite map_app.
  - unfold push_line. by rewrite h_torn0.
  - unfold push_line. by rewrite h_torn0.
  - done.
  - apply Forall_app. split; [done|]. by constructor.
  - apply chained_app. split; [done|]. split; [exact h_prev0|by split].
  - apply sorted_snoc; [done|]. rewrite Hseq.
    eapply Forall_impl; [by apply sorted_last_seq|]. simpl. lia.
  - by rewrite last_seq_snoc.
  - by rewrite last_hash_snoc.
  - done.
  - rewrite h_cache0. by apply append_cache_last_n.
Qed.

(** *** Rotation *)

Definition unexpired (cutoff : Z) (rs : list Rec) : list Rec :=
  filter (fun r => negb (time_Before (r_IngestAt r) cutoff)) rs.

Definition first_prev (start : string) (rs : list Rec) : string :=
  match rs with r :: _ => r_PrevHash r | [] => start end.

Lemma rotate_log cutoff rs : forall out start wrote dropped,
  fold_left (rotate_step cutoff) (map (fun r => (LJson (record_json r), Some r)) rs) (out, start, wrote, dropped)
  = (out ++ log_of (unexpired cutoff rs),
     if wrote then start else first_prev start (unexpired cutoff rs),
     wrote || negb (is_nil (unexpired cutoff rs)),
     dropped + (Z.of_nat (length rs) - Z.of_nat (length (unexpired cutoff rs))))%Z.
Proof.
  unfold unexpired. induction rs as [|r rs IH]; intros out start wrote dropped.
  { simpl. rewrite app_nil_r, orb_false_r, Z.add_0_r. by destruct wrote. }
  cbn [map fold_left rotate_step]. rewrite filter_cons.
  destruct (time_Before (r_IngestAt r) cutoff) eqn:E; cbn [negb].
  - rewrite decide_False by (intros []). rewrite IH.
    cbn [length]. destruct wrote; f_equal; lia.
  - rewrite decide_True by exact I. rewrite IH. cbn [length log_of map first_prev is_nil negb]. rewrite <- app_assoc, orb_true_r.
    destruct wrote; cbn [app orb]; f_equal; lia.
Qed.

(** When ingest times never decrease, the expired records are a prefix. *)
Definition timed (rs : list Rec) : Prop :=
  StronglySorted (fun a b => r_IngestAt a <= r_IngestAt b)%Z rs.

Lemma unexpired_suffix cutoff rs : timed rs -> exists pre, rs = pre ++ unexpired cutoff rs.
Proof.
  unfold timed, unexpired. induction 1 as [|r rs Hs [pre IH] Hr]; [by exists []|].
  rewrite filter_cons. destruct (time_Before (r_IngestAt r) cutoff) eqn:E; cbn [negb].
  - rewrite decide_False by (intros []). exists (r :: pre). simpl. congruence.
  - rewrite decide_True by exact I. exists []. simpl. f_equal.
    clear IH Hs. induction Hr as [|x l Hx Hl IH]; [done|].
    unfold time_Before in *. breflect.
    rewrite filter_cons_True; [congruence|]. rewrite (proj2 (Z.ltb_ge _ _)) by lia. exact I.
Qed.

Lemma sorted_suffix {A} (R : A -> A -> Prop) pre l : StronglySorted R (pre ++ l) -> StronglySorted R l.
Proof. induction pre; [done|]. simpl. intros [? _]%StronglySorted_inv. auto. Qed.

Lemma chained_suffix start pre rs : is_hash start -> chained start (pre ++ rs) ->
  chained (first_prev start rs) rs /\ is_hash (first_prev start rs).
Proof.
  intros Hs [Hpre Hc]%chained_app. destruct rs as [|r rs]; [done|]. simpl in *.
  destruct Hc as (Hp & Hh & Hc). split_and!; [done..|]. rewrite Hp. by apply chained_hash.
Qed.

Lemma holds_rotate s rs now : holds s rs -> timed rs -> (0 < es_retention s)%Z ->
  let kept := unexpired (now - es_retention s) rs in
  exists s', Rotate now RotateOK s =
      (s', (Z.of_nat (length kept), Z.of_nat (length rs) - Z.of_nat (length kept))%Z, None) /\
    es_path s' = es_path s /\ es_retention s' = es_retention s /\ es_cacheCap s' = es_cacheCap s /\
    es_chainStart s' = first_prev (es_chainStart s) kept /\ holds s' kept.
Proof.
  intros Hs Ht Hret kept. pose proof Hs as [].
  destruct (unexpired_suffix (now - es_retention s) rs Ht) as [pre Hpre]. fold kept in Hpre.
  set (start := first_prev (es_chainStart s) kept).
  set (d := mkDisk (log_of kept) false (Some start)).
  assert (Forall rec_ok kept) as Hrk by (rewrite Hpre in h_recs0; by apply Forall_app in h_recs0 as [_ ?]).
  assert (chained start kept /\ is_hash start) as [Hck Hhk].
  { apply (chained_suffix _ pre); [done|]. by rewrite <- Hpre. }
  set (s' := mkEventStore (es_path s) true (last_seq kept) (last_hash start kept)
               (last_n (es_cacheCap s) kept) (es_cacheCap s) (es_retention s) start d).
  assert (holds s' kept) as Hs'.
  { constructor; simpl; try done.
    - by apply is_hash_start.
    - rewrite Hpre in h_order0. by apply sorted_suffix in h_order0. }
  exists s'. split_and!; [|done..].
  unfold Rotate. rewrite (proj2 (Z.leb_gt _ 0)) by lia. rewrite h_open0, h_lines0, scan_log by done. simpl.
  rewrite rotate_log. simpl. unfold time_Add.
  change (now + - es_retention s)%Z with (now - es_retention s)%Z. fold kept start d.
  unfold log_of at 1. rewrite length_map.
  pose proof (holds_replay s' kept Hs' (es_seq s) (es_prevHash s) (es_cache s)) as Hr. simpl in Hr.
  by rewrite Hr.
Qed.

(** *** Tampering *)

#[local] Opaque sha256.

(** The event as the hash covers it. *)
Definition event_text (r : Rec) : string :=
  if event_marshals (r_Event r) then marshal (event_opt_json (r_Event r)) else "".

Definition same_record (r r' : Rec) : Prop :=
  r_Seq r = r_Seq r' /\ r_IngestAt r = r_IngestAt r' /\ r_PrevHash r = r_PrevHash r' /\
  r_Hash r = r_Hash r' /\ event_text r = event_text r'.

Lemma hash_text_inj r r' : time_ok (r_IngestAt r) -> time_ok (r_IngestAt r') ->
  String.length (r_PrevHash r) = String.length (r_PrevHash r') -> hash_text r = hash_text r' ->
  r_Seq r = r_Seq r' /\ r_IngestAt r = r_IngestAt r' /\ r_PrevHash r = r_PrevHash r' /\
  event_text r = event_text r'.
Proof.
  intros Ht Ht' Hl. unfold hash_text, newline. rewrite !sapp_cons, !sapp_nil_l. intros H.
  apply first_line in H as [Hs H]; [|apply dec_string_no_newline..].
  apply first_line in H as [Hi H]; [|by apply rfc3339nano_no_newline..].
  apply (sapp_inj_length _ _ _ _ Hl) in H as [Hp H]. injection H as H.
  apply dec_string_inj in Hs.
  apply (f_equal parse_rfc3339) in Hi. rewrite !parse_rfc3339nano in Hi by done.
  by injection Hi as Hi.
Qed.

Lemma last_hash_length start rs : String.length start = 64%nat -> chained start rs ->
  String.length (last_hash start rs) = 64%nat.
Proof.
  revert start. induction rs as [|r rs IH]; intros start Hl; simpl; [done|].
  intros (_ & Hh & Hc). rewrite last_hash_cons. apply IH; [|done].
  rewrite Hh. exact (is_hash_length _ (is_hash_compute r)).
Qed.

Lemma tamper_chain start rs1 rs2 : String.length start = 64%nat ->
  Forall (fun r => time_ok (r_IngestAt r)) rs1 -> Forall (fun r => time_ok (r_IngestAt r)) rs2 ->
  chained start rs1 -> chained start rs2 -> last_hash start rs1 = last_hash start rs2 ->
  Forall2 same_record rs1 rs2 \/
  (exists r1 r2, r1 ∈ rs1 /\ r2 ∈ rs2 /\ hash_text r1 <> hash_text r2 /\
     sha256 (hash_text r1) = sha256 (hash_text r2)) \/
  (exists r, (r ∈ rs1 \/ r ∈ rs2) /\ r_Hash r = start).
Proof.
  intros Hl. revert rs2. induction rs1 as [|r1 rs1 IH] using rev_ind; intros rs2 Ht1 Ht2 Hc1 Hc2 Hh.
  - destruct rs2 as [|r2 rs2 _] using rev_ind; [by left|].
    rewrite last_hash_snoc in Hh. right; right. exists r2. split; [set_solver|done].
  - destruct rs2 as [|r2 rs2 _] using rev_ind.
    { rewrite last_hash_snoc in Hh. right; right. exists r1. split; [set_solver|done]. }
    rewrite !last_hash_snoc in Hh.
    apply chained_app in Hc1 as [Hc1 (Hp1 & Hh1 & _)], Hc2 as [Hc2 (Hp2 & Hh2 & _)].
    apply Forall_app in Ht1 as [Ht1 Hr1%Forall_inv], Ht2 as [Ht2 Hr2%Forall_inv].
    assert (sha256 (hash_text r1) = sha256 (hash_text r2)) as Hsha.
    { apply hex_inj. unfold computeHash in *. congruence. }
    destruct (decide (hash_text r1 = hash_text r2)) as [Heq|Hne].
    2:{ right; left. exists r1, r2. rewrite !elem_of_app, !list_elem_of_singleton. auto. }
    apply hash_text_inj in Heq as (Hs & Hi & Hp & He); [|done|done|].
    2:{ rewrite Hp1, Hp2. by rewrite !last_hash_length. }
    destruct (IH rs2) as [Hf|[(a & b & Ha & Hb & Hab)|(r & Hr & Hs')]]; [done..|congruence| | |].
    + left. apply Forall2_app; [done|]. by repeat constructor.
    + right; left. exists a, b. rewrite !elem_of_app. tauto.
    + right; right. exists r. rewrite !elem_of_app. tauto.
Qed.

(** The records a scan of the file reads. *)
Definition disk_records (d : Disk) : list Rec := omap snd (scan_lines (dk_lines d)).1.

Lemma record_of_json_time v r : record_of_json v = Some r -> time_ok (r_IngestAt r).
Proof.
  destruct v as [| | | | |o]; try done. unfold record_of_json. intros H. inv_bind H. injection H as <-. simpl.
  match goal with Ht : get_time _ _ = Some _ |- _ => by apply get_time_ok in Ht end.
Qed.

Lemma disk_records_time d : Forall (fun r => time_ok (r_IngestAt r)) (disk_records d).
Proof.
  unfold disk_records. induction (dk_lines d) as [|l ls IH]; simpl; [constructor|].
  destruct (too_long l); [constructor|]. destruct (scan_lines ls) as [rs ok]. simpl in *.
  destruct l as [|n|v]; simpl; [done|done|].
  destruct (record_of_json (wire v)) as [r|] eqn:E; [|done]. constructor; [|done].
  by eapply record_of_json_time.
Qed.

Lemma verify_loop_chained start rs : verify_loop start rs = None -> chained start (omap snd rs).
Proof.
  revert start. induction rs as [|[l [r|]] rs IH]; intros start; simpl; [done| |done].
  destruct (r_PrevHash r ==s start) eqn:E1; breflect; simpl; [|done].
  destruct (r_Hash r ==s computeHash r) eqn:E2; breflect; simpl; [|done].
  intros H. split_and!; [done..|by apply IH].
Qed.

Lemma Verify_chained s : Verify s = None -> chained (es_chainStart s) (disk_records (es_disk s)).
Proof.
  unfold Verify, disk_records. destruct (es_open s); [simpl|done].
  destruct (scan_lines _) as [rs ok]. destruct (verify_loop _ rs) eqn:E; [done|].
  intros _. by apply verify_loop_chained.
Qed.

(** *** Reading *)

(** A record passes the filters of a query. *)
Definition selects (q : Query) (r : Rec) : bool :=
  match r_Event r with Some ev => match_event ev q | None => false end.

Lemma read_loop_spec q limit found rs : (0 < limit - found)%Z ->
  Forall (fun r => is_Some (r_Event r)) rs ->
  StronglySorted (fun a b => r_Seq b < r_Seq a)%Z rs ->
  read_loop q limit found rs =
  Some (take (Z.to_nat (limit - found))
         (filter (fun r => selects q r && ((q_SinceSeq q =? 0)%Z || (q_SinceSeq q <? r_Seq r)%Z)) rs)).
Proof.
  revert found. induction rs as [|r rs IH]; intros found Hf Hev Hs; simpl.
  { by rewrite filter_nil, take_nil. }
  apply Forall_cons in Hev as [[ev Hr] Hev]. apply StronglySorted_inv in Hs as [Hs Hlt].
  rewrite Z.leb_antisym. rewrite filter_cons.
  assert (selects q r = match_event ev q) as -> by (unfold selects; by rewrite Hr).
  destruct (negb (q_SinceSeq q =? 0)%Z && negb (q_SinceSeq q <? r_Seq r)%Z) eqn:E.
  - apply andb_true_iff in E as [E1 E2]. breflect.
    rewrite (proj2 (Z.eqb_neq _ _) E1), (proj2 (Z.ltb_ge _ _) E2), andb_false_r.
    rewrite decide_False by (intros []). symmetry.
    assert (filter (fun r0 => selects q r0 && (false || (q_SinceSeq q <? r_Seq r0)%Z)) rs = []) as ->;
      [|by rewrite take_nil].
    clear IH Hs Hev. induction Hlt as [|x l Hx Hl IH]; [done|].
    rewrite filter_cons_False; [done|].
    rewrite (proj2 (Z.ltb_ge (q_SinceSeq q) (r_Seq x))), andb_false_r by lia.
    intros [].
  - assert ((q_SinceSeq q =? 0)%Z || (q_SinceSeq q <? r_Seq r)%Z = true) as ->
      by (by destruct (q_SinceSeq q =? 0)%Z, (q_SinceSeq q <? r_Seq r)%Z).
    rewrite andb_true_r. unfold match_record. rewrite Hr. cbn [mbind option_bind].
    destruct (match_event ev q) eqn:Em.
    + rewrite decide_True by exact I.
      replace (Z.to_nat (limit - found)) with (S (Z.to_nat (limit - (found + 1)))) by lia. simpl.
      destruct (limit <=? found + 1)%Z eqn:El; breflect.
      * by replace (Z.to_nat (limit - (found + 1))) with 0%nat by lia.
      * rewrite IH by (done || lia). done.
    + rewrite decide_False by (intros []). by apply IH.
Qed.

Lemma StronglySorted_rev {A} (R : A -> A -> Prop) l :
  StronglySorted R l -> StronglySorted (fun a b => R b a) (rev l).
Proof.
  induction 1 as [|x l _ IH Hx]; simpl; [constructor|].
  apply sorted_snoc; [done|]. apply Forall_forall. intros y Hy%list_elem_of_In%in_rev%list_elem_of_In.
  rewrite Forall_forall in Hx. by apply Hx.
Qed.

Lemma sorted_drop {A} (R : A -> A -> Prop) n l : StronglySorted R l -> StronglySorted R (drop n l).
Proof. intros H. rewrite <- (take_drop n l) in H. by apply sorted_suffix in H. Qed.

Lemma Forall_drop' {A} (P : A -> Prop) n l : Forall P l -> Forall P (drop n l).
Proof. intros H. rewrite <- (take_drop n l) in H. by apply Forall_app in H as [_ ?]. Qed.

(** *** Sequences of operations *)

Inductive log_op :=
| LAppend (now : Z) (io : append_io) (ev : Event)
| LRotate (now : Z).

Definition log_run (s : Store) (o : log_op) : Store :=
  match o with
  | LAppend now io ev => (Append now io ev s).1
  | LRotate now => (Rotate now RotateOK s).1.1
  end.

(** The clock at the appends never goes back, events are storable, and a write
    either succeeds or leaves nothing. *)
Fixpoint admissible (T : Z) (s : Store) (ops : list log_op) : Prop :=
  match ops with
  | [] => True
  | LAppend now io ev :: ops' =>
      (T <= now)%Z /\ storable now ev s /\ (io = AppendOK \/ io = WriteNothing) /\
      admissible now (log_run s (LAppend now io ev)) ops'
  | LRotate now :: ops' => admissible T (log_run s (LRotate now)) ops'
  end.

(** The log [rs], with no ingest time after [T]. *)
Definition holds_at (T : Z) (s : Store) (rs : list Rec) : Prop :=
  holds s rs /\ timed rs /\ Forall (fun r => r_IngestAt r <= T)%Z rs.

Lemma append_at T now io ev s rs : holds_at T s rs -> (T <= now)%Z -> storable now ev s ->
  (io = AppendOK \/ io = WriteNothing) ->
  exists rs', holds_at now (Append now io ev s).1 rs' /\ es_path (Append now io ev s).1 = es_path s.
Proof.
  intros (Hs & Ht & HT) Hn Hst Hio.
  assert (holds_at now s rs) as Hid.
  { split_and!; [done..|]. eapply Forall_impl; [exact HT|]. simpl. lia. }
  destruct (record_marshals (new_record now ev s)) eqn:Hm.
  2:{ exists rs. unfold Append. by rewrite Hm. }
  destruct Hio as [-> | ->].
  - destruct (holds_append s rs now ev Hs Hst Hm) as (s' & E & Hp & _ & _ & Hs').
    rewrite E. simpl. exists (rs ++ [new_record now ev s]). split; [|done].
    split_and!; [done| |].
    + apply sorted_snoc; [done|]. eapply Forall_impl; [exact HT|]. simpl. lia.
    + apply Forall_app. split; [by destruct Hid as (_ & _ & ?)|]. repeat constructor. simpl. lia.
  - exists rs. unfold Append. rewrite Hm, (h_open _ _ Hs). simpl. split; [|done].
    by destruct s.
Qed.

Lemma rotate_at T now s rs : holds_at T s rs ->
  exists rs', holds_at T (Rotate now RotateOK s).1.1 rs' /\ es_path (Rotate now RotateOK s).1.1 = es_path s.
Proof.
  intros (Hs & Ht & HT). destruct (es_retention s <=? 0)%Z eqn:Hr.
  { exists rs. unfold Rotate. rewrite Hr. by split_and!. }
  breflect. destruct (holds_rotate s rs now Hs Ht) as (s' & E & Hp & _ & _ & _ & Hs'); [lia|].
  rewrite E. simpl. exists (unexpired (now - es_retention s) rs). split; [|done].
  destruct (unexpired_suffix (now - es_retention s) rs Ht) as [pre Hpre].
  rewrite Hpre in Ht, HT. split_and!; [done|by apply sorted_suffix in Ht|].
  by apply Forall_app in HT as [_ ?].
Qed.

Lemma runs_at ops : forall T s rs, holds_at T s rs -> admissible T s ops ->
  exists T' rs', holds_at T' (fold_left log_run ops s) rs' /\ es_path (fold_left log_run ops s) = es_path s.
Proof.
  induction ops as [|[now io ev|now] ops IH]; intros T s rs Hs Ha; simpl in *.
  - by exists T, rs.
  - destruct Ha as (Hn & Hst & Hio & Ha).
    destruct (append_at T now io ev s rs Hs Hn Hst Hio) as (rs' & Hs' & <-). by eapply IH.
  - destruct (rotate_at T now s rs Hs) as (rs' & Hs' & <-). by eapply IH.
Qed.

(** A store opened on a missing or empty file. *)
Definition fresh_store (path : string) (retention cap : Z) : Store :=
  mkEventStore path true 0 genesisHash [] cap retention genesisHash (mkDisk [] false None).

Lemma fresh_holds T path retention cap : (0 < cap)%Z -> holds_at T (fresh_store path retention cap) [].
Proof.
  intros Hc. split_and!; [|constructor|constructor].
  constructor; simpl; try done; try constructor; try (by apply genesis_is_hash).
Qed.

Lemma Read_window s rs q : holds s rs ->
  Read q s = Some (take (Z.to_nat (if (q_Limit q <=? 0)%Z then 50 else q_Limit q))
            (filter (fun r => selects q r && ((q_SinceSeq q =? 0)%Z || (q_SinceSeq q <? r_Seq r)%Z))
               (rev (last_n (es_cacheCap s) rs)))).
Proof.
  intros []. unfold Read. rewrite h_cache0.
  assert (Forall (fun r => is_Some (r_Event r)) (rev (last_n (es_cacheCap s) rs))) as Hev.
  { apply Forall_forall. intros r Hr%list_elem_of_In%in_rev%list_elem_of_In.
    assert (r ∈ rs) as Hin by (rewrite <- (take_drop (length rs - Z.to_nat (es_cacheCap s)) rs); set_solver).
    rewrite Forall_forall in h_recs0. destruct (h_recs0 r Hin) as (_ & _ & _ & ev & -> & _). by eexists. }
  rewrite read_loop_spec; [|destruct (q_Limit q <=? 0)%Z eqn:E; breflect; lia|done|].
  2:{ apply StronglySorted_rev, sorted_drop. done. }
  by rewrite Z.sub_0_r.
Qed.

Lemma Read_subset s rs q out : holds s rs -> Read q s = Some out -> forall r, r ∈ out -> r ∈ rs.
Proof.
  intros Hs. rewrite (Read_window s rs q Hs). intros [= <-] r Hr.
  apply elem_of_take in Hr as (i & Hr%list_elem_of_lookup_2 & _).
  apply list_elem_of_filter in Hr as [_ Hr%list_elem_of_In%in_rev%list_elem_of_In].
  rewrite <- (take_drop (length rs - Z.to_nat (es_cacheCap s)) rs). set_solver.
Qed.

(** ** Properties *)


(** C9. Tamper evidence.  Two files that both verify from the same chain start
    and end in the same head hash hold the same records (sequence numbers,
    ingest times, links, hashes and event JSON), unless two records exhibit
    different texts with the same SHA-256, or one whose hash is the chain
    start itself. *)
Theorem tamper_evident s1 s2 :
  Verify s1 = None -> Verify s2 = None ->
  es_chainStart s1 = es_chainStart s2 -> String.length (es_chainStart s1) = 64%nat ->
  let rs1 := disk_records (es_disk s1) in
  let rs2 := disk_records (es_disk s2) in
  last_hash (es_chainStart s1) rs1 = last_hash (es_chainStart s2) rs2 ->
  Forall2 same_record rs1 rs2 \/
  (exists r1 r2, r1 ∈ rs1 /\ r2 ∈ rs2 /\ hash_text r1 <> hash_text r2 /\
     sha256 (hash_text r1) = sha256 (hash_text r2)) \/
  (exists r, (r ∈ rs1 \/ r ∈ rs2) /\ r_Hash r = es_chainStart s1).
Proof.
  intros H1%Verify_chained H2%Verify_chained Hst Hl rs1 rs2 Hh. rewrite <- Hst in *.
  apply tamper_chain; [done|apply disk_records_time..|done|done|done].
Qed.

(** Truncation goes unnoticed.  Cutting any number of records off the end
    of a log leaves a file that opens and verifies, at the earlier head. *)
Theorem truncation_verifies s rs n : holds s rs -> es_path s <> "" ->
  let d := mkDisk (take n (dk_lines (es_disk s))) false (dk_genesis (es_disk s)) in
  exists s', OpenWithOptions (es_path s) (es_retention s) (es_cacheCap s) true d = Ok s' /\
    Verify s' = None /\ es_seq s' = last_seq (take n rs) /\
    es_prevHash s' = last_hash (es_chainStart s) (take n rs).
Proof.
  intros Hs Hp d. pose proof Hs as [].
  set (s' := mkEventStore (es_path s) true (last_seq (take n rs)) (last_hash (es_chainStart s) (take n rs))
               (last_n (es_cacheCap s) (take n rs)) (es_cacheCap s) (es_retention s) (es_chainStart s) d).
  rewrite <- (take_drop n rs) in h_recs0, h_chain0, h_order0.
  assert (holds s' (take n rs)) as Hs'.
  { constructor; simpl; try done.
    - rewrite h_lines0. unfold log_of. by rewrite <- firstn_map.
    - by apply Forall_app in h_recs0 as [? _].
    - by apply chained_app in h_chain0 as [? _].
    - apply StronglySorted_rev in h_order0. rewrite rev_app_distr in h_order0.
      apply sorted_suffix, StronglySorted_rev in h_order0. by rewrite rev_involutive in h_order0. }
  exists s'. split_and!; [|by eapply holds_Verify|done..].
  apply (holds_reopen s' (take n rs) Hs' Hp).
Qed.

(** A failed sync breaks the chain.  An append whose write reaches the file
    but whose sync fails reports an error without advancing the head; the next
    append reuses its sequence number, and the log no longer verifies. *)
Theorem sync_failure_breaks_chain s rs now1 ev1 now2 ev2 :
  holds s rs -> storable now1 ev1 s -> storable now2 ev2 s ->
  record_marshals (new_record now1 ev1 s) = true -> record_marshals (new_record now2 ev2 s) = true ->
  r_Hash (new_record now1 ev1 s) <> es_prevHash s ->
  exists s1 s2 r2, Append now1 SyncFails ev1 s = (s1, Err ESync) /\
    Append now2 AppendOK ev2 s1 = (s2, Ok r2) /\
    r_Seq r2 = r_Seq (new_record now1 ev1 s) /\ Verify s2 = Some (EChain r2).
Proof.
  intros Hs Hst1 Hst2 Hm1 Hm2 Hne.
  destruct (holds_append s rs now1 ev1 Hs Hst1 Hm1) as (sa & Ea & _ & _ & _ & Ha).
  destruct (holds_append s rs now2 ev2 Hs Hst2 Hm2) as (sb & Eb & _ & _ & _ & Hb).
  pose proof (h_recs _ _ Ha) as Hra. pose proof (h_recs _ _ Hb) as Hrb.
  apply Forall_app in Hrb as [_ Hrb]. pose proof Hs as [].
  set (r1 := new_record now1 ev1 s) in *. set (r2 := new_record now2 ev2 s) in *.
  set (s1 := with_disk (append_disk SyncFails r1 (es_disk s)) s).
  assert (new_record now2 ev2 s1 = r2) as Hr2 by done.
  exists s1. eexists _, r2. split_and!.
  - unfold Append. fold r1. by rewrite Hm1, h_open0.
  - unfold Append. rewrite Hr2, Hm2. change (es_open s1) with (es_open s). rewrite h_open0. reflexivity.
  - done.
  - unfold Verify. cbn [es_open es_disk es_chainStart append_disk with_disk s1].
    cbn [negb]. unfold push_line. rewrite h_torn0. cbn [dk_torn dk_lines].
    rewrite h_lines0. change [LJson (record_json r1)] with (log_of [r1]).
    change [LJson (record_json r2)] with (log_of [r2]). unfold log_of. rewrite <- !map_app.
    change (map (fun r => LJson (record_json r)) ?l) with (log_of l).
    rewrite scan_log by (apply Forall_app; by split).
    assert (forall start l, chained start l -> last_hash start l = es_prevHash s ->
      verify_loop start (map (fun r => (LJson (record_json r), Some r)) (l ++ [r1] ++ [r2])) = Some (EChain r2)) as Hv.
    { clear -Hne. intros start l. revert start. induction l as [|r l IH]; intros start.
      - intros _ Hl. cbn [app map verify_loop]. change (last_hash start []) with start in Hl. rewrite Hl.
        change (r_PrevHash r1) with (es_prevHash s). change (r_PrevHash r2) with (es_prevHash s).
        change (computeHash r1) with (r_Hash r1). rewrite !eqb_refl_s. cbn [negb].
        by rewrite eqb_neq_s by congruence.
      - intros (Hp & Hh & Hc) Hl. cbn [app map verify_loop].
        rewrite Hp, <- Hh, !eqb_refl_s. cbn [negb]. apply IH; [done|]. by rewrite <- last_hash_cons with (prev := start). }
    rewrite <- app_assoc. rewrite Hv; [done|done|]. by symmetry.
Qed.

(** Rotation.  With ingest times in order, a rotation keeps exactly the
    records that are not older than the retention window, counts the others as
    dropped, and leaves a log that verifies.  If a record survives, the head of
    the chain is unchanged; if none does, the sequence restarts at zero and the
    chain continues from its old start, not from the last dropped record. *)
Theorem Rotate_spec s rs now : holds s rs -> timed rs -> (0 < es_retention s)%Z ->
  let kept := unexpired (now - es_retention s) rs in
  exists s', Rotate now RotateOK s =
      (s', (Z.of_nat (length kept), Z.of_nat (length rs) - Z.of_nat (length kept))%Z, None) /\
    dk_lines (es_disk s') = log_of kept /\ Verify s' = None /\
    (kept <> [] -> es_seq s' = es_seq s /\ es_prevHash s' = es_prevHash s) /\
    (kept = [] -> es_seq s' = 0%Z /\ es_prevHash s' = es_chainStart s).
Proof.
  intros Hs Ht Hr kept. destruct (holds_rotate s rs now Hs Ht Hr) as (s' & E & _ & _ & _ & Hst & Hs').
  fold kept in E, Hst, Hs'. exists s'.
  destruct (unexpired_suffix (now - es_retention s) rs Ht) as [pre Hpre]. fold kept in Hpre.
  split_and!; [done|exact (h_lines _ _ Hs')|by eapply holds_Verify| |].
  - intros Hk. rewrite (h_seq _ _ Hs'), (h_seq _ _ Hs), (h_prev _ _ Hs'), (h_prev _ _ Hs), Hpre.
    destruct kept as [|k l _] using rev_ind; [done|].
    unfold last_seq, last_hash. by rewrite app_assoc, !last_snoc.
  - intros Hk. rewrite (h_seq _ _ Hs'), (h_prev _ _ Hs'), Hst, Hk. done.
Qed.

(** Reads.  A query returns, newest first, the first [Limit] cached records
    that pass every filter and follow [SinceSeq]; with a tenant set, they are
    all that tenant's. *)
Theorem Read_spec s rs q : holds s rs ->
  exists out, Read q s = Some out /\
    out = take (Z.to_nat (if (q_Limit q <=? 0)%Z then 50 else q_Limit q))
            (filter (fun r => selects q r && ((q_SinceSeq q =? 0)%Z || (q_SinceSeq q <? r_Seq r)%Z))
               (rev (last_n (es_cacheCap s) rs))) /\
    (q_TenantID q <> "" -> forall r, r ∈ out -> exists ev, r_Event r = Some ev /\ ev_TenantID ev = q_TenantID q).
Proof.
  intros Hs. rewrite (Read_window s rs q Hs). eexists. split; [done|]. split; [done|].
  intros Ht r Hr. apply elem_of_take in Hr as (i & Hr%list_elem_of_lookup_2 & _).
  apply list_elem_of_filter in Hr as [Hsel%Is_true_true Hr].
  apply andb_true_iff in Hsel as [Hsel _]. unfold selects in Hsel.
  destruct (r_Event r) as [ev|]; [|done]. exists ev. split; [done|].
  unfold match_event, wants in Hsel. rewrite (eqb_neq_s _ _ Ht) in Hsel. cbn [orb] in Hsel.
  breflect. done.
Qed.

(** ** Witnesses *)

#[local] Transparent sha256.

Definition sample_event (tenant raw : string) : Event :=
  mkEvent SchemaVersion "e1" 0 "s1" tenant "run" "" ProtocolMCP DirectionInbound "" ""
    (mkMessage "" "tools/call" [] [] [] raw) [] ActionAllow SeverityInfo 0.

Definition sample_ops : list log_op :=
  [LAppend 1 AppendOK (sample_event "acme" "a"); LAppend 2 WriteNothing (sample_event "acme" "b");
   LAppend 90 AppendOK (sample_event "zeta" "c")].
Definition sample_store : Store := fold_left log_run sample_ops (fresh_store "events.log" 50 8).

Lemma storable_check now ev s :
  event_canonical ev && (min_int64 <=? ev_LatencyMicros ev)%Z && (ev_LatencyMicros ev <=? max_int64)%Z
  && (es_seq s <? max_uint64)%Z && negb (too_long (LJson (record_json (new_record now ev s)))) = true -> storable now ev s.
Proof. intros H. breflect. repeat split; done. Qed.

Lemma sample_admissible : admissible 0 (fresh_store "events.log" 50 8) sample_ops.
Proof.
  do 3 (split; [lia|]; split; [apply storable_check; vm_compute; reflexivity|]; split; [auto|]). exact I.
Qed.


(** The records of the sample log. *)
Definition sample_first : Store := (Append 1 AppendOK (sample_event "acme" "a") (fresh_store "events.log" 50 8)).1.
Definition sample_records : list Rec :=
  [new_record 1 (sample_event "acme" "a") (fresh_store "events.log" 50 8);
   new_record 90 (sample_event "zeta" "c") sample_first].

Lemma sample_holds : holds sample_store sample_records.
Proof.
  destruct (sample_admissible) as (_ & Hst1 & _ & _ & _ & _ & _ & Hst2 & _).
  destruct (holds_append _ [] 1 (sample_event "acme" "a") (proj1 (fresh_holds 0 "events.log" 50 8 eq_refl)) Hst1
    ltac:(vm_compute; reflexivity)) as (s1 & E1 & _ & _ & _ & H1).
  apply (f_equal fst) in E1. cbn [fst] in E1.
  assert (storable 90 (sample_event "zeta" "c") s1) as Hst by (rewrite <- E1; exact Hst2).
  destruct (holds_append _ _ 90 (sample_event "zeta" "c") H1 Hst
    ltac:(rewrite <- E1; vm_compute; reflexivity)) as (s2 & E2 & _ & _ & _ & H2).
  apply (f_equal fst) in E2. cbn [fst] in E2. rewrite <- E1 in E2, H2.
  assert (sample_store = s2) as -> by (rewrite <- E2; vm_compute; reflexivity).
  exact H2.
Qed.

Lemma tamper_evident_witness :
  let s2 := with_disk (mkDisk (log_of sample_records) false None) sample_store in
  Forall2 same_record (disk_records (es_disk sample_store)) (disk_records (es_disk s2)) \/
  (exists r1 r2, r1 ∈ disk_records (es_disk sample_store) /\ r2 ∈ disk_records (es_disk s2) /\
     hash_text r1 <> hash_text r2 /\ sha256 (hash_text r1) = sha256 (hash_text r2)) \/
  (exists r, (r ∈ disk_records (es_disk sample_store) \/ r ∈ disk_records (es_disk s2)) /\
     r_Hash r = es_chainStart sample_store).
Proof. apply (tamper_evident sample_store); vm_compute; reflexivity. Defined.

Lemma truncation_verifies_witness : exists s',
  OpenWithOptions "events.log" 50 8 true
    (mkDisk (take 1 (dk_lines (es_disk sample_store))) false None) = Ok s' /\
  Verify s' = None /\ es_seq s' = 1%Z.
Proof.
  destruct (truncation_verifies sample_store sample_records 1 sample_holds) as (s' & Ho & Hv & Hs & _); [done|].
  exists s'. split; [exact Ho|]. split; [exact Hv|exact Hs].
Defined.

Lemma sync_failure_breaks_chain_witness : exists s1 s2 r2,
  Append 95 SyncFails (sample_event "acme" "d") sample_store = (s1, Err ESync) /\
  Append 96 AppendOK (sample_event "acme" "e") s1 = (s2, Ok r2) /\ Verify s2 = Some (EChain r2).
Proof.
  destruct (sync_failure_breaks_chain sample_store sample_records 95 (sample_event "acme" "d") 96
    (sample_event "acme" "e") sample_holds) as (s1 & s2 & r2 & H1 & H2 & _ & H3).
  1, 2: split; [reflexivity|]; split; [split; discriminate|]; split; vm_compute; reflexivity.
  1, 2: vm_compute; reflexivity.
  - intros H. vm_compute in H. discriminate H.
  - exists s1, s2, r2. split; [exact H1|]. split; [exact H2|exact H3].
Defined.

Lemma Rotate_spec_witness : exists s',
  Rotate 100 RotateOK sample_store = (s', (1, 1)%Z, None) /\ Verify s' = None /\ es_seq s' = 2%Z.
Proof.
  destruct (Rotate_spec sample_store sample_records 100 sample_holds) as (s' & Hr & _ & Hv & Hk & _).
  - repeat constructor. vm_compute. discriminate.
  - reflexivity.
  - exists s'. split; [exact Hr|]. split; [exact Hv|].
    destruct Hk as [Hk _]; [vm_compute; discriminate|]. rewrite Hk. vm_compute. reflexivity.
Defined.

Lemma Read_spec_witness : exists out,
  Read (mkQuery 10 "" "" "" "" "" "" 0 "zeta") sample_store = Some out /\ length out = 1%nat.
Proof.
  destruct (Read_spec sample_store sample_records (mkQuery 10 "" "" "" "" "" "" 0 "zeta") sample_holds)
    as (out & Ho & Heq & _).
  exists out. split; [exact Ho|]. rewrite Heq. vm_compute. reflexivity.
Defined.
