(* ===== verification/Analytics.v ===== *)
(** * Analytics

    [control-plane/store/analytics.go], [metrics.go] and [counterparty.go]: the
    aggregates the console shows, computed from a copy of the store's cache.
    The sorts are not stable and start from an iteration over a map: entries
    that compare equal come in any order, which [MapIter] stands for. *)

From Stdlib Require Import SpecFloat.
From S2P Require Import Prelude Float64 Group Json Event EventStore.

(** ** Tools *)

Record ToolRisk := mkToolRisk {
  tr_Tool : string; tr_TotalCalls : Z; tr_Findings : Z; tr_Warnings : Z; tr_Blocks : Z; tr_RiskScore : spec_float
}.

Definition toolNameFromParams (params : list (string * json)) : string :=
  match obj_get "name" params with Some (JStr v) => v | _ => "" end.

(** The tool a record is filed under. *)
Definition tool_key (rec : Rec) : string :=
  match r_Event rec with
  | None => ""
  | Some ev => if m_Method (ev_Message ev) !=s "tools/call" then "" else toolNameFromParams (m_Params (ev_Message ev))
  end.

Definition bump (b : bool) (n : Z) : Z := if b then wrap64 (n + 1) else n.

Definition is_block (ev : Event) : bool := ev_Action ev ==s ActionBlock.
Definition is_warn (ev : Event) : bool := ev_Action ev ==s ActionWarn.
Definition findings_of (ev : Event) : Z := Z.of_nat (length (ev_Findings ev)).

Definition tool_add (t : ToolRisk) (rec : Rec) : ToolRisk :=
  match r_Event rec with
  | None => t
  | Some ev =>
      mkToolRisk (tr_Tool t) (bump (ev_Direction ev ==s DirectionInbound) (tr_TotalCalls t))
        (wrap64 (tr_Findings t + findings_of ev)) (bump (is_warn ev) (tr_Warnings t)) (bump (is_block ev) (tr_Blocks t))
        (tr_RiskScore t)
  end.

(** [float64(blocks)*5 + float64(warnings)*2 + float64(findings)]. *)
Definition risk_points (blocks warnings findings : Z) : spec_float :=
  f64_add (f64_add (f64_mul (f64_of blocks 0) (f64_of 5 0)) (f64_mul (f64_of warnings 0) (f64_of 2 0))) (f64_of findings 0).

Definition riskScore (t : ToolRisk) : spec_float :=
  if (tr_TotalCalls t =? 0)%Z && (tr_Findings t =? 0)%Z then f64_of 0 0
  else f64_div (risk_points (tr_Blocks t) (tr_Warnings t) (tr_Findings t))
         (if (tr_TotalCalls t =? 0)%Z then f64_of 1 0 else f64_of (tr_TotalCalls t) 0).

Definition scored (t : ToolRisk) : ToolRisk :=
  mkToolRisk (tr_Tool t) (tr_TotalCalls t) (tr_Findings t) (tr_Warnings t) (tr_Blocks t) (riskScore t).

(** The cut at [limit]; 0 is no limit. *)
Definition limited {A} (limit : Z) (out : list A) : list A :=
  if (0 <? limit)%Z && (limit <? Z.of_nat (length out))%Z then take (Z.to_nat limit) out else out.

(** Descending order of a score. *)
Definition above {A} (score : A -> spec_float) (x y : A) : bool := SFltb (score y) (score x).

Definition ranked `{MapIter} {A} (score : A -> spec_float) (limit : Z) (m : gmap string A) : list A :=
  limited limit (sort_stable (above score) (map_values m)).

Definition toolRiskFromRecords `{MapIter} (records : list Rec) (limit : Z) : list ToolRisk :=
  ranked tr_RiskScore limit (scored <$> group tool_key (fun k => mkToolRisk k 0 0 0 0 (f64_of 0 0)) tool_add records).

(** ** Counterparties *)

Record CounterpartyRisk := mkCpRisk {
  cr_Counterparty : string; cr_Events : Z; cr_Findings : Z; cr_Warnings : Z; cr_Blocks : Z; cr_RiskScore : spec_float
}.

Definition counterparty_key (rec : Rec) : string :=
  match r_Event rec with None => "" | Some ev => ev_Counterparty ev end.

Definition counterparty_add (c : CounterpartyRisk) (rec : Rec) : CounterpartyRisk :=
  match r_Event rec with
  | None => c
  | Some ev =>
      mkCpRisk (cr_Counterparty c) (wrap64 (cr_Events c + 1)) (wrap64 (cr_Findings c + findings_of ev))
        (bump (is_warn ev) (cr_Warnings c)) (bump (is_block ev) (cr_Blocks c)) (cr_RiskScore c)
  end.

Definition max1 (v : spec_float) : spec_float := if SFltb v (f64_of 1 0) then f64_of 1 0 else v.

Definition counterparty_scored (c : CounterpartyRisk) : CounterpartyRisk :=
  mkCpRisk (cr_Counterparty c) (cr_Events c) (cr_Findings c) (cr_Warnings c) (cr_Blocks c)
    (f64_div (risk_points (cr_Blocks c) (cr_Warnings c) (cr_Findings c)) (max1 (f64_of (cr_Events c) 0))).

Definition counterpartyRisksFromRecords `{MapIter} (records : list Rec) (limit : Z) : list CounterpartyRisk :=
  ranked cr_RiskScore limit
    (counterparty_scored <$> group counterparty_key (fun k => mkCpRisk k 0 0 0 0 (f64_of 0 0)) counterparty_add records).

(** ** Agent runs *)

Record AgentActivity := mkAgentActivity {
  ac_AgentRunID : string; ac_Events : Z; ac_Findings : Z; ac_Blocks : Z; ac_Severity : spec_float; ac_Categories : list string
}.

(** The three maps of the loop, as one entry: the activity, the sum of the
    severity weights, and the set of categories. *)
Record agent_acc := mkAcc { aa_events : Z; aa_findings : Z; aa_blocks : Z; aa_sevSum : spec_float; aa_cats : gset string }.

Definition agent_key (rec : Rec) : string := match r_Event rec with None => "" | Some ev => ev_AgentRunID ev end.

Definition analytics_severityWeight (s : string) : spec_float :=
  if s ==s SeverityCritical then f64_of 4 0 else if s ==s SeverityHigh then f64_of 3 0
  else if s ==s SeverityMedium then f64_of 2 0 else if s ==s SeverityLow then f64_of 1 0 else f64_of 0 0.

Definition agent_add (a : agent_acc) (rec : Rec) : agent_acc :=
  match r_Event rec with
  | None => a
  | Some ev =>
      mkAcc (wrap64 (aa_events a + 1)) (wrap64 (aa_findings a + findings_of ev)) (bump (is_block ev) (aa_blocks a))
        (f64_add (aa_sevSum a) (analytics_severityWeight (ev_Severity ev)))
        (aa_cats a ∪ list_to_set (filter (fun c => c <> "") (map f_Category (ev_Findings ev))))
  end.

Definition agent_view (e : string * agent_acc) : AgentActivity :=
  let a := e.2 in
  mkAgentActivity e.1 (aa_events a) (aa_findings a) (aa_blocks a)
    (if (0 <? aa_events a)%Z then f64_div (aa_sevSum a) (f64_of (aa_events a) 0) else f64_of 0 0)
    (sort_stable string_less (elements (aa_cats a))).

Definition agentActivityFromRecords `{MapIter} (records : list Rec) (limit : Z) : list AgentActivity :=
  limited limit (sort_stable (above ac_Severity)
    (map agent_view (map_iter (group agent_key (fun _ => mkAcc 0 0 0 (f64_of 0 0) ∅) agent_add records)))).

(** ** Categories *)

Definition tally (m : gmap string Z) (c : string) : gmap string Z := <[c := wrap64 (default 0%Z (m !! c) + 1)]> m.

Definition record_categories (rec : Rec) : list string :=
  match r_Event rec with None => [] | Some ev => map f_Category (ev_Findings ev) end.

Definition categoryCountsFromRecords `{MapIter} (records : list Rec) : list (string * Z) :=
  sort_stable (fun a b => (b.2 <? a.2)%Z) (map_iter (fold_left tally (records ≫= record_categories) ∅)).

(** ** Task concerns *)

Record TaskFindingSummary := mkTaskFinding {
  tf_TaskID : string; tf_Counterparty : string; tf_RuleID : string; tf_Description : string; tf_Seq : Z
}.

Definition task_rules : list string := ["task.invalid_transition"; "task.scope_drift"; "task.counterparty_changed"].

Definition record_concerns (rec : Rec) : list TaskFindingSummary :=
  match r_Event rec with
  | None => []
  | Some ev => map (fun f => mkTaskFinding (f_Match f) (ev_Counterparty ev) (f_RuleID f) (f_Description f) (r_Seq rec))
                 (filter (fun f => f_RuleID f ∈ task_rules) (ev_Findings ev))
  end.

(** The loop, newest first: the limit is looked at after each event, and a
    record without one is passed over. *)
Fixpoint concerns_loop (limit : Z) (out : list TaskFindingSummary) (recs : list Rec) : list TaskFindingSummary :=
  match recs with
  | [] => out
  | rec :: recs' =>
      match r_Event rec with
      | None => concerns_loop limit out recs'
      | Some _ =>
          let out := out ++ record_concerns rec in
          if (0 <? limit)%Z && (limit <=? Z.of_nat (length out))%Z then out else concerns_loop limit out recs'
      end
  end.

Definition taskConcernsFromRecords (records : list Rec) (limit : Z) : list TaskFindingSummary :=
  concerns_loop limit [] (rev records).

(** ** Rolling windows *)

(** The conversion of a float to an integer, towards zero. *)
Definition f64_trunc (x : spec_float) : Z :=
  match x with
  | S754_finite s m e => let n := if (0 <=? e)%Z then Z.shiftl (Zpos m) e else Z.shiftr (Zpos m) (- e) in if s then (- n)%Z else n
  | _ => 0%Z
  end.

Definition window_or (def d : Z) : Z := if (d <=? 0)%Z then def else d.

(** The number of cells. *)
Definition cells_of (window bucket : Z) : Z := let c := Z.quot window bucket in if (c <? 1)%Z then 1%Z else c.

(** The cell of an event. *)
Definition cell_index (now bucket cells : Z) (ev : Event) : Z :=
  wrap64 (cells - 1 - Z.quot (time_Sub now (ev_Timestamp ev)) bucket).

Definition in_cells (idx cells : Z) : bool := (0 <=? idx)%Z && (idx <? cells)%Z.

Definition bump_at (idx : Z) (l : list Z) : list Z := alter (fun n => wrap64 (n + 1)) (Z.to_nat idx) l.

(** The events of the window. *)
Definition in_window (now window : Z) (rec : Rec) : option Event :=
  match r_Event rec with
  | Some ev => if time_Before (ev_Timestamp ev) (time_Add now (- window)) then None else Some ev
  | None => None
  end.

Record Histogram := mkHistogram {
  hi_WindowSeconds : Z; hi_BucketSeconds : Z; hi_Allow : list Z; hi_Warn : list Z; hi_Block : list Z
}.

Definition histogram_add (now bucket cells : Z) (h : Histogram) (ev : Event) : Histogram :=
  let idx := cell_index now bucket cells ev in
  if negb (in_cells idx cells) then h
  else mkHistogram (hi_WindowSeconds h) (hi_BucketSeconds h)
         (if ev_Action ev ==s ActionAllow then bump_at idx (hi_Allow h) else hi_Allow h)
         (if is_warn ev then bump_at idx (hi_Warn h) else hi_Warn h)
         (if is_block ev then bump_at idx (hi_Block h) else hi_Block h).

(** [mem] is the longest slice the runtime can allocate; [None] is its panic. *)
Definition histogramFromRecords (mem now : Z) (records : list Rec) (window bucket : Z) : option Histogram :=
  let window := window_or (5 * Minute)%Z window in
  let bucket := window_or (10 * Second)%Z bucket in
  let cells := cells_of window bucket in
  if (mem <? cells)%Z then None
  else
    let zeros := replicate (Z.to_nat cells) 0%Z in
    Some (fold_left (histogram_add now bucket cells) (omap (in_window now window) records)
            (mkHistogram (f64_trunc (Seconds window)) (f64_trunc (Seconds bucket)) zeros zeros zeros)).

Record Metrics := mkMetrics {
  me_WindowSeconds : Z; me_BucketSeconds : Z; me_Total : Z; me_Allowed : Z; me_Warned : Z; me_Blocked : Z; me_Findings : Z;
  me_peers : gset string; me_runs : gset string; me_Sparkline : list Z
}.

Definition metrics_add (now bucket cells : Z) (m : Metrics) (ev : Event) : Metrics :=
  let idx := cell_index now bucket cells ev in
  mkMetrics (me_WindowSeconds m) (me_BucketSeconds m) (wrap64 (me_Total m + 1))
    (bump (ev_Action ev ==s ActionAllow) (me_Allowed m)) (bump (is_warn ev) (me_Warned m)) (bump (is_block ev) (me_Blocked m))
    (wrap64 (me_Findings m + findings_of ev))
    (if ev_Counterparty ev ==s "" then me_peers m else {[ev_Counterparty ev]} ∪ me_peers m)
    (if ev_AgentRunID ev ==s "" then me_runs m else {[ev_AgentRunID ev]} ∪ me_runs m)
    (if in_cells idx cells then bump_at idx (me_Sparkline m) else me_Sparkline m).

Definition me_UniquePeers (m : Metrics) : nat := size (me_peers m).
Definition me_UniqueRuns (m : Metrics) : nat := size (me_runs m).

Definition metricsFromRecords (mem now : Z) (records : list Rec) (window bucket : Z) : option Metrics :=
  let window := window_or (5 * Minute)%Z window in
  let bucket := window_or (10 * Second)%Z bucket in
  let cells := cells_of window bucket in
  if (mem <? cells)%Z then None
  else Some (fold_left (metrics_add now bucket cells) (omap (in_window now window) records)
               (mkMetrics (f64_trunc (Seconds window)) (f64_trunc (Seconds bucket)) 0 0 0 0 0 ∅ ∅ (replicate (Z.to_nat cells) 0%Z))).

(** ** Counting *)

Definition count (P : Rec -> bool) (recs : list Rec) : Z := sumZ (map (fun r => if P r then 1 else 0)%Z recs).

Definition total_findings (recs : list Rec) : Z :=
  sumZ (map (fun r => match r_Event r with Some ev => findings_of ev | None => 0 end)%Z recs).

Definition event_is (P : Event -> bool) (r : Rec) : bool := match r_Event r with Some ev => P ev | None => false end.

(** The numbers involved are exact as floats. *)
Definition small (recs : list Rec) : Prop := (Z.of_nat (length recs) + total_findings recs < 2 ^ 53)%Z.

Lemma count_bounds P recs : (0 <= count P recs <= Z.of_nat (length recs))%Z.
Proof. unfold count, sumZ. induction recs as [|r recs IH]; [done|]. cbn [map foldr length]. destruct (P r); lia. Qed.

Lemma total_findings_nonneg recs : (0 <= total_findings recs)%Z.
Proof.
  unfold total_findings, sumZ. induction recs as [|r recs IH]; [done|]. cbn [map foldr].
  unfold findings_of in *. destruct (r_Event r); lia.
Qed.

Lemma members_weight key k recs :
  (Z.of_nat (length (members key k recs)) + total_findings (members key k recs) <= Z.of_nat (length recs) + total_findings recs)%Z.
Proof.
  unfold members, total_findings, sumZ. induction recs as [|r recs IH]; [done|]. rewrite filter_cons.
  assert (0 <= match r_Event r with Some ev => findings_of ev | None => 0 end)%Z by (unfold findings_of; destruct (r_Event r); lia).
  case_decide; cbn [map foldr length]; lia.
Qed.

Lemma small_members key k recs : small recs -> small (members key k recs).
Proof. unfold small. pose proof (members_weight key k recs). lia. Qed.

Lemma count_snoc P recs r : count P (recs ++ [r]) = (count P recs + if P r then 1 else 0)%Z.
Proof. unfold count. rewrite map_app. apply sumZ_snoc. Qed.

Lemma total_findings_snoc recs r :
  total_findings (recs ++ [r]) = (total_findings recs + match r_Event r with Some ev => findings_of ev | None => 0 end)%Z.
Proof. unfold total_findings. rewrite map_app. apply sumZ_snoc. Qed.

Lemma small_snoc recs r : small (recs ++ [r]) -> small recs.
Proof.
  unfold small. rewrite total_findings_snoc, length_app. cbn [length]. unfold findings_of. destruct (r_Event r); lia.
Qed.

Lemma wrap_small z : (0 <= z < 2 ^ 53)%Z -> wrap64 z = z.
Proof. intros ?. apply wrap64_in_range. unfold in_int64, min_int64, max_int64. lia. Qed.

Lemma bump_count P recs r n : small (recs ++ [r]) -> n = count P recs -> bump (P r) n = count P (recs ++ [r]).
Proof.
  intros Hs ->. rewrite count_snoc. unfold bump. destruct (P r); [|lia]. apply small_snoc in Hs.
  pose proof (count_bounds P recs). pose proof (total_findings_nonneg recs). unfold small in Hs. apply wrap64_in_range. unfold in_int64, min_int64, max_int64. lia.
Qed.

Lemma findings_count recs r ev n : small (recs ++ [r]) -> r_Event r = Some ev -> n = total_findings recs ->
  wrap64 (n + findings_of ev) = total_findings (recs ++ [r]).
Proof.
  intros Hs Hr ->. unfold small in Hs. rewrite total_findings_snoc, Hr in *. pose proof (total_findings_nonneg recs). apply wrap_small.
  unfold findings_of in *. rewrite length_app in Hs. cbn [length] in Hs. lia.
Qed.

(** ** Ranking *)

Lemma risk_points_counting b w f : (0 <= b)%Z -> (0 <= w)%Z -> (0 <= f)%Z -> counting (risk_points b w f) = true.
Proof.
  intros. unfold risk_points.
  assert (exists m e, f64_of 5 0 = S754_finite false m e) as (m5 & e5 & ->) by (apply f64_of_finite; lia).
  assert (exists m e, f64_of 2 0 = S754_finite false m e) as (m2 & e2 & ->) by (apply f64_of_finite; lia).
  repeat apply f64_add_counting; [..|by apply f64_of_counting]; apply f64_mul_counting; by apply f64_of_counting.
Qed.

Lemma insert_stable_ext {A} (f g : A -> A -> bool) x l : (forall y, y ∈ l -> f y x = g y x) ->
  insert_stable f x l = insert_stable g x l.
Proof.
  induction l as [|y l IH]; intros Hfg; [done|]. cbn. rewrite Hfg by (apply elem_of_cons; by left).
  destruct (g y x); [|done]. f_equal. apply IH. intros z Hz. apply Hfg, elem_of_cons. by right.
Qed.

Lemma sort_stable_ext {A} (f g : A -> A -> bool) l : (forall x y, x ∈ l -> y ∈ l -> f x y = g x y) ->
  sort_stable f l = sort_stable g l.
Proof.
  induction l as [|x l IH]; intros Hfg; [done|].
  change (insert_stable f x (sort_stable f l) = insert_stable g x (sort_stable g l)). rewrite IH.
  - apply insert_stable_ext. intros y Hy%elem_of_sort_stable. apply Hfg; apply elem_of_cons; [by right|by left].
  - intros y z Hy Hz. apply Hfg; apply elem_of_cons; by right.
Qed.

(** Sorting by a score that is a number everywhere puts the highest first. *)
Lemma ranked_sorted {A} (score : A -> spec_float) (l : list A) : (forall x, x ∈ l -> is_nan (score x) = false) ->
  StronglySorted (fun a b => SFltb (score a) (score b) = false) (sort_stable (above score) l).
Proof.
  intros Hn. set (sc := fun x => if is_nan (score x) then f64_of 0 0 else score x).
  assert (forall x, is_nan (sc x) = false) as Hsc by (intros x; unfold sc; by destruct (is_nan (score x)) eqn:E).
  assert (forall x, x ∈ l -> sc x = score x) as Heq by (intros x Hx; unfold sc; by rewrite Hn).
  rewrite (sort_stable_ext _ (above sc)) by (intros x y Hx Hy; unfold above; by rewrite !Heq).
  pose proof (sort_stable_sorted (above sc)) as Hs.
  specialize (Hs (fun x y => SFltb_asym _ _) (fun x y z H1 H2 => SFltb_cotrans _ _ _ (Hsc z) (Hsc y) (Hsc x) H2 H1) l).
  assert (forall x, x ∈ sort_stable (above sc) l -> x ∈ l) as Hin by (intros x; by rewrite elem_of_sort_stable).
  induction Hs as [|x l' Hs IH Hx]; [constructor|]. constructor; [apply IH; intros; apply Hin, elem_of_cons; by right|].
  rewrite Forall_forall in Hx |- *. intros y Hy. specialize (Hx y Hy). unfold above in Hx.
  by rewrite !Heq in Hx by (apply Hin, elem_of_cons; auto).
Qed.

Lemma limited_prefix {A} limit (l : list A) : exists rest, l = limited limit l ++ rest /\
  (rest <> [] -> Z.of_nat (length (limited limit l)) = limit).
Proof.
  unfold limited. destruct (_ && _) eqn:E; [|exists []; by rewrite app_nil_r].
  apply andb_true_iff in E as [E1 E2]. breflect. exists (drop (Z.to_nat limit) l). split; [by rewrite take_drop|].
  intros _. rewrite length_take. lia.
Qed.

(** ** The reports *)

Definition fresh_tool (k : string) : ToolRisk := mkToolRisk k 0 0 0 0 (f64_of 0 0).

(** The counters of a tool, from the records filed under it. *)
Definition tool_counts (k : string) (recs : list Rec) : ToolRisk :=
  mkToolRisk k (count (event_is (fun ev => ev_Direction ev ==s DirectionInbound)) recs) (total_findings recs)
    (count (event_is is_warn) recs) (count (event_is is_block) recs) (f64_of 0 0).

Lemma tool_fold k recs : small recs -> fold_left tool_add recs (fresh_tool k) = tool_counts k recs.
Proof.
  induction recs as [|r recs IH] using rev_ind; intros Hs; [done|].
  rewrite fold_left_app. cbn [fold_left]. rewrite IH by (by eapply small_snoc). unfold tool_add, tool_counts.
  destruct (r_Event r) as [ev|] eqn:Er; cbn [tr_Tool tr_TotalCalls tr_Findings tr_Warnings tr_Blocks tr_RiskScore].
  - f_equal.
    + pose proof (bump_count (event_is (fun ev => ev_Direction ev ==s DirectionInbound)) recs r _ Hs eq_refl) as <-.
      unfold event_is. by rewrite Er.
    + by apply findings_count.
    + pose proof (bump_count (event_is is_warn) recs r _ Hs eq_refl) as <-. unfold event_is. by rewrite Er.
    + pose proof (bump_count (event_is is_block) recs r _ Hs eq_refl) as <-. unfold event_is. by rewrite Er.
  - rewrite !count_snoc, total_findings_snoc. unfold event_is. rewrite Er. f_equal; lia.
Qed.

Lemma riskScore_number k recs : small recs -> is_nan (riskScore (tool_counts k recs)) = false.
Proof.
  intros Hs. apply counting_nan. unfold riskScore, tool_counts. cbn [tr_TotalCalls tr_Findings tr_Warnings tr_Blocks].
  destruct (_ && _); [done|]. pose proof (total_findings_nonneg recs).
  pose proof (fun P => count_bounds P recs) as Hb. unfold small in Hs.
  assert (counting (risk_points (count (event_is is_block) recs) (count (event_is is_warn) recs) (total_findings recs)) = true) as Hp
    by (apply risk_points_counting; [apply Hb..|done]).
  pose proof (Hb (event_is (fun ev => ev_Direction ev ==s DirectionInbound))) as Hn. revert Hn.
  generalize (count (event_is (fun ev => ev_Direction ev ==s DirectionInbound)) recs) as n. intros n Hn.
  destruct (n =? 0)%Z eqn:E; breflect.
  - destruct (f64_of_finite 1 ltac:(lia)) as (m & e & ->). by apply f64_div_counting.
  - destruct (f64_of_finite n ltac:(lia)) as (m & e & ->). by apply f64_div_counting.
Qed.

(** The tool report says what the log holds: one line for each tool named
    in a [tools/call], with the numbers of inbound calls, findings, warnings
    and blocks of exactly the records that name it; the lines come in
    descending order of the risk score, and a limit keeps the first ones. *)
Theorem toolRisk_spec `{MapIter} recs limit : small recs ->
  let out := toolRiskFromRecords recs 0 in
  (forall t, t ∈ out <-> exists k, k <> "" /\ (exists r, r ∈ recs /\ tool_key r = k) /\
     t = scored (tool_counts k (members tool_key k recs))) /\
  NoDup (map tr_Tool out) /\
  StronglySorted (fun a b => SFltb (tr_RiskScore a) (tr_RiskScore b) = false) out /\
  exists rest, out = toolRiskFromRecords recs limit ++ rest /\
    (rest <> [] -> Z.of_nat (length (toolRiskFromRecords recs limit)) = limit).
Proof.
  intros Hs. cbn zeta. unfold toolRiskFromRecords, ranked. fold fresh_tool.
  set (m := scored <$> group tool_key fresh_tool tool_add recs).
  change (limited 0 (sort_stable (above tr_RiskScore) (map_values m))) with (sort_stable (above tr_RiskScore) (map_values m)).
  assert (forall t, t ∈ map_values m <-> exists k, k <> "" /\ (exists r, r ∈ recs /\ tool_key r = k) /\
     t = scored (tool_counts k (members tool_key k recs))) as Hin.
  { intros t. rewrite elem_of_map_values. unfold m. split.
    - intros (k & Hk). rewrite lookup_fmap in Hk. destruct (group _ _ _ recs !! k) as [e|] eqn:Eg; [|done]. injection Hk as <-.
      apply group_Some in Eg as (Hk & Hr & ->). exists k. by rewrite tool_fold by (by apply small_members).
    - intros (k & Hk & Hr & ->). exists k. rewrite lookup_fmap. rewrite (proj2 (group_Some tool_key fresh_tool tool_add recs k _) (conj Hk (conj Hr eq_refl))).
      cbn. by rewrite tool_fold by (by apply small_members). }
  split_and!.
  - intros t. by rewrite elem_of_sort_stable.
  - rewrite (sort_stable_perm (above tr_RiskScore)). unfold map_values. rewrite map_iter_perm.
    assert (map tr_Tool (map snd (map_to_list m)) = map fst (map_to_list m)) as ->.
    { rewrite map_map. apply map_ext_in. intros [k t] Hkt%list_elem_of_In%elem_of_map_to_list. cbn. unfold m in Hkt.
      rewrite lookup_fmap in Hkt. destruct (group _ _ _ recs !! k) as [e|] eqn:Eg; [|done]. injection Hkt as <-.
      apply group_Some in Eg as (Hk & Hr & ->). by rewrite tool_fold by (by apply small_members). }
    apply NoDup_fst_map_to_list.
  - apply ranked_sorted. intros t (k & Hk & _ & ->)%Hin. by apply riskScore_number, small_members.
  - destruct (limited_prefix limit (sort_stable (above tr_RiskScore) (map_values m))) as (rest & E & Hl). by exists rest.
Qed.

(** *** Windows *)

(** The three columns of the histogram add up to the sparkline, cell by cell. *)
Record agree (cells : Z) (h : Histogram) (m : Metrics) : Prop := {
  ag_len : length (hi_Allow h) = Z.to_nat cells /\ length (hi_Warn h) = Z.to_nat cells /\
           length (hi_Block h) = Z.to_nat cells /\ length (me_Sparkline m) = Z.to_nat cells;
  ag_cell : forall i, (i < Z.to_nat cells)%nat -> me_Sparkline m !!! i = wrap64 (hi_Allow h !!! i + hi_Warn h !!! i + hi_Block h !!! i);
  ag_total : me_Total m = wrap64 (me_Allowed m + me_Warned m + me_Blocked m)
}.

Definition judged (ev : Event) : Prop := ev_Action ev = ActionAllow \/ ev_Action ev = ActionWarn \/ ev_Action ev = ActionBlock.

Lemma bump_at_length i l : length (bump_at i l) = length l.
Proof. apply length_alter. Qed.

Lemma bump_at_lookup i j l : (Z.to_nat i < length l)%nat ->
  bump_at i l !!! j = if decide (j = Z.to_nat i) then wrap64 (l !!! j + 1) else l !!! j.
Proof.
  intros Hi. unfold bump_at. case_decide as Hj; [subst; by rewrite list_lookup_total_alter_eq|by rewrite list_lookup_total_alter_ne by done].
Qed.

Lemma wrap64_add_r a b : wrap64 (a + wrap64 b) = wrap64 (a + b).
Proof. by rewrite Z.add_comm, wrap64_add_l, Z.add_comm. Qed.

Lemma wrap_sum3 a b c : wrap64 (wrap64 (a + b + c) + 1) = wrap64 (a + b + c + 1).
Proof. apply wrap64_add_l. Qed.

Lemma windows_step now bucket cells h m ev : judged ev -> agree cells h m ->
  agree cells (histogram_add now bucket cells h ev) (metrics_add now bucket cells m ev).
Proof.
  intros Hj [(La & Lw & Lb & Ls) Hc Ht].
  unfold histogram_add, metrics_add. set (idx := cell_index now bucket cells ev).
  assert (forall a w b, ([ev_Action ev ==s ActionAllow; is_warn ev; is_block ev] = [a; w; b]) ->
    (a = true /\ w = false /\ b = false) \/ (a = false /\ w = true /\ b = false) \/ (a = false /\ w = false /\ b = true)) as Hone.
  { intros a w b [= <- <- <-]. unfold is_warn, is_block. destruct Hj as [->|[->| ->]]; auto. }
  specialize (Hone _ _ _ eq_refl). unfold bump. split; cbn [hi_Allow hi_Warn hi_Block me_Sparkline me_Total me_Allowed me_Warned me_Blocked].
  - destruct (in_cells idx cells); cbn [negb hi_Allow hi_Warn hi_Block]; repeat case_match; rewrite ?bump_at_length; done.
  - intros j Hlt. specialize (Hc j Hlt). destruct (in_cells idx cells) eqn:Ei; cbn [negb hi_Allow hi_Warn hi_Block]; [|done].
    apply andb_true_iff in Ei as [E1 E2]. breflect. rewrite bump_at_lookup, Hc by lia.
    destruct Hone as [(-> & -> & ->)|[(-> & -> & ->)|(-> & -> & ->)]]; rewrite bump_at_lookup by lia;
      (case_decide; [|done]); rewrite wrap_sum3; [rewrite <- !Z.add_assoc, wrap64_add_l| |rewrite wrap64_add_r]; [f_equal; lia| |f_equal; lia].
    rewrite <- (Z.add_assoc _ (wrap64 _)), (Z.add_comm (wrap64 _)), Z.add_assoc, wrap64_add_r. f_equal. lia.
  - rewrite Ht, wrap_sum3. destruct Hone as [(-> & -> & ->)|[(-> & -> & ->)|(-> & -> & ->)]];
      [rewrite <- !Z.add_assoc, wrap64_add_l| |rewrite wrap64_add_r]; [f_equal; lia| |f_equal; lia].
    rewrite <- (Z.add_assoc _ (wrap64 _)), (Z.add_comm (wrap64 _)), Z.add_assoc, wrap64_add_r. f_equal. lia.
Qed.

(** The two window reports agree: for the same window, bucket and moment
    the allowed, warned and blocked bars of the histogram add up, cell by cell,
    to the sparkline, there is one cell for each full bucket of the window, and
    the total is the sum of its parts. *)
Theorem windows_agree mem now recs window bucket h m :
  (forall r ev, r ∈ recs -> r_Event r = Some ev -> judged ev) ->
  histogramFromRecords mem now recs window bucket = Some h -> metricsFromRecords mem now recs window bucket = Some m ->
  agree (cells_of (window_or (5 * Minute)%Z window) (window_or (10 * Second)%Z bucket)) h m /\
  hi_WindowSeconds h = me_WindowSeconds m /\ hi_BucketSeconds h = me_BucketSeconds m.
Proof.
  intros Hj. unfold histogramFromRecords, metricsFromRecords. set (cells := cells_of _ _). destruct (mem <? cells)%Z; [done|].
  intros [= <-] [= <-]. set (evs := omap _ recs).
  assert (Forall judged evs) as Hevs.
  { apply Forall_forall. intros ev (r & Hr & He)%list_elem_of_omap. unfold in_window in He.
    destruct (r_Event r) as [ev'|] eqn:Er; [|done]. destruct (time_Before _ _); [done|]. injection He as <-. by eapply Hj. }
  set (w := window_or _ window). set (b := window_or _ bucket) in *.
  assert (forall evs, Forall judged evs -> forall h0 m0, agree cells h0 m0 -> hi_WindowSeconds h0 = me_WindowSeconds m0 ->
    hi_BucketSeconds h0 = me_BucketSeconds m0 ->
    let h := fold_left (histogram_add now b cells) evs h0 in let m := fold_left (metrics_add now b cells) evs m0 in
    agree cells h m /\ hi_WindowSeconds h = me_WindowSeconds m /\ hi_BucketSeconds h = me_BucketSeconds m) as Hind.
  { clear. induction 1 as [|ev evs Hev _ IH]; intros h0 m0 Ha E1 E2; [done|]. cbn [fold_left].
    apply IH; [by apply windows_step|unfold histogram_add; by destruct (in_cells _ _)..]. }
  apply Hind; [done| |done..]. split; cbn; [by rewrite length_replicate| |done].
  intros i Hi. by rewrite lookup_total_replicate_2.
Qed.

(** The size of the reports is the caller's: a window of 292 years in buckets of
    a nanosecond asks for more cells than any memory holds. *)
Theorem cells_unbounded mem now recs : (mem < max_int64)%Z -> histogramFromRecords mem now recs max_int64 1 = None.
Proof. intros Hm. unfold histogramFromRecords. cbn -[Z.ltb]. by rewrite (proj2 (Z.ltb_lt _ _)). Qed.

(** ** Witnesses *)

#[local] Existing Instance canonical_iter.

Definition sample_finding : Finding := mkFinding "r1" "tool-poisoning" SeverityHigh "" "" "" "0" [].
Definition sample_call (ts : Z) (tool dir action : string) : Rec :=
  mkRec 1 ts "" "" (Some (mkEvent SchemaVersion "e1" ts "s1" "acme" "run" "" ProtocolMCP dir "" ""
    (mkMessage "" "tools/call" [("name", JStr tool)] [] [] "") (if action ==s ActionAllow then [] else [sample_finding]) action SeverityInfo 0)).
Definition sample_calls : list Rec :=
  [sample_call 100 "shell" "inbound" "block"; sample_call 200 "clock" "inbound" "allow"; sample_call 300 "shell" "outbound" "warn"].

Lemma toolRisk_spec_witness :
  scored (tool_counts "shell" (members tool_key "shell" sample_calls)) ∈ toolRiskFromRecords sample_calls 0 /\
  map tr_Tool (toolRiskFromRecords sample_calls 1) = ["shell"].
Proof.
  split; [|vm_compute; reflexivity]. apply (toolRisk_spec sample_calls 1); [vm_compute; reflexivity|].
  exists "shell". split_and!; [discriminate| |reflexivity].
  exists (sample_call 100 "shell" "inbound" "block"). split; [left|reflexivity].
Defined.

Definition sample_histogram : Histogram :=
  match histogramFromRecords 100 400 sample_calls 400 100 with Some h => h | None => mkHistogram 0 0 [] [] [] end.
Definition sample_metrics : Metrics :=
  match metricsFromRecords 100 400 sample_calls 400 100 with Some m => m | None => mkMetrics 0 0 0 0 0 0 0 ∅ ∅ [] end.

Lemma windows_agree_witness : agree 4 sample_histogram sample_metrics /\ me_Sparkline sample_metrics = [1; 1; 1; 0]%Z.
Proof.
  split; [|vm_compute; reflexivity].
  apply (windows_agree 100 400 sample_calls 400 100); [|vm_compute; reflexivity..].
  intros r ev Hr. unfold judged. repeat (apply elem_of_cons in Hr as [->|Hr]; [intros [= <-]; cbn; auto|]). by apply elem_of_nil in Hr.
Defined.
