(* ===== verification/Emitter.v ===== *)
(** * The event emitter and its spool

    [internal/emitter/emitter.go] and [internal/emitter/spool.go]: the bounded
    queue between the proxies and a sink, the worker that empties it, the sinks,
    and the file that holds events while the control plane is away.  Emitting,
    taking an event off the queue, finishing its delivery and a tick of the
    replay loop are the steps of an interleaving.  Counters are [uint64].  What
    the network and the file system answer is an argument of each step; a file
    operation that fails changes nothing, except where noted. *)

From S2P Require Import Prelude Utf8 Json Event EventStore.

(** ** The spool *)

Record Spool := mkSpool { sp_path : string; sp_max : Z; sp_lines : list line }.

Definition NewSpool (path : string) (maxSize : Z) (file : option (list line)) : result Spool string :=
  if path ==s "" then Err "spool: empty path"
  else match file with
       | None => Err "spool: open"
       | Some ls => Ok (mkSpool path (if (maxSize <=? 0)%Z then 64 * 1024 * 1024 else maxSize)%Z ls)
       end.

Definition set_lines (ls : list line) (s : Spool) : Spool := mkSpool (sp_path s) (sp_max s) ls.

(** The size of the file. *)
Definition spool_size (s : Spool) : Z := sumZ (map (fun l => Z.of_N (line_len l) + 1)%Z (sp_lines s)).

(** [Append]: the spool, and whether there was an error. *)
Definition spool_Append (stat_ok write_ok : bool) (ev : Event) (s : Spool) : Spool * bool :=
  if negb (event_marshals (Some ev)) then (s, true)
  else if negb stat_ok then (s, true)
  else if (sp_max s <? spool_size s + Z.of_N (line_len (LJson (event_json ev))) + 1)%Z then (s, true)
  else if negb write_ok then (s, true)
  else (set_lines (sp_lines s ++ [LJson (event_json ev)]) s, false).

(** The scanner's 8 MiB token limit. *)
Definition spool_max_line : N := 8388608.

Definition line_event (l : line) : option Event :=
  match l with LJson v => event_of_json (wire v) | _ => None end.

(** The scan of [Drain]: the events [fn] consumed, the lines to keep, and
    whether the scan ended without error; [n] counts the calls of [fn]. *)
Fixpoint drain_scan (fn : nat -> Event -> bool) (n : nat) (stopped : bool) (ls : list line) : list Event * list line * bool :=
  match ls with
  | [] => ([], [], true)
  | l :: ls' =>
      if (spool_max_line <=? line_len l)%N then ([], [], false)
      else match l with
      | LEmpty => drain_scan fn n stopped ls'
      | _ =>
          if stopped then let '(done, keep, ok) := drain_scan fn n stopped ls' in (done, l :: keep, ok)
          else match line_event l with
          | None => drain_scan fn n stopped ls'
          | Some ev =>
              if fn n ev then let '(done, keep, ok) := drain_scan fn (S n) false ls' in (ev :: done, keep, ok)
              else let '(done, keep, ok) := drain_scan fn (S n) true ls' in (done, l :: keep, ok)
          end
      end
  end.

(** The outcomes of the file operations: seek, truncate, seek again, and how
    many of the lines are written back. *)
Record DrainIO := mkDrainIO { di_seek : bool; di_truncate : bool; di_seek2 : bool; di_writes : nat }.

(** [Drain]: the spool and the events consumed. *)
Definition Drain (io : DrainIO) (fn : nat -> Event -> bool) (s : Spool) : Spool * list Event :=
  if negb (di_seek io) then (s, [])
  else let '(done, keep, ok) := drain_scan fn 0 false (sp_lines s) in
  if negb ok then (s, done)
  else if negb (di_truncate io) then (s, done)
  else if negb (di_seek2 io) then (set_lines [] s, done)
  else (set_lines (take (di_writes io) keep) s, done).

(** ** Sinks *)

(** What an attempt meets: the status of the control plane's answer, and the
    outcomes of the file operations. *)
Record DeliverIO := mkDeliverIO { do_status : option Z; do_stat : bool; do_write : bool }.

(** [Sink]: what the worker asks of a destination, which returns its state and
    whether it failed.  [holds] is the promise: an event that was delivered
    without error is with the destination, and is not forgotten while later
    events are delivered. *)
Class Sink (S : Type) := {
  Deliver : bool -> DeliverIO -> Event -> S -> S * bool;
  holds : S -> Event -> Prop;
  Deliver_holds canceled io ev s : (Deliver canceled io ev s).2 = false -> holds (Deliver canceled io ev s).1 ev;
  Deliver_keeps canceled io ev ev' s : holds s ev' -> holds (Deliver canceled io ev s).1 ev'
}.

(** [StdoutSink] and [FileSink]: the lines written. *)
Definition writer_Deliver (io : DeliverIO) (ev : Event) (out : list Event) : list Event * bool :=
  if negb (event_marshals (Some ev)) then (out, true)
  else if negb (do_write io) then (out, true)
  else (out ++ [ev], false).

(** [HTTPSink]; [hs_accepted] records the events the control plane has
    accepted, which the code does not store. *)
Record HTTPSink := mkHTTPSink { hs_url : string; hs_token : string; hs_spool : option Spool; hs_accepted : list Event }.

Definition NewHTTPSinkWithOptions (url token spoolPath : string) (spoolMax : Z) (file : option (list line))
    : result HTTPSink string :=
  if spoolPath !=s "" then
    match NewSpool spoolPath spoolMax file with
    | Err e => Err e
    | Ok sp => Ok (mkHTTPSink url token (Some sp) [])
    end
  else Ok (mkHTTPSink url token None []).

(** [post]: whether it failed; a canceled context fails the exchange. *)
Definition post (canceled : bool) (status : option Z) (ev : Event) : bool :=
  negb (event_marshals (Some ev)) || canceled ||
  match status with None => true | Some code => (300 <=? code)%Z end.

Definition http_Deliver (canceled : bool) (io : DeliverIO) (ev : Event) (s : HTTPSink) : HTTPSink * bool :=
  if post canceled (do_status io) ev then
    match hs_spool s with
    | None => (s, true)
    | Some sp =>
        let '(sp', failed) := spool_Append (do_stat io) (do_write io) ev sp in
        (mkHTTPSink (hs_url s) (hs_token s) (Some sp') (hs_accepted s), failed)
    end
  else (mkHTTPSink (hs_url s) (hs_token s) (hs_spool s) (hs_accepted s ++ [ev]), false).

(** A tick of [runReplay]; [statuses] are the answers of the control plane. *)
Definition replay_tick (io : DrainIO) (statuses : nat -> option Z) (s : HTTPSink) : HTTPSink :=
  match hs_spool s with
  | None => s
  | Some sp =>
      let '(sp', done) := Drain io (fun n ev => negb (post false (statuses n) ev)) sp in
      mkHTTPSink (hs_url s) (hs_token s) (Some sp') (hs_accepted s ++ done)
  end.

(** ** The emitter *)

(** [em_busy] is the event the worker has taken; [em_canceled] says that its
    context is canceled, [em_closed] that the channel is closed. *)
Record Emitter (S : Type) := mkEmitter {
  em_queue : list (option Event); em_cap : nat; em_busy : option Event; em_dropped : Z; em_delivered : Z;
  em_canceled : bool; em_closed : bool; em_sink : S
}.
Arguments mkEmitter {S}.
Arguments em_queue {S}. Arguments em_cap {S}. Arguments em_busy {S}. Arguments em_dropped {S}.
Arguments em_delivered {S}. Arguments em_canceled {S}. Arguments em_closed {S}. Arguments em_sink {S}.

Definition u64 (z : Z) : Z := (z mod 2 ^ 64)%Z.

Inductive em_op (S : Type) :=
| OpEmit (ev : option Event)          (* Emit; nil is a value of the type *)
| OpTake                              (* the worker receives *)
| OpFinish (io : DeliverIO)           (* Deliver returns *)
| OpSink (f : S -> S)                 (* the sink's own goroutine *)
| OpCancel                            (* the two halves of Close *)
| OpCloseQueue.
Arguments OpEmit {S}. Arguments OpTake {S}. Arguments OpFinish {S}. Arguments OpSink {S}.
Arguments OpCancel {S}. Arguments OpCloseQueue {S}.

Section emitter.
Context {S : Type} `{Sink S}.

Definition emitter_New (sink : S) (bufferSize : Z) : Emitter S :=
  mkEmitter [] (Z.to_nat (if (bufferSize <=? 0)%Z then 1024 else bufferSize)) None 0 0 false false sink.

Definition emitter_Stats (e : Emitter S) : Z * Z := (em_delivered e, em_dropped e).

(** [Emit]; sending on the closed channel panics. *)
Definition Emit (ev : option Event) (e : Emitter S) : option (Emitter S) :=
  if em_closed e then None
  else if (length (em_queue e) <? em_cap e)%nat
  then Some (mkEmitter (em_queue e ++ [ev]) (em_cap e) (em_busy e) (em_dropped e) (em_delivered e) (em_canceled e) (em_closed e) (em_sink e))
  else Some (mkEmitter (em_queue e) (em_cap e) (em_busy e) (u64 (em_dropped e + 1)) (em_delivered e) (em_canceled e) (em_closed e) (em_sink e)).

(** The worker: it receives when idle, skips nil, and counts the outcome. *)
Definition worker_take (e : Emitter S) : option (Emitter S) :=
  match em_busy e, em_queue e with
  | None, ev :: q => Some (mkEmitter q (em_cap e) ev (em_dropped e) (em_delivered e) (em_canceled e) (em_closed e) (em_sink e))
  | _, _ => None
  end.

Definition worker_finish (io : DeliverIO) (e : Emitter S) : option (Emitter S) :=
  match em_busy e with
  | None => None
  | Some ev =>
      let '(sink, failed) := Deliver (em_canceled e) io ev (em_sink e) in
      Some (mkEmitter (em_queue e) (em_cap e) None (if failed then u64 (em_dropped e + 1) else em_dropped e)
              (if failed then em_delivered e else u64 (em_delivered e + 1)) (em_canceled e) (em_closed e) sink)
  end.

(** [None]: the step is not enabled, or panics. *)
Definition em_step (op : em_op S) (e : Emitter S) : option (Emitter S) :=
  match op with
  | OpEmit ev => Emit ev e
  | OpTake => worker_take e
  | OpFinish io => worker_finish io e
  | OpSink f => Some (mkEmitter (em_queue e) (em_cap e) (em_busy e) (em_dropped e) (em_delivered e) (em_canceled e) (em_closed e) (f (em_sink e)))
  | OpCancel => Some (mkEmitter (em_queue e) (em_cap e) (em_busy e) (em_dropped e) (em_delivered e) true (em_closed e) (em_sink e))
  | OpCloseQueue => Some (mkEmitter (em_queue e) (em_cap e) (em_busy e) (em_dropped e) (em_delivered e) (em_canceled e) true (em_sink e))
  end.

Fixpoint em_run (ops : list (em_op S)) (e : Emitter S) : option (Emitter S) :=
  match ops with
  | [] => Some e
  | op :: ops' => em_step op e ≫= em_run ops'
  end.
End emitter.

(** ** The sinks keep the promise *)

#[export, refine] Instance writer_sink : Sink (list Event) :=
  {| Deliver canceled io ev out := writer_Deliver io ev out; holds out ev := ev ∈ out |}.
Proof.
  - intros _ io ev out. unfold writer_Deliver. destruct (negb _); [done|]. destruct (negb _); [done|].
    intros _. apply elem_of_app. right. by apply list_elem_of_singleton.
  - intros _ io ev ev' out. unfold writer_Deliver. destruct (negb _); [done|]. destruct (negb _); [done|].
    intros ?. apply elem_of_app. by left.
Defined.

(** The event is in the file. *)
Definition spooled (ev : Event) (sp : Spool) : Prop := LJson (event_json ev) ∈ sp_lines sp.

Lemma spool_Append_spec st wr ev sp :
  ((spool_Append st wr ev sp).2 = false -> spooled ev (spool_Append st wr ev sp).1) /\
  (forall ev', spooled ev' sp -> spooled ev' (spool_Append st wr ev sp).1).
Proof.
  unfold spool_Append, spooled. repeat (case_match; [cbn; split; [done|by intros]|]). cbn. split.
  - intros _. apply elem_of_app. right. by apply list_elem_of_singleton.
  - intros ev' ?. apply elem_of_app. by left.
Qed.

#[export, refine] Instance http_sink : Sink HTTPSink :=
  {| Deliver := http_Deliver;
     holds s ev := ev ∈ hs_accepted s \/ exists sp, hs_spool s = Some sp /\ spooled ev sp |}.
Proof.
  - intros c io ev s. unfold http_Deliver. destruct (post _ _ _).
    + destruct (hs_spool s) as [sp|]; [|done]. destruct (spool_Append_spec (do_stat io) (do_write io) ev sp) as [Ha _].
      destruct (spool_Append _ _ _ _) as [sp' failed]. cbn in *. intros Hf. right. exists sp'. split; [done|by apply Ha].
    + cbn. intros _. left. apply elem_of_app. right. by apply list_elem_of_singleton.
  - intros c io ev ev' s. unfold http_Deliver. destruct (post _ _ _).
    + destruct (hs_spool s) as [sp|] eqn:E; [|cbn; intros [?|(? & ? & _)]; [by left|done]].
      destruct (spool_Append_spec (do_stat io) (do_write io) ev sp) as [_ Ha].
      destruct (spool_Append _ _ _ _) as [sp' failed]. cbn in *.
      intros [?|(sp0 & [= <-] & ?)]; [by left|right]. exists sp'. split; [done|by apply Ha].
    + cbn. intros [?|?]; [left; apply elem_of_app; by left|by right].
Defined.

(** ** Draining *)

(** An event that is read back as it was written. *)
Definition faithful (ev : Event) : Prop := event_of_json (wire (event_json ev)) = Some ev.

Lemma faithful_event ev : event_ok ev -> event_canonical ev = true -> faithful ev.
Proof. intros Hok Hc. unfold faithful. by rewrite event_reload, wire_event_canonical. Qed.

(** No event of the file is lost by a scan: it is consumed or kept. *)
Lemma drain_scan_keeps fn n st ls ev : faithful ev -> LJson (event_json ev) ∈ ls ->
  let '(done, keep, ok) := drain_scan fn n st ls in ok = true -> ev ∈ done \/ LJson (event_json ev) ∈ keep.
Proof.
  intros Hf. revert n st. induction ls as [|l ls IH]; intros n st Hin; [by apply elem_of_nil in Hin|].
  cbn [drain_scan]. destruct (_ <=? _)%N; [done|].
  apply elem_of_cons in Hin as [<-|Hin].
  - destruct st.
    + destruct (drain_scan fn n true ls) as [[dn keep] ok]. intros _. right. apply elem_of_cons. by left.
    + cbn [line_event]. rewrite Hf. destruct (fn n ev).
      * destruct (drain_scan fn (S n) false ls) as [[dn keep] ok]. intros _. left. apply elem_of_cons. by left.
      * destruct (drain_scan fn (S n) true ls) as [[dn keep] ok]. intros _. right. apply elem_of_cons. by left.
  - assert (forall m st', let '(dn, keep, ok) := drain_scan fn m st' ls in ok = true -> ev ∈ dn \/ LJson (event_json ev) ∈ keep) as IH'
      by (intros; by apply IH).
    destruct l as [|k|v]; [apply IH'|..]; (destruct st; [specialize (IH' n true); destruct (drain_scan fn n true ls) as [[dn keep] ok];
      intros Hok; destruct (IH' Hok); [by left|right; apply elem_of_cons; by right]|]); [apply IH'|].
    destruct (line_event (LJson v)) as [ev'|]; [|apply IH']. destruct (fn n ev').
    + specialize (IH' (S n) false). destruct (drain_scan fn (S n) false ls) as [[dn keep] ok]. intros Hok.
      destruct (IH' Hok); [left; apply elem_of_cons; by right|by right].
    + specialize (IH' (S n) true). destruct (drain_scan fn (S n) true ls) as [[dn keep] ok]. intros Hok.
      destruct (IH' Hok); [by left|right; apply elem_of_cons; by right].
Qed.

(** The file operations succeed. *)
Definition drain_io_ok (io : DrainIO) (s : HTTPSink) : Prop :=
  di_seek2 io = true /\ forall sp, hs_spool s = Some sp -> (length (sp_lines sp) <= di_writes io)%nat.

Lemma drain_scan_length fn n st ls : (length (drain_scan fn n st ls).1.2 <= length ls)%nat.
Proof.
  revert n st. induction ls as [|l ls IH]; intros n st; [done|]. cbn [drain_scan length].
  destruct (_ <=? _)%N; [cbn; lia|].
  pose proof (IH n st). pose proof (IH n true). pose proof (IH (S n) false). pose proof (IH (S n) true).
  destruct l as [|k|v]; [lia|..]; destruct st; try lia.
  all: try (destruct (drain_scan fn n true ls) as [[? ?] ?]; cbn in *; lia).
  destruct (line_event (LJson v)); [|lia]. destruct (fn n e).
  - destruct (drain_scan fn (S n) false ls) as [[? ?] ?]. cbn in *. lia.
  - destruct (drain_scan fn (S n) true ls) as [[? ?] ?]. cbn in *. lia.
Qed.

Lemma replay_tick_keeps io statuses s ev : faithful ev -> drain_io_ok io s ->
  holds s ev -> holds (replay_tick io statuses s) ev.
Proof.
  intros Hf [Hs2 Hw] Hh. unfold replay_tick. destruct (hs_spool s) as [sp|] eqn:Es; [|done].
  unfold Drain. destruct (negb (di_seek io)).
  { destruct Hh as [?|(sp0 & E & ?)]; [by left; apply elem_of_app; left|]. rewrite Es in E. injection E as <-. right. by exists sp. }
  set (fn := fun n ev => negb (post false (statuses n) ev)).
  pose proof (drain_scan_keeps fn 0 false (sp_lines sp) ev Hf) as Hk.
  pose proof (drain_scan_length fn 0 false (sp_lines sp)) as Hl.
  destruct (drain_scan fn 0 false (sp_lines sp)) as [[dn keep] ok]. cbn [fst snd] in Hl.
  specialize (Hw sp eq_refl). rewrite Hs2. cbn [negb].
  destruct Hh as [Ha|(sp0 & E & Hsp)]; [|rewrite Es in E; injection E as <-].
  { assert (ev ∈ hs_accepted s ++ dn) by (apply elem_of_app; by left).
    destruct ok; [destruct (di_truncate io)|]; cbn; by left. }
  destruct ok; cbn [negb]; [|cbn; right; by exists sp].
  destruct (di_truncate io); cbn [negb]; [|cbn; right; by exists sp].
  cbn. destruct (Hk Hsp eq_refl) as [?|?]; [left; apply elem_of_app; by right|right].
  eexists. split; [done|]. unfold spooled. cbn. by rewrite take_ge by lia.
Qed.

(** ** Runs *)

Section runs.
Context {S : Type} `{Sink S}.

(** The event has not been forgotten. *)
Definition kept (e : Emitter S) (ev : Event) : Prop :=
  Some ev ∈ em_queue e \/ em_busy e = Some ev \/ holds (em_sink e) ev.

(** The sink's own goroutine forgets nothing. *)
Definition op_safe (op : em_op S) : Prop :=
  match op with OpSink f => forall s ev, faithful ev -> holds s ev -> holds (f s) ev | _ => True end.

Lemma em_step_keeps op e e1 d : em_step op e = Some e1 -> op_safe op -> em_dropped e = u64 d ->
  exists d1, (d <= d1 <= d + 1)%Z /\ em_dropped e1 = u64 d1 /\
    (d1 = d -> forall ev, faithful ev -> kept e ev \/ op = OpEmit (Some ev) -> kept e1 ev).
Proof.
  assert (u64 (u64 d + 1) = u64 (d + 1)) as Hmod by (unfold u64; by rewrite Zplus_mod_idemp_l).
  intros Hstep Hsafe Hd. destruct op as [ev0| |io|f| |]; cbn in Hstep.
  - unfold Emit in Hstep. destruct (em_closed e); [done|]. destruct (_ <? _)%nat; injection Hstep as <-.
    + exists d. split_and!; [lia|lia|done|]. intros _ ev _ [[Hq|[Hb|Hh]]|[= ->]].
      * left. cbn. apply elem_of_app. by left.
      * right. by left.
      * right. by right.
      * left. cbn. apply elem_of_app. right. by apply list_elem_of_singleton.
    + exists (d + 1)%Z. split_and!; [lia|lia|cbn; by rewrite Hd, Hmod|intros ?; lia].
  - unfold worker_take in Hstep. destruct (em_busy e) eqn:Eb; [done|]. destruct (em_queue e) as [|x q] eqn:Eq; [done|].
    injection Hstep as <-. exists d. split_and!; [lia|lia|done|]. intros _ ev _ [[Hq|[Hb|Hh]]|?]; [| |by right; right|done].
    + rewrite Eq in Hq. apply elem_of_cons in Hq as [<-|Hq]; [right; by left|by left].
    + congruence.
  - unfold worker_finish in Hstep. destruct (em_busy e) as [ev0|] eqn:Eb; [|done].
    pose proof (Deliver_holds (em_canceled e) io ev0 (em_sink e)) as Hdel.
    pose proof (fun ev' => Deliver_keeps (em_canceled e) io ev0 ev' (em_sink e)) as Hkeep.
    destruct (Deliver _ _ _ _) as [sink failed]. cbn in *. injection Hstep as <-. destruct failed.
    + exists (d + 1)%Z. split_and!; [lia|lia|cbn; by rewrite Hd, Hmod|intros ?; lia].
    + exists d. split_and!; [lia|lia|done|]. intros _ ev _ [[Hq|[Hb|Hh]]|?]; [by left| |right; right; by apply Hkeep|done].
      rewrite Eb in Hb. injection Hb as <-. right. right. by apply Hdel.
  - injection Hstep as <-. exists d. split_and!; [lia|lia|done|]. intros _ ev Hf [[?|[?|?]]|?]; [by left|right; by left| |done].
    right. right. by apply Hsafe.
  - injection Hstep as <-. exists d. split_and!; [lia|lia|done|]. by intros _ ev _ [?|?].
  - injection Hstep as <-. exists d. split_and!; [lia|lia|done|]. by intros _ ev _ [?|?].
Qed.

Lemma em_run_keeps ops e e' d : em_run ops e = Some e' -> Forall op_safe ops -> em_dropped e = u64 d ->
  exists d', (d <= d' <= d + Z.of_nat (length ops))%Z /\ em_dropped e' = u64 d' /\
    (d' = d -> forall ev, faithful ev -> kept e ev \/ OpEmit (Some ev) ∈ ops -> kept e' ev).
Proof.
  revert e d. induction ops as [|op ops IH]; intros e d Hrun Hsafe Hd.
  { injection Hrun as <-. exists d. split_and!; [lia|cbn; lia|done|]. by intros _ ev _ [?|?%elem_of_nil]. }
  cbn in Hrun. destruct (em_step op e) as [e1|] eqn:Es; [|done]. cbn in Hrun. inversion Hsafe; subst.
  destruct (em_step_keeps op e e1 d) as (d1 & Hd1 & E1 & K1); [done..|].
  destruct (IH e1 d1) as (d2 & Hd2 & E2 & K2); [done..|]. exists d2. cbn [length]. split_and!; [lia|lia|done|].
  intros -> ev Hf Hk. apply K2; [lia|done|]. destruct Hk as [Hk|[<-|Hin]%elem_of_cons].
  - left. apply K1; [lia|done|by left].
  - left. apply K1; [lia|done|right; reflexivity].
  - by right.
Qed.

(** Nothing is lost in silence: whatever a sink that keeps its promise does,
    and however emitting, delivering, replaying and closing interleave, an
    event that was emitted is still waiting, or with the destination, as long
    as the counter of drops shows none. *)
Theorem no_silent_loss sink n ops e ev :
  em_run ops (emitter_New sink n) = Some e -> Forall op_safe ops -> (Z.of_nat (length ops) < 2 ^ 64)%Z ->
  faithful ev -> OpEmit (Some ev) ∈ ops -> em_dropped e = 0%Z ->
  kept e ev.
Proof.
  intros Hrun Hsafe Hlen Hf Hin H0. destruct (em_run_keeps ops _ e 0 Hrun Hsafe) as (d' & Hd & E & K); [done|].
  apply K; [|done|by right]. rewrite H0 in E. unfold u64 in E. rewrite Z.mod_small in E by lia. done.
Qed.

(** *** Counting *)

Definition pending (e : Emitter S) : Z :=
  (sumZ (map (fun x => match x with Some _ => 1 | None => 0 end) (em_queue e)) + match em_busy e with Some _ => 1 | None => 0 end)%Z.

Definition emits (ops : list (em_op S)) : Z :=
  sumZ (map (fun op => match op with OpEmit _ => 1 | _ => 0 end) ops)%Z.

Definition no_nil (op : em_op S) : Prop := op <> OpEmit None.

(** The counters account for every event: at any moment the events
    delivered, the events dropped and the events still pending add up, as
    64-bit integers, to the events emitted. *)
Theorem counters_account sink n ops e :
  em_run ops (emitter_New sink n) = Some e -> Forall no_nil ops ->
  u64 ((emitter_Stats e).1 + (emitter_Stats e).2 + pending e) = u64 (emits ops).
Proof.
  intros Hrun Hn. unfold emitter_Stats. cbn [fst snd].
  enough (forall ops e0 e, em_run ops e0 = Some e -> Forall no_nil ops ->
    u64 (em_delivered e + em_dropped e + pending e) = u64 (em_delivered e0 + em_dropped e0 + pending e0 + emits ops)) as Hg
    by exact (Hg ops _ e Hrun Hn).
  clear. induction ops as [|op ops IH]; intros e0 e Hrun Hn.
  { injection Hrun as <-. f_equal. cbn. lia. }
  cbn in Hrun. destruct (em_step op e0) as [e1|] eqn:Es; [|done]. cbn in Hrun. inversion Hn as [|? ? Hn0 Hn1]; subst.
  rewrite (IH e1 e) by done.
  change (emits (op :: ops)) with ((match op with OpEmit _ => 1 | _ => 0 end) + emits ops)%Z.
  generalize (emits ops) as k. intros k.
  assert (forall a b, u64 (u64 a + b) = u64 (a + b)) as Hm by (intros; unfold u64; by rewrite Zplus_mod_idemp_l).
  destruct op as [ev0| |io|f| |]; cbn in Es.
  - destruct ev0 as [ev0|]; [|done]. unfold Emit in Es. destruct (em_closed e0); [done|].
    destruct (_ <? _)%nat; injection Es as <-; unfold pending; cbn [em_delivered em_dropped em_queue em_busy].
    + rewrite map_app, (Permutation_app_comm (map _ (em_queue e0))). unfold sumZ at 1. cbn. f_equal; unfold sumZ; lia.
    + rewrite (Z.add_comm (em_delivered e0)), <- !Z.add_assoc, Hm. f_equal; unfold sumZ; lia.
  - unfold worker_take in Es. destruct (em_busy e0) eqn:Eb; [done|]. destruct (em_queue e0) as [|x q] eqn:Eq; [done|].
    injection Es as <-. unfold pending. cbn. rewrite Eb, Eq. f_equal. unfold sumZ. cbn. destruct x; lia.
  - unfold worker_finish in Es. destruct (em_busy e0) as [ev0|] eqn:Eb; [|done].
    destruct (Deliver _ _ _ _) as [sk failed]. injection Es as <-. unfold pending. cbn. rewrite Eb. destruct failed.
    + rewrite (Z.add_comm (em_delivered e0)), <- !Z.add_assoc, Hm. f_equal; unfold sumZ; lia.
    + rewrite <- !Z.add_assoc, Hm. f_equal; unfold sumZ; lia.
  - injection Es as <-. unfold pending. cbn. f_equal; unfold sumZ; lia.
  - injection Es as <-. unfold pending. cbn. f_equal; unfold sumZ; lia.
  - injection Es as <-. unfold pending. cbn. f_equal; unfold sumZ; lia.
Qed.

(** *** Closing *)

(** A step of the worker. *)
Definition worker_op (op : em_op S) : bool := match op with OpTake | OpFinish _ => true | _ => false end.

Definition work_left (e : Emitter S) : nat := (2 * length (em_queue e) + match em_busy e with Some _ => 1 | None => 0 end)%nat.

(** C37. Closing terminates: with nothing emitted any more, the worker stops
    after at most two steps for each event, it can take a step as long as an
    event is left, and when it cannot, the queue is empty and nothing is in
    flight. *)
Theorem close_terminates (e e' : Emitter S) ops :
  em_run ops e = Some e' -> Forall (fun op => worker_op op = true) ops ->
  (length ops + work_left e' <= work_left e)%nat /\
  ((forall io, em_step OpTake e' = None /\ em_step (OpFinish io) e' = None) <-> em_queue e' = [] /\ em_busy e' = None).
Proof.
  intros Hrun Hw. split.
  - revert e Hrun. induction Hw as [|op ops Hop _ IH]; intros e Hrun; [injection Hrun as <-; done|].
    cbn in Hrun. destruct (em_step op e) as [e1|] eqn:Es; [|done]. cbn in Hrun. specialize (IH e1 Hrun).
    enough (1 + work_left e1 <= work_left e)%nat by (cbn [length]; lia). unfold work_left. destruct op; try done; cbn in Es.
    + unfold worker_take in Es. destruct (em_busy e) eqn:Eb; [done|]. destruct (em_queue e) as [|x q] eqn:Eq; [done|].
      injection Es as <-. cbn. destruct x; lia.
    + unfold worker_finish in Es. destruct (em_busy e) as [ev0|] eqn:Eb; [|done].
      destruct (Deliver _ _ _ _) as [sk failed]. injection Es as <-. cbn. lia.
  - unfold em_step, worker_take, worker_finish. destruct (em_busy e') as [ev|].
    + split; [|by intros [_ ?]]. intros Hno. destruct (Hno (mkDeliverIO None false false)) as [_ Hf].
      by destruct (Deliver _ _ _ _).
    + destruct (em_queue e'); [by split|]. split; [|by intros [? _]]. intros Hno.
      by destruct (Hno (mkDeliverIO None false false)).
Qed.
End runs.

(** ** The spool and the HTTP sink *)

Definition short (l : line) : Prop := (line_len l < spool_max_line)%N.

Lemma drain_stopped fn n ls : Forall short ls -> Forall (fun l => l <> LEmpty) ls ->
  drain_scan fn n true ls = ([], ls, true).
Proof.
  intros Hs. induction Hs as [|l ls Hl _ IH]; intros Hne; [done|]. inversion Hne as [|? ? Hl' Hls]; subst. cbn [drain_scan].
  unfold short in Hl. rewrite (proj2 (N.leb_gt _ _)) by done. rewrite IH by done. by destruct l.
Qed.

Lemma drain_events fn n evs : Forall faithful evs -> Forall short (map (fun ev => LJson (event_json ev)) evs) ->
  exists k, drain_scan fn n false (map (fun ev => LJson (event_json ev)) evs)
              = (take k evs, map (fun ev => LJson (event_json ev)) (drop k evs), true) /\
    (k <= length evs)%nat /\
    (forall i ev, evs !! i = Some ev -> (i < k -> fn (n + i)%nat ev = true)%nat /\ (i = k -> fn (n + i)%nat ev = false)).
Proof.
  intros Hf. revert n. induction Hf as [|ev evs Hev Hevs IH]; intros n Hs; [by exists 0%nat; split_and!|].
  cbn [map] in Hs. inversion Hs as [|? ? Hl Hls]; subst. cbn [map drain_scan].
  unfold short in Hl. rewrite (proj2 (N.leb_gt _ _)) by done. cbn [line_event]. rewrite Hev. destruct (fn n ev) eqn:Efn.
  - destruct (IH (S n) Hls) as (k & -> & Hk & Hi). exists (S k). cbn [take drop length]. split_and!; [done|lia|].
    intros [|i] ev0; cbn; [intros [= <-]; rewrite Nat.add_0_r; by split|].
    intros Hlk. destruct (Hi i ev0 Hlk) as [H1 H2]. rewrite Nat.add_succ_r. split; intros ?; [apply H1; lia|apply H2; lia].
  - rewrite drain_stopped; [|done|by apply Forall_map, Forall_true].
    exists 0%nat. split_and!; [done|cbn; lia|]. intros i ev0 Hlk. split; [lia|]. intros ->. injection Hlk as <-. by rewrite Nat.add_0_r.
Qed.

(** The spool is drained in the order of arrival and nothing is skipped:
    the events given to the control plane are the longest prefix it accepts,
    the first one it refuses is offered once and not passed over, and exactly
    the events after that prefix stay in the file, for a later attempt. *)
Theorem Drain_in_order io fn s evs :
  sp_lines s = map (fun ev => LJson (event_json ev)) evs ->
  Forall faithful evs -> Forall short (sp_lines s) ->
  di_seek io = true -> di_truncate io = true -> di_seek2 io = true -> (length evs <= di_writes io)%nat ->
  exists k, Drain io fn s = (set_lines (map (fun ev => LJson (event_json ev)) (drop k evs)) s, take k evs) /\
    (forall i ev, evs !! i = Some ev -> (i < k -> fn i ev = true)%nat /\ (i = k -> fn i ev = false)).
Proof.
  intros Hl Hf Hs E1 E2 E3 Hw. rewrite Hl in Hs. destruct (drain_events fn 0 evs Hf Hs) as (k & Ed & Hk & Hi).
  exists k. split; [|done]. unfold Drain. rewrite E1, E2, E3, Hl, Ed. cbn [negb].
  by rewrite take_ge by (rewrite length_map, length_drop; lia).
Qed.

(** A line of 8 MiB stops every drain at the same place: the events before it
    are posted each time, and the file never shrinks. *)
Theorem oversized_line_repeats io fn s pre l post_ :
  sp_lines s = pre ++ l :: post_ -> (spool_max_line <= line_len l)%N -> (Drain io fn s).1 = s.
Proof.
  intros Hl Hlen. unfold Drain. destruct (di_seek io); [|done].
  enough (forall n st, (drain_scan fn n st (sp_lines s)).2 = false) as Hk.
  { specialize (Hk 0%nat false). cbn [negb]. by destruct (drain_scan _ _ _ _) as [[done_ keep] ok]; cbn in Hk; subst. }
  rewrite Hl. clear Hl. induction pre as [|x pre IH]; intros n st; cbn [app drain_scan].
  - by rewrite (proj2 (N.leb_le _ _)).
  - destruct (_ <=? _)%N; [done|].
    pose proof (IH n st). pose proof (IH n true). pose proof (IH (S n) false). pose proof (IH (S n) true).
    destruct x as [|k|v]; [done|..]; (destruct st; [by destruct (drain_scan fn n true _) as [[? ?] ?]|]); [done|].
    destruct (line_event (LJson v)) as [ev|]; [|done].
    destruct (fn n ev); [by destruct (drain_scan fn (S n) false _) as [[? ?] ?]|by destruct (drain_scan fn (S n) true _) as [[? ?] ?]].
Qed.

(** Once its context is canceled, as [Close] does first, the worker posts
    nothing: what is still queued goes to the spool, or is dropped. *)
Theorem close_posts_nothing (e e' : Emitter HTTPSink) ops :
  em_canceled e = true -> em_run ops e = Some e' -> Forall (fun op => worker_op op = true) ops ->
  hs_accepted (em_sink e') = hs_accepted (em_sink e).
Proof.
  intros Hc Hrun Hw. revert e Hc Hrun. induction Hw as [|op ops Hop _ IH]; intros e Hc Hrun; [by injection Hrun as <-|].
  cbn in Hrun. destruct (em_step op e) as [e1|] eqn:Es; [|done]. cbn in Hrun.
  enough (em_canceled e1 = true /\ hs_accepted (em_sink e1) = hs_accepted (em_sink e)) as [Hc1 <-] by by apply IH.
  destruct op; try done; cbn in Es.
  - unfold worker_take in Es. destruct (em_busy e); [done|]. destruct (em_queue e); [done|]. by injection Es as <-.
  - unfold worker_finish in Es. destruct (em_busy e) as [ev|]; [|done]. cbn [Deliver http_sink] in Es.
    unfold http_Deliver, post in Es. rewrite Hc, orb_true_r in Es. cbn [orb] in Es.
    destruct (hs_spool (em_sink e)) as [sp|]; [|by injection Es as <-].
    destruct (spool_Append _ _ _ _) as [sp' failed]. by injection Es as <-.
Qed.

(** ** Witnesses *)

(** A sink with a spool, a control plane that refuses the first event. *)
Definition sample_sink : HTTPSink := mkHTTPSink "http://cp" "" (Some (mkSpool "spool" 100000 [])) [].
Definition sample_deliver : DeliverIO := mkDeliverIO (Some 503%Z) true true.
Definition sample_run : list (em_op HTTPSink) :=
  [OpEmit (Some (sample_event "acme" "a")); OpEmit (Some (sample_event "acme" "b")); OpTake; OpFinish sample_deliver;
   OpCancel; OpCloseQueue; OpTake; OpFinish (mkDeliverIO None true true)].

Lemma sample_faithful_a : faithful (sample_event "acme" "a").
Proof. vm_compute. reflexivity. Qed.
Lemma sample_faithful_b : faithful (sample_event "acme" "b").
Proof. vm_compute. reflexivity. Qed.

Definition sample_final : Emitter HTTPSink :=
  mkEmitter [] 1024 None 0 2 true true
    (mkHTTPSink "http://cp" "" (Some (mkSpool "spool" 100000
       [LJson (event_json (sample_event "acme" "a")); LJson (event_json (sample_event "acme" "b"))])) []).

Lemma no_silent_loss_witness : kept sample_final (sample_event "acme" "b").
Proof.
  apply (no_silent_loss sample_sink 0 sample_run);
    [reflexivity|repeat constructor|reflexivity|exact sample_faithful_b|right; left|reflexivity].
Defined.

Lemma counters_account_witness :
  u64 ((emitter_Stats sample_final).1 + (emitter_Stats sample_final).2 + pending sample_final) = u64 (emits sample_run).
Proof. apply (counters_account sample_sink 0 sample_run); [reflexivity|repeat (constructor; [done|]); constructor]. Defined.

Definition sample_closing : Emitter HTTPSink :=
  mkEmitter [Some (sample_event "acme" "a"); None] 1024 None 0 0 true true sample_sink.

Lemma close_terminates_witness :
  (3 + work_left (mkEmitter [] 1024 None 0 1 true true
      (mkHTTPSink "http://cp" "" (Some (mkSpool "spool" 100000 [LJson (event_json (sample_event "acme" "a"))])) []))
    <= work_left sample_closing)%nat.
Proof. apply (close_terminates sample_closing _ [OpTake; OpFinish sample_deliver; OpTake]); [reflexivity|repeat constructor]. Defined.

Definition sample_spool : Spool :=
  mkSpool "spool" 100000 [LJson (event_json (sample_event "acme" "a")); LJson (event_json (sample_event "acme" "b"))].

Lemma Drain_in_order_witness :
  exists k, Drain (mkDrainIO true true true 2) (fun n _ => (n <? 1)%nat) sample_spool
    = (set_lines (map (fun ev => LJson (event_json ev)) (drop k [sample_event "acme" "a"; sample_event "acme" "b"])) sample_spool,
       take k [sample_event "acme" "a"; sample_event "acme" "b"]) /\
    (forall i ev, [sample_event "acme" "a"; sample_event "acme" "b"] !! i = Some ev ->
       (i < k -> (i <? 1)%nat = true)%nat /\ (i = k -> (i <? 1)%nat = false)).
Proof.
  apply (Drain_in_order (mkDrainIO true true true 2) (fun n _ => (n <? 1)%nat));
    [reflexivity|constructor; [exact sample_faithful_a|constructor; [exact sample_faithful_b|constructor]]| |reflexivity..|cbn; lia].
  repeat constructor; vm_compute; reflexivity.
Defined.
