(* ===== verification/PolicyApi.v ===== *)
(** * Policies and sensors over HTTP

    [control-plane/api/policies.go] (the policy handlers, the audit listener,
    the preview), [sensors.go] (heartbeats and the fleet view) and the event
    half of [api.go] (ingest and the subscriber hub).  A handler takes the
    decoded body ([None] when decoding fails) and the request with the scope
    that [auth] attached, and returns the new server and the response.  One
    request reads the clock once. *)

From S2P Require Import Prelude Sha256 Utf8 Rfc3339 Json Event Policy PolicyStore EventStore.
From S2P Require Import PolicyClient Roles Tokens Users Server.

(** ** State *)

Record SensorHeartbeat := mkHeartbeat {
  hb_SensorID : string;
  hb_TenantID : string;
  hb_Hostname : string;
  hb_BinaryVersion : string;
  hb_PolicyVersion : Z;
  hb_ContentVersion : string;
  hb_StartedAt : Z;
  hb_LastSeenAt : Z;
  hb_EventsForwarded : Z;
  hb_FindingsObserved : Z
}.

(** The parts of [Server] these handlers use.  A subscriber of the hub is the
    content of its channel. *)
Record Api := mkApi {
  ap_creds : Credentials;
  ap_policies : option PolicyStore;
  ap_log : Store;
  ap_hub : list (list Rec);
  ap_sensors : option (gmap string SensorHeartbeat);
  ap_content : string
}.

Definition set_policies (ps : PolicyStore) (s : Api) : Api :=
  mkApi (ap_creds s) (Some ps) (ap_log s) (ap_hub s) (ap_sensors s) (ap_content s).
Definition set_creds (c : Credentials) (s : Api) : Api :=
  mkApi c (ap_policies s) (ap_log s) (ap_hub s) (ap_sensors s) (ap_content s).
Definition set_fleet (f : option (gmap string SensorHeartbeat)) (s : Api) : Api :=
  mkApi (ap_creds s) (ap_policies s) (ap_log s) (ap_hub s) f (ap_content s).

(** ** The hub *)

(** [broadcast]: a channel holds 64 records; a full one drops. *)
Definition hub_capacity : nat := 64.
Definition broadcast (rec : Rec) (subs : list (list Rec)) : list (list Rec) :=
  map (fun q => if (length q <? hub_capacity)%nat then q ++ [rec] else q) subs.

(** Append to the log and, when that succeeds, tell the subscribers. *)
Definition append_and_broadcast (now : Z) (io : append_io) (ev : Event) (s : Api) : Api * result Rec store_err :=
  match Append now io ev (ap_log s) with
  | (log', Ok rec) =>
      (mkApi (ap_creds s) (ap_policies s) log' (broadcast rec (ap_hub s)) (ap_sensors s) (ap_content s), Ok rec)
  | (log', Err e) =>
      (mkApi (ap_creds s) (ap_policies s) log' (ap_hub s) (ap_sensors s) (ap_content s), Err e)
  end.

(** ** The audit listener *)

Definition displayActor (a : string) : string := if a ==s "" then "unknown" else a.

(** The metadata map of the audit finding; Marshal prints its keys sorted. *)
Definition change_metadata (c : policy_change) : list (string * json) :=
  let p := ch_policy c in
  [ ("actor", JStr (displayActor (ch_actor c)));
    ("disposition", disposition_json (p_Disposition p));
    ("policy_id", JStr (p_ID p));
    ("policy_version", JNum (dec_string (p_Version p)));
    ("scope", scope_json (p_Scope p)) ].

Definition change_event (now : Z) (c : policy_change) : Event :=
  let p := ch_policy c in
  let description := "policy " +:+ quoted (p_Name p) +:+ " (" +:+ p_ID p +:+ ") " +:+ ch_op c
                     +:+ "d by " +:+ displayActor (ch_actor c) in
  let finding := mkFinding ("policy.audit." +:+ ch_op c) "policy_audit" SeverityInfo description "" "" "0"
                   (change_metadata c) in
  mkEvent SchemaVersion ("policy-" +:+ p_ID p +:+ "-v" +:+ dec_string (p_Version p)) now "control-plane"
    (sc_TenantID (p_Scope p)) "" "" "policy" "change" "" "" no_message [finding] ActionAllow SeverityInfo 0.

(** [OnPolicyChange] for the listener calls of one mutation. *)
Definition OnPolicyChange (now : Z) (io : append_io) (s : Api) (c : policy_change) : Api :=
  (append_and_broadcast now io (change_event now c) s).1.

(** ** Responses *)

Inductive payload :=
| PError
| PPolicies (ps : list Policy) (version : Z)
| PPolicy (p : Policy)
| PDeleted (id : string)
| PPreview (considered matched monitor warn block none : Z)
| PIngested (seq : Z) (hash : string)
| PAck (policyVersion : Z) (contentVersion : string).

Record response := mkResp { rs_code : Z; rs_body : payload }.
Definition fail (code : Z) : response := mkResp code PError.

(** ** The policy handlers *)

(** [actorFor] *)
Definition actorFor (r : request) : string :=
  match rq_scope r with
  | Some t => "tenant:" +:+ t
  | None => if HasPrefix (rq_Authorization r) "Bearer " then "admin" else "anonymous"
  end.

(** The policy belongs to the tenant a request is limited to. *)
Definition visible (t : string) (p : Policy) : bool := (t ==s "") || (sc_TenantID (p_Scope p) ==s t).

Definition set_scope_tenant (t : string) (p : Policy) : Policy :=
  if t ==s "" then p
  else mkPolicy (p_ID p) (p_Name p) (p_Description p) (p_Version p) (p_Enabled p)
         (mkScope t (sc_SensorID (p_Scope p)) (sc_ServerName (p_Scope p))) (p_Selector p) (p_Disposition p)
         (p_CreatedAt p) (p_UpdatedAt p) (p_CreatedBy p) (p_UpdatedBy p).
Definition set_ID (id : string) (p : Policy) : Policy :=
  mkPolicy id (p_Name p) (p_Description p) (p_Version p) (p_Enabled p) (p_Scope p) (p_Selector p)
    (p_Disposition p) (p_CreatedAt p) (p_UpdatedAt p) (p_CreatedBy p) (p_UpdatedBy p).

(** Outcomes of the writes a request makes. *)
Record request_io := mkIO { io_policies : persist_outcome; io_log : append_io; io_tokens : bool }.

Section iteration.
Context `{MapIter}.

Definition listPolicies (r : request) (ps : PolicyStore) : response :=
  mkResp 200 (PPolicies (filter (fun p => visible (tenantFor r) p) (PolicyStore.Snapshot ps)) (Version ps)).

Definition getPolicy (r : request) (id : string) (ps : PolicyStore) : response :=
  match policy_Get ps id with
  | None => fail 404
  | Some p => if visible (tenantFor r) p then mkResp 200 (PPolicy p) else fail 404
  end.

(** A put through the API: the store, then the listener, then the response. *)
Definition api_put (now : Z) (io : request_io) (p : Policy) (r : request) (ps : PolicyStore) (code : Z) (s : Api)
    : Api * response :=
  let '(ps', res, changes) := Put now (io_policies io) p (actorFor r) ps in
  let s' := fold_left (OnPolicyChange now (io_log io)) changes (set_policies ps' s) in
  match res with
  | Err _ => (s', fail 400)
  | Ok stored => (s', mkResp code (PPolicy stored))
  end.

Definition createPolicy (now : Z) (io : request_io) (newID : string) (r : request) (body : option Policy)
    (ps : PolicyStore) (s : Api) : Api * response :=
  match body with
  | None => (s, fail 400)
  | Some p =>
    let p := if p_ID p ==s "" then set_ID newID p else p in
    api_put now io (set_scope_tenant (tenantFor r) p) r ps 201 s
  end.

Definition updatePolicy (now : Z) (io : request_io) (r : request) (id : string) (body : option Policy)
    (ps : PolicyStore) (s : Api) : Api * response :=
  match policy_Get ps id with
  | None => (s, fail 404)
  | Some existing =>
    if negb (visible (tenantFor r) existing) then (s, fail 404)
    else match body with
    | None => (s, fail 400)
    | Some patch => api_put now io (set_scope_tenant (tenantFor r) (set_ID (p_ID existing) patch)) r ps 200 s
    end
  end.

Definition deletePolicy (now : Z) (io : request_io) (r : request) (id : string) (ps : PolicyStore) (s : Api)
    : Api * response :=
  match policy_Get ps id with
  | None => (s, fail 404)
  | Some existing =>
    if negb (visible (tenantFor r) existing) then (s, fail 404)
    else
      let '(ps', res, changes) := Delete (io_policies io) id (actorFor r) ps in
      let s' := fold_left (OnPolicyChange now (io_log io)) changes (set_policies ps' s) in
      (s', match res with Err _ => fail 500 | Ok _ => mkResp 200 (PDeleted id) end)
  end.

Definition active_filter (t : string) (p : Policy) : bool :=
  p_Enabled p && negb ((t !=s "") && (sc_TenantID (p_Scope p) !=s "") && (sc_TenantID (p_Scope p) !=s t)).

Definition activePolicies (r : request) (ps : PolicyStore) : response :=
  mkResp 200 (PPolicies (filter (fun p => active_filter (tenantFor r) p) (PolicyStore.Snapshot ps)) (Version ps)).

(** *** Preview *)

Definition serverNameFor (ev : Event) : string :=
  if ev_Destination ev !=s "" then ev_Destination ev else ev_Source ev.

(** The disposition one record counts under, [None] for a record without an
    event; the flag says that it matched. *)
Definition preview_one (candidate : Policy) (rec : Rec) : option (bool * string) :=
  match r_Event rec with
  | None => None
  | Some ev =>
    let ctx := mkContext (ev_TenantID ev) (ev_SensorID ev) (serverNameFor ev) (m_Method (ev_Message ev)) in
    if negb (scope_Matches (p_Scope candidate) ctx) then Some (false, "none")
    else if negb (MatchesAny (p_Selector candidate) ctx (ev_Findings ev)) then Some (false, "none")
    else
      let mode := d_Mode (p_Disposition candidate) in
      Some (true, if contains ["block"; "warn"; "monitor"] mode then mode else "none")
  end.

Definition previewAgainstRecords (candidate : Policy) (recs : list Rec) : payload :=
  let outcomes := omap (preview_one candidate) recs in
  let count k := Z.of_nat (length (filter (fun o => o.2 = k) outcomes)) in
  PPreview (Z.of_nat (length recs)) (Z.of_nat (length (filter (fun o => o.1 = true) outcomes)))
    (count "monitor") (count "warn") (count "block") (count "none").

(** The body of a preview: an override and a limit.  [None] for the response
    is the nil dereference of [Read]. *)
Definition previewPolicy (r : request) (id : string) (body : option (option Policy * Z))
    (ps : PolicyStore) (s : Api) : option response :=
  if rq_Method r !=s "POST" then Some (fail 405)
  else match policy_Get ps id with
  | None => Some (fail 404)
  | Some saved =>
    if negb (visible (tenantFor r) saved) then Some (fail 404)
    else match body with
    | None => Some (fail 400)
    | Some (override, limit) =>
      let candidate := match override with Some p => set_ID id p | None => saved end in
      let limit := if (limit <=? 0)%Z || (5000 <? limit)%Z then 500%Z else limit in
      recs ← Read (mkQuery limit "" "" "" "" "" "" 0 (tenantFor r)) (ap_log s);
      Some (mkResp 200 (previewAgainstRecords candidate recs))
    end
  end.

(** *** Dispatch *)

Definition is_update (m : string) : bool := (m ==s "PATCH") || (m ==s "PUT").

(** [handlePolicies] *)
Definition handlePolicies (now : Z) (io : request_io) (newID : string) (r : request) (body : option Policy) (s : Api)
    : Api * response :=
  match ap_policies s with
  | None => (s, fail 404)
  | Some ps =>
    if rq_Method r ==s "GET" then (s, listPolicies r ps)
    else if rq_Method r ==s "POST" then
      let '(c, editor) := callerHasRole now (io_tokens io) r RoleEditor (ap_creds s) in
      let s1 := set_creds c s in
      if (editor : bool) then createPolicy now io newID r body ps s1 else (s1, fail 403)
    else (s, fail 405)
  end.

(** The method switch of [handlePolicyByID], for a plain policy id. *)
Definition handlePolicyByID (now : Z) (io : request_io) (id : string) (r : request) (body : option Policy) (s : Api)
    : Api * response :=
  match ap_policies s with
  | None => (s, fail 404)
  | Some ps =>
    if rq_Method r ==s "GET" then (s, getPolicy r id ps)
    else if is_update (rq_Method r) || (rq_Method r ==s "DELETE") then
      let '(c, editor) := callerHasRole now (io_tokens io) r RoleEditor (ap_creds s) in
      let s1 := set_creds c s in
      if negb editor then (s1, fail 403)
      else if is_update (rq_Method r) then updatePolicy now io r id body ps s1
      else deletePolicy now io r id ps s1
    else (s, fail 405)
  end.
End iteration.

(** ** Ingest *)

Definition set_event_tenant (schema tenant : string) (ev : Event) : Event :=
  mkEvent schema (ev_EventID ev) (ev_Timestamp ev) (ev_SensorID ev) tenant (ev_AgentRunID ev)
    (ev_Counterparty ev) (ev_Protocol ev) (ev_Direction ev) (ev_Source ev) (ev_Destination ev) (ev_Message ev)
    (ev_Findings ev) (ev_Action ev) (ev_Severity ev) (ev_LatencyMicros ev).

(** [ingest]; exporters run asynchronously on the returned record. *)
Definition ingest (now : Z) (io : append_io) (r : request) (body : option Event) (s : Api) : Api * response :=
  match body with
  | None => (s, fail 400)
  | Some ev =>
    let schema := if ev_Schema ev ==s "" then SchemaVersion else ev_Schema ev in
    let tenant := match rq_scope r with Some t => t | None => ev_TenantID ev end in
    match append_and_broadcast now io (set_event_tenant schema tenant ev) s with
    | (s', Err _) => (s', fail 500)
    | (s', Ok rec) => (s', mkResp 202 (PIngested (r_Seq rec) (r_Hash rec)))
    end
  end.

(** ** The sensor fleet *)

Definition maxStale : Z := (60 * Second)%Z.

Definition set_hb (tenant : string) (startedAt lastSeenAt : Z) (hb : SensorHeartbeat) : SensorHeartbeat :=
  mkHeartbeat (hb_SensorID hb) tenant (hb_Hostname hb) (hb_BinaryVersion hb) (hb_PolicyVersion hb)
    (hb_ContentVersion hb) startedAt lastSeenAt (hb_EventsForwarded hb) (hb_FindingsObserved hb).

(** [sensorFleet.record] *)
Definition fleet_record (now : Z) (hb : SensorHeartbeat) (f : gmap string SensorHeartbeat)
    : gmap string SensorHeartbeat :=
  if hb_SensorID hb ==s "" then f
  else
    let started := match f !! hb_SensorID hb with
                   | Some existing => if time_IsZero (hb_StartedAt hb) then hb_StartedAt existing else hb_StartedAt hb
                   | None => hb_StartedAt hb
                   end in
    <[hb_SensorID hb := set_hb (hb_TenantID hb) started now hb]> f.

Record SensorView := mkView {
  sv_heartbeat : SensorHeartbeat;
  sv_StaleSeconds : Z;
  sv_IsStale : bool;
  sv_PolicyDrift : bool;
  sv_ContentDrift : bool
}.

Definition sensor_view (now activePolicyVersion : Z) (activeContentVersion : string) (hb : SensorHeartbeat) : SensorView :=
  let stale := Z.quot (time_Sub now (hb_LastSeenAt hb)) Second in
  mkView hb stale (maxStale <? wrap64 (stale * Second))%Z
    (negb (activePolicyVersion =? 0)%Z && negb (hb_PolicyVersion hb =? activePolicyVersion)%Z)
    ((activeContentVersion !=s "") && (hb_ContentVersion hb !=s activeContentVersion)).

Section fleet.
Context `{MapIter}.

(** [sensorFleet.snapshot] *)
Definition fleet_snapshot (now activePolicyVersion : Z) (activeContentVersion : string)
    (f : gmap string SensorHeartbeat) : list SensorView :=
  sort_stable (less_key (fun v => hb_SensorID (sv_heartbeat v)))
    (map (sensor_view now activePolicyVersion activeContentVersion) (map_values f)).

(** [activePolicyVersion] *)
Definition activePolicyVersion (s : Api) : Z :=
  match ap_policies s with None => 0%Z | Some ps => Version ps end.

(** [handleSensorHeartbeat] *)
Definition handleSensorHeartbeat (now : Z) (r : request) (body : option SensorHeartbeat) (s : Api) : Api * response :=
  match ap_sensors s with
  | None => (s, fail 404)
  | Some f =>
    if rq_Method r !=s "POST" then (s, fail 405)
    else match body with
    | None => (s, fail 400)
    | Some hb =>
      let hb := if tenantFor r !=s "" then set_hb (tenantFor r) (hb_StartedAt hb) (hb_LastSeenAt hb) hb else hb in
      let s' := set_fleet (Some (fleet_record now hb f)) s in
      (s', mkResp 200 (PAck (activePolicyVersion s') (ap_content s')))
    end
  end.

(** [handleSensors] *)
Definition handleSensors (now : Z) (r : request) (s : Api) : list SensorView :=
  match ap_sensors s with
  | None => []
  | Some f =>
    let view := fleet_snapshot now (activePolicyVersion s) (ap_content s) f in
    if tenantFor r ==s "" then view
    else filter (fun v => hb_TenantID (sv_heartbeat v) = tenantFor r) view
  end.

(** ** A sensor against this control plane *)

(** One tick of the sensor's loop, its two requests answered by the handlers. *)
Definition sensor_tick (now : Z) (r : request) (hb : SensorHeartbeat) (url : string) (s : Api) (e : Engine)
    : Api * (Engine * list hook) :=
  let '(s1, ack) := handleSensorHeartbeat now r (Some hb) s in
  let hb_reply := match ack with
                  | mkResp 200 (PAck v content) => Body (mkAck true v content)
                  | mkResp code _ => Status code
                  end in
  let fetch_reply := match ap_policies s1 with
                     | None => Status 404
                     | Some ps => match rs_body (activePolicies r ps) with
                                  | PPolicies l v => Body (l, v)
                                  | _ => BadBody
                                  end
                     end in
  (s1, loop_tick url hb_reply fetch_reply e).
End fleet.

(** ** Lemmas *)

Lemma append_and_broadcast_policies now io ev s :
  ap_policies (append_and_broadcast now io ev s).1 = ap_policies s.
Proof. unfold append_and_broadcast. by destruct (Append now io ev (ap_log s)) as [? []]. Qed.

Lemma listener_policies now io changes s :
  ap_policies (fold_left (OnPolicyChange now io) changes s) = ap_policies s.
Proof.
  revert s. induction changes as [|c cs IH]; intros s; simpl; [done|].
  rewrite IH. apply append_and_broadcast_policies.
Qed.

(** The policies of tenants other than [t] are as before. *)
Definition others_kept (t : string) (ps ps' : PolicyStore) : Prop :=
  forall id p, ps_policies ps !! id = Some p -> sc_TenantID (p_Scope p) <> t -> ps_policies ps' !! id = Some p.

Lemma others_kept_refl t ps : others_kept t ps ps.
Proof. by intros id p. Qed.

Lemma set_scope_tenant_ID t p : p_ID (set_scope_tenant t p) = p_ID p.
Proof. unfold set_scope_tenant. by destruct (t ==s ""). Qed.

Lemma set_scope_tenant_tenant t p : t <> "" -> sc_TenantID (p_Scope (set_scope_tenant t p)) = t.
Proof. intros Ht. unfold set_scope_tenant. by rewrite (eqb_neq_s _ _ Ht). Qed.

Lemma put_fields_Scope now actor e p : p_Scope (put_fields now actor e p) = p_Scope p.
Proof. unfold put_fields. by destruct e. Qed.

Lemma visible_tenant t p : t <> "" -> visible t p = true <-> sc_TenantID (p_Scope p) = t.
Proof. intros Ht. unfold visible. rewrite (eqb_neq_s _ _ Ht). simpl. apply String.eqb_eq. Qed.

Section lemmas.
Context `{MapIter}.

(** A put touches the policy of its own id only. *)
Lemma Put_lookup_ne now io p actor ps id : id <> p_ID p ->
  ps_policies (Put now io p actor ps).1.1 !! id = ps_policies ps !! id.
Proof.
  intros Hid. unfold Put. destruct (Validate p); [done|].
  destruct io; simpl; rewrite put_fields_ID; by rewrite lookup_insert_ne.
Qed.

Lemma api_put_others now io p r ps code s t :
  (forall q, ps_policies ps !! p_ID p = Some q -> sc_TenantID (p_Scope q) = t) ->
  exists ps', ap_policies (api_put now io p r ps code s).1 = Some ps' /\ others_kept t ps ps'.
Proof.
  intros Hp. unfold api_put. pose proof (Put_lookup_ne now (io_policies io) p (actorFor r) ps) as Hne.
  destruct (Put now (io_policies io) p (actorFor r) ps) as [[ps' res] changes]. simpl in *.
  exists ps'. split.
  - destruct res; simpl; by rewrite listener_policies.
  - intros id q Hq Ht. rewrite Hne; [done|]. intros ->. by apply Ht, Hp.
Qed.

Lemma Delete_lookup_ne io id actor ps id' : id' <> id ->
  ps_policies (Delete io id actor ps).1.1 !! id' = ps_policies ps !! id'.
Proof.
  intros Hid. unfold Delete. destruct (ps_policies ps !! id) as [p|]; [|done].
  destruct io; simpl; [|rewrite lookup_insert_ne by done..]; by rewrite lookup_delete_ne.
Qed.

Lemma Delete_others now io r ps id s t :
  (forall q, ps_policies ps !! id = Some q -> sc_TenantID (p_Scope q) = t) ->
  exists ps', ap_policies (deletePolicy now io r id ps (set_policies ps s)).1 = Some ps' /\ others_kept t ps ps'.
Proof.
  intros Hp. unfold deletePolicy, policy_Get. destruct (ps_policies ps !! id) as [p|] eqn:E.
  2:{ exists ps. split; [done|apply others_kept_refl]. }
  destruct (negb _); [exists ps; split; [done|apply others_kept_refl]|].
  pose proof (Delete_lookup_ne (io_policies io) id (actorFor r) ps) as Hne.
  destruct (Delete (io_policies io) id (actorFor r) ps) as [[ps' res] changes]. simpl in *.
  exists ps'. split; [by rewrite listener_policies|].
  intros id' q Hq Ht. rewrite Hne; [done|]. intros ->. apply Ht, Hp. congruence.
Qed.

Lemma update_others now io r id body ps s t : well_keyed ps -> tenantFor r = t -> t <> "" ->
  exists ps', ap_policies (updatePolicy now io r id body ps (set_policies ps s)).1 = Some ps' /\ others_kept t ps ps'.
Proof.
  intros Hwk <- Ht. unfold updatePolicy, policy_Get.
  destruct (ps_policies ps !! id) as [p|] eqn:E; [|exists ps; split; [done|apply others_kept_refl]].
  destruct (visible (tenantFor r) p) eqn:Hv; simpl; [|exists ps; split; [done|apply others_kept_refl]].
  destruct body as [patch|]; [|exists ps; split; [done|apply others_kept_refl]].
  apply api_put_others. rewrite set_scope_tenant_ID. simpl. rewrite (Hwk _ _ E), E.
  intros q [= <-]. by apply visible_tenant in Hv.
Qed.

Lemma create_others now io newID r p ps s t : tenantFor r = t ->
  (forall q, ps_policies ps !! (if p_ID p ==s "" then newID else p_ID p) = Some q -> sc_TenantID (p_Scope q) = t) ->
  exists ps', ap_policies (createPolicy now io newID r (Some p) ps s).1 = Some ps' /\ others_kept t ps ps'.
Proof.
  intros <- Hp. unfold createPolicy. apply api_put_others. rewrite set_scope_tenant_ID.
  by destruct (p_ID p ==s "").
Qed.

Lemma delete_others now io r id ps s t : tenantFor r = t -> t <> "" ->
  exists ps', ap_policies (deletePolicy now io r id ps (set_policies ps s)).1 = Some ps' /\ others_kept t ps ps'.
Proof.
  intros <- Ht. destruct (ps_policies ps !! id) as [p|] eqn:E.
  - destruct (visible (tenantFor r) p) eqn:Hv.
    + apply Delete_others. rewrite E. intros q [= <-]. by apply visible_tenant in Hv.
    + exists ps. unfold deletePolicy, policy_Get. rewrite E, Hv. split; [done|apply others_kept_refl].
  - exists ps. unfold deletePolicy, policy_Get. rewrite E. split; [done|apply others_kept_refl].
Qed.

Lemma set_policies_id ps s : ap_policies s = Some ps -> set_policies ps s = s.
Proof. destruct s. simpl. by intros ->. Qed.

(** What the two handlers show to a request limited to a tenant. *)
Lemma list_confined r ps p : tenantFor r <> "" ->
  match rs_body (listPolicies r ps) with PPolicies l _ => p ∈ l | _ => False end ->
  sc_TenantID (p_Scope p) = tenantFor r.
Proof.
  intros Ht. simpl. intros [Hv%Is_true_true _]%list_elem_of_filter. by apply visible_tenant.
Qed.

Lemma get_confined r id ps p : tenantFor r <> "" -> getPolicy r id ps = mkResp 200 (PPolicy p) ->
  sc_TenantID (p_Scope p) = tenantFor r.
Proof.
  intros Ht. unfold getPolicy. destruct (policy_Get ps id) as [q|]; [|done].
  destruct (visible (tenantFor r) q) eqn:Hv; [|done]. intros [= <-]. by apply visible_tenant.
Qed.
End lemmas.

(** ** Properties *)


(** Creating over another tenant's policy.  A request forced to a tenant
    that posts a valid policy under an id in use replaces the policy stored
    there, even one of another tenant: it answers 201 and the stored policy is
    now the caller's. *)
Theorem create_overwrites_foreign_policy `{MapIter} now io newID r p p0 ps s t :
  rq_scope r = Some t -> t <> "" -> io_policies io = PersistOK ->
  p_ID p <> "" -> Validate (set_scope_tenant t p) = None ->
  ps_policies ps !! p_ID p = Some p0 -> sc_TenantID (p_Scope p0) <> t ->
  exists ps' q, ap_policies (createPolicy now io newID r (Some p) ps s).1 = Some ps' /\
    (createPolicy now io newID r (Some p) ps s).2 = mkResp 201 (PPolicy q) /\
    ps_policies ps' !! p_ID p = Some q /\ sc_TenantID (p_Scope q) = t /\
    p_Selector q = p_Selector p /\ p_Disposition q = p_Disposition p /\ ~ others_kept t ps ps'.
Proof.
  intros Hsc Ht Hio Hid Hv Hp0 Hne. unfold createPolicy. rewrite (eqb_neq_s _ _ Hid).
  assert (tenantFor r = t) as -> by (unfold tenantFor; by rewrite Hsc).
  unfold api_put, Put. rewrite Hv, Hio. simpl. rewrite put_fields_ID, set_scope_tenant_ID, Hp0.
  do 2 eexists. split; [by rewrite listener_policies|]. split; [done|]. simpl.
  rewrite lookup_insert_eq. split; [done|].
  unfold put_fields. simpl. rewrite set_scope_tenant_tenant by done.
  split; [done|]. split_and!; [by unfold set_scope_tenant; rewrite (eqb_neq_s _ _ Ht)..|].
  intros Hk. specialize (Hk _ _ Hp0 Hne). simpl in Hk. rewrite lookup_insert_eq in Hk.
  injection Hk as Hk. apply (f_equal (fun x => sc_TenantID (p_Scope x))) in Hk. simpl in Hk.
  rewrite set_scope_tenant_tenant in Hk by done. congruence.
Qed.


(** A replacement that sensors miss.  Deleting a policy and creating one
    under a fresh id with the same version leaves the store's version where it
    was, so a sensor that was up to date keeps the deleted policy: its tick
    changes nothing. *)
Theorem delete_create_unnoticed `{MapIter} now r hb url s e ps f id p q actor :
  url <> "" -> rq_Method r = "POST" -> ap_sensors s = Some f ->
  in_int64 (p_Version p) -> ps_policies ps !! id = Some p ->
  p_ID q <> id -> ps_policies ps !! p_ID q = None -> Validate q = None -> p_Version q <> 0%Z ->
  p_Version q = p_Version p -> sn_Version (engine_Snapshot e) = Version ps ->
  let ps1 := (Delete PersistOK id actor ps).1.1 in
  let ps2 := (Put now PersistOK q actor ps1).1.1 in
  ps_policies ps2 !! id = None /\ ps_policies ps2 !! p_ID q <> None /\ Version ps2 = Version ps /\
  (ap_policies s = Some ps2 -> (sensor_tick now r hb url s e).2 = (e, [])).
Proof.
  intros Hurl Hm Hf Hr Hid Hne Hq Hv Hq0 Hver He ps1 ps2.
  assert (ps1 = mkStore (delete id (ps_policies ps)) (ps_disk ps1) (ps_listener ps)) as Hps1.
  { subst ps1. unfold Delete. by rewrite Hid. }
  assert (ps_policies ps1 !! p_ID q = None) as Hq1 by (rewrite Hps1; simpl; by rewrite lookup_delete_ne).
  assert (ps2 = mkStore (<[p_ID q := put_fields now actor None q]> (ps_policies ps1)) (ps_disk ps2) (ps_listener ps1)) as Hps2.
  { subst ps2. unfold Put. rewrite Hv, Hq1. done. }
  assert (Version ps2 = Version ps) as HV.
  { rewrite Hps2, version_insert_fresh by done.
    assert (p_Version (put_fields now actor None q) = p_Version p) as ->.
    { unfold put_fields. simpl. by rewrite (proj2 (Z.eqb_neq _ _) Hq0). }
    rewrite Hps1. simpl. rewrite (version_delete _ _ _ id p Hid), wrap64_add_l.
    replace (Version _ - p_Version p + p_Version p)%Z with (Version (mkStore (ps_policies ps) (ps_disk ps2) (ps_listener ps))) by lia.
    rewrite !version_sum. simpl. rewrite wrap64_in_range; [done|apply wrap64_range]. }
  split_and!.
  - rewrite Hps2, Hps1. simpl. by rewrite lookup_insert_ne, lookup_delete_eq.
  - rewrite Hps2. simpl. by rewrite lookup_insert_eq.
  - done.
  - intros Hs. unfold sensor_tick, handleSensorHeartbeat. rewrite Hf, Hm. simpl.
    unfold activePolicyVersion. simpl. rewrite Hs.
    unfold loop_tick, Heartbeat, PolicyClient.request. rewrite (eqb_neq_s _ _ Hurl). simpl.
    by rewrite HV, He, Z.eqb_refl.
Qed.

(** ** A change of a server policy on the chain *)

Definition sample_api : Api :=
  mkApi sample_creds (Some (mkStore {["p0" := set_ID "p0" (sample_policy "p0" ModeBlock (mkScope "acme" "" ""))]} FileAbsent true))
    (fresh_store "events.log" 0 8) [] (Some ∅) "".
Definition sample_request (t : string) : request := mkReq "POST" "/v1/policies" "Bearer t1" "" "" "" (Some t).
Definition all_ok : request_io := mkIO PersistOK AppendOK true.

(** Auditing a policy for one server breaks the chain.  Creating a policy
    whose scope names a tenant and a server appends its audit event with the
    scope printed in struct order; read back, the scope is a map whose keys
    print sorted, so the log reports a hash mismatch from then on.  A scope
    with the tenant alone verifies. *)
Theorem policy_audit_breaks_chain :
  let create sc := (@createPolicy canonical_iter 7 all_ok "" (sample_request "acme")
                      (Some (sample_policy "p1" ModeWarn sc)) (mkStore ∅ FileAbsent true) sample_api).1 in
  (exists r, Verify (ap_log (create (mkScope "acme" "" "github"))) = Some (EMismatch r) /\ r_Seq r = 1%Z) /\
  Verify (ap_log (create (mkScope "acme" "" ""))) = None.
Proof. split; [eexists; split|]; vm_compute; reflexivity. Qed.

(** ** Witnesses *)


Lemma create_overwrites_foreign_policy_witness :
  exists ps' q, ap_policies (@createPolicy canonical_iter 7 all_ok "" (sample_request "zeta")
      (Some (sample_policy "p0" ModeMonitor (mkScope "" "" "")))
      (mkStore {["p0" := sample_policy "p0" ModeBlock (mkScope "acme" "" "")]} FileAbsent true) sample_api).1 = Some ps' /\
    ps_policies ps' !! "p0" = Some q /\ sc_TenantID (p_Scope q) = "zeta".
Proof.
  destruct (@create_overwrites_foreign_policy canonical_iter 7 all_ok "" (sample_request "zeta")
      (sample_policy "p0" ModeMonitor (mkScope "" "" "")) (sample_policy "p0" ModeBlock (mkScope "acme" "" ""))
      (mkStore {["p0" := sample_policy "p0" ModeBlock (mkScope "acme" "" "")]} FileAbsent true) sample_api "zeta")
    as (ps' & q & H1 & _ & H2 & H3 & _); [reflexivity|discriminate|reflexivity|discriminate|reflexivity|
      apply lookup_insert_eq|discriminate|].
  exists ps', q. split; [exact H1|]. split; [exact H2|exact H3].
Defined.

Definition sample_heartbeat : SensorHeartbeat := mkHeartbeat "s1" "" "" "" 0 "" 0 0 0 0.


Lemma delete_create_unnoticed_witness :
  let ps := mkStore {["p0" := sample_policy "p0" ModeBlock (mkScope "acme" "" "")]} FileAbsent true in
  let ps2 := (@Put canonical_iter 7 PersistOK (sample_policy "p1" ModeWarn (mkScope "acme" "" "")) "bob"
               (@Delete canonical_iter PersistOK "p0" "bob" ps).1.1).1.1 in
  ps_policies ps2 !! "p0" = None /\ ps_policies ps2 !! "p1" <> None /\ @Version canonical_iter ps2 = 1%Z.
Proof.
  intros ps ps2.
  destruct (@delete_create_unnoticed canonical_iter 7 (sample_request "acme") sample_heartbeat "http://cp" sample_api
    (mkEngine (mkSnapshot 1 [])) ps ∅ "p0" (sample_policy "p0" ModeBlock (mkScope "acme" "" ""))
    (sample_policy "p1" ModeWarn (mkScope "acme" "" "")) "bob") as (H1 & H2 & H3 & _);
    try reflexivity; try discriminate.
  - split; discriminate.
  - split; [exact H1|]. split; [exact H2|]. rewrite <- (eq_refl : @Version canonical_iter ps = 1%Z). exact H3.
Defined.
