(* ===== verification/Behavior.v ===== *)
(** * Behavioural detection

    [control-plane/behavior/behavior.go]: the detector that walks the cached
    records on a ticker and appends synthetic events for rate spikes, rates of
    findings and unfamiliar peers.  A tick reads the clock once; [evid] gives
    the ids of the events it makes. *)

From Stdlib Require Import SpecFloat.
From S2P Require Import Prelude Float64 Group Utf8 FloatText Json Event EventStore Analytics Roles Tokens Users Server PolicyApi.

Record Options := mkOptions {
  bo_Window : Z; bo_Tick : Z; bo_MinObservations : Z; bo_SpikeFactor : spec_float; bo_NoveltyHighSeverity : bool
}.

Definition DefaultOptions : Options := mkOptions (5 * Minute) (30 * Second) 10 (f64_of 3 0) true.

Record Detector := mkDetector {
  de_opts : Options; de_sensorID : string; de_seenPeers : gset string; de_lastFinding : gmap string Z
}.

Definition behavior_New (sensorID : string) (o : Options) : Detector :=
  mkDetector
    (mkOptions (window_or (5 * Minute) (bo_Window o)) (window_or (30 * Second) (bo_Tick o))
       (if (bo_MinObservations o <=? 0)%Z then 10%Z else bo_MinObservations o)
       (if SFleb (bo_SpikeFactor o) (f64_of 1 0) then f64_of 3 0 else bo_SpikeFactor o) (bo_NoveltyHighSeverity o))
    sensorID ∅ ∅.

Definition rank (s : string) : Z :=
  if s ==s SeverityCritical then 4 else if s ==s SeverityHigh then 3 else if s ==s SeverityMedium then 2
  else if s ==s SeverityLow then 1 else 0.

(** ** Synthetic events *)

Definition behavior_event (now : Z) (sensorID peer run severity : string) (f : Finding) : Event :=
  mkEvent SchemaVersion "" now sensorID "" run peer "behavior" DirectionInbound "" ""
    (mkMessage "" "behavior.tick" [] [] [] "") [f] ActionWarn severity 0.

Definition set_evid (evid : string) (ev : Event) : Event :=
  mkEvent (ev_Schema ev) evid (ev_Timestamp ev) (ev_SensorID ev) (ev_TenantID ev) (ev_AgentRunID ev)
    (ev_Counterparty ev) (ev_Protocol ev) (ev_Direction ev) (ev_Source ev) (ev_Destination ev) (ev_Message ev)
    (ev_Findings ev) (ev_Action ev) (ev_Severity ev) (ev_LatencyMicros ev).

Definition noveltyFinding (now : Z) (sensorID peer sev : string) : Event :=
  behavior_event now sensorID peer "" SeverityHigh
    (mkFinding "behavior.novelty_high_severity" "policy" SeverityHigh
       ("first event from this counterparty arrived at " +:+ sev +:+ " severity") peer "counterparty" "0.85" []).

Definition splitKey (key prefix : string) : string :=
  if (String.length prefix <? String.length key)%nat && HasPrefix key prefix then str_drop (String.length prefix) key else "".

Definition float_json (x : spec_float) : json := JNum (default "0" (json_float x)).

Definition spikeFinding (now : Z) (sensorID key : string) (recent : Z) (baseline ratio : spec_float) : Event :=
  let tenth := f64_div ratio (f64_of 10 0) in
  let top := f64_decimal 95 (-2) in
  behavior_event now sensorID (splitKey key "peer:") (splitKey key "run:") SeverityMedium
    (mkFinding "behavior.rate_spike" "policy" SeverityMedium
       ("rate spike: " +:+ dec_string recent +:+ " events in window (baseline " +:+ fixed 1 baseline +:+ ", " +:+ fixed 1 ratio +:+ "x)")
       key "bucket" (default "0" (json_float (if SFltb tenth top then tenth else top)))
       [("recent", JNum (dec_string recent)); ("baseline_mean", float_json baseline); ("ratio", float_json ratio)]).

Definition peerRateFinding (now : Z) (sensorID peer : string) (recentRate histRate : spec_float) : Event :=
  behavior_event now sensorID peer "" SeverityHigh
    (mkFinding "behavior.findings_rate_spike" "policy" SeverityHigh
       ("counterparty findings rate " +:+ fixed 2 recentRate +:+ " vs historical " +:+ fixed 2 histRate)
       peer "counterparty" "0.9" [("recent_rate", float_json recentRate); ("historical_rate", float_json histRate)]).

(** ** The checks *)

Definition bucketKey (ev : Event) : string :=
  if ev_Counterparty ev !=s "" then "peer:" +:+ ev_Counterparty ev
  else if ev_AgentRunID ev !=s "" then "run:" +:+ ev_AgentRunID ev
  else if m_Method (ev_Message ev) !=s "" then "method:" +:+ m_Method (ev_Message ev)
  else "".

(** The events of the wider baseline, six windows long. *)
Definition baseline_events (now : Z) (o : Options) (recs : list Rec) : list Event :=
  omap (fun r => match r_Event r with
                 | Some ev => if time_Before (ev_Timestamp ev) (time_Add now (wrap64 (- bo_Window o * 6))) then None else Some ev
                 | None => None
                 end) recs.

Definition is_recent (now : Z) (o : Options) (ev : Event) : bool :=
  negb (time_Before (ev_Timestamp ev) (time_Add now (- bo_Window o))).

(** The first sight of a peer. *)
Definition novelty_step (now : Z) (sensorID : string) (acc : gset string * list Event) (ev : Event) : gset string * list Event :=
  let '(seen, pending) := acc in
  if (ev_Counterparty ev ==s "") || bool_decide (ev_Counterparty ev ∈ seen) then acc
  else ({[ev_Counterparty ev]} ∪ seen,
        if (rank SeverityHigh <=? rank (ev_Severity ev))%Z
        then pending ++ [noveltyFinding now sensorID (ev_Counterparty ev) (ev_Severity ev)] else pending).

(** The buckets: how many events the baseline and the recent window have. *)
Definition spike_bucket (now : Z) (o : Options) (c : Z * Z) (ev : Event) : Z * Z :=
  (wrap64 (c.1 + 1), if is_recent now o ev then wrap64 (c.2 + 1) else c.2).

Definition five : spec_float := f64_of 5 0.

(** [None]: no spike.  A key without recent events has no recent bucket. *)
Definition spike_of (o : Options) (c : Z * Z) : option (Z * spec_float * spec_float) :=
  let '(hist, recent) := c in
  if (recent =? 0)%Z then None
  else if (hist <? bo_MinObservations o)%Z then None
  else let baselineMean := f64_div (f64_of (wrap64 (hist - recent)) 0) five in
  if SFleb baselineMean (f64_of 0 0) then None
  else let ratio := f64_div (f64_of recent 0) baselineMean in
  if SFltb ratio (bo_SpikeFactor o) then None else Some (recent, baselineMean, ratio).

Record peerStats := mkPeerStats { ps_recentEvents : Z; ps_recentFindings : Z; ps_histEvents : Z; ps_histFindings : Z }.

Definition peer_add (now : Z) (o : Options) (s : peerStats) (ev : Event) : peerStats :=
  if is_recent now o ev
  then mkPeerStats (wrap64 (ps_recentEvents s + 1)) (wrap64 (ps_recentFindings s + findings_of ev))
         (wrap64 (ps_histEvents s + 1)) (wrap64 (ps_histFindings s + findings_of ev))
  else mkPeerStats (ps_recentEvents s) (ps_recentFindings s) (wrap64 (ps_histEvents s + 1)) (wrap64 (ps_histFindings s + findings_of ev)).

Definition rate_of (o : Options) (s : peerStats) : option (spec_float * spec_float) :=
  if (ps_recentEvents s <? bo_MinObservations o)%Z then None
  else if (ps_histEvents s =? 0)%Z then None
  else let recentRate := f64_div (f64_of (ps_recentFindings s) 0) (f64_of (ps_recentEvents s) 0) in
  let histRate := f64_div (f64_of (ps_histFindings s) 0) (f64_of (ps_histEvents s) 0) in
  if SFleb histRate (f64_of 0 0) || SFltb recentRate (f64_mul histRate (bo_SpikeFactor o)) then None
  else Some (recentRate, histRate).

(** What a tick has to say: the peers seen, and the pending findings. *)
Definition tick_findings `{MapIter} (now : Z) (evid : nat -> string) (d : Detector) (recent : list Rec) : gset string * list Event :=
  let o := de_opts d in
  let evs := baseline_events now o recent in
  let '(seen, novel) := if bo_NoveltyHighSeverity o then fold_left (novelty_step now (de_sensorID d)) evs (de_seenPeers d, [])
                        else (de_seenPeers d, []) in
  let spikes := omap (fun kc => (fun x => spikeFinding now (de_sensorID d) kc.1 x.1.1 x.1.2 x.2) <$> spike_of o kc.2)
                  (map_iter (group bucketKey (fun _ => (0, 0)%Z) (spike_bucket now o) evs)) in
  let rates := omap (fun ks => (fun x => peerRateFinding now (de_sensorID d) ks.1 x.1 x.2) <$> rate_of o ks.2)
                 (map_iter (group ev_Counterparty (fun _ => mkPeerStats 0 0 0 0) (peer_add now o) evs)) in
  (seen, imap (fun i ev => set_evid (evid i) ev) (novel ++ spikes ++ rates)).

(** ** Emitting *)

Definition finding_key (ev : Event) : string :=
  match ev_Findings ev with f :: _ => f_RuleID f +:+ "|" +:+ f_Match f | [] => "" end.

(** Whether the finding was reported within the window. *)
Definition suppressed (now : Z) (o : Options) (last : gmap string Z) (ev : Event) : bool :=
  match last !! finding_key ev with Some t => (time_Sub now t <? bo_Window o)%Z | None => false end.

(** [maybeEmit] over the pending findings: the table, the server, and the
    events given to the sink. *)
Fixpoint emit_all (now : Z) (ios : nat -> append_io) (n : nat) (o : Options) (pending : list Event) (last : gmap string Z) (s : Api)
    : gmap string Z * Api * list Event :=
  match pending with
  | [] => (last, s, [])
  | ev :: pending' =>
      if suppressed now o last ev then emit_all now ios n o pending' last s
      else
        let '(s', _) := append_and_broadcast now (ios n) ev s in
        let '(last', s'', out) := emit_all now ios (S n) o pending' (<[finding_key ev := now]> last) s' in
        (last', s'', ev :: out)
  end.

(** [Tick]; the read of the store has no filter and cannot fail. *)
Definition behavior_Tick `{MapIter} (now : Z) (evid : nat -> string) (ios : nat -> append_io) (d : Detector) (s : Api) : Detector * Api * list Event :=
  match default [] (Read (mkQuery 5000 "" "" "" "" "" "" 0 "") (ap_log s)) with
  | [] => (d, s, [])
  | recent =>
      let '(seen, pending) := tick_findings now evid d recent in
      let '(last, s', out) := emit_all now ios 0 (de_opts d) pending (de_lastFinding d) s in
      (mkDetector (de_opts d) (de_sensorID d) seen last, s', out)
  end.

(** ** One report per window *)

Section suppression.
Context `{MapIter}.

Lemma emit_all_spec now ios n o pending last s : (0 < bo_Window o)%Z ->
  let '(last', _, out) := emit_all now ios n o pending last s in
  NoDup (map finding_key out) /\
  (forall k, k ∈ map finding_key out -> last' !! k = Some now /\ forall t, last !! k = Some t -> (bo_Window o <= now - t)%Z) /\
  (forall k, k ∉ map finding_key out -> last' !! k = last !! k).
Proof.
  intros Hw. revert n last s. induction pending as [|ev pending IH]; intros n last s; cbn [emit_all].
  { split_and!; [constructor|by intros k ?%elem_of_nil|done]. }
  destruct (suppressed now o last ev) eqn:Es; [apply IH|].
  destruct (append_and_broadcast now (ios n) ev s) as [s1 r]. specialize (IH (S n) (<[finding_key ev := now]> last) s1).
  destruct (emit_all _ _ _ _ _ _ _) as [[last' s2] out]. destruct IH as (Hnd & Hin & Hout). cbn [map].
  assert (finding_key ev ∉ map finding_key out) as Hev.
  { intros Hk. destruct (Hin _ Hk) as [_ Ht]. specialize (Ht now (lookup_insert_eq _ _ _)). lia. }
  split_and!.
  - by constructor.
  - intros k [->|Hk]%elem_of_cons.
    + rewrite Hout by done. rewrite lookup_insert_eq. split; [done|]. intros t Ht. unfold suppressed in Es. rewrite Ht in Es.
      breflect. unfold time_Sub, min_int64 in Es. lia.
    + destruct (Hin k Hk) as [-> Ht]. split; [done|]. intros t Hlt. apply Ht. rewrite lookup_insert_ne; [done|]. by intros <-.
  - intros k [Hne Hk]%not_elem_of_cons. rewrite Hout by done. by rewrite lookup_insert_ne.
Qed.

(** Ticks at given moments, each on the server as it is then. *)
Definition tick : Type := Z * (nat -> string) * (nat -> append_io) * Api.

(** The reports of a run: when, and under which key. *)
Fixpoint reports (ticks : list tick) (d : Detector) : list (Z * string) :=
  match ticks with
  | [] => []
  | (now, evid, ios, s) :: ticks' =>
      let '(d', _, out) := behavior_Tick now evid ios d s in
      map (fun ev => (now, finding_key ev)) out ++ reports ticks' d'
  end.

Lemma Tick_spec now evid ios d s : (0 < bo_Window (de_opts d))%Z ->
  let '(d', _, out) := behavior_Tick now evid ios d s in
  de_opts d' = de_opts d /\ NoDup (map finding_key out) /\
  (forall k, k ∈ map finding_key out -> de_lastFinding d' !! k = Some now /\
     forall t, de_lastFinding d !! k = Some t -> (bo_Window (de_opts d) <= now - t)%Z) /\
  (forall k, k ∉ map finding_key out -> de_lastFinding d' !! k = de_lastFinding d !! k).
Proof.
  intros Hw. unfold behavior_Tick. destruct (default [] (Read _ (ap_log s))) as [|r recs].
  { cbn. split_and!; [done|constructor|by intros k ?%elem_of_nil|done]. }
  destruct (tick_findings now evid d (r :: recs)) as [seen pending].
  pose proof (emit_all_spec now ios 0 (de_opts d) pending (de_lastFinding d) s Hw) as He.
  destruct (emit_all _ _ _ _ _ _ _) as [[last s'] out]. cbn. by split.
Qed.

Lemma reports_after ticks d k t t0 : (0 < bo_Window (de_opts d))%Z -> (t, k) ∈ reports ticks d ->
  de_lastFinding d !! k = Some t0 -> (bo_Window (de_opts d) <= t - t0)%Z.
Proof.
  revert d t0. induction ticks as [|[[[now evid] ios] s] ticks IH]; intros d t0 Hw; [by intros ?%elem_of_nil|]. cbn [reports].
  pose proof (Tick_spec now evid ios d s Hw) as Ht. destruct (behavior_Tick _ _ _ _ _) as [[d' s'] out].
  destruct Ht as (Ho & _ & Hin & Hout). intros [(ev & [= -> ->] & Hev)%list_elem_of_fmap|Hl]%elem_of_app Hlast.
  - apply (Hin (finding_key ev)); [by apply (list_elem_of_fmap_2 finding_key)|done].
  - rewrite <- Ho in Hw |- *. destruct (decide (k ∈ map finding_key out)) as [Hk|Hk].
    + destruct (Hin k Hk) as [Hd Hgap]. specialize (Hgap t0 Hlast). specialize (IH d' now Hw Hl Hd). rewrite Ho in *. lia.
    + apply (IH d' t0 Hw Hl). by rewrite Hout.
Qed.

(** An anomaly is reported at most once per window: in any run of the
    detector, whatever the log holds at each tick, two reports of the same
    finding about the same subject are at least a window apart. *)
Theorem one_report_per_window ticks d i j ti tj k : (0 < bo_Window (de_opts d))%Z ->
  reports ticks d !! i = Some (ti, k) -> reports ticks d !! j = Some (tj, k) -> (i < j)%nat ->
  (bo_Window (de_opts d) <= tj - ti)%Z.
Proof.
  revert d i j. induction ticks as [|[[[now evid] ios] s] ticks IH]; intros d i j Hw; [done|]. cbn [reports].
  pose proof (Tick_spec now evid ios d s Hw) as Ht. destruct (behavior_Tick _ _ _ _ _) as [[d' s'] out].
  destruct Ht as (Ho & Hnd & Hin & _). rewrite !lookup_app, length_map, !list_lookup_fmap.
  destruct (out !! i) as [ei|] eqn:Ei; cbn [fmap option_fmap option_map].
  - intros [= <- <-]. assert (finding_key ei ∈ map finding_key out) as Hk.
    { apply (list_elem_of_fmap_2 finding_key). by eapply list_elem_of_lookup_2. }
    destruct (out !! j) as [ej|] eqn:Ej; cbn [fmap option_fmap option_map].
    + intros [= <- Hkey] Hlt. exfalso. enough (i = j) by lia. apply (NoDup_lookup (map finding_key out) i j (finding_key ei)); [done|..].
      * by rewrite list_lookup_fmap, Ei.
      * by rewrite list_lookup_fmap, Ej, <- Hkey.
    + intros Hj _. rewrite <- Ho. destruct (Hin _ Hk) as [Hd _]. rewrite <- Ho in Hw.
      apply (reports_after ticks d' (finding_key ei)); [done| |done]. by eapply list_elem_of_lookup_2.
  - intros Hi Hj Hlt. apply lookup_ge_None in Ei. rewrite lookup_ge_None_2 in Hj by lia. cbn in Hj.
    rewrite <- Ho in Hw |- *. apply (IH d' _ _ Hw Hi Hj). lia.
Qed.
End suppression.

(** ** Unfamiliar peers *)

Definition high (ev : Event) : bool := (rank SeverityHigh <=? rank (ev_Severity ev))%Z.

(** The peers of a list of events. *)
Definition peers_of (evs : list Event) : gset string := list_to_set (filter (fun p => p <> "") (map ev_Counterparty evs)).

Lemma peers_of_cons ev evs : ev_Counterparty ev <> "" -> peers_of (ev :: evs) = {[ev_Counterparty ev]} ∪ peers_of evs.
Proof.
  intros Hne. unfold peers_of. change (map ev_Counterparty (ev :: evs)) with (ev_Counterparty ev :: map ev_Counterparty evs).
  by rewrite filter_cons_True.
Qed.

Lemma peers_of_anon ev : ev_Counterparty ev = "" -> peers_of [ev] = ∅.
Proof. intros E. unfold peers_of. cbn. by rewrite E. Qed.

Lemma novelty_fold now sid evs seen pending :
  let '(seen', pending') := fold_left (novelty_step now sid) evs (seen, pending) in
  seen' = seen ∪ peers_of evs /\
  (forall f, f ∈ pending' <-> f ∈ pending \/
     exists pre ev post, evs = pre ++ ev :: post /\ ev_Counterparty ev <> "" /\ (ev_Counterparty ev ∉ (seen ∪ peers_of pre)) /\ high ev = true /\
       f = noveltyFinding now sid (ev_Counterparty ev) (ev_Severity ev)).
Proof.
  induction evs as [|ev evs IH] using rev_ind.
  { split; [set_solver|]. intros f. split; [by left|]. intros [?|(pre & ev & post & E & _)]; [done|]. by destruct pre. }
  rewrite fold_left_app. cbn [fold_left]. destruct (fold_left _ evs _) as [seen' pending']. destruct IH as [-> Hp].
  assert (peers_of (evs ++ [ev]) = peers_of evs ∪ peers_of [ev]) as Hpe.
  { unfold peers_of. by rewrite map_app, filter_app, list_to_set_app_L. }
  assert (forall f, (exists pre e post, evs ++ [ev] = pre ++ e :: post /\ ev_Counterparty e <> "" /\ (ev_Counterparty e ∉ (seen ∪ peers_of pre)) /\ high e = true /\
       f = noveltyFinding now sid (ev_Counterparty e) (ev_Severity e)) <->
     (exists pre e post, evs = pre ++ e :: post /\ ev_Counterparty e <> "" /\ (ev_Counterparty e ∉ (seen ∪ peers_of pre)) /\ high e = true /\
       f = noveltyFinding now sid (ev_Counterparty e) (ev_Severity e)) \/
     (ev_Counterparty ev <> "" /\ (ev_Counterparty ev ∉ (seen ∪ peers_of evs)) /\ high ev = true /\
       f = noveltyFinding now sid (ev_Counterparty ev) (ev_Severity ev))) as Hsplit.
  { intros f. split.
    - intros (pre & e & post & E & H1). destruct post as [|x post _] using rev_ind.
      + apply app_inj_tail in E as [<- <-]. by right.
      + rewrite app_comm_cons, app_assoc in E. apply app_inj_tail in E as [-> <-]. left. by exists pre, e, post.
    - intros [(pre & e & post & -> & H1)|H1].
      + exists pre, e, (post ++ [ev]). split; [by rewrite <- app_assoc|done].
      + exists evs, ev, []. by split. }
  unfold novelty_step. rewrite Hpe. destruct (ev_Counterparty ev ==s "") eqn:E0; cbn [orb].
  - apply String.eqb_eq in E0. rewrite (peers_of_anon ev E0).
    split; [set_solver|]. intros f. rewrite Hp, Hsplit. naive_solver.
  - apply String.eqb_neq in E0. rewrite (peers_of_cons ev []) by done. change (peers_of []) with (∅ : gset string).
    case_bool_decide as Hin.
    + split; [set_solver|]. intros f. rewrite Hp, Hsplit. naive_solver.
    + split; [set_solver|]. intros f. rewrite Hsplit. fold (high ev). destruct (high ev) eqn:Eh.
      * rewrite elem_of_app, list_elem_of_singleton, Hp. naive_solver.
      * rewrite Hp. naive_solver.
Qed.

(** Only the newest event of an unfamiliar peer counts: a peer whose newest
    event is mild is familiar from then on, so nothing is said when it sends a
    grave one later, nor if an earlier one was grave. *)
Theorem mild_peer_becomes_familiar now sid seen ev evs1 evs2 p :
  ev_Counterparty ev = p -> p <> "" -> high ev = false ->
  let '(seen1, pending1) := fold_left (novelty_step now sid) (ev :: evs1) (seen, []) in
  (forall f, f ∈ pending1 -> ev_Counterparty f <> p) /\
  let '(_, pending2) := fold_left (novelty_step now sid) evs2 (seen1, []) in forall f, f ∈ pending2 -> ev_Counterparty f <> p.
Proof.
  intros Hp Hne Hh. pose proof (novelty_fold now sid (ev :: evs1) seen []) as H1.
  destruct (fold_left _ (ev :: evs1) _) as [seen1 pending1]. destruct H1 as [Hs1 Hp1]. split.
  - intros f Hf Hfp. apply Hp1 in Hf as [?%elem_of_nil|(pre & e & post & E & _ & Hnot & Hhe & ->)]; [done|]. cbn in Hfp.
    destruct pre as [|x pre]; [injection E as <- _; congruence|]. injection E as <- _.
    apply Hnot. rewrite Hfp. apply elem_of_union_r. rewrite peers_of_cons by congruence. set_solver.
  - pose proof (novelty_fold now sid evs2 seen1 []) as H2. destruct (fold_left _ evs2 _) as [seen2 pending2]. destruct H2 as [_ Hp2].
    intros f Hf Hfp. apply Hp2 in Hf as [?%elem_of_nil|(pre & e & post & _ & _ & Hnot & _ & ->)]; [done|]. cbn in Hfp.
    apply Hnot. rewrite Hfp, Hs1. apply elem_of_union_l, elem_of_union_r. rewrite peers_of_cons by congruence. set_solver.
Qed.

(** ** Witnesses *)

#[local] Existing Instance canonical_iter.

Definition sample_detector : Detector := behavior_New "behavior" (mkOptions (300 * Second) 0 2 (f64_of 3 0) false).
Definition sample_seen (ts : Z) : Rec :=
  mkRec 1 ts "" "" (Some (mkEvent SchemaVersion "e1" ts "s1" "acme" "" "mallory" "a2a" "inbound" "" "" (mkMessage "" "" [] [] [] "") [] ActionAllow SeverityInfo 0)).
Definition watched_api (now : Z) : Api :=
  mkApi (mkCreds "" ∅ ∅ None None None) None
    (mkEventStore "" true 0 genesisHash [sample_seen (now - 600 * Second); sample_seen (now - 5); sample_seen (now - 4)] 8 0 genesisHash (mkDisk [] false None))
    [] None "".
Definition sample_tick (now : Z) : tick := (now, fun _ => "e2", fun _ => AppendOK, watched_api now).
Definition sample_ticks : list tick := [sample_tick 1000; sample_tick (200 * Second); sample_tick (400 * Second)].

Lemma one_report_per_window_witness :
  reports sample_ticks sample_detector =
    [(1000, "behavior.rate_spike|peer:mallory"); (400000000000, "behavior.rate_spike|peer:mallory")]%Z /\
  (bo_Window (de_opts sample_detector) <= 400000000000 - 1000)%Z.
Proof.
  split; [vm_compute; reflexivity|].
  apply (one_report_per_window sample_ticks sample_detector 0 1 1000 400000000000 "behavior.rate_spike|peer:mallory");
    [reflexivity|vm_compute; reflexivity|vm_compute; reflexivity|lia].
Defined.
