(* ===== verification/AdminApi.v ===== *)
(** * User and token administration over HTTP

    [control-plane/api/users_api.go] and the handlers of [tokens.go].  A
    handler takes the decoded body ([None] when decoding fails), the request
    and the credentials, and returns the new credentials and the response; the
    routes are behind [auth] and [requireRole(admin)] of [Server]. *)

From S2P Require Import Prelude Sha256 Utf8 Rfc3339 Json Event Roles Tokens Users Server.

(** ** Responses *)

Inductive admin_payload :=
| AError
| AUsers (us : list User)
| AUser (u : User)
| ADeleted (name : string)
| ARotated (name : string)
| ATokens (ts : list APIToken)
| AToken (t : APIToken)
| ARevoked (id : string).

Record admin_response := mkAResp { ar_code : Z; ar_body : admin_payload }.
Definition afail (code : Z) : admin_response := mkAResp code AError.

(** Random bytes and write outcomes of one request. *)
Record admin_io := mkAIO {
  ai_salt : string;
  ai_users : bool;
  ai_tokens : bool;
  ai_id : option string;
  ai_secret : option string
}.

(** Bodies of the requests. *)
Record user_body := mkUserBody { ub_Username : string; ub_Password : string; ub_Role : string; ub_TenantID : string }.
Record token_body := mkTokenBody { tb_Name : string; tb_Role : string; tb_TenantID : string }.

(** ** Paths *)

(** [strings.Cut(s, "/")]: the parts before and after the first slash. *)
Fixpoint cut_slash (s : string) : string * string :=
  match s with
  | EmptyString => ("", "")
  | String c s' =>
      if Ascii.eqb c "/" then ("", s') else let '(a, b) := cut_slash s' in (String c a, b)
  end.

Section handlers.
Context `{MapIter} `{Bcrypt}.

(** ** Users *)

Definition createUser (now : Z) (io : admin_io) (r : request) (body : option user_body) (us : UserStore)
    (c : Credentials) : Credentials * admin_response :=
  match body with
  | None => (c, afail 400)
  | Some b =>
    if (ub_Username b ==s "") || (ub_Password b ==s "") || (ub_Role b ==s "") then (c, afail 400)
    else
      let role := CanonicalRole (ub_Role b) in
      if role ==s "" then (c, afail 400)
      else
        let '(c1, allowed) := if role ==s RoleOwner
                              then let '(c1, caller) := roleOfRequest now (ai_tokens io) r c in
                                   (c1, caller ==s RoleOwner)
                              else (c, true) in
        if negb allowed then (c1, afail 403)
        else
          let us1 := match cr_users c1 with Some us1 => us1 | None => us end in
          match user_Create now (ai_salt io) (ai_users io) (ub_Username b) (ub_Password b) role (ub_TenantID b) us1 with
          | (us2, Err _) => (set_users us2 c1, afail 400)
          | (us2, Ok u) => (set_users us2 c1, mkAResp 201 (AUser (scrub u)))
          end
  end.

(** [handleUsersCollection] *)
Definition handleUsersCollection (now : Z) (io : admin_io) (r : request) (body : option user_body) (c : Credentials)
    : Credentials * admin_response :=
  match cr_users c with
  | None => (c, afail 404)
  | Some us =>
    if rq_Method r ==s "GET" then (c, mkAResp 200 (AUsers (user_List us)))
    else if rq_Method r ==s "POST" then createUser now io r body us c
    else (c, afail 405)
  end.

Definition getUser (username : string) (us : UserStore) : admin_response :=
  match filter (fun u => EqualFold (u_Username u) username = true) (user_List us) with
  | u :: _ => mkAResp 200 (AUser u)
  | [] => afail 404
  end.

(** The user store of credentials that have one. *)
Definition users_of (us : UserStore) (c : Credentials) : UserStore :=
  match cr_users c with Some us' => us' | None => us end.

Definition updateUser (now : Z) (io : admin_io) (r : request) (username : string) (body : option (string * string))
    (us : UserStore) (c : Credentials) : Credentials * admin_response :=
  let '(c1, caller) := roleOfRequest now (ai_tokens io) r c in
  if caller !=s RoleOwner then (c1, afail 403)
  else match body with
  | None => (c1, afail 400)
  | Some (bodyRole, tenant) =>
    let role := CanonicalRole bodyRole in
    if (bodyRole !=s "") && (role ==s "") then (c1, afail 400)
    else match user_Update now (ai_users io) username role tenant (users_of us c1) with
    | (us2, Some _) => (set_users us2 c1, afail 400)
    | (us2, None) => (set_users us2 c1, getUser username us2)
    end
  end.

Definition deleteUser (now : Z) (io : admin_io) (r : request) (username : string) (us : UserStore) (c : Credentials)
    : Credentials * admin_response :=
  let '(c1, caller) := roleOfRequest now (ai_tokens io) r c in
  if caller !=s RoleOwner then (c1, afail 403)
  else
    let '(c2, self) := currentUsername now r c1 in
    if EqualFold username self then (c2, afail 400)
    else match user_Delete (ai_users io) username (users_of us c2) with
    | (us2, Some _) => (set_users us2 c2, afail 400)
    | (us2, None) => (set_users us2 c2, mkAResp 200 (ADeleted username))
    end.

Definition changePassword (now : Z) (io : admin_io) (r : request) (username : string) (body : option string)
    (us : UserStore) (c : Credentials) : Credentials * admin_response :=
  if rq_Method r !=s "POST" then (c, afail 405)
  else match body with
  | None => (c, afail 400)
  | Some password =>
    let '(c1, role) := roleOfRequest now (ai_tokens io) r c in
    let '(c2, caller) := currentUsername now r c1 in
    if negb (EqualFold caller username) && (role !=s RoleOwner) then (c2, afail 403)
    else match SetPassword now (ai_salt io) (ai_users io) username password (users_of us c2) with
    | (us2, Some _) => (set_users us2 c2, afail 400)
    | (us2, None) => (set_users us2 c2, mkAResp 200 (ARotated username))
    end
  end.

(** [handleUserByName]; the two bodies are those of the update and of the
    password change. *)
Definition handleUserByName (now : Z) (io : admin_io) (r : request) (body : option (string * string))
    (password : option string) (c : Credentials) : Credentials * admin_response :=
  match cr_users c with
  | None => (c, afail 404)
  | Some us =>
    let rest := TrimPrefix (rq_Path r) "/v1/users/" in
    if (rest ==s rq_Path r) || (rest ==s "") then (c, afail 400)
    else
      let '(username, suffix) := cut_slash rest in
      if username ==s "" then (c, afail 400)
      else if suffix ==s "password" then changePassword now io r username password us c
      else if suffix !=s "" then (c, afail 404)
      else if rq_Method r ==s "GET" then (c, getUser username us)
      else if (rq_Method r ==s "PATCH") || (rq_Method r ==s "PUT") then updateUser now io r username body us c
      else if rq_Method r ==s "DELETE" then deleteUser now io r username us c
      else (c, afail 405)
  end.

(** ** Tokens *)

(** The token store of credentials that have one. *)
Definition tokens_of (ts : TokenStore) (c : Credentials) : TokenStore :=
  match cr_tokenStore c with Some ts' => ts' | None => ts end.

Definition mintToken (now : Z) (io : admin_io) (r : request) (body : option token_body) (ts : TokenStore)
    (c : Credentials) : Credentials * admin_response :=
  match body with
  | None => (c, afail 400)
  | Some b =>
    let canon := CanonicalRole (tb_Role b) in
    if canon ==s "" then (c, afail 400)
    else
      let '(c1, caller) := roleOfRequest now (ai_tokens io) r c in
      if (canon ==s RoleOwner) && (caller !=s RoleOwner) then (c1, afail 403)
      else
        let '(c2, createdBy) := currentUsername now r c1 in
        match Mint now (ai_tokens io) (ai_id io) (ai_secret io) (tb_Name b) canon (tb_TenantID b) createdBy
                (tokens_of ts c2) with
        | (ts2, Err _) => (set_tokenStore ts2 c2, afail 400)
        | (ts2, Ok t) => (set_tokenStore ts2 c2, mkAResp 201 (AToken t))
        end
  end.

(** [handleTokensCollection] *)
Definition handleTokensCollection (now : Z) (io : admin_io) (r : request) (body : option token_body) (c : Credentials)
    : Credentials * admin_response :=
  match cr_tokenStore c with
  | None => (c, afail 404)
  | Some ts =>
    if rq_Method r ==s "GET" then (c, mkAResp 200 (ATokens (token_List ts)))
    else if rq_Method r ==s "POST" then mintToken now io r body ts c
    else (c, afail 405)
  end.

(** [handleTokenByID] *)
Definition handleTokenByID (io : admin_io) (r : request) (c : Credentials) : Credentials * admin_response :=
  match cr_tokenStore c with
  | None => (c, afail 404)
  | Some ts =>
    let id := TrimPrefix (rq_Path r) "/v1/tokens/" in
    if (id ==s "") || (id ==s rq_Path r) then (c, afail 400)
    else if rq_Method r !=s "DELETE" then (c, afail 405)
    else match Revoke (ai_tokens io) id ts with
    | (ts', Err _) => (set_tokenStore ts' c, afail 400)
    | (ts', Ok _) => (set_tokenStore ts' c, mkAResp 200 (ARevoked id))
    end
  end.
End handlers.

(** Any administrative request. *)
Inductive admin_call :=
| CallUsers (body : option user_body)
| CallUser (body : option (string * string)) (password : option string)
| CallTokens (body : option token_body)
| CallToken.

Definition admin_run `{MapIter} `{Bcrypt} (now : Z) (io : admin_io) (r : request) (call : admin_call) (c : Credentials)
    : Credentials * admin_response :=
  match call with
  | CallUsers body => handleUsersCollection now io r body c
  | CallUser body password => handleUserByName now io r body password c
  | CallTokens body => handleTokensCollection now io r body c
  | CallToken => handleTokenByID io r c
  end.

(** ** What a non-owner may change *)

(** From [us] to [us'], no account became an owner, none disappeared or changed
    role or tenant, and only [self] may have a new password. *)
Definition users_bounded (self : string) (us us' : UserStore) : Prop :=
  (forall k u', ust_users us' !! k = Some u' -> u_Role u' = RoleOwner ->
     exists u, ust_users us !! k = Some u /\ u_Role u = RoleOwner) /\
  (forall k u, ust_users us !! k = Some u -> exists u', ust_users us' !! k = Some u' /\
     u_Role u' = u_Role u /\ u_TenantID u' = u_TenantID u /\
     (k <> self -> u_PasswordHash u' = u_PasswordHash u)).
Definition tokens_bounded (ts ts' : TokenStore) : Prop :=
  forall id t', ts_tokens ts' !! id = Some t' -> t_Role t' = RoleOwner ->
    exists t, ts_tokens ts !! id = Some t /\ t_Role t = RoleOwner.

Definition bounded (self : string) (c c' : Credentials) : Prop :=
  match cr_users c, cr_users c' with
  | Some us, Some us' => users_bounded self us us'
  | None, None => True
  | _, _ => False
  end /\
  match cr_tokenStore c, cr_tokenStore c' with
  | Some ts, Some ts' => tokens_bounded ts ts'
  | None, None => True
  | _, _ => False
  end.

(** ** Lemmas *)

Lemma users_bounded_same self us us' : ust_users us' = ust_users us -> users_bounded self us us'.
Proof. intros E. split; intros k x; rewrite E; intros Hx; [by eauto|]. by exists x. Qed.

Lemma tokens_bounded_same ts ts' : ts_tokens ts' = ts_tokens ts -> tokens_bounded ts ts'.
Proof. intros E id t. rewrite E. eauto. Qed.

Lemma bounded_refl self c : bounded self c c.
Proof. split; [destruct (cr_users c)|destruct (cr_tokenStore c)]; try done;
  [by apply users_bounded_same|by apply tokens_bounded_same]. Qed.

Lemma bounded_trans self c1 c2 c3 : bounded self c1 c2 -> bounded self c2 c3 -> bounded self c1 c3.
Proof.
  intros [Hu1 Ht1] [Hu2 Ht2]. split.
  - destruct (cr_users c1), (cr_users c2), (cr_users c3); try done.
    destruct Hu1 as [A1 B1], Hu2 as [A2 B2]. split.
    + intros k u3 H3 R3. destruct (A2 k u3 H3 R3) as (u2 & H2 & R2). eauto.
    + intros k x H1. destruct (B1 k x H1) as (u2 & H2 & E1 & E2 & E3).
      destruct (B2 k u2 H2) as (u3 & H3 & E4 & E5 & E6). exists u3.
      split_and!; [done|congruence|congruence|]. intros Hk. rewrite E6, E3; done.
  - destruct (cr_tokenStore c1), (cr_tokenStore c2), (cr_tokenStore c3); try done.
    intros id t3 H3 R3. destruct (Ht2 id t3 H3 R3) as (t2 & H2 & R2). by apply (Ht1 id t2).
Qed.

Lemma bounded_frame self c c' : cr_users c' = cr_users c -> cr_tokenStore c' = cr_tokenStore c -> bounded self c c'.
Proof. intros Hu Ht. pose proof (bounded_refl self c) as Hr. unfold bounded in *. by rewrite Hu, Ht. Qed.

Lemma bounded_set_users self c us us' : cr_users c = Some us -> users_bounded self us us' ->
  bounded self c (set_users us' c).
Proof.
  intros Hu Hb. split; simpl; [by rewrite Hu|]. destruct (cr_tokenStore c); [|done]. by apply tokens_bounded_same.
Qed.

Lemma bounded_set_tokens self c ts ts' : cr_tokenStore c = Some ts -> tokens_bounded ts ts' ->
  bounded self c (set_tokenStore ts' c).
Proof.
  intros Ht Hb. split; simpl; [|by rewrite Ht]. destruct (cr_users c); [|done]. by apply users_bounded_same.
Qed.

Section lemmas.
Context `{MapIter} `{Bcrypt}.

Lemma token_Lookup_bounded now ok x ts : tokens_bounded ts (token_Lookup now ok x ts).1.
Proof.
  destruct (Lookup_cases now ok x ts) as [->|(id & t & _ & Ht & E & _)]; [by apply tokens_bounded_same|].
  intros id' t'. rewrite E, lookup_insert. case_decide; [|by eauto]. subst. intros [= <-]. simpl. by eauto.
Qed.

Lemma lookup_user_session_bounded self now token c : bounded self c (lookup_user_session now token c).1.
Proof.
  unfold lookup_user_session, LookupSession. destruct (cr_users c) as [us|] eqn:Eu; [|apply bounded_refl].
  pose proof (find_session_users now token us) as Hf. destruct (find_session now token us) as [us' sess].
  simpl in *. apply bounded_set_users with us; [done|]. by apply users_bounded_same.
Qed.

Lemma store_token_bounded self now ok token c : bounded self c (roleAndTenantForStoreToken now ok token c).1.
Proof.
  unfold roleAndTenantForStoreToken. destruct (cr_tokenStore c) as [ts|] eqn:Et; [|apply bounded_refl].
  pose proof (token_Lookup_bounded now ok token ts) as Hb. destruct (token_Lookup now ok token ts) as [ts' res].
  by apply bounded_set_tokens with ts.
Qed.

(** Resolving a token changes no account. *)
Lemma roleForToken_bounded self now ok token c : bounded self c (roleForToken now ok token c).1.
Proof.
  unfold roleForToken. destruct (token ==s ""); [apply bounded_refl|].
  destruct (cr_roles c !! token); [apply bounded_refl|].
  destruct (_ && _); [apply bounded_refl|].
  destruct (cr_tenantTokens c !! token); [apply bounded_refl|].
  pose proof (roleForSession_frame now token c) as [Hfu Hft].
  destruct (roleForSession now token c) as [c1 r1]. simpl in *.
  assert (bounded self c c1) as H1 by (by apply bounded_frame).
  destruct (negb _); [done|]. unfold roleForUserSession.
  pose proof (lookup_user_session_bounded self now token c1) as H2.
  destruct (lookup_user_session now token c1) as [c2 r2]. simpl in *.
  assert (bounded self c c2) as H12 by (by eapply bounded_trans).
  destruct (negb _); [done|].
  pose proof (store_token_bounded self now ok token c2) as H3.
  destruct (roleAndTenantForStoreToken now ok token c2) as [c3 r3]. simpl in *. by eapply bounded_trans.
Qed.

Lemma currentUsername_bounded self now r c : bounded self c (currentUsername now r c).1.
Proof.
  unfold currentUsername, UsernameForSession. destruct (cr_users c) as [us|] eqn:Eu; [|apply bounded_refl].
  pose proof (find_session_users now (request_token r) us) as Hf.
  destruct (find_session now (request_token r) us) as [us' sess].
  simpl in *. apply bounded_set_users with us; [done|]. by apply users_bounded_same.
Qed.

Lemma bounded_users_some self c c' us : bounded self c c' -> cr_users c = Some us -> is_Some (cr_users c').
Proof. intros [Hb _] E. rewrite E in Hb. by destruct (cr_users c'). Qed.
Lemma bounded_tokens_some self c c' ts : bounded self c c' -> cr_tokenStore c = Some ts -> is_Some (cr_tokenStore c').
Proof. intros [_ Hb] E. rewrite E in Hb. by destruct (cr_tokenStore c'). Qed.

Lemma Create_bounded self now salt ok n p role tn us : role <> RoleOwner ->
  users_bounded self us (user_Create now salt ok n p role tn us).1.
Proof.
  intros Hr. unfold user_Create. repeat case_match; simplify_eq/=; try (by apply users_bounded_same).
  - split; simpl; intros k u.
    + rewrite lookup_insert. case_decide; [|by eauto]. by intros [= <-].
    + intros Hk. exists u. rewrite lookup_insert_ne by congruence. done.
  - apply users_bounded_same. simpl. rewrite delete_insert_eq. by apply delete_id.
Qed.

Lemma SetPassword_bounded self now salt ok n p us : ToLower n = self ->
  users_bounded self us (SetPassword now salt ok n p us).1.
Proof.
  intros <-. unfold SetPassword. destruct (_ <? _)%nat; [by apply users_bounded_same|].
  destruct (bcrypt_generate p salt) as [hash|]; [|by apply users_bounded_same].
  destruct (ust_users us !! ToLower n) as [u|] eqn:Eu; [|by apply users_bounded_same].
  unfold users_bounded. simpl. rewrite (proj1 (user_persist_maps _ _)). simpl. split; intros k u'.
  - rewrite lookup_insert. case_decide; [|by eauto]. subst. intros [= <-]. simpl. by eauto.
  - intros Hk. rewrite lookup_insert. case_decide; [|by eauto]. subst. rewrite Eu in Hk. injection Hk as <-.
    eexists. split; [done|]. by split_and!.
Qed.

Lemma Mint_bounded now ok i x n role tn by_ ts : CanonicalRole role <> RoleOwner ->
  tokens_bounded ts (Mint now ok i x n role tn by_ ts).1.
Proof.
  intros Hr. unfold Mint. destruct (n ==s ""); [by apply tokens_bounded_same|].
  destruct (CanonicalRole role ==s ""); [by apply tokens_bounded_same|].
  destruct i as [i|], x as [x|]; try (by apply tokens_bounded_same).
  destruct ok; intros id t'; simpl.
  - rewrite lookup_insert. case_decide; [|by eauto]. by intros [= <-].
  - intros [_ Ht]%lookup_delete_Some. rewrite lookup_insert in Ht. case_decide; [|by eauto]. by injection Ht as <-.
Qed.

Lemma Revoke_bounded ok id ts : tokens_bounded ts (Revoke ok id ts).1.
Proof.
  unfold Revoke. destruct (ts_tokens ts !! id) as [t|]; [|by apply tokens_bounded_same].
  intros id' t'. simpl. rewrite (proj1 (persist_maps _ _)). simpl. intros [_ Ht]%lookup_delete_Some. by eauto.
Qed.

Lemma CanonicalRole_idem r : CanonicalRole (CanonicalRole r) = CanonicalRole r.
Proof. unfold CanonicalRole. repeat case_match; simplify_eq/=; done. Qed.
End lemmas.

(** The key of the user the request is signed in as. *)
Definition caller_key `{MapIter} (now : Z) (io : admin_io) (r : request) (c : Credentials) : string :=
  ToLower (currentUsername now r (roleOfRequest now (ai_tokens io) r c).1).2.

Section bounded.
Context `{MapIter} `{Bcrypt} (now : Z) (io : admin_io) (r : request) (c : Credentials).
Context (Hrole : (roleOfRequest now (ai_tokens io) r c).2 <> RoleOwner).
Let self := caller_key now io r c.

Lemma caller_bounded : bounded self c (roleOfRequest now (ai_tokens io) r c).1.
Proof. apply roleForToken_bounded. Qed.

Lemma caller_named_bounded : bounded self c (currentUsername now r (roleOfRequest now (ai_tokens io) r c).1).1.
Proof. eapply bounded_trans; [apply caller_bounded|apply currentUsername_bounded]. Qed.

Lemma createUser_bounded body us : cr_users c = Some us ->
  bounded self c (createUser now io r body us c).1.
Proof.
  intros Hus. unfold createUser. destruct body as [b|]; [|apply bounded_refl].
  destruct (_ || _); [apply bounded_refl|].
  destruct (CanonicalRole (ub_Role b) ==s ""); [apply bounded_refl|].
  destruct (CanonicalRole (ub_Role b) ==s RoleOwner) eqn:Eo; breflect.
  - pose proof caller_bounded as Hb. revert Hrole Hb.
    destruct (roleOfRequest now (ai_tokens io) r c) as [c1 caller]. simpl. intros Hne Hb.
    by rewrite (eqb_neq_s _ _ Hne).
  - simpl. rewrite Hus. pose proof (Create_bounded self now (ai_salt io) (ai_users io) (ub_Username b)
      (ub_Password b) (CanonicalRole (ub_Role b)) (ub_TenantID b) us Eo) as Hb.
    destruct (user_Create _ _ _ _ _ _ _ _) as [us2 []]; simpl in *; by apply bounded_set_users with us.
Qed.

Lemma updateUser_bounded name body us : bounded self c (updateUser now io r name body us c).1.
Proof.
  unfold updateUser. pose proof caller_bounded as Hb. revert Hrole Hb.
  destruct (roleOfRequest now (ai_tokens io) r c) as [c1 caller]. simpl. intros Hne Hb.
  by rewrite (eqb_neq_s _ _ Hne).
Qed.

Lemma deleteUser_bounded name us : bounded self c (deleteUser now io r name us c).1.
Proof.
  unfold deleteUser. pose proof caller_bounded as Hb. revert Hrole Hb.
  destruct (roleOfRequest now (ai_tokens io) r c) as [c1 caller]. simpl. intros Hne Hb.
  by rewrite (eqb_neq_s _ _ Hne).
Qed.

Lemma changePassword_bounded name body us : cr_users c = Some us ->
  bounded self c (changePassword now io r name body us c).1.
Proof.
  intros Hus. unfold changePassword. destruct (negb _); [apply bounded_refl|].
  destruct body as [password|]; [|apply bounded_refl].
  pose proof caller_named_bounded as Hb. subst self. unfold caller_key in *. revert Hrole Hb.
  destruct (roleOfRequest now (ai_tokens io) r c) as [c1 role]. simpl.
  destruct (currentUsername now r c1) as [c2 caller]. simpl. intros Hne Hb.
  rewrite (eqb_neq_s _ _ Hne), andb_true_r. destruct (EqualFold caller name) eqn:Ef; simpl; [|done].
  destruct (bounded_users_some _ _ _ _ Hb Hus) as [us2 Hus2].
  unfold users_of. rewrite Hus2.
  assert (ToLower name = ToLower caller) as Hn by (symmetry; by apply String.eqb_eq).
  pose proof (SetPassword_bounded (ToLower caller) now (ai_salt io) (ai_users io) name password us2 Hn) as Hsp.
  destruct (SetPassword _ _ _ _ _ _) as [us3 []]; simpl in *;
    (eapply bounded_trans; [exact Hb|by apply bounded_set_users with us2]).
Qed.

Lemma mintToken_bounded body ts : cr_tokenStore c = Some ts ->
  bounded self c (mintToken now io r body ts c).1.
Proof.
  intros Hts. unfold mintToken. destruct body as [b|]; [|apply bounded_refl].
  destruct (CanonicalRole (tb_Role b) ==s ""); [apply bounded_refl|].
  pose proof caller_named_bounded as Hb. pose proof caller_bounded as Hb1. revert Hrole Hb Hb1.
  destruct (roleOfRequest now (ai_tokens io) r c) as [c1 role]. simpl. intros Hne Hb Hb1.
  destruct (CanonicalRole (tb_Role b) ==s RoleOwner) eqn:Eo; simpl; breflect.
  { by rewrite (eqb_neq_s _ _ Hne). }
  destruct (currentUsername now r c1) as [c2 caller]. simpl in *.
  destruct (bounded_tokens_some _ _ _ _ Hb Hts) as [ts2 Hts2]. unfold tokens_of. rewrite Hts2.
  pose proof (Mint_bounded now (ai_tokens io) (ai_id io) (ai_secret io) (tb_Name b) (CanonicalRole (tb_Role b))
    (tb_TenantID b) caller ts2) as Hm. rewrite CanonicalRole_idem in Hm. specialize (Hm Eo).
  destruct (Mint _ _ _ _ _ _ _ _ _) as [ts3 []]; simpl in *;
    (eapply bounded_trans; [exact Hb|by apply bounded_set_tokens with ts2]).
Qed.

Lemma admin_run_bounded call : bounded self c (admin_run now io r call c).1.
Proof.
  destruct call as [body|body password|body|]; simpl.
  - unfold handleUsersCollection. destruct (cr_users c) as [us|] eqn:Eu; [|apply bounded_refl].
    destruct (_ ==s "GET"); [apply bounded_refl|]. destruct (_ ==s "POST"); [|apply bounded_refl].
    by apply createUser_bounded.
  - unfold handleUserByName. destruct (cr_users c) as [us|] eqn:Eu; [|apply bounded_refl].
    destruct (_ || _); [apply bounded_refl|]. destruct (cut_slash _) as [username suffix].
    destruct (username ==s ""); [apply bounded_refl|].
    destruct (suffix ==s "password"); [by apply changePassword_bounded|].
    destruct (negb _); [apply bounded_refl|]. destruct (_ ==s "GET"); [apply bounded_refl|].
    destruct (_ || _); [by apply updateUser_bounded|].
    destruct (_ ==s "DELETE"); [by apply deleteUser_bounded|apply bounded_refl].
  - unfold handleTokensCollection. destruct (cr_tokenStore c) as [ts|] eqn:Et; [|apply bounded_refl].
    destruct (_ ==s "GET"); [apply bounded_refl|]. destruct (_ ==s "POST"); [|apply bounded_refl].
    by apply mintToken_bounded.
  - unfold handleTokenByID. destruct (cr_tokenStore c) as [ts|] eqn:Et; [|apply bounded_refl].
    destruct (_ || _); [apply bounded_refl|]. destruct (negb _); [apply bounded_refl|].
    pose proof (Revoke_bounded (ai_tokens io) (TrimPrefix (rq_Path r) "/v1/tokens/") ts) as Hr.
    destruct (Revoke _ _ _) as [ts2 []]; simpl in *; by apply bounded_set_tokens with ts.
Qed.
End bounded.

(** ** Properties *)


(** The bootstrap token is not an owner.  A request with the configured
    admin token resolves to the legacy role name, not to the owner role, so
    the handlers refuse it everything reserved to owners: creating an owner
    account or token, updating and deleting users. *)
Theorem bootstrap_token_refused `{MapIter} `{Bcrypt} now io r c name role us ts ubody body tbody :
  cr_authToken c <> "" -> request_token r = cr_authToken c -> cr_roles c !! cr_authToken c = None ->
  CanonicalRole role = RoleOwner -> ub_Role ubody = role -> ub_Username ubody <> "" -> ub_Password ubody <> "" ->
  tb_Role tbody = role ->
  createUser now io r (Some ubody) us c = (c, afail 403) /\
  updateUser now io r name body us c = (c, afail 403) /\
  deleteUser now io r name us c = (c, afail 403) /\
  mintToken now io r (Some tbody) ts c = (c, afail 403).
Proof.
  intros Hne Htok Hnr Hcan Hr Hn Hp Htr.
  assert (roleOfRequest now (ai_tokens io) r c = (c, RoleSuperAdmin)) as Hrole.
  { unfold roleOfRequest, roleForToken. by rewrite Htok, (eqb_neq_s _ _ Hne), Hnr, eqb_refl_s. }
  assert (role <> "") as Hr0 by (intros ->; discriminate).
  split_and!.
  - unfold createUser. rewrite Hr, (eqb_neq_s _ _ Hn), (eqb_neq_s _ _ Hp), (eqb_neq_s _ _ Hr0). simpl.
    rewrite Hcan. simpl. by rewrite Hrole.
  - unfold updateUser. by rewrite Hrole.
  - unfold deleteUser. by rewrite Hrole.
  - unfold mintToken. rewrite Htr, Hcan. simpl. by rewrite Hrole.
Qed.

(** ** Witnesses *)

Definition sample_aio : admin_io := mkAIO "salt" true true (Some "01") (Some "x").
Definition admin_creds : Credentials :=
  mkCreds "root" ∅ {["adm" := RoleAdmin]} None (Some sample_users) (Some empty_tokens).


Lemma bootstrap_token_refused_witness :
  let r := mkReq "POST" "/v1/tokens" "Bearer root" "" "" "" None in
  @mintToken canonical_iter 1 sample_aio r (Some (mkTokenBody "ci" "owner" "")) empty_tokens admin_creds
  = (admin_creds, afail 403).
Proof.
  intros r. apply (@bootstrap_token_refused canonical_iter plain_bcrypt 1 sample_aio r admin_creds "" "owner" sample_users
    empty_tokens (mkUserBody "a" "b" "owner" "") None (mkTokenBody "ci" "owner" ""));
    try discriminate; reflexivity.
Defined.
