(* ===== verification/AuditApi.v ===== *)
(** * Disclosure and anchoring

    [control-plane/api/audit.go], [pkg/audit/rekor.go] and the canonical record
    of [pkg/audit/sign.go]: a single record with its Merkle proof against the
    window of records it was read with, and the witness of the chain head in a
    transparency log, itself recorded as an event. *)

From S2P Require Import Prelude Sha256 Utf8 DecimalText Rfc3339 Json Event Merkle EventStore.
From S2P Require Import Roles Tokens Users Server Policy PolicyStore PolicyApi AdminApi.

(** ** Canonical records *)

(** [CanonicalRecord] on an event that marshals: a map, keys sorted. *)
Definition CanonicalRecord (seq : Z) (ingestAt prevHash : string) (event : json) : string :=
  marshal (JObj [ ("event", event); ("ingest_at", JStr ingestAt); ("prev_hash", JStr prevHash);
                  ("seq", JNum (dec_string seq)) ]).

(** [canonicalRecordBytes]; an event that does not marshal leaves an empty raw
    message, which does not marshal either. *)
Definition canonicalRecordBytes (r : Rec) : string :=
  if event_marshals (r_Event r)
  then CanonicalRecord (r_Seq r) (rfc3339nano (r_IngestAt r)) (r_PrevHash r) (event_opt_json (r_Event r))
  else "".

(** ** One record with its proof *)

Record disclosure := mkDisclosure {
  dc_record : Rec;
  dc_canonical : string;
  dc_signature : option string;
  dc_root : string;
  dc_proof : list ProofStep;
  dc_window : Z
}.

Inductive record_response :=
| RecError (code : Z)
| RecPanic
| RecOK (d : disclosure).

(** The loop that finds the record and its index: the last match wins. *)
Definition find_record (seq : Z) (recs : list Rec) : option (nat * Rec) :=
  last (filter (fun ir => (r_Seq ir.2 =? seq)%Z) (imap pair recs)).

Definition record_leaf (r : Rec) : string := sha256 (canonicalRecordBytes r).

(** [handleRecordByID]; [sign] is the installed signer. *)
Definition handleRecordByID (sign : option (string -> string)) (r : request) (s : Store) : record_response :=
  let rest := TrimPrefix (rq_Path r) "/v1/records/" in
  if (rest ==s rq_Path r) || (rest ==s "") then RecError 400
  else match ParseUint rest with
  | None => RecError 400
  | Some seq =>
    match Read (mkQuery 10000 "" "" "" "" "" "" 0 (tenantFor r)) s with
    | None => RecPanic
    | Some recs =>
      match find_record seq recs with
      | None => RecError 404
      | Some (idx, target) =>
        let canonical := canonicalRecordBytes target in
        let tree := NewMerkleTree (map record_leaf recs) in
        match merkle_Proof tree (Z.of_nat idx), Root tree with
        | Some proof, Some root =>
            RecOK (mkDisclosure target canonical (match sign with Some f => Some (f canonical) | None => None end)
                     root proof (Z.of_nat (length recs)))
        | _, _ => RecPanic
        end
      end
    end
  end.

(** ** Anchoring *)

Record RekorAnchor := mkAnchor {
  ra_HeadHash : string;
  ra_AnchoredAt : Z;
  ra_LogIndex : Z;
  ra_UUID : string;
  ra_URL : string;
  ra_IntegratedAt : Z
}.

(** The struct as JSON, fields in declaration order. *)
Definition anchor_fields (a : RekorAnchor) : list (string * bool * json) :=
  [ always "head_hash" (JStr (ra_HeadHash a));
    always "anchored_at" (JStr (rfc3339nano (ra_AnchoredAt a)));
    always "log_index" (JNum (dec_string (ra_LogIndex a)));
    always "uuid" (JStr (ra_UUID a));
    str_field "url" (ra_URL a);
    always "integrated_at" (JStr (rfc3339nano (ra_IntegratedAt a))) ].
Definition anchor_json (a : RekorAnchor) : json := JObj (fields (anchor_fields a)).

(** The adapter: absent, disabled, or a service.  Its reply is the first entry
    of the decoded response (uuid, log index, integration time in seconds),
    [None] when the exchange or the decoding fails. *)
Inductive rekor := RekorNone | RekorDisabled | RekorService (endpoint : string) (reply : option (string * Z * Z)).

Definition DefaultEndpoint : string := "https://rekor.sigstore.dev".

Inductive anchor_error := ErrNotConfigured | ErrEmptyChain | ErrRekor.

(** [Rekor.Anchor] *)
Definition rekor_Anchor (now : Z) (rk : rekor) (headHash : string) : result RekorAnchor anchor_error :=
  if headHash ==s "" then Err ErrRekor
  else match rk with
  | RekorNone => Err ErrNotConfigured
  | RekorDisabled =>
      let shortPrefix := if (8 <? String.length headHash)%nat then str_take 8 headHash else headHash in
      Ok (mkAnchor headHash now (-1) ("disabled-" +:+ shortPrefix) "" zero_time)
  | RekorService _ None => Err ErrRekor
  | RekorService endpoint (Some (uuid, logIndex, integrated)) =>
      let endpoint := if endpoint ==s "" then DefaultEndpoint else endpoint in
      Ok (mkAnchor headHash now logIndex uuid (endpoint +:+ "/api/v1/log/entries/" +:+ uuid)
            (if (0 <? integrated)%Z then (integrated * Second)%Z else zero_time))
  end.

(** [at.UTC().Format("20060102150405.000")] *)
Definition compact_stamp (t : Z) : string :=
  let secs := (t / 1000000000)%Z in
  let ms := (t mod 1000000000 / 1000000)%Z in
  let '(y, m, d) := civil_of_days (secs / 86400) in
  let sod := (secs mod 86400)%Z in
  digits 4 y +:+ digits 2 m +:+ digits 2 d +:+ digits 2 (sod / 3600) +:+ digits 2 (sod / 60 mod 60)
  +:+ digits 2 (sod mod 60) +:+ "." +:+ digits 3 ms.

(** [newSyntheticEvent] *)
Definition newSyntheticEvent (at_ : Z) (ruleID category description : string) (metadata : list (string * json)) : Event :=
  mkEvent SchemaVersion (ruleID +:+ "-" +:+ compact_stamp at_) at_ "control-plane" "" "" "" "control" "synthetic"
    "" "" no_message
    [mkFinding ruleID category SeverityInfo description "" "" "0" metadata] ActionAllow SeverityInfo 0.

(** The metadata map of the anchor event; Marshal prints its keys sorted. *)
Definition anchor_event (now : Z) (a : RekorAnchor) : Event :=
  newSyntheticEvent now "audit.rekor.anchor" "audit_anchor"
    ("chain head anchored to rekor: head=" +:+ ra_HeadHash a +:+ " log_index=" +:+ dec_string (ra_LogIndex a))
    [ ("head_hash", JStr (ra_HeadHash a));
      ("integrated_at", JStr (rfc3339nano (ra_IntegratedAt a)));
      ("log_index", JNum (dec_string (ra_LogIndex a)));
      ("raw", anchor_json a);
      ("url", JStr (ra_URL a));
      ("uuid", JStr (ra_UUID a)) ].

(** [AnchorChainHead] with [recordAnchorEvent]. *)
Definition AnchorChainHead (now : Z) (io : append_io) (rk : rekor) (s : Api) : Api * result RekorAnchor anchor_error :=
  match rk with
  | RekorNone => (s, Err ErrNotConfigured)
  | _ =>
    let '(_, _, head) := store_Stats (ap_log s) in
    if head ==s "" then (s, Err ErrEmptyChain)
    else match rekor_Anchor now rk head with
    | Err e => (s, Err e)
    | Ok a => ((append_and_broadcast now io (anchor_event now a) s).1, Ok a)
    end
  end.

(** ** Lemmas *)

#[local] Opaque sha256.

Lemma find_record_Some seq recs r : r ∈ recs -> r_Seq r = seq -> exists i x,
  find_record seq recs = Some (i, x) /\ recs !! i = Some x /\ r_Seq x = seq.
Proof.
  intros Hr Hs. unfold find_record.
  destruct (last (filter _ _)) as [[i x]|] eqn:E.
  - apply last_Some_elem_of, list_elem_of_filter in E as [Hx Hin]. exists i, x. split; [done|].
    apply Is_true_true in Hx. simpl in Hx. breflect. split; [|done].
    apply list_elem_of_lookup_1 in Hin as [k Hk].
    rewrite list_lookup_imap in Hk. destruct (recs !! k) as [y|] eqn:Ey; [|done]. simpl in Hk.
    injection Hk as -> ->. done.
  - exfalso. apply last_None in E. apply list_elem_of_lookup_1 in Hr as [k Hk].
    apply (not_elem_of_nil (k, r)). rewrite <- E. apply list_elem_of_filter. split.
    + simpl. rewrite Hs, Z.eqb_refl. exact I.
    + apply list_elem_of_lookup. exists k. by rewrite list_lookup_imap, Hk.
Qed.

Lemma sorted_seq_inj rs a b : StronglySorted (fun x y => r_Seq x < r_Seq y)%Z rs ->
  a ∈ rs -> b ∈ rs -> r_Seq a = r_Seq b -> a = b.
Proof.
  induction 1 as [|x l _ IH Hx]; [by intros ?%elem_of_nil|].
  rewrite Forall_forall in Hx. rewrite !elem_of_cons. intros [->|Ha] [->|Hb] Hs; [done| | |by apply IH].
  - specialize (Hx b Hb). lia.
  - specialize (Hx a Ha). lia.
Qed.

Lemma dec_string_nonempty z : dec_string z <> "".
Proof. intros E. pose proof (parse_dec_string z) as H. rewrite E in H. discriminate. Qed.

(** ** Properties *)

(** C28. A disclosed record verifies.  For every record of the window a request
    may read, asking for its sequence number returns that record, its canonical
    bytes, and a Merkle proof that verifies the hash of those bytes against the
    returned root. *)
Theorem disclosed_record_verifies sign r s rs recs r0 :
  holds s rs -> Read (mkQuery 10000 "" "" "" "" "" "" 0 (tenantFor r)) s = Some recs -> r0 ∈ recs ->
  rq_Path r = "/v1/records/" +:+ dec_string (r_Seq r0) ->
  exists d, handleRecordByID sign r s = RecOK d /\ dc_record d = r0 /\
    dc_canonical d = canonicalRecordBytes r0 /\ dc_window d = Z.of_nat (length recs) /\
    VerifyProof (sha256 (dc_canonical d)) (dc_proof d) (dc_root d) = true.
Proof.
  intros Hs Hread Hin Hpath. unfold handleRecordByID. rewrite Hpath, TrimPrefix_app.
  rewrite (eqb_neq_s _ _ (dec_string_nonempty _)).
  assert ((dec_string (r_Seq r0) ==s "/v1/records/" +:+ dec_string (r_Seq r0)) = false) as ->.
  { apply eqb_neq_s. intros E%(f_equal String.length). rewrite sapp_length in E. simpl in E. lia. }
  pose proof (Read_subset s rs _ recs Hs Hread) as Hsub.
  pose proof (h_recs _ _ Hs) as Hok. rewrite Forall_forall in Hok.
  destruct (Hok r0 (Hsub r0 Hin)) as (_ & Hseq & _).
  rewrite ParseUint_string by (unfold max_uint64 in *; lia). cbn [orb]. rewrite Hread.
  destruct (find_record_Some (r_Seq r0) recs r0 Hin eq_refl) as (i & x & -> & Hi & Hx).
  assert (x = r0) as ->.
  { apply (sorted_seq_inj rs); [apply (h_order _ _ Hs)| |by apply Hsub|done].
    by eapply Hsub, list_elem_of_lookup_2. }
  assert (map record_leaf recs !! i = Some (record_leaf r0)) as Hleaf by (by rewrite list_lookup_fmap, Hi).
  destruct (proof_complete _ _ _ Hleaf) as (path & root & Hp & Hr & Hf). rewrite Hp, Hr.
  eexists. split; [done|]. simpl. split_and!; [done..|].
  unfold VerifyProof. unfold record_leaf in Hf. by rewrite Hf, eqb_refl_s.
Qed.

(** Anchoring breaks the chain it anchors.  Recording the witness of a
    verified log's head appends an event that carries the witness in struct
    order; read back it prints with sorted keys, and the log reports a hash
    mismatch at that event. *)
Theorem anchor_breaks_chain :
  let s := mkApi (mkCreds "" ∅ ∅ None None None) None sample_store [] None "" in
  Verify (ap_log s) = None /\
  let '(s', res) := AnchorChainHead 95 AppendOK RekorDisabled s in
  (exists a, res = Ok a /\ ra_HeadHash a = es_prevHash sample_store) /\
  (exists r, Verify (ap_log s') = Some (EMismatch r) /\ r_Seq r = 3%Z).
Proof. vm_compute. split; [done|]. split; eexists; done. Qed.

(** ** Witnesses *)

#[local] Transparent sha256.

Definition sample_get : request := mkReq "GET" "/v1/records/1" "" "" "" "" None.

Lemma disclosed_record_verifies_witness :
  exists d, handleRecordByID None sample_get sample_store = RecOK d /\ r_Seq (dc_record d) = 1%Z /\
    VerifyProof (sha256 (dc_canonical d)) (dc_proof d) (dc_root d) = true.
Proof.
  destruct (disclosed_record_verifies None sample_get sample_store sample_records (rev sample_records)
    (new_record 1 (sample_event "acme" "a") (fresh_store "events.log" 50 8)) sample_holds)
    as (d & Hd & Hr & _ & _ & Hv).
  - vm_compute. reflexivity.
  - apply list_elem_of_In. right. left. reflexivity.
  - vm_compute. reflexivity.
  - exists d. split; [exact Hd|]. split; [rewrite Hr; vm_compute; reflexivity|exact Hv].
Defined.
