(* ===== verification/Jwks.v ===== *)
(** * ID tokens

    [control-plane/api/oidc_jwks.go] and the part of [oidc.go] that turns a
    verified token into a session: the key set with its cache, the signature,
    the four claims.  Each refresh of the key set takes its outcome from a
    list; RSA, ECDSA and the longer hashes are a parameter. *)

From Stdlib Require Import SpecFloat.
From S2P Require Import Prelude Text Sha256 Utf8 Float64 FloatText Json Normalize Ruleset Http.
From S2P Require Import Roles Tokens Users Server.

Inductive hash_alg := SHA256 | SHA384 | SHA512.
Inductive curve := P256 | P384.

(** The standard library's cryptography, and what a conversion to [int64]
    gives for a value out of range. *)
Class JwtCrypto := {
  sha384 : string -> string;
  sha512 : string -> string;
  VerifyPKCS1v15 : hash_alg -> Z -> Z -> string -> string -> bool;
  ecdsa_Verify : curve -> Z -> Z -> string -> Z -> Z -> bool;
  int64_out_of_range : spec_float -> Z
}.

(** ** The key set *)

Record jsonWebKey := mkJWK { jk_Kty : string; jk_Kid : string; jk_N : string; jk_E : string; jk_X : string; jk_Y : string }.

Record jwksCache := mkJwks { jw_keys : option (gmap string jsonWebKey); jw_fetchedAt : Z }.

Definition jwksCacheTTL : Z := (60 * Minute)%Z.

Inductive jwt_error :=
| ErrParts (n : nat)
| ErrHeader
| ErrSigEncoding
| ErrRefresh
| ErrKid (kid : string)
| ErrSignature
| ErrPayload
| ErrIss
| ErrAud
| ErrExpired
| ErrNoExp
| ErrIat.

(** The outcomes of the fetches to come: the decoded document, or a failure. *)
Definition fetches : Type := list (option (list jsonWebKey)).

(** [refreshJWKSLocked]. *)
Definition refreshJWKS (now : Z) (uri : string) (c : jwksCache) (fs : fetches) : jwksCache * fetches * bool :=
  if uri ==s "" then (c, fs, false)
  else match fs with
  | Some doc :: fs' =>
      (mkJwks (Some (fold_left (fun m k => if jk_Kid k ==s "" then m else <[jk_Kid k := k]> m) doc ∅)) now, fs', true)
  | None :: fs' => (c, fs', false)
  | [] => (c, [], false)
  end.

Definition jwks_lookup (kid : string) (c : jwksCache) : option jsonWebKey := m ← jw_keys c; m !! kid.

(** [fetchJWK]. *)
Definition fetchJWK (now : Z) (uri kid : string) (force : bool) (c : jwksCache) (fs : fetches)
    : jwksCache * fetches * result jsonWebKey jwt_error :=
  let stale := (jwksCacheTTL <? time_Sub now (jw_fetchedAt c))%Z in
  let '(c1, fs1, ok) :=
    if force || match jw_keys c with None => true | Some _ => false end || stale then refreshJWKS now uri c fs else (c, fs, true) in
  if negb ok then (c1, fs1, Err ErrRefresh)
  else match jwks_lookup kid c1 with
  | Some k => (c1, fs1, Ok k)
  | None =>
      if negb force && negb stale then
        let '(c2, fs2, ok2) := refreshJWKS now uri c1 fs1 in
        if negb ok2 then (c2, fs2, Err ErrRefresh)
        else match jwks_lookup kid c2 with
             | Some k => (c2, fs2, Ok k)
             | None => (c2, fs2, Err (ErrKid kid))
             end
      else (c1, fs1, Err (ErrKid kid))
  end.

(** ** Encodings *)

(** [encoding/base64] ignores line breaks. *)
Fixpoint strip_newlines (s : string) : string :=
  match s with
  | EmptyString => EmptyString
  | String c s' => if Ascii.eqb c "010" || Ascii.eqb c "013" then strip_newlines s' else String c (strip_newlines s')
  end.
Definition raw_url_decode (s : string) : option string := b64_decode true false (strip_newlines s).
Definition url_decode (s : string) : option string :=
  match raw_url_decode s with Some r => Some r | None => b64_decode true true (strip_newlines s) end.

(** [big.Int.SetBytes]. *)
Fixpoint be_value (acc : Z) (s : string) : Z :=
  match s with EmptyString => acc | String c s' => be_value (acc * 256 + Z.of_N (N_of_ascii c)) s' end.

(** The exponent of a key, in an [int]. *)
Fixpoint exponent_value (acc : Z) (s : string) : Z :=
  match s with EmptyString => acc | String c s' => exponent_value (wrap64 (acc * 256 + Z.of_N (N_of_ascii c))) s' end.

(** ** Signatures *)

Section jwt.
Context `{JsonText} `{JwtCrypto}.

Definition jwkToRSA (k : jsonWebKey) : option (Z * Z) :=
  if jk_Kty k !=s "RSA" then None
  else
    n ← raw_url_decode (jk_N k);
    e ← raw_url_decode (jk_E k);
    let e := exponent_value 0 e in
    if (e =? 0)%Z then None else Some (be_value 0 n, e).

Definition jwkToECDSA (k : jsonWebKey) : option (Z * Z) :=
  if jk_Kty k !=s "EC" then None
  else x ← raw_url_decode (jk_X k); y ← raw_url_decode (jk_Y k); Some (be_value 0 x, be_value 0 y).

Definition verifyECDSA (c : curve) (pub : Z * Z) (hash sig : string) (coordSize : nat) : bool :=
  (String.length sig =? 2 * coordSize)%nat
  && ecdsa_Verify c pub.1 pub.2 hash (be_value 0 (str_take coordSize sig)) (be_value 0 (str_drop coordSize sig)).

Definition hash_of (h : hash_alg) (s : string) : string :=
  match h with SHA256 => sha256 s | SHA384 => sha384 s | SHA512 => sha512 s end.

Definition rsa_check (h : hash_alg) (k : jsonWebKey) (signed sig : string) : bool :=
  match jwkToRSA k with Some (n, e) => VerifyPKCS1v15 h n e (hash_of h signed) sig | None => false end.
Definition ecdsa_check (c : curve) (h : hash_alg) (size : nat) (k : jsonWebKey) (signed sig : string) : bool :=
  match jwkToECDSA k with Some pub => verifyECDSA c pub (hash_of h signed) sig size | None => false end.

(** [verifyJWTSignature] succeeds. *)
Definition verifyJWTSignature (alg : string) (key : jsonWebKey) (signed sig : string) : bool :=
  if alg ==s "RS256" then rsa_check SHA256 key signed sig
  else if alg ==s "RS384" then rsa_check SHA384 key signed sig
  else if alg ==s "RS512" then rsa_check SHA512 key signed sig
  else if alg ==s "ES256" then ecdsa_check P256 SHA256 32 key signed sig
  else if alg ==s "ES384" then ecdsa_check P384 SHA384 48 key signed sig
  else false.

(** ** Claims *)

(** [int64(v)] of a [float64]: truncated; out of range, what the platform gives. *)
Definition int64_of_float (x : spec_float) : Z :=
  match x with
  | S754_zero _ => 0%Z
  | S754_finite s m e =>
      let t := (if (0 <=? e)%Z then Zpos m * 2 ^ e else Zpos m / 2 ^ (- e))%Z in
      let t := if s then (- t)%Z else t in
      if (min_int64 <=? t)%Z && (t <=? max_int64)%Z then t else int64_out_of_range x
  | _ => int64_out_of_range x
  end.

Definition stringClaim (claims : list (string * json)) (key : string) : string :=
  match obj_get key claims with Some (JStr s) => s | _ => "" end.
Definition numericClaim (claims : list (string * json)) (key : string) : option Z :=
  match obj_get key claims with Some (JNum lit) => Some (int64_of_float (number_value lit)) | _ => None end.

Definition aud_includes (aud : option json) (client : string) : bool :=
  match aud with
  | Some (JStr s) => s ==s client
  | Some (JArr l) => existsb (fun v => match v with JStr s => s ==s client | _ => "" ==s client end) l
  | _ => false
  end.

(** [validateClaims]; the clock in whole seconds. *)
Definition validateClaims (nowUnix : Z) (claims : list (string * json)) (issuer client : string) : option jwt_error :=
  if TrimRight (stringClaim claims "iss") "/" !=s TrimRight issuer "/" then Some ErrIss
  else if negb (aud_includes (obj_get "aud" claims) client) then Some ErrAud
  else match numericClaim claims "exp" with
  | None => Some ErrNoExp
  | Some exp =>
      if (exp <=? nowUnix)%Z then Some ErrExpired
      else match numericClaim claims "iat" with
           | Some iat => if (wrap64 (nowUnix + 300) <? iat)%Z then Some ErrIat else None
           | None => None
           end
  end.

(** [decodeIDTokenClaims]. *)
Definition decodeIDTokenClaims (idToken : string) : option (list (string * json)) :=
  match split_on "." idToken with
  | _ :: p :: _ =>
      body ← url_decode p;
      match Unmarshal body with Some (JObj o) => Some o | Some JNull => Some [] | _ => None end
  | _ => None
  end.

(** The algorithm and the key id of a decoded header. *)
Definition jwt_header (v : json) : option (string * string) :=
  match v with
  | JNull => Some ("", "")
  | JObj o => alg ← get_str "alg" o; kid ← get_str "kid" o; _ ← get_str "typ" o; Some (alg, kid)
  | _ => None
  end.

Definition decode_header (p : string) : option (string * string) := s ← url_decode p; v ← Unmarshal s; jwt_header v.

(** ** Verification *)

Record oidcSettings := mkOidcSettings { os_Issuer : string; os_ClientID : string; os_JWKSURI : string }.

(** The key, with one more attempt that forces a refresh. *)
Definition find_key (now : Z) (uri kid : string) (c : jwksCache) (fs : fetches) : jwksCache * fetches * result jsonWebKey jwt_error :=
  let '(c1, fs1, r) := fetchJWK now uri kid false c fs in
  match r with Ok k => (c1, fs1, Ok k) | Err _ => fetchJWK now uri kid true c1 fs1 end.

Definition verifyIDToken (now : Z) (cfg : oidcSettings) (idToken : string) (c : jwksCache) (fs : fetches)
    : jwksCache * fetches * result (list (string * json)) jwt_error :=
  let parts := split_on "." idToken in
  match parts with
  | [p0; p1; p2] =>
      match decode_header p0 with
      | None => (c, fs, Err ErrHeader)
      | Some (alg, kid) =>
          let signed := p0 +:+ "." +:+ p1 in
          match url_decode p2 with
          | None => (c, fs, Err ErrSigEncoding)
          | Some sig =>
              let '(c1, fs1, r) := find_key now (os_JWKSURI cfg) kid c fs in
              match r with
              | Err e => (c1, fs1, Err e)
              | Ok key =>
                  if negb (verifyJWTSignature alg key signed sig) then (c1, fs1, Err ErrSignature)
                  else match decodeIDTokenClaims idToken with
                  | None => (c1, fs1, Err ErrPayload)
                  | Some claims =>
                      match validateClaims (now / Second) claims (os_Issuer cfg) (os_ClientID cfg) with
                      | Some e => (c1, fs1, Err e)
                      | None => (c1, fs1, Ok claims)
                      end
                  end
              end
          end
      end
  | _ => (c, fs, Err (ErrParts (length parts)))
  end.

(** The claims the session is made from. *)
Definition group_names (claims : list (string * json)) : list string :=
  match obj_get "groups" claims with
  | Some (JArr l) => omap (fun v => match v with JStr s => Some s | _ => None end) l
  | _ => []
  end.
Definition session_claims (claims : list (string * json)) : id_claims :=
  mkClaims (stringClaim claims "sub") (stringClaim claims "email") (group_names claims).

(** [handleOIDCCallback]: [token] is the id token of the provider's answer,
    when the exchange of the code succeeds. *)
Definition handleOIDCCallback (now : Z) (session code state : string) (token : option string) (cfg : oidcSettings)
    (c : jwksCache) (fs : fetches) (o : oidcState) : jwksCache * fetches * (oidcState * option (string * string)) :=
  if (code ==s "") || (state ==s "") || match oi_states o !! state with None => true | Some _ => false end
  then (c, fs, oidc_callback now session code state None o)
  else match token with
  | None => (c, fs, oidc_callback now session code state None o)
  | Some t =>
      let '(c1, fs1, r) := verifyIDToken now cfg t c fs in
      (c1, fs1, oidc_callback now session code state (match r with Ok cl => Some (session_claims cl) | Err _ => None end) o)
  end.
End jwt.

(** ** Theorems *)

Section theorems.
Context `{JsonText} `{JwtCrypto}.

Lemma refreshJWKS_uses now uri c fs : exists used,
  fs = used ++ (refreshJWKS now uri c fs).1.2 /\ (length used <= 1)%nat.
Proof.
  unfold refreshJWKS. destruct (uri ==s ""); [exists []; split; [done|cbn; lia]|].
  destruct fs as [|[doc|] fs]; [exists []|exists [Some doc]|exists [None]]; (split; [done|cbn; lia]).
Qed.

Lemma fetchJWK_key now uri kid force c fs c' fs' k :
  fetchJWK now uri kid force c fs = (c', fs', Ok k) -> jwks_lookup kid c' = Some k.
Proof.
  unfold fetchJWK. destruct (if _ || _ || _ then _ else _) as [[c1 fs1] ok]. destruct ok; cbn [negb]; [|done].
  destruct (jwks_lookup kid c1) eqn:E; [by intros [= <- _ <-]|]. destruct (negb force && _); [|done].
  destruct (refreshJWKS now uri c1 fs1) as [[c2 fs2] ok2]. destruct ok2; cbn [negb]; [|done].
  destruct (jwks_lookup kid c2) eqn:E2; [|done]. by intros [= <- _ <-].
Qed.

Lemma find_key_key now uri kid c fs c' fs' k :
  find_key now uri kid c fs = (c', fs', Ok k) -> jwks_lookup kid c' = Some k.
Proof.
  unfold find_key. destruct (fetchJWK now uri kid false c fs) as [[c1 fs1] [k1|e]] eqn:E.
  - intros [= <- _ <-]. by eapply fetchJWK_key.
  - apply fetchJWK_key.
Qed.

(** What an accepted token carries. *)
Definition token_ok (now : Z) (cfg : oidcSettings) (idToken : string) (keys : jwksCache) (claims : list (string * json)) : Prop :=
  exists p0 p1 p2 alg kid key sig,
    idToken = p0 +:+ "." +:+ p1 +:+ "." +:+ p2 /\
    decode_header p0 = Some (alg, kid) /\
    alg ∈ ["RS256"; "RS384"; "RS512"; "ES256"; "ES384"] /\
    jwks_lookup kid keys = Some key /\ url_decode p2 = Some sig /\
    verifyJWTSignature alg key (p0 +:+ "." +:+ p1) sig = true /\
    (exists body, url_decode p1 = Some body /\ (Unmarshal body = Some (JObj claims) \/ Unmarshal body = Some JNull /\ claims = [])) /\
    TrimRight (stringClaim claims "iss") "/" = TrimRight (os_Issuer cfg) "/" /\
    aud_includes (obj_get "aud" claims) (os_ClientID cfg) = true /\
    (exists exp, numericClaim claims "exp" = Some exp /\ now / Second < exp)%Z /\
    (forall iat, numericClaim claims "iat" = Some iat -> iat <= wrap64 (now / Second + 300))%Z.

Lemma split_on_three c s a b d : split_on c s = [a; b; d] -> s = a +:+ String c "" +:+ b +:+ String c "" +:+ d.
Proof.
  assert (forall s, split_on c s = [s] \/ exists h t s', split_on c s = h :: t /\ s = h +:+ String c s' /\ split_on c s' = t) as Hs.
  { clear. induction s as [|x s IH]; [by left|]. cbn [split_on]. destruct (Ascii.eqb x c) eqn:E.
    - apply Ascii.eqb_eq in E as ->. right. exists "", (split_on c s), s. split_and!; [done|by rewrite sapp_nil_l|done].
    - destruct IH as [->|(h & t & s' & -> & -> & Et)]; [by left|]. right. exists (String x h), t, s'. by split_and!; rewrite ?sapp_cons. }
  intros E. destruct (Hs s) as [E1|(h & t & s' & E1 & -> & Et)]; rewrite E in E1; [done|]. injection E1 as <- <-.
  destruct (Hs s') as [E2|(h' & t' & s'' & E2 & -> & Et')]; rewrite Et in E2; [done|]. injection E2 as <- <-.
  destruct (Hs s'') as [E3|(h3 & t3 & s3 & E3 & -> & Et3)]; rewrite Et' in E3; [injection E3 as ->|].
  - by rewrite !sapp_cons, !sapp_nil_l.
  - injection E3 as <- <-. by apply split_on_nonempty in Et3.
Qed.

Lemma supported_alg alg key signed sig : verifyJWTSignature alg key signed sig = true ->
  alg ∈ ["RS256"; "RS384"; "RS512"; "ES256"; "ES384"].
Proof.
  unfold verifyJWTSignature. repeat (destruct (alg ==s _) eqn:?; breflect; [subst; intros _; set_solver|]). done.
Qed.

Lemma validateClaims_ok t claims issuer client : validateClaims t claims issuer client = None ->
  TrimRight (stringClaim claims "iss") "/" = TrimRight issuer "/" /\
  aud_includes (obj_get "aud" claims) client = true /\
  (exists exp, numericClaim claims "exp" = Some exp /\ t < exp)%Z /\
  (forall iat, numericClaim claims "iat" = Some iat -> iat <= wrap64 (t + 300))%Z.
Proof.
  unfold validateClaims. destruct (_ !=s _) eqn:Ei; [done|]. apply negb_false_iff, String.eqb_eq in Ei.
  destruct (aud_includes _ _) eqn:Ea; cbn [negb]; [|done]. destruct (numericClaim claims "exp") as [exp|] eqn:Ee; [|done].
  destruct (exp <=? t)%Z eqn:Et; [done|]. breflect. intros Hiat. split_and!; [done..|exists exp; split; [done|lia]|].
  intros iat E. rewrite E in Hiat. destruct (_ <? iat)%Z eqn:El; [done|]. breflect. lia.
Qed.

(** A token is accepted only when it is signed with a key the provider
    publishes. *)
Lemma verifyIDToken_ok now cfg t c fs c' fs' claims :
  verifyIDToken now cfg t c fs = (c', fs', Ok claims) -> token_ok now cfg t c' claims.
Proof.
  unfold verifyIDToken. destruct (split_on "." t) as [|p0 [|p1 [|p2 [|? ?]]]] eqn:Ep; try done.
  destruct (decode_header p0) as [[alg kid]|] eqn:Eh; [|done].
  destruct (url_decode p2) as [sig|] eqn:Es; [|done].
  destruct (find_key now (os_JWKSURI cfg) kid c fs) as [[c1 fs1] [key|e]] eqn:Ek; [|done]. apply find_key_key in Ek.
  destruct (verifyJWTSignature alg key _ sig) eqn:Ev; cbn [negb]; [|done].
  destruct (decodeIDTokenClaims t) as [cl|] eqn:Ed; [|done].
  destruct (validateClaims _ _ _ _) as [e|] eqn:Ec; [done|]. intros [= <- <- <-]. apply validateClaims_ok in Ec.
  exists p0, p1, p2, alg, kid, key, sig. split_and!; try done; try apply Ec.
  - by apply split_on_three.
  - by eapply supported_alg.
  - unfold decodeIDTokenClaims in Ed. rewrite Ep in Ed. destruct (url_decode p1) as [body|]; [|done]. exists body.
    split; [done|]. cbn in Ed. destruct (Unmarshal body) as [[]|]; try done; injection Ed as <-; auto.
Qed.

(** C29. No session without a signed token.  When the callback of a login mints
    a session, the state was handed out by an earlier login and is used up,
    and the provider returned a token of three parts whose first two are
    signed, with a supported algorithm, under the key that the provider's key
    set names, and whose second part carries the claims: the configured
    issuer, this client as an audience, an expiry in the future and no
    issuing time more than five minutes ahead; the role is that of the first
    mapped group of those claims.  Otherwise no session appears. *)
Theorem session_needs_signed_token now session code state token cfg c fs o c' fs' o' r :
  handleOIDCCallback now session code state token cfg c fs o = (c', fs', (o', r)) ->
  match r with
  | None => oi_sessions o' = oi_sessions o
  | Some (s, role) =>
      s = session /\ is_Some (oi_states o !! state) /\ oi_states o' !! state = None /\
      exists t claims, token = Some t /\ token_ok now cfg t c' claims /\
        role = pickRole (group_names claims) (oi_groupRoles o) (oi_defaultRole o) /\
        oi_sessions o' = <[session := mkOidc (stringClaim claims "sub") (stringClaim claims "email") role
                             (time_Add now (oi_ttl o))]> (oi_sessions o)
  end.
Proof.
  unfold handleOIDCCallback.
  assert (forall cl, oidc_callback now session code state cl o = (o', r) ->
    match r with
    | None => oi_sessions o' = oi_sessions o
    | Some (s, role) => s = session /\ is_Some (oi_states o !! state) /\ oi_states o' !! state = None /\
        exists cl', cl = Some cl' /\ role = pickRole (cl_groups cl') (oi_groupRoles o) (oi_defaultRole o) /\
          oi_sessions o' = <[session := mkOidc (cl_sub cl') (cl_email cl') role (time_Add now (oi_ttl o))]> (oi_sessions o)
    end) as Hcb.
  { intros cl. unfold oidc_callback. destruct (_ || _); [by intros [= <- <-]|].
    destruct (oi_states o !! state) eqn:Es; [|by intros [= <- <-]]. destruct cl as [cl|]; [|by intros [= <- <-]].
    intros [= <- <-]. split_and!; [done|by eexists|cbn; apply lookup_delete_eq|]. by exists cl. }
  assert (oidc_callback now session code state None o = (o', r) -> r = None /\ oi_sessions o' = oi_sessions o) as Hnone.
  { intros E. specialize (Hcb None E). destruct r as [[s role]|]; [|done].
    by destruct Hcb as (_ & _ & _ & cl & ? & _). }
  destruct (_ || _ || _).
  { intros [= _ _ E]. by destruct (Hnone E) as [-> ?]. }
  destruct token as [t|]; [|intros [= _ _ E]; by destruct (Hnone E) as [-> ?]].
  destruct (verifyIDToken now cfg t c fs) as [[c1 fs1] [claims|e]] eqn:Ev; intros [= <- <- E];
    [|by destruct (Hnone E) as [-> ?]].
  apply verifyIDToken_ok in Ev. specialize (Hcb _ E). destruct r as [[s role]|]; [|done].
  destruct Hcb as (? & ? & ? & cl & [= <-] & Hrole & Hs). split_and!; [done..|]. by exists t, claims.
Qed.

(** A key that the provider rotates in is found: when the cache does not have
    the key id and the document the provider then serves does, the key of
    that document is used, however fresh the cache. *)
Theorem rotation_followed now uri kid c doc fs k :
  uri <> "" -> kid <> "" -> jwks_lookup kid c = None ->
  last (filter (fun k => jk_Kid k = kid) doc) = Some k ->
  (find_key now uri kid c (Some doc :: fs)).2 = Ok k.
Proof.
  intros Hu Hk Hc Hl.
  assert (forall c0 fs', refreshJWKS now uri c0 (Some doc :: fs') =
    (mkJwks (Some (fold_left (fun m k => if jk_Kid k ==s "" then m else <[jk_Kid k := k]> m) doc ∅)) now, fs', true)) as Hr.
  { intros. unfold refreshJWKS. by rewrite (eqb_neq_s _ _ Hu). }
  set (m := fold_left _ doc ∅) in Hr.
  assert (m !! kid = Some k) as Hm.
  { unfold m. clear -Hk Hl. induction doc as [|x doc IH] using rev_ind; [done|]. rewrite fold_left_app. cbn [fold_left].
    rewrite filter_app, filter_cons, filter_nil in Hl. destruct (decide (jk_Kid x = kid)) as [E|E].
    - rewrite last_snoc in Hl. injection Hl as ->. rewrite E, (eqb_neq_s _ _ Hk). apply lookup_insert_eq.
    - rewrite app_nil_r in Hl. destruct (jk_Kid x ==s ""); [by apply IH|]. rewrite lookup_insert_ne by done. by apply IH. }
  unfold find_key, fetchJWK. cbn [orb andb negb].
  destruct (match jw_keys c with None => true | Some _ => false end || _) eqn:Eb.
  - rewrite Hr. cbn [negb]. unfold jwks_lookup at 1. cbn [jw_keys mbind option_bind]. by rewrite Hm.
  - cbn [negb]. rewrite Hc. apply orb_false_iff in Eb as [_ ->]. cbn [negb]. rewrite Hr. cbn [negb].
    unfold jwks_lookup at 1. cbn [jw_keys mbind option_bind]. by rewrite Hm.
Qed.

(** Every login costs at most two requests for the key set, whatever the key
    id of its token: a cache that was never filled counts as stale. *)
Theorem two_fetches_at_most now uri kid c fs :
  (jw_keys c = None -> jwksCacheTTL < time_Sub now (jw_fetchedAt c))%Z ->
  exists used, fs = used ++ (find_key now uri kid c fs).1.2 /\ (length used <= 2)%nat.
Proof.
  intros Hcold. unfold find_key.
  assert (forall c fs, exists used, fs = used ++ (fetchJWK now uri kid true c fs).1.2 /\ (length used <= 1)%nat) as Hforce.
  { intros c0 fs0. unfold fetchJWK. cbn [orb]. destruct (refreshJWKS_uses now uri c0 fs0) as (used & E & Hl).
    destruct (refreshJWKS now uri c0 fs0) as [[c1 fs1] ok]. exists used. split; [|done].
    destruct ok; cbn [negb]; [|done]. by destruct (jwks_lookup kid c1). }
  assert (exists used, fs = used ++ (fetchJWK now uri kid false c fs).1.2 /\ (length used <= 1)%nat) as (u1 & E1 & H1).
  { unfold fetchJWK. cbn [orb negb andb].
    assert (((match jw_keys c with None => true | Some _ => false end) || (jwksCacheTTL <? time_Sub now (jw_fetchedAt c))%Z)
      = (jwksCacheTTL <? time_Sub now (jw_fetchedAt c))%Z) as ->.
    { destruct (jw_keys c); [done|]. specialize (Hcold eq_refl). cbn [orb]. symmetry. by apply Z.ltb_lt. }
    destruct (_ <? _)%Z; cbn [negb].
    - destruct (refreshJWKS_uses now uri c fs) as (used & E & Hl). destruct (refreshJWKS now uri c fs) as [[c1 fs1] ok].
      exists used. split; [|done]. destruct ok; cbn [negb]; [|done]. by destruct (jwks_lookup kid c1).
    - destruct (jwks_lookup kid c); [exists []; split; [done|cbn; lia]|].
      destruct (refreshJWKS_uses now uri c fs) as (used & E & Hl). destruct (refreshJWKS now uri c fs) as [[c1 fs1] ok].
      exists used. split; [|done]. destruct ok; cbn [negb]; [|done]. by destruct (jwks_lookup kid c1). }
  destruct (fetchJWK now uri kid false c fs) as [[c1 fs1] [k|e]]; cbn [fst snd] in *; [exists u1; split; [done|lia]|].
  destruct (Hforce c1 fs1) as (u2 & E2 & H2). exists (u1 ++ u2). rewrite <- app_assoc, <- E2, length_app. split; [done|lia].
Qed.
End theorems.

(** ** Witnesses *)

Section witnesses.
#[local] Instance w_crypto : JwtCrypto := {|
  sha384 s := s; sha512 s := s;
  VerifyPKCS1v15 _ n e hashed sig := (n =? 3)%Z && (e =? 65537)%Z && (sig ==s "sig");
  ecdsa_Verify _ _ _ _ _ _ := false;
  int64_out_of_range _ := min_int64
|}.
#[local] Instance w_json : JsonText := {|
  Unmarshal s :=
    if s ==s "hdr" then Some (JObj [("alg", JStr "RS256"); ("kid", JStr "k1")])
    else if s ==s "pay" then Some (JObj [("aud", JArr [JStr "me"]); ("exp", JNum "2000"); ("groups", JArr [JStr "ops"]);
                                          ("iss", JStr "https://idp/"); ("sub", JStr "u1")])
    else None;
  UnmarshalError _ := "" |}.

Definition w_key : jsonWebKey := mkJWK "RSA" "k1" "Aw" "AQAB" "" "".
Definition w_settings : oidcSettings := mkOidcSettings "https://idp" "me" "https://idp/keys".
Definition w_oidc : oidcState := mkOidcState {["s" := 0%Z]} ∅ {["ops" := "admin"]} "" 100.
Definition w_cold : jwksCache := mkJwks None zero_time.

(** [hdr.pay.sig], in the URL alphabet. *)
Example signed_login :
  (handleOIDCCallback (1000 * Second) "sess" "code" "s" (Some "aGRy.cGF5.c2ln") w_settings w_cold [Some [w_key]] w_oidc).2.2
  = Some ("sess", "admin").
Proof. vm_compute. reflexivity. Qed.

Lemma session_needs_signed_token_witness :
  "sess" = "sess" /\ is_Some (oi_states w_oidc !! "s") /\
  oi_states (handleOIDCCallback (1000 * Second) "sess" "code" "s" (Some "aGRy.cGF5.c2ln") w_settings w_cold [Some [w_key]] w_oidc).2.1 !! "s" = None /\
  exists t claims, Some "aGRy.cGF5.c2ln" = Some t /\
    token_ok (1000 * Second) w_settings t
      (handleOIDCCallback (1000 * Second) "sess" "code" "s" (Some "aGRy.cGF5.c2ln") w_settings w_cold [Some [w_key]] w_oidc).1.1 claims /\
    "admin" = pickRole (group_names claims) (oi_groupRoles w_oidc) (oi_defaultRole w_oidc) /\
    oi_sessions (handleOIDCCallback (1000 * Second) "sess" "code" "s" (Some "aGRy.cGF5.c2ln") w_settings w_cold [Some [w_key]] w_oidc).2.1
    = <["sess" := mkOidc (stringClaim claims "sub") (stringClaim claims "email") "admin" (time_Add (1000 * Second) (oi_ttl w_oidc))]>
        (oi_sessions w_oidc).
Proof.
  apply (session_needs_signed_token (1000 * Second) "sess" "code" "s" (Some "aGRy.cGF5.c2ln") w_settings w_cold [Some [w_key]] w_oidc
           _ (handleOIDCCallback (1000 * Second) "sess" "code" "s" (Some "aGRy.cGF5.c2ln") w_settings w_cold [Some [w_key]] w_oidc).1.2
           _ (Some ("sess", "admin"))).
  vm_compute. reflexivity.
Defined.

Lemma rotation_followed_witness : (find_key 5 "https://idp/keys" "k1" (mkJwks (Some ∅) 4) [Some [w_key]]).2 = Ok w_key.
Proof. apply (rotation_followed 5 "https://idp/keys" "k1" (mkJwks (Some ∅) 4) [w_key] [] w_key); [discriminate|discriminate|reflexivity|reflexivity]. Defined.

Lemma two_fetches_at_most_witness : exists used,
  [Some [w_key]; None; None] = used ++ (find_key 5 "https://idp/keys" "k2" w_cold [Some [w_key]; None; None]).1.2 /\ (length used <= 2)%nat.
Proof. apply (two_fetches_at_most 5 "https://idp/keys" "k2" w_cold). intros _. reflexivity. Defined.
End witnesses.
