(* ===== verification/Content.v ===== *)
(** * Detection content over the air

    [control-plane/api/content.go] and [rules.go]: the bundle of rule files
    with its manifest, the handlers that serve them, and the cached listing of
    the rules in them.  What the file system shows during a walk is an
    argument. *)

From S2P Require Import Prelude Text Sha256 Utf8 Json Event Ruleset.

(** ** The bundle *)

Record contentFile := mkFile { cf_Name : string; cf_Body : string; cf_Hash : string }.
Record contentManifestEntry := mkEntry { ce_Name : string; ce_Hash : string; ce_Size : Z }.
Record contentManifest := mkManifest { cm_Version : string; cm_UpdatedAt : Z; cm_Files : list contentManifestEntry }.

Record contentBundle := mkBundle {
  cb_root : string;
  cb_files : gmap string contentFile;
  cb_manifest : contentManifest;
  cb_updatedAt : Z
}.

(** One step of [filepath.Walk]: a failed visit, or an entry with its path
    relative to the root, its base name, whether it is a directory and, for a
    file, its body ([None] when reading it fails). *)
Inductive walk_entry :=
| WalkFailed
| WalkEntry (rel name : string) (is_dir : bool) (body : option string).

Definition is_content (name : string) : bool := HasSuffix (ToLower name) ".yaml".

(** The callback over the entries in walking order. *)
Fixpoint walk (es : list walk_entry) (files : gmap string contentFile) : option (gmap string contentFile) :=
  match es with
  | [] => Some files
  | WalkFailed :: _ => None
  | WalkEntry rel name is_dir body :: es' =>
      if is_dir || negb (is_content name) then walk es' files
      else match body with
           | None => None
           | Some b => walk es' (<[rel := mkFile rel b (hex (sha256 b))]> files)
           end
  end.

Definition entry_of (f : contentFile) : contentManifestEntry :=
  mkEntry (cf_Name f) (cf_Hash f) (Z.of_nat (String.length (cf_Body f))).

(** What the version hashes: each name and hash, followed by a zero byte. *)
Definition nul : string := String "000" "".
Definition version_text (es : list contentManifestEntry) : string :=
  foldr (fun e acc => ce_Name e +:+ nul +:+ ce_Hash e +:+ nul +:+ acc) "" es.

Section content.
Context `{MapIter}.

(** [refresh]. *)
Definition refresh (now : Z) (es : list walk_entry) (b : contentBundle) : option contentBundle :=
  files ← walk es ∅;
  let entries := sort_stable (less_key ce_Name) (map entry_of (map_values files)) in
  Some (mkBundle (cb_root b) files (mkManifest (str_take 16 (hex (sha256 (version_text entries)))) now entries) now).

Definition new_bundle (root : string) : contentBundle := mkBundle root ∅ (mkManifest "" zero_time []) zero_time.

(** [SetContentRoot]: the content of the server afterwards, or an error that
    leaves it. *)
Definition SetContentRoot (now : Z) (root : string) (es : list walk_entry) (content : option contentBundle)
    : option contentBundle * bool :=
  if root ==s "" then (None, true)
  else match refresh now es (new_bundle root) with
       | Some b => (Some b, true)
       | None => (content, false)
       end.

(** [RefreshContent]. *)
Definition RefreshContent (now : Z) (es : list walk_entry) (content : option contentBundle) : option contentBundle * bool :=
  match content with
  | None => (None, false)
  | Some b => match refresh now es b with Some b' => (Some b', true) | None => (Some b, false) end
  end.

Definition activeContentVersion (content : option contentBundle) : string :=
  match content with Some b => cm_Version (cb_manifest b) | None => "" end.

(** ** Serving it *)

Definition handleContentManifest (content : option contentBundle) : result contentManifest Z :=
  match content with Some b => Ok (cb_manifest b) | None => Err 404%Z end.

(** The hash header and the body, or a status. *)
Definition handleContentFile (content : option contentBundle) (path : string) : result (string * string) Z :=
  match content with
  | None => Err 404%Z
  | Some b =>
      let rest := TrimPrefix path "/v1/content/" in
      if (rest ==s path) || (rest ==s "") || (rest ==s "manifest") then Err 400%Z
      else if Contains rest ".." then Err 400%Z
      else match cb_files b !! rest with
           | Some f => Ok (cf_Hash f, cf_Body f)
           | None => Err 404%Z
           end
  end.

(** ** The listing of rules *)

Context `{RegexLib}.

Record rulesCache := mkRulesCache { rc_root : string; rc_rules : list Rule; rc_loaded : bool; rc_err : bool }.
Definition no_cache : rulesCache := mkRulesCache "" [] false false.

Definition rule_before (a b : Rule) : bool :=
  if rl_Category a !=s rl_Category b then string_less (rl_Category a) (rl_Category b) else string_less (rl_ID a) (rl_ID b).

(** [loadRulesSummary]; [loaded] is what [ruleset.LoadDir] gives if it is
    called.  [sort.Slice] leaves rules of one category and id in any order;
    here they keep theirs. *)
Definition loadRulesSummary (root : string) (loaded : result Ruleset load_error) (c : rulesCache)
    : rulesCache * result (list Rule) load_error :=
  if rc_loaded c && (rc_root c ==s root) && negb (rc_err c) then (c, Ok (rc_rules c))
  else match loaded with
  | Err e => (mkRulesCache (rc_root c) (rc_rules c) (rc_loaded c) true, Err e)
  | Ok rs =>
      let out := sort_stable rule_before rs in
      (mkRulesCache root out true false, Ok out)
  end.

(** The summary of one rule, fields in declaration order. *)
Definition summary_fields (r : Rule) : list (string * bool * json) :=
  [ always "id" (JStr (rl_ID r));
    always "category" (JStr (rl_Category r));
    always "severity" (JStr (rl_Severity r));
    always "mode" (JStr (rl_Mode r));
    str_field "description" (rl_Description r);
    omitempty "targets" (is_nil (rl_Targets r)) (JArr (map JStr (rl_Targets r)));
    omitempty "directions" (is_nil (rl_Directions r)) (JArr (map JStr (rl_Directions r)));
    omitempty "fields" (is_nil (rl_FieldGlobs r)) (JArr (map JStr (rl_FieldGlobs r)));
    omitempty "patterns" (is_nil (rl_Patterns r)) (JArr (map JStr (rl_Patterns r)));
    omitempty "confidence" (rl_Confidence r ==s "0") (JNum (rl_Confidence r));
    omitempty "case_sensitive" (negb (rl_CaseSensitive r)) (JBool (rl_CaseSensitive r));
    str_field "content_hash" (rl_contentHash r) ].
Definition summary_json (r : Rule) : json := JObj (fields (summary_fields r)).

Definition category_counts (rules : list Rule) : gmap string Z :=
  fold_left (fun m r => <[rl_Category r := (default 0 (m !! rl_Category r) + 1)%Z]> m) rules ∅.

(** The body of the answer. *)
Record rules_answer := mkRules { ra_rules : list Rule; ra_count : Z; ra_categories : gmap string Z; ra_version : string }.

Definition handleRules (loaded : result Ruleset load_error) (content : option contentBundle) (c : rulesCache)
    : rulesCache * result rules_answer Z :=
  match content with
  | None => (c, Err 404%Z)
  | Some b =>
      let '(c', r) := loadRulesSummary (cb_root b) loaded c in
      (c', match r with
           | Err _ => Err 500%Z
           | Ok rules => Ok (mkRules rules (Z.of_nat (length rules)) (category_counts rules) (activeContentVersion content))
           end)
  end.
End content.

(** ** What a walk leaves *)

(** The files of a walk, in order. *)
Definition walked (es : list walk_entry) : list (string * string) :=
  omap (fun e => match e with
                 | WalkEntry rel name false (Some b) => if is_content name then Some (rel, b) else None
                 | _ => None
                 end) es.

Definition file_of (rel body : string) : contentFile := mkFile rel body (hex (sha256 body)).

Definition stored (l : list (string * string)) (m : gmap string contentFile) : gmap string contentFile :=
  fold_left (fun m f => <[f.1 := file_of f.1 f.2]> m) l m.

Lemma walk_files es files files' : walk es files = Some files' ->
  files' = stored (walked es) files.
Proof.
  revert files. induction es as [|[|rel name [] body] es IH]; intros files; cbn [walk]; try done.
  - by intros [= <-].
  - cbn [orb]. unfold walked. cbn [omap list_omap]. apply IH.
  - cbn [orb]. destruct (is_content name) eqn:E; cbn [negb].
    + destruct body as [b|]; [|done]. intros Hw. apply IH in Hw. unfold walked. cbn [omap list_omap]. rewrite E. done.
    + intros Hw. apply IH in Hw. unfold walked. cbn [omap list_omap]. destruct body; rewrite ?E; done.
Qed.

(** Every file is stored under its own name, with the hash of its body. *)
Definition files_ok (m : gmap string contentFile) : Prop :=
  forall n f, m !! n = Some f -> f = file_of n (cf_Body f).

Lemma folded_files_ok l m : files_ok m -> files_ok (stored l m).
Proof.
  revert m. induction l as [|[n b] l IH]; intros m Hm; [done|]. unfold stored in *. cbn [fold_left]. apply IH.
  intros k f Hk. apply lookup_insert_Some in Hk as [[<- <-]|[_ Hk]]; [done|by apply Hm].
Qed.

Lemma folded_lookup l m n : stored l m !! n =
  match last (filter (fun f => f.1 = n) l) with Some f => Some (file_of n f.2) | None => m !! n end.
Proof.
  induction l as [|[k b] l IH] using rev_ind; [done|]. unfold stored in *. rewrite fold_left_app, filter_app, filter_cons, filter_nil.
  cbn [fold_left fst snd]. destruct (decide (k = n)) as [->|Hne].
  - by rewrite last_snoc, lookup_insert_eq.
  - by rewrite app_nil_r, lookup_insert_ne.
Qed.

Lemma elem_of_entries `{MapIter} m e : files_ok m ->
  e ∈ map entry_of (map_values m) <-> exists f, m !! ce_Name e = Some f /\ e = entry_of f.
Proof.
  intros Hok. rewrite list_elem_of_fmap. setoid_rewrite elem_of_map_values. split.
  - intros (f & -> & n & Hn). exists f. split; [|done]. rewrite (Hok n f Hn) at 1. done.
  - intros (f & Hf & He). exists f. split; [done|]. by exists (ce_Name e).
Qed.

(** ** The text of the version *)

Fixpoint no_nul (s : string) : bool :=
  match s with EmptyString => true | String c s' => negb (Ascii.eqb c "000") && no_nul s' end.

Lemma nul_split a b s t : no_nul a = true -> no_nul b = true -> a +:+ nul +:+ s = b +:+ nul +:+ t -> a = b /\ s = t.
Proof.
  unfold nul. revert b. induction a as [|c a IH]; intros [|d b] Ha Hb; rewrite ?sapp_nil_l, ?sapp_cons, ?sapp_nil_l; cbn in Ha, Hb.
  - by intros [= ->].
  - intros [= <- _]. done.
  - intros [= -> _]. done.
  - apply andb_true_iff in Ha as [_ Ha], Hb as [_ Hb]. intros [= -> E]. destruct (IH b Ha Hb E) as [-> ->]. done.
Qed.

Lemma version_text_cons e es : version_text (e :: es) = ce_Name e +:+ nul +:+ ce_Hash e +:+ nul +:+ version_text es.
Proof. done. Qed.

Lemma version_text_inj es es' :
  Forall (fun e => no_nul (ce_Name e) = true /\ no_nul (ce_Hash e) = true) es ->
  Forall (fun e => no_nul (ce_Name e) = true /\ no_nul (ce_Hash e) = true) es' ->
  version_text es = version_text es' ->
  map (fun e => (ce_Name e, ce_Hash e)) es = map (fun e => (ce_Name e, ce_Hash e)) es'.
Proof.
  intros He. revert es'. induction He as [|e es [Hn Hh] _ IH]; intros es' He'; destruct He' as [|e' es' [Hn' Hh'] He'];
    rewrite ?version_text_cons.
  - done.
  - intros E. exfalso. apply (f_equal String.length) in E. rewrite !sapp_length in E. cbn in E. lia.
  - intros E. exfalso. apply (f_equal String.length) in E. rewrite !sapp_length in E. cbn in E. lia.
  - intros E. apply nul_split in E as [E1 E]; [|done..]. apply nul_split in E as [E2 E]; [|done..].
    cbn [map]. rewrite E1, E2. f_equal. by apply IH.
Qed.

Lemma no_nul_hex s : no_nul (hex s) = true.
Proof.
  assert (forall n, (n < 16)%N -> Ascii.eqb (hex_digit n) "000" = false) as Hd.
  { intros n Hn. assert (forall k, (k < 16)%nat -> Ascii.eqb (hex_digit (N.of_nat k)) "000" = false) as H.
    { intros k Hk. do 16 (destruct k as [|k]; [reflexivity|]). lia. }
    specialize (H (N.to_nat n) ltac:(lia)). by rewrite N2Nat.id in H. }
  induction s as [|c s IH]; [done|]. cbn [hex no_nul]. pose proof (N_of_ascii_lt c).
  rewrite !Hd by (apply N.Div0.div_lt_upper_bound || apply N.mod_lt; lia). done.
Qed.

(** ** Theorems *)

Section theorems.
Context `{MapIter}.

Lemma refresh_Some now es b b' : refresh now es b = Some b' ->
  cb_root b' = cb_root b /\ cb_files b' = stored (walked es) ∅ /\
  cb_manifest b' = mkManifest (str_take 16 (hex (sha256 (version_text (cm_Files (cb_manifest b')))))) now
                     (sort_stable (less_key ce_Name) (map entry_of (map_values (cb_files b')))) /\ files_ok (cb_files b').
Proof.
  unfold refresh. destruct (walk es ∅) as [files|] eqn:Ew; [|done]. cbn [mbind option_bind]. intros E.
  apply (inj Some) in E. subst b'. cbn [cb_root cb_files cb_manifest cm_Files]. apply walk_files in Ew as ->. do 3 (split; [reflexivity|]). apply folded_files_ok. intros n f Hn. by rewrite lookup_empty in Hn.
Qed.

Definition content_path (name : string) : string := "/v1/content/" +:+ name.

Lemma handleContentFile_Ok b path h body :
  handleContentFile (Some b) path = Ok (h, body) <->
  exists n f, path = content_path n /\ n <> "" /\ n <> "manifest" /\ Contains n ".." = false /\
    cb_files b !! n = Some f /\ h = cf_Hash f /\ body = cf_Body f.
Proof.
  unfold handleContentFile, content_path. split.
  - set (rest := TrimPrefix path "/v1/content/"). destruct (_ || _ || _) eqn:E1; [done|].
    apply orb_false_iff in E1 as [[E1 E2]%orb_false_iff E3]. breflect. destruct (Contains rest "..") eqn:Ec; [done|].
    destruct (cb_files b !! rest) as [f|] eqn:Ef; [|done]. intros [= <- <-]. exists rest, f. split_and!; try done.
    unfold rest in E1 |- *. unfold TrimPrefix in *. destruct (HasPrefix path "/v1/content/") eqn:Ep; [|done].
    apply HasPrefix_spec in Ep as [t ->]. by rewrite (str_drop_app "/v1/content/" t).
  - intros (n & f & -> & Hn & Hm & Hc & Hf & -> & ->). rewrite TrimPrefix_app.
    rewrite (eqb_neq_s _ _ Hn), (eqb_neq_s _ _ Hm), Hc, Hf.
    destruct (n ==s "/v1/content/" +:+ n) eqn:E; [|done]. breflect. apply (f_equal String.length) in E. rewrite sapp_length in E. cbn in E. lia.
Qed.

(** What a sensor downloads is what the manifest lists.  After a refresh
    the manifest has one entry for each content file that the walk saw, sorted
    by name; a download succeeds only for a path that names an entry, and then
    gives the body that file had in the walk, with the entry's hash, which is
    the SHA-256 of the body, and of the entry's size; and every entry can be
    downloaded whose name is not [manifest] and has no two dots in a row. *)
Theorem downloads_match_manifest now es b b' :
  refresh now es b = Some b' ->
  StronglySorted (fun x y => less_key ce_Name y x = false) (cm_Files (cb_manifest b')) /\
  (forall n, (exists e, e ∈ cm_Files (cb_manifest b') /\ ce_Name e = n) <-> n ∈ map fst (walked es)) /\
  (forall path h body, handleContentFile (Some b') path = Ok (h, body) ->
     exists e, e ∈ cm_Files (cb_manifest b') /\ path = content_path (ce_Name e) /\
       h = ce_Hash e /\ h = hex (sha256 body) /\ ce_Size e = Z.of_nat (String.length body) /\
       option_map snd (last (filter (fun f => f.1 = ce_Name e) (walked es))) = Some body) /\
  (forall e, e ∈ cm_Files (cb_manifest b') -> ce_Name e <> "" -> ce_Name e <> "manifest" -> Contains (ce_Name e) ".." = false ->
     exists body, handleContentFile (Some b') (content_path (ce_Name e)) = Ok (ce_Hash e, body)).
Proof.
  intros (_ & Hfiles & Hman & Hok)%refresh_Some.
  assert (forall e, e ∈ cm_Files (cb_manifest b') <-> exists f, cb_files b' !! ce_Name e = Some f /\ e = entry_of f) as He.
  { intros e. rewrite Hman. cbn [cm_Files]. rewrite elem_of_sort_stable. by apply elem_of_entries. }
  split_and!.
  - rewrite Hman. apply sort_key_sorted.
  - intros n. setoid_rewrite He. rewrite list_elem_of_fmap. split.
    + intros (e & (f & Hf & _) & <-). rewrite Hfiles, folded_lookup in Hf.
      destruct (last _) as [x|] eqn:El; [|by rewrite lookup_empty in Hf]. apply last_Some_elem_of in El.
      apply list_elem_of_filter in El as [<- Hin]. by exists x.
    + intros (x & -> & Hin). destruct (cb_files b' !! x.1) as [f|] eqn:Hf.
      * assert (ce_Name (entry_of f) = x.1) as En by by rewrite (Hok _ _ Hf).
        exists (entry_of f). split; [exists f; by rewrite En|done].
      * exfalso. rewrite Hfiles, folded_lookup in Hf. destruct (last _) eqn:El; [done|]. apply last_None in El.
        assert (x ∈ filter (fun f : string * string => f.1 = x.1) (walked es)) as Hx by (by apply list_elem_of_filter).
        rewrite El in Hx. by apply elem_of_nil in Hx.
  - intros path h body (n & f & -> & _ & _ & _ & Hf & -> & ->)%handleContentFile_Ok. exists (entry_of f).
    pose proof (Hok _ _ Hf) as Ef. assert (ce_Name (entry_of f) = n) as En by (by rewrite Ef). rewrite He, En.
    split_and!; [by exists f|done..|by rewrite Ef|done|]. rewrite Hfiles, folded_lookup in Hf.
    destruct (last _) as [x|]; [|by rewrite lookup_empty in Hf]. injection Hf as <-. done.
  - intros e (f & Hf & ->)%He Hn Hm Hc. exists (cf_Body f). apply handleContentFile_Ok. by exists (ce_Name (entry_of f)), f.
Qed.

(** Equal versions mean equal files, up to a clash of the truncated hash:
    two refreshes that give one version list the same names and hashes, unless
    the texts that were hashed differ and their hashes agree in the first
    sixteen digits.  The order in which the map of files is visited plays no
    part. *)
Theorem version_binds now now' es es' b1 b2 b1' b2' :
  refresh now es b1 = Some b1' -> refresh now' es' b2 = Some b2' ->
  Forall (fun f => no_nul f.1 = true) (walked es) -> Forall (fun f => no_nul f.1 = true) (walked es') ->
  activeContentVersion (Some b1') = activeContentVersion (Some b2') ->
  let t1 := version_text (cm_Files (cb_manifest b1')) in
  let t2 := version_text (cm_Files (cb_manifest b2')) in
  map (fun e => (ce_Name e, ce_Hash e)) (cm_Files (cb_manifest b1')) = map (fun e => (ce_Name e, ce_Hash e)) (cm_Files (cb_manifest b2'))
  \/ t1 <> t2 /\ str_take 16 (hex (sha256 t1)) = str_take 16 (hex (sha256 t2)).
Proof.
  assert (forall now es b b', refresh now es b = Some b' -> Forall (fun f => no_nul f.1 = true) (walked es) ->
    Forall (fun e => no_nul (ce_Name e) = true /\ no_nul (ce_Hash e) = true) (cm_Files (cb_manifest b'))) as Hnul.
  { clear. intros now es b b' (_ & Hfiles & Hman & Hok)%refresh_Some Hw. rewrite Hman. cbn [cm_Files].
    apply Forall_forall. intros e Hin. apply elem_of_sort_stable, elem_of_entries in Hin as (f & Hf & ->); [|done].
    pose proof (Hok _ _ Hf) as Ef. rewrite Hfiles, folded_lookup in Hf.
    destruct (last _) as [x|] eqn:El; [|by rewrite lookup_empty in Hf]. apply last_Some_elem_of in El.
    apply list_elem_of_filter in El as [E Hin]. rewrite Forall_forall in Hw. specialize (Hw x Hin).
    split; [by rewrite <- E|]. rewrite Ef. apply no_nul_hex. }
  intros H1 H2 Hn1 Hn2 Hv t1 t2. pose proof (Hnul _ _ _ _ H1 Hn1) as N1. pose proof (Hnul _ _ _ _ H2 Hn2) as N2.
  apply refresh_Some in H1 as (_ & _ & Hm1 & _), H2 as (_ & _ & Hm2 & _).
  destruct (decide (t1 = t2)) as [E|E]; [left; by apply version_text_inj|right]. split; [done|].
  unfold activeContentVersion in Hv. rewrite Hm1, Hm2 in Hv. exact Hv.
Qed.

Context `{RegexLib}.

(** The listing of rules does not follow a refresh: once it has been read for
    a root, every later answer for this root gives the rules of that reading,
    under the version of the newest refresh. *)
Theorem rules_listing_stale loaded loaded' b c c' a now es content b' :
  handleRules loaded (Some b) c = (c', Ok a) ->
  RefreshContent now es (Some b) = (content, true) -> content = Some b' ->
  exists a', handleRules loaded' content c' = (c', Ok a') /\ ra_rules a' = ra_rules a /\
    ra_version a' = cm_Version (cb_manifest b').
Proof.
  unfold handleRules, RefreshContent. intros H1 H2 ->. destruct (refresh now es b) as [b0|] eqn:Er; [|done].
  injection H2 as ->. apply refresh_Some in Er as (Hroot & _ & _ & _). rewrite Hroot.
  destruct (loadRulesSummary (cb_root b) loaded c) as [c1 [rules|e]] eqn:El; [|done]. injection H1 as <- <-.
  assert (rc_loaded c1 && (rc_root c1 ==s cb_root b) && negb (rc_err c1) = true /\ rc_rules c1 = rules) as [Hc Hr].
  { unfold loadRulesSummary in El. destruct (rc_loaded c && _ && _) eqn:Ec; [by injection El as <- <-|].
    destruct loaded; [|done]. injection El as <- <-. cbn. by rewrite String.eqb_refl. }
  unfold loadRulesSummary. rewrite Hc, Hr. by eexists.
Qed.
End theorems.

(** ** Witnesses *)

Section witnesses.
#[local] Existing Instances canonical_iter literal_regex.

Definition w_walk : list walk_entry :=
  [ WalkEntry "." "content" true None; WalkEntry "LICENSE" "LICENSE" false (Some "MIT");
    WalkEntry "core.yaml" "core.yaml" false (Some "rules: []"); WalkEntry "pii/Core.YAML" "Core.YAML" false (Some "") ].
Definition w_refreshed : contentBundle := default (new_bundle "") (refresh 5 w_walk (new_bundle "content")).

Lemma w_refresh : refresh 5 w_walk (new_bundle "content") = Some w_refreshed.
Proof. vm_compute. reflexivity. Qed.

Example w_manifest_listing : map ce_Name (cm_Files (cb_manifest w_refreshed)) = ["core.yaml"; "pii/Core.YAML"].
Proof. vm_compute. reflexivity. Qed.

Lemma downloads_match_manifest_witness :
  StronglySorted (fun x y => less_key ce_Name y x = false) (cm_Files (cb_manifest w_refreshed)) /\
  (forall n, (exists e, e ∈ cm_Files (cb_manifest w_refreshed) /\ ce_Name e = n) <-> n ∈ map fst (walked w_walk)) /\
  (forall path h body, handleContentFile (Some w_refreshed) path = Ok (h, body) ->
     exists e, e ∈ cm_Files (cb_manifest w_refreshed) /\ path = content_path (ce_Name e) /\
       h = ce_Hash e /\ h = hex (sha256 body) /\ ce_Size e = Z.of_nat (String.length body) /\
       option_map snd (last (filter (fun f => f.1 = ce_Name e) (walked w_walk))) = Some body) /\
  (forall e, e ∈ cm_Files (cb_manifest w_refreshed) -> ce_Name e <> "" -> ce_Name e <> "manifest" -> Contains (ce_Name e) ".." = false ->
     exists body, handleContentFile (Some w_refreshed) (content_path (ce_Name e)) = Ok (ce_Hash e, body)).
Proof. apply (downloads_match_manifest 5 w_walk (new_bundle "content") w_refreshed). exact w_refresh. Defined.

Lemma version_binds_witness :
  let t := version_text (cm_Files (cb_manifest w_refreshed)) in
  map (fun e => (ce_Name e, ce_Hash e)) (cm_Files (cb_manifest w_refreshed)) = map (fun e => (ce_Name e, ce_Hash e)) (cm_Files (cb_manifest w_refreshed))
  \/ t <> t /\ str_take 16 (hex (sha256 t)) = str_take 16 (hex (sha256 t)).
Proof.
  intros t. apply (version_binds 5 5 w_walk w_walk (new_bundle "content") (new_bundle "content") w_refreshed w_refreshed);
    [exact w_refresh|exact w_refresh|repeat constructor|repeat constructor|reflexivity].
Defined.

Definition w_answer : rules_answer := mkRules [w_rule] 1 {["prompt-injection" := 1%Z]} "".
Definition w_bundle : contentBundle := new_bundle "content".
Definition w_listed : rulesCache := mkRulesCache "content" [w_rule] true false.

Lemma rules_listing_stale_witness :
  exists a', handleRules (Ok []) (Some w_refreshed) w_listed = (w_listed, Ok a') /\ ra_rules a' = ra_rules w_answer /\
    ra_version a' = cm_Version (cb_manifest w_refreshed).
Proof.
  apply (rules_listing_stale (Ok [w_rule]) (Ok []) w_bundle no_cache w_listed w_answer 5 w_walk (Some w_refreshed) w_refreshed);
    [vm_compute; reflexivity|unfold RefreshContent, w_bundle; by rewrite w_refresh|reflexivity].
Defined.
End witnesses.
