(* ===== verification/Exporter.v ===== *)
(** * Exporters

    [control-plane/exporter/exporter.go] and [splunk.go]: the signed webhook
    with the check its receivers run, and the batching event collector.  Each
    exchange's outcome is an argument; a critical section is one step. *)

From S2P Require Import Prelude Text Sha256 Utf8 Rfc3339 Json Event EventStore.

(** ** HMAC-SHA256

    [crypto/hmac] over the concrete hash. *)

Fixpoint xor_pad (n : nat) (byte : N) (key : string) : string :=
  match n with
  | O => ""
  | S n' => match key with
            | EmptyString => String (chr byte) (xor_pad n' byte "")
            | String c k => String (chr (N.lxor (N_of_ascii c) byte)) (xor_pad n' byte k)
            end
  end.

Definition hmac (key msg : string) : string :=
  let key := if (64 <? String.length key)%nat then sha256 key else key in
  sha256 (xor_pad 64 0x5c key +:+ sha256 (xor_pad 64 0x36 key +:+ msg)).

Example hmac_vector : hex (hmac "Jefe" "what do ya want for nothing?") =
  "5bdcc146bf60754e6a042426089575c75a003f089d2739839dec58b964ec3843".
Proof. vm_compute. reflexivity. Qed.

(** [hex.DecodeString]: either case. *)
Definition hex_value (c : ascii) : option N :=
  let n := N_of_ascii c in
  if in_range 48 57 n then Some (n - 48)%N
  else if in_range 97 102 n then Some (n - 87)%N
  else if in_range 65 70 n then Some (n - 55)%N
  else None.
Fixpoint hex_decode (s : string) : option string :=
  match s with
  | EmptyString => Some ""
  | String a (String b s') => x ← hex_value a; y ← hex_value b; t ← hex_decode s'; Some (String (chr (x * 16 + y)) t)
  | _ => None
  end.

(** ** The webhook *)

Record Webhook := mkWebhook { wh_URL : string; wh_Secret : string; wh_MinSeverity : string }.

(** The record is below the configured severity; a record without an event
    never is. *)
Definition below_severity (min : string) (rec : Rec) : bool :=
  (min !=s "") && match r_Event rec with Some ev => negb (meetsMinSeverity (ev_Severity ev) min) | None => false end.

Definition signature_prefix : string := "sha256=".
Definition sign_body (secret body : string) : string := signature_prefix +:+ hex (hmac secret body).

Record delivery := mkDelivery { dl_url : string; dl_headers : list (string * string); dl_body : string }.

(** What [Send] posts: nothing, or the record's JSON; [None] when the record
    does not marshal. *)
Definition webhook_request (w : Webhook) (rec : Rec) : option (option delivery) :=
  if wh_URL w ==s "" then Some None
  else if below_severity (wh_MinSeverity w) rec then Some None
  else if negb (record_marshals rec) then None
  else
    let body := marshal (record_json rec) in
    Some (Some (mkDelivery (wh_URL w)
      ([("Content-Type", "application/json"); ("X-Hopframe-Schema", "hopframe.record/v1")] ++
       (if wh_Secret w !=s "" then [("X-Hopframe-Signature", sign_body (wh_Secret w) body)] else [])) body)).

(** [Send]: the request and whether it returned no error; [status] is the
    status of the answer, if there is one. *)
Definition webhook_Send (w : Webhook) (rec : Rec) (status : option Z) : option delivery * bool :=
  match webhook_request w rec with
  | None => (None, false)
  | Some None => (None, true)
  | Some (Some d) => (Some d, match status with Some st => (st <? 300)%Z | None => false end)
  end.

(** [VerifySignature], what a receiver runs. *)
Definition VerifySignature (secret body sig : string) : bool :=
  if secret ==s "" then false
  else if (String.length sig <=? 7)%nat || (str_take 7 sig !=s signature_prefix) then false
  else match hex_decode (str_drop 7 sig) with
       | None => false
       | Some got => hmac secret body ==s got
       end.

(** ** The event collector *)

Record Splunk := mkSplunk {
  sp_URL : string; sp_Token : string; sp_Index : string; sp_SourceType : string; sp_MinSeverity : string;
  sp_pending : list Rec; sp_flushAt : Z
}.

Definition batchSize : nat := 32.
Definition flushIvl : Z := (2 * Second)%Z.
Definition sourceType (s : Splunk) : string := if sp_SourceType s ==s "" then "hopframe:event" else sp_SourceType s.

Definition set_pending (p : list Rec) (at_ : Z) (s : Splunk) : Splunk :=
  mkSplunk (sp_URL s) (sp_Token s) (sp_Index s) (sp_SourceType s) (sp_MinSeverity s) p at_.

Definition accepts (s : Splunk) (rec : Rec) : bool :=
  negb ((sp_URL s ==s "") || (sp_Token s ==s "")) && negb (below_severity (sp_MinSeverity s) rec).

(** [Send] up to the unlock: the buffer, and whether a flush follows. *)
Definition splunk_Send (now : Z) (rec : Rec) (s : Splunk) : Splunk * bool :=
  if negb (accepts s rec) then (s, false)
  else
    let pending := sp_pending s ++ [rec] in
    let flushAt := if time_IsZero (sp_flushAt s) then time_Add now flushIvl else sp_flushAt s in
    (set_pending pending flushAt s, (batchSize <=? length pending)%nat || negb (time_Before now flushAt)).

(** The locked part of [Flush] takes the buffer. *)
Definition splunk_take (s : Splunk) : Splunk * list Rec := (set_pending [] zero_time s, sp_pending s).

(** One envelope; the map's keys are printed sorted. *)
Definition envelope (s : Splunk) (rec : Rec) : json :=
  JObj ([("event", record_json rec)] ++
        (if sp_Index s !=s "" then [("index", JStr (sp_Index s))] else []) ++
        [("sourcetype", JStr (sourceType s))] ++
        match r_Event rec with
        | Some ev => if time_IsZero (ev_Timestamp ev) then [] else [("time", JNum (dec_string (ev_Timestamp ev / Second)))]
        | None => []
        end).

(** The rest of [Flush]: the lines of the batch, unless some record does not
    marshal. *)
Definition splunk_body (s : Splunk) (batch : list Rec) : option string :=
  if forallb record_marshals batch
  then Some (foldr (fun r acc => marshal (envelope s r) +:+ String "010" acc) "" batch)
  else None.
Definition splunk_post (s : Splunk) (batch : list Rec) : option delivery :=
  if is_nil batch then None
  else body ← splunk_body s batch;
       Some (mkDelivery (sp_URL s) [("Authorization", "Splunk " +:+ sp_Token s); ("Content-Type", "application/json")] body).

(** Sends and flushes of concurrent goroutines, one critical section at a time. *)
Inductive splunk_op := OpSend (now : Z) (rec : Rec) | OpFlush.

Definition splunk_step (s : Splunk) (o : splunk_op) : Splunk * list Rec :=
  match o with OpSend now rec => ((splunk_Send now rec s).1, []) | OpFlush => splunk_take s end.

(** The batches taken, in order, and the collector afterwards. *)
Fixpoint splunk_run (s : Splunk) (ops : list splunk_op) : Splunk * list (list Rec) :=
  match ops with
  | [] => (s, [])
  | o :: ops' => let '(s1, b) := splunk_step s o in let '(s2, bs) := splunk_run s1 ops' in (s2, b :: bs)
  end.

(** ** Theorems *)

Lemma hex_value_digit n : (n < 16)%N -> hex_value (hex_digit n) = Some n.
Proof.
  intros Hn. assert (forall k, (k < 16)%nat -> hex_value (hex_digit (N.of_nat k)) = Some (N.of_nat k)) as H.
  { intros k Hk. do 16 (destruct k as [|k]; [reflexivity|]). lia. }
  specialize (H (N.to_nat n) ltac:(lia)). by rewrite N2Nat.id in H.
Qed.

Lemma hex_decode_hex s : hex_decode (hex s) = Some s.
Proof.
  induction s as [|c s IH]; [done|]. cbn [hex hex_decode]. pose proof (N_of_ascii_lt c).
  rewrite !hex_value_digit by (apply N.Div0.div_lt_upper_bound || apply N.mod_lt; lia).
  cbn [mbind option_bind]. rewrite IH. cbn [mbind option_bind]. do 2 f_equal.
  rewrite N.mul_comm, <- N.Div0.div_mod. apply ascii_N_embedding.
Qed.

Lemma signed_verifies secret body : secret <> "" -> VerifySignature secret body (sign_body secret body) = true.
Proof.
  intros Hs. unfold VerifySignature, sign_body. rewrite (eqb_neq_s _ _ Hs).
  rewrite sapp_length. change (String.length signature_prefix) with 7%nat.
  assert (String.length (hex (hmac secret body)) = 64%nat) as Hl by (unfold hmac; by rewrite length_hex, length_sha256).
  rewrite Hl. change (7 + 64 <=? 7)%nat with false. rewrite (str_take_app signature_prefix), (str_drop_app signature_prefix).
  rewrite String.eqb_refl. cbn [orb negb]. by rewrite hex_decode_hex, String.eqb_refl.
Qed.

Lemma VerifySignature_spec secret body sig : VerifySignature secret body sig = true <->
  secret <> "" /\ exists h, sig = signature_prefix +:+ h /\ h <> "" /\ hex_decode h = Some (hmac secret body).
Proof.
  unfold VerifySignature. destruct (secret ==s "") eqn:Es; breflect; [split; [done|by intros [? _]]|].
  split.
  - destruct ((String.length sig <=? 7)%nat || _) eqn:El; [done|]. apply orb_false_iff in El as [El Ep].
    apply negb_false_iff, String.eqb_eq in Ep. apply Nat.leb_gt in El. intros Hv. split; [done|]. exists (str_drop 7 sig).
    split_and!.
    + rewrite <- Ep. symmetry. apply str_take_drop.
    + intros E. apply (f_equal String.length) in E. rewrite <- (str_take_drop 7 sig), sapp_length, Ep in El.
      rewrite E in El. cbn in El. lia.
    + destruct (hex_decode _) as [got|]; [|done]. breflect. by subst.
  - intros [_ (h & -> & Hh & Hd)]. rewrite sapp_length. change (String.length signature_prefix) with 7%nat.
    rewrite (str_take_app signature_prefix), (str_drop_app signature_prefix), String.eqb_refl, Hd, String.eqb_refl.
    cbn [orb negb]. destruct h; [done|]. cbn [String.length]. rewrite (proj2 (Nat.leb_gt _ _)) by lia. done.
Qed.

(** A receiver that checks what the webhook sends accepts it, and only
    that.  With a secret every request of the webhook carries a signature of
    its body that verifies under the secret; what verifies is a hexadecimal
    spelling of the HMAC of the body, so a body or a secret other than the
    signed one is accepted only if its HMAC is the same; no request is sent
    for a record below the configured severity. *)
Theorem webhook_authentic w rec status d ok :
  webhook_Send w rec status = (Some d, ok) -> wh_Secret w <> "" ->
  below_severity (wh_MinSeverity w) rec = false /\ dl_body d = marshal (record_json rec) /\
  exists sig, ("X-Hopframe-Signature", sig) ∈ dl_headers d /\ VerifySignature (wh_Secret w) (dl_body d) sig = true /\
    forall secret body, VerifySignature secret body sig = true -> hmac secret body = hmac (wh_Secret w) (dl_body d).
Proof.
  intros Hs Hsec. unfold webhook_Send, webhook_request in Hs. destruct (wh_URL w ==s ""); [done|].
  destruct (below_severity _ _) eqn:Eb; [done|]. destruct (negb (record_marshals rec)); [done|].
  injection Hs as <- _. cbn [dl_body dl_headers]. split_and!; [done|done|].
  exists (sign_body (wh_Secret w) (marshal (record_json rec))). split_and!.
  - rewrite (eqb_neq_s _ _ Hsec). cbn [negb app]. do 2 right. left.
  - by apply signed_verifies.
  - intros secret body [_ (h & Hh & _ & Hd)]%VerifySignature_spec. unfold sign_body in Hh. apply sapp_inj_l in Hh as <-.
    rewrite hex_decode_hex in Hd. apply (inj Some) in Hd. symmetry. exact Hd.
Qed.

(** Every accepted record is posted once.  However sends and flushes of
    concurrent requests interleave, the batches taken so far, in order, with
    the buffer behind them, are the records accepted, in the order they were
    sent; none is in two batches. *)
Theorem batches_partition s ops :
  let '(s', batches) := splunk_run s ops in
  concat batches ++ sp_pending s' =
  sp_pending s ++ omap (fun o => match o with OpSend _ rec => if accepts s rec then Some rec else None | OpFlush => None end) ops.
Proof.
  revert s. induction ops as [|o ops IH]; intros s; cbn [splunk_run omap list_omap]; [by rewrite app_nil_r|].
  destruct (splunk_step s o) as [s1 b] eqn:E1. specialize (IH s1). destruct (splunk_run s1 ops) as [s2 bs].
  cbn [concat]. rewrite <- app_assoc, IH.
  assert (forall rec, accepts s1 rec = accepts s rec) as Ha.
  { intros rec. destruct o as [now r|]; injection E1 as <- _; [|done]. unfold splunk_Send. by destruct (negb (accepts s r)). }
  rewrite app_assoc. assert (b ++ sp_pending s1 = sp_pending s ++ match o with OpSend _ rec => if accepts s rec then [rec] else [] | OpFlush => [] end) as ->.
  { destruct o as [now r|]; injection E1 as <- <-; [|by rewrite !app_nil_r]. unfold splunk_Send.
    destruct (accepts s r); cbn [negb fst app sp_pending set_pending]; [done|by rewrite app_nil_r]. }
  rewrite <- app_assoc. f_equal.
  replace (omap _ ops) with (omap (fun o => match o with OpSend _ rec => if accepts s rec then Some rec else None | OpFlush => None end) ops).
  2:{ apply list_omap_ext. apply Forall_Forall2_diag, Forall_forall. intros [now rec|] _; [by rewrite Ha|done]. }
  destruct o as [now r|]; [|done]. by destruct (accepts s r).
Qed.

(** A batch whose post fails is gone: a flush empties the buffer before it
    knows the outcome. *)
Theorem failed_batch_lost s : sp_pending (splunk_take s).1 = [].
Proof. done. Qed.

(** ** Witnesses *)

Definition w_webhook : Webhook := mkWebhook "https://siem" "s3cret" "high".
Definition w_exported : Rec :=
  mkRec 1 0 "" "" (Some (mkEvent "hopframe.event/v1" "e1" 0 "s1" "t1" "" "" "mcp" "inbound" "" "" no_message [] "block" "critical" 0)).

Lemma webhook_authentic_witness :
  below_severity (wh_MinSeverity w_webhook) w_exported = false /\
  dl_body (default (mkDelivery "" [] "") (webhook_Send w_webhook w_exported (Some 200%Z)).1) = marshal (record_json w_exported) /\
  exists sig, ("X-Hopframe-Signature", sig) ∈ dl_headers (default (mkDelivery "" [] "") (webhook_Send w_webhook w_exported (Some 200%Z)).1) /\
    VerifySignature (wh_Secret w_webhook) (dl_body (default (mkDelivery "" [] "") (webhook_Send w_webhook w_exported (Some 200%Z)).1)) sig = true /\
    forall secret body, VerifySignature secret body sig = true ->
      hmac secret body = hmac (wh_Secret w_webhook) (dl_body (default (mkDelivery "" [] "") (webhook_Send w_webhook w_exported (Some 200%Z)).1)).
Proof.
  apply (webhook_authentic w_webhook w_exported (Some 200%Z) (default (mkDelivery "" [] "") (webhook_Send w_webhook w_exported (Some 200%Z)).1) true);
    [reflexivity|discriminate].
Defined.
