(* ===== verification/Routes.v ===== *)
(** * The routes of the control plane

    [control-plane/api/api.go] ([Routes]) and [ui.go]: which handler a path
    reaches, behind which check, and the operator console.  The matching of
    paths is that of [http.ServeMux] on patterns without methods, hosts or
    wildcards. *)

From S2P Require Import Prelude Text Ruleset Event Http Roles Tokens Users Server.

(** ** The table *)

Inductive guard := Open | Auth | AuthRole (min : string).

Record route := mkRoute { rt_pattern : string; rt_guard : guard; rt_handler : string }.

(** [Routes]. *)
Definition routes : list route :=
  [ mkRoute "/healthz" Open "handleHealth";
    mkRoute "/metrics" Open "handlePromMetrics";
    mkRoute "/v1/events" Auth "handleEvents";
    mkRoute "/v1/events/stream" Auth "handleStream";
    mkRoute "/v1/stats" Auth "handleStats";
    mkRoute "/v1/verify" Auth "handleVerify";
    mkRoute "/v1/analytics/tools" Auth "handleToolRisk";
    mkRoute "/v1/analytics/agents" Auth "handleAgentActivity";
    mkRoute "/v1/analytics/categories" Auth "handleCategoryCounts";
    mkRoute "/v1/metrics" Auth "handleMetrics";
    mkRoute "/v1/histogram" Auth "handleHistogram";
    mkRoute "/v1/events.ndjson" Auth "handleEventsNDJSON";
    mkRoute "/v1/events.csv" Auth "handleEventsCSV";
    mkRoute "/v1/analytics/counterparties" Auth "handleCounterparties";
    mkRoute "/v1/analytics/tasks" Auth "handleTaskConcerns";
    mkRoute "/v1/agent-runs/" Auth "handleAgentRun";
    mkRoute "/v1/policies" (AuthRole RoleViewer) "handlePolicies";
    mkRoute "/v1/policies/" (AuthRole RoleViewer) "handlePolicyByID";
    mkRoute "/v1/sensors" (AuthRole RoleViewer) "handleSensors";
    mkRoute "/v1/sensors/heartbeat" Auth "handleSensorHeartbeat";
    mkRoute "/v1/taints" Auth "handleTaintRegister";
    mkRoute "/v1/taints/match" Auth "handleTaintMatch";
    mkRoute "/v1/content/manifest" (AuthRole RoleViewer) "handleContentManifest";
    mkRoute "/v1/content/" (AuthRole RoleViewer) "handleContentFile";
    mkRoute "/v1/rules" (AuthRole RoleViewer) "handleRules";
    mkRoute "/auth/login" Open "handleLoginSubmit";
    mkRoute "/auth/logout" Open "handleLogout";
    mkRoute "/auth/session" Open "handleSessionInfo";
    mkRoute "/auth/oidc/login" Open "handleOIDCLogin";
    mkRoute "/auth/oidc/callback" Open "handleOIDCCallback";
    mkRoute "/v1/audit/anchor" (AuthRole RoleAdmin) "handleAuditAnchor";
    mkRoute "/v1/records/" (AuthRole RoleViewer) "handleRecordByID";
    mkRoute "/v1/users" (AuthRole RoleAdmin) "handleUsersCollection";
    mkRoute "/v1/users/" (AuthRole RoleAdmin) "handleUserByName";
    mkRoute "/v1/tokens" (AuthRole RoleAdmin) "handleTokensCollection";
    mkRoute "/v1/tokens/" (AuthRole RoleAdmin) "handleTokenByID";
    mkRoute "/" Open "uiHandler" ].

(** ** [http.ServeMux] *)

(** A pattern covers itself and, when it ends in a slash, what is below it. *)
Definition pattern_covers (path pattern : string) : bool :=
  (path ==s pattern) || HasSuffix pattern "/" && HasPrefix path pattern.

(** The longest pattern that covers a path. *)
Definition longer (best : option route) (rt : route) : option route :=
  match best with
  | Some b => if (String.length (rt_pattern b) <? String.length (rt_pattern rt))%nat then Some rt else best
  | None => Some rt
  end.
Definition mux_match (path : string) : option route :=
  fold_left longer (filter (fun rt => pattern_covers path (rt_pattern rt)) routes) None.

(** A path that is not clean is redirected to the clean one, and a path that
    only misses its slash to the one with the slash. *)
Inductive dispatch := Redirect | NotFound | Serve (rt : route).
Definition mux (path : string) : dispatch :=
  if negb (is_clean path) then Redirect
  else if existsb (fun rt => rt_pattern rt ==s path +:+ "/") routes && negb (existsb (fun rt => rt_pattern rt ==s path) routes)
  then Redirect
  else match mux_match path with Some rt => Serve rt | None => NotFound end.

(** ** The checks in front of a handler *)

Inductive outcome :=
| Answered (code : Z)
| Runs (handler : string) (scope : option string).

Section gate.
Context `{MapIter}.

Definition gate (now : Z) (ok : bool) (r : request) (c : Credentials) : Credentials * outcome :=
  match mux (rq_Path r) with
  | Redirect => (c, Answered 301)
  | NotFound => (c, Answered 404)
  | Serve rt =>
      match rt_guard rt with
      | Open => (c, Runs (rt_handler rt) (rq_scope r))
      | Auth =>
          let '(c1, a) := auth now ok r c in
          (c1, match a with Some sc => Runs (rt_handler rt) sc | None => Answered 401 end)
      | AuthRole min =>
          let '(c1, a) := auth now ok r c in
          match a with
          | None => (c1, Answered 401)
          | Some sc =>
              let '(c2, chk) := requireRole now ok min (with_scope sc r) c1 in
              (c2, match chk with
                   | RoleOK => Runs (rt_handler rt) sc
                   | RoleUnauthorized => Answered 401
                   | RoleForbidden _ => Answered 403
                   end)
          end
      end
  end.

(** ** The console *)

(** [recognizesToken]. *)
Definition recognizesToken (now : Z) (token : string) (c : Credentials) : Credentials * bool :=
  if token ==s "" then (c, false)
  else if (cr_authToken c !=s "") && (token ==s cr_authToken c) then (c, true)
  else if bool_decide (is_Some (cr_tenantTokens c !! token)) then (c, true)
  else if bool_decide (is_Some (cr_roles c !! token)) then (c, true)
  else
    let '(c1, r1) := roleForSession now token c in
    if r1 !=s "" then (c1, true)
    else let '(c2, r2) := roleForUserSession now token c1 in (c2, r2 !=s "").

(** [requestHasValidSession]; an [Authorization] value of the bare prefix is
    the empty token. *)
Definition requestHasValidSession (now : Z) (r : request) (c : Credentials) : Credentials * bool :=
  let '(c1, ok1) := if rq_Cookie r !=s "" then let '(c1, role) := roleForUserSession now (rq_Cookie r) c in (c1, role !=s "")
                    else (c, false) in
  if ok1 then (c1, true)
  else
    let '(c2, ok2) := if rq_TokenParam r !=s "" then recognizesToken now (rq_TokenParam r) c1 else (c1, false) in
    if ok2 then (c2, true)
    else if HasPrefix (rq_Authorization r) bearer_prefix
         then recognizesToken now (TrimPrefix (rq_Authorization r) bearer_prefix) c2
         else (c2, false).

Inductive page := LoginPage | LoginRedirect | Page (name : string) | NoPage.

Definition console_page (path : string) : page :=
  let at_ a b := (path ==s a) || (path ==s b) in
  if at_ "/" "/index.html" then Page "ui.html"
  else if at_ "/audit" "/audit.html" then Page "audit.html"
  else if at_ "/policies" "/policies.html" then Page "policies.html"
  else if at_ "/sensors" "/sensors.html" then Page "sensors.html"
  else if at_ "/records" "/records.html" then Page "records.html"
  else if at_ "/settings" "/settings.html" then Page "settings.html"
  else if at_ "/rules" "/rules.html" then Page "rules.html"
  else if at_ "/dashboard" "/dashboard.html" then Page "dashboard.html"
  else NoPage.

(** [uiHandler]. *)
Definition uiHandler (now : Z) (r : request) (c : Credentials) : Credentials * page :=
  if (rq_Path r ==s "/login") || (rq_Path r ==s "/login.html") then (c, LoginPage)
  else if negb (uiRequiresAuth c) then (c, console_page (rq_Path r))
  else let '(c1, valid) := requestHasValidSession now r c in
       (c1, if valid then console_page (rq_Path r) else LoginRedirect).
End gate.

(** ** Lemmas *)

Lemma longest_spec l best :
  match fold_left longer l best with
  | None => best = None /\ l = []
  | Some rt => (best = Some rt \/ rt ∈ l) /\
      (forall x, (best = Some x \/ x ∈ l) -> (String.length (rt_pattern x) <= String.length (rt_pattern rt))%nat)
  end.
Proof.
  revert best. induction l as [|x l IH]; intros best; cbn [fold_left].
  { destruct best as [b|]; [|done]. split; [by left|]. intros y [[= ->]|Hy%elem_of_nil]; [lia|done]. }
  specialize (IH (longer best x)). destruct (fold_left longer l (longer best x)) as [rt|].
  2:{ destruct IH as [Hn _]. unfold longer in Hn. destruct best as [b|]; [|done]. by destruct (_ <? _)%nat. }
  destruct IH as [Hin Hmax]. unfold longer in Hin, Hmax. destruct best as [b|].
  - destruct (_ <? _)%nat eqn:E; [apply Nat.ltb_lt in E|apply Nat.ltb_ge in E]; split.
    + destruct Hin as [[= ->]|Hin]; right; [left|by right].
    + intros y [[= ->]|[->|Hy]%elem_of_cons]; [|apply Hmax; by left|apply Hmax; by right].
      pose proof (Hmax x (or_introl eq_refl)). lia.
    + destruct Hin as [[= ->]|Hin]; [by left|right; by right].
    + intros y [[= ->]|[->|Hy]%elem_of_cons]; [apply Hmax; by left| |apply Hmax; by right].
      pose proof (Hmax b (or_introl eq_refl)). lia.
  - split; [destruct Hin as [[= ->]|Hin]; right; [left|by right]|].
    intros y [?|[->|Hy]%elem_of_cons]; [done|apply Hmax; by left|apply Hmax; by right].
Qed.

(** The route served covers the path, and no longer pattern does. *)
Lemma mux_match_spec path rt : mux_match path = Some rt ->
  rt ∈ routes /\ pattern_covers path (rt_pattern rt) = true /\
  forall x, x ∈ routes -> pattern_covers path (rt_pattern x) = true -> (String.length (rt_pattern x) <= String.length (rt_pattern rt))%nat.
Proof.
  unfold mux_match. intros E. pose proof (longest_spec (filter (fun rt => pattern_covers path (rt_pattern rt)) routes) None) as Hl.
  rewrite E in Hl. destruct Hl as [[?|Hin] Hmax]; [done|]. apply list_elem_of_filter in Hin as [Hc%Is_true_true Hin].
  split_and!; [done..|]. intros x Hx Hcx. apply Hmax. right. apply list_elem_of_filter. by rewrite Hcx.
Qed.

Lemma served path rt : mux path = Serve rt ->
  rt ∈ routes /\ pattern_covers path (rt_pattern rt) = true /\
  forall x, x ∈ routes -> pattern_covers path (rt_pattern x) = true -> (String.length (rt_pattern x) <= String.length (rt_pattern rt))%nat.
Proof.
  unfold mux. destruct (negb _); [done|]. destruct (_ && _); [done|].
  destruct (mux_match path) as [x|] eqn:E; [|done]. intros [= ->]. by apply mux_match_spec.
Qed.

(** No open pattern but the console's covers a path below [/v1/]. *)
Definition open_outside (rt : route) : bool :=
  match rt_guard rt with
  | Open => (rt_handler rt ==s "uiHandler") || negb (HasPrefix (rt_pattern rt) "/v1/" || HasPrefix "/v1/" (rt_pattern rt))
  | _ => true
  end.

Lemma prefix_comparable a b s t : a +:+ s = b +:+ t -> HasPrefix a b = true \/ HasPrefix b a = true.
Proof.
  revert b. induction a as [|c a IH]; intros b E; [right; apply HasPrefix_spec; by exists b; rewrite sapp_nil_l|].
  destruct b as [|d b]; [left; apply HasPrefix_spec; exists (String c a); by rewrite sapp_nil_l|].
  rewrite !sapp_cons in E. injection E as -> E. destruct (IH b E) as [Hp|Hp]; apply HasPrefix_spec in Hp as [x ->];
    [left|right]; apply HasPrefix_spec; exists x; by rewrite sapp_cons.
Qed.

Lemma api_route_guarded path rt : mux path = Serve rt -> HasPrefix path "/v1/" = true ->
  rt_guard rt <> Open \/ rt_handler rt = "uiHandler".
Proof.
  intros (Hin & Hc & _)%served [t ->]%HasPrefix_spec.
  assert (forallb open_outside routes = true) as Hall by by vm_compute.
  rewrite forallb_forall in Hall. specialize (Hall rt (proj1 (list_elem_of_In _ _) Hin)). unfold open_outside in Hall.
  destruct (rt_guard rt); [|by left|by left]. right. apply orb_true_iff in Hall as [Hu|Hn]; [by breflect|].
  exfalso. apply negb_true_iff, orb_false_iff in Hn as [Hn1 Hn2]. unfold pattern_covers in Hc.
  apply orb_true_iff in Hc as [Hc|[_ [u Hu]%HasPrefix_spec]%andb_true_iff].
  - apply String.eqb_eq in Hc. rewrite <- Hc in Hn1. assert (HasPrefix ("/v1/" +:+ t) "/v1/" = true) as Hp by (apply HasPrefix_spec; by exists t).
    by rewrite Hp in Hn1.
  - destruct (prefix_comparable _ _ _ _ Hu) as [Hp|Hp]; [by rewrite Hp in Hn2|by rewrite Hp in Hn1].
Qed.

Section lemmas.
Context `{MapIter}.

(** Resolving a token does not change whether credentials are configured. *)
Lemma lookup_user_session_no_auth now t c : no_auth (lookup_user_session now t c).1 = no_auth c.
Proof.
  unfold lookup_user_session. destruct (cr_users c) as [u|] eqn:E; [|done].
  assert (ust_users (LookupSession now t u).1 = ust_users u) as Hu.
  { unfold LookupSession. rewrite <- (find_session_users now t u). by destruct (find_session now t u). }
  destruct (LookupSession now t u) as [u' r]. cbn [fst] in *. unfold no_auth. cbn. rewrite E. unfold HasAny. by rewrite Hu.
Qed.

Lemma roleForSession_no_auth now t c : no_auth (roleForSession now t c).1 = no_auth c.
Proof.
  unfold roleForSession. destruct (cr_oidc c) as [o|]; [|done]. destruct (t ==s ""); [done|].
  destruct (oi_sessions o !! t); [|done]. by destruct (time_After _ _).
Qed.

Lemma store_token_no_auth now ok t c : no_auth (roleAndTenantForStoreToken now ok t c).1 = no_auth c.
Proof. unfold roleAndTenantForStoreToken. destruct (cr_tokenStore c); [|done]. by destruct (token_Lookup _ _ _ _). Qed.

Lemma auth_no_auth now ok r c : no_auth (auth now ok r c).1 = no_auth c.
Proof.
  unfold auth. destruct (no_auth c) eqn:E; [done|]. destruct (_ ==s ""); [done|]. destruct (_ && _); [done|].
  destruct (cr_tenantTokens c !! _); [done|]. destruct (cr_roles c !! _); [done|].
  pose proof (roleForSession_no_auth now (request_token r) c) as H1. destruct (roleForSession _ _ c) as [c1 r1]. cbn [fst] in H1.
  destruct (r1 !=s ""); [cbn; congruence|].
  pose proof (lookup_user_session_no_auth now (request_token r) c1) as H2. destruct (lookup_user_session _ _ c1) as [c2 s2]. cbn [fst] in H2.
  destruct s2 as [[? ?]|]; [cbn; congruence|].
  pose proof (store_token_no_auth now ok (request_token r) c2) as H3. destruct (roleAndTenantForStoreToken _ _ _ c2) as [c3 s3]. cbn [fst] in H3.
  destruct s3 as [[? ?]|]; cbn; congruence.
Qed.

Lemma auth_tenant now ok r c t : no_auth c = false -> cr_tenantTokens c !! request_token r = Some t ->
  request_token r <> cr_authToken c -> request_token r <> "" -> (auth now ok r c).2 = Some (Some t).
Proof.
  intros Hc Ht Hne Hne0. unfold auth. rewrite Hc, (eqb_neq_s _ _ Hne0), (eqb_neq_s _ _ Hne), andb_false_r, Ht. done.
Qed.

Lemma requireRole_OK now ok min r c c' : no_auth c = false -> requireRole now ok min r c = (c', RoleOK) ->
  (roleForToken now ok (request_token r) c).2 <> "" /\ (roleRank min <= roleRank (roleForToken now ok (request_token r) c).2)%nat.
Proof.
  intros Hc. unfold requireRole. rewrite Hc. destruct (roleForToken _ _ _ c) as [c1 role]. cbn [snd].
  destruct (role ==s "") eqn:E1; [done|]. destruct (_ <? _)%nat eqn:E2; [done|]. intros _. apply Nat.ltb_ge in E2. apply String.eqb_neq in E1. by split.
Qed.
End lemmas.

(** ** Theorems *)

Section theorems.
Context `{MapIter}.

(** The handlers that administer the server. *)
Definition admin_handlers : list string :=
  ["handleAuditAnchor"; "handleUsersCollection"; "handleUserByName"; "handleTokensCollection"; "handleTokenByID"].

(** C10. No handler of the API runs for a stranger.  When some credential is
    configured and every bound role is a role, a request whose path lies below
    [/v1/] reaches a handler, other than the console's for a path that no
    route names, only if its token resolves to a role; the handlers of users,
    tokens and anchoring only if that role, resolved after authentication,
    ranks as an administrator or higher; and the handler of a request with a
    token bound to a tenant runs in the scope of that tenant. *)
Theorem api_needs_credentials now ok r c h sc :
  no_auth c = false -> roles_bound c -> HasPrefix (rq_Path r) "/v1/" = true ->
  (gate now ok r c).2 = Runs h sc -> h <> "uiHandler" ->
  (roleForToken now ok (request_token r) c).2 <> "" /\
  (h ∈ admin_handlers ->
     (roleRank RoleAdmin <= roleRank (roleForToken now ok (request_token r) (auth now ok r c).1).2)%nat) /\
  (forall t, cr_tenantTokens c !! request_token r = Some t -> request_token r <> cr_authToken c -> sc = Some t).
Proof.
  intros Hc Hb Hp Hg Hui. unfold gate in Hg. destruct (mux (rq_Path r)) as [| |rt] eqn:Em; [done|done|].
  destruct (api_route_guarded _ _ Em Hp) as [Hopen|Hu].
  2:{ exfalso. apply Hui. destruct (rt_guard rt); [injection Hg as <- _; done|..].
      - destruct (auth now ok r c) as [c1 [sc'|]]; [|done]. by injection Hg as <- _.
      - destruct (auth now ok r c) as [c1 [sc'|]]; [|done]. destruct (requireRole _ _ _ _ _) as [c2 []]; try done. by injection Hg as <- _. }
  assert (is_Some (auth now ok r c).2 /\ (auth now ok r c).2 = Some sc /\ h = rt_handler rt /\
    match rt_guard rt with AuthRole min => (roleRank min <= roleRank (roleForToken now ok (request_token r) (auth now ok r c).1).2)%nat | _ => True end)
    as (Ha & Hsc & -> & Hrole).
  { pose proof (auth_no_auth now ok r c) as Hna. destruct (rt_guard rt) as [| |min]; [done|..].
    - destruct (auth now ok r c) as [c1 [sc'|]]; [|done]. injection Hg as <- <-. by eauto.
    - destruct (auth now ok r c) as [c1 [sc'|]]; [|done]. cbn [fst] in Hna.
      destruct (requireRole now ok min (with_scope sc' r) c1) as [c2 []] eqn:Er; try done. injection Hg as <- <-.
      apply requireRole_OK in Er as [_ Hle]; [|congruence]. by eauto. }
  split_and!.
  - by apply auth_agrees.
  - intros Hadm. assert (rt_guard rt = AuthRole RoleAdmin) as Hgd; [|by rewrite Hgd in Hrole].
    apply served in Em as (Hin & _). clear -Hin Hadm.
    assert (forallb (fun rt => negb (bool_decide (rt_handler rt ∈ admin_handlers)) || match rt_guard rt with AuthRole m => m ==s RoleAdmin | _ => false end) routes = true)
      as Hall by by vm_compute.
    rewrite forallb_forall in Hall. specialize (Hall rt (proj1 (list_elem_of_In _ _) Hin)).
    rewrite bool_decide_true in Hall by done. cbn [negb orb] in Hall. destruct (rt_guard rt); try done. by breflect; subst.
  - intros t Ht Hne. assert (request_token r <> "") as Hne0.
    { intros E. unfold auth in Ha. rewrite Hc, E in Ha. by destruct Ha. }
    rewrite (auth_tenant now ok r c t Hc Ht Hne Hne0) in Hsc. by injection Hsc.
Qed.

(** A console page other than the sign-in form is served only without
    credentials configured, or to a request whose cookie or token is known. *)
Theorem console_closed now r c name :
  (uiHandler now r c).2 = Page name -> uiRequiresAuth c = false \/ (requestHasValidSession now r c).2 = true.
Proof.
  unfold uiHandler. destruct (_ || _); [done|]. destruct (uiRequiresAuth c); cbn [negb]; [|by left].
  destruct (requestHasValidSession now r c) as [c1 []]; [by right|done].
Qed.

(** The console does not know minted tokens: a token that only the token store
    holds passes the checks of the API and is sent to the sign-in form by the
    console. *)
Theorem console_ignores_minted_tokens now c token :
  cr_authToken c <> token -> cr_tenantTokens c !! token = None -> cr_roles c !! token = None -> cr_oidc c = None -> cr_users c = None ->
  (recognizesToken now token c).2 = false.
Proof.
  intros Ha Ht Hr Ho Hu. unfold recognizesToken. destruct (token ==s ""); [done|].
  rewrite (eqb_neq_s _ _ (not_eq_sym Ha)), andb_false_r, Ht, Hr. cbn.
  unfold roleForSession. rewrite Ho. cbn. unfold roleForUserSession, lookup_user_session. by rewrite Hu.
Qed.
End theorems.

(** ** Witnesses *)

Section witnesses.
#[local] Existing Instance canonical_iter.

Example routing : mux "/v1/users/ann" = Serve (mkRoute "/v1/users/" (AuthRole RoleAdmin) "handleUserByName") /\
  mux "/v1/users" = Serve (mkRoute "/v1/users" (AuthRole RoleAdmin) "handleUsersCollection") /\
  mux "/v1/agent-runs" = Redirect /\ mux "/v1/../v1/users" = Redirect /\
  mux "/v1/nothing" = Serve (mkRoute "/" Open "uiHandler").
Proof. vm_compute. done. Qed.

Definition w_creds : Credentials := mkCreds "root" {["t1" := "acme"]} {["ad" := RoleAdmin]} None None None.
Definition w_tenant_request : request := mkReq "GET" "/v1/events" "Bearer t1" "" "" "other" None.

Lemma api_needs_credentials_witness :
  (roleForToken 1 true (request_token w_tenant_request) w_creds).2 <> "" /\
  ("handleEvents" ∈ admin_handlers ->
     (roleRank RoleAdmin <= roleRank (roleForToken 1 true (request_token w_tenant_request) (auth 1 true w_tenant_request w_creds).1).2)%nat) /\
  (forall t, cr_tenantTokens w_creds !! request_token w_tenant_request = Some t -> request_token w_tenant_request <> cr_authToken w_creds ->
     Some "acme" = Some t).
Proof.
  apply (api_needs_credentials 1 true w_tenant_request w_creds "handleEvents" (Some "acme")).
  - reflexivity.
  - split_and!; [intros k role; simpl; intros [_ <-]%lookup_singleton_Some; discriminate|intros u k s [=]|intros ts id t [=]].
  - reflexivity.
  - vm_compute. reflexivity.
  - discriminate.
Defined.

Lemma console_closed_witness :
  uiRequiresAuth w_creds = false \/ (requestHasValidSession 1 (mkReq "GET" "/" "Bearer ad" "" "" "" None) w_creds).2 = true.
Proof. apply (console_closed 1 (mkReq "GET" "/" "Bearer ad" "" "" "" None) w_creds "ui.html"). vm_compute. reflexivity. Defined.

Lemma console_ignores_minted_tokens_witness : (recognizesToken 1 "hft_x" w_creds).2 = false.
Proof. apply (console_ignores_minted_tokens 1 w_creds "hft_x"); try reflexivity; discriminate. Defined.
End witnesses.
