(* ===== verification/ReadApi.v ===== *)
(** * Reading the log over HTTP

    [control-plane/api/api.go]: queries, exports with their chain proof, the
    live stream, analytics, verification and health.  The parameters of a query
    are the texts of the URL; durations come parsed ([time.ParseDuration]).
    [None] is a handler that panics. *)

From S2P Require Import Prelude Utf8 DecimalText Rfc3339 Json Event Policy PolicyStore EventStore Analytics.
From S2P Require Import Roles Tokens Users Server PolicyApi AdminApi.

(** ** Queries *)

Record ReadParams := mkParams {
  rp_limit : string; rp_since_seq : string; rp_action : string; rp_severity : string; rp_min_severity : string;
  rp_method : string; rp_category : string; rp_search : string; rp_backlog : string
}.

(** A positive number, or the default. *)
Definition positive_or (def : Z) (v : string) : Z :=
  match Atoi v with Some n => if (0 <? n)%Z then n else def | None => def end.

Definition since_of (v : string) : Z := default 0%Z (ParseUint v).

Definition read_query (r : request) (p : ReadParams) (limit : Z) : Query :=
  mkQuery limit (rp_action p) (rp_severity p) (rp_min_severity p) (rp_method p) (rp_category p) (rp_search p)
    (since_of (rp_since_seq p)) (tenantFor r).

(** [query]. *)
Definition api_query (r : request) (p : ReadParams) (s : Store) : option (list Rec) :=
  Read (read_query r p (positive_or 50 (rp_limit p))) s.

(** [queryRecords]. *)
Definition queryRecords (r : request) (p : ReadParams) (maxLimit : Z) (s : Store) : option (list Rec) :=
  let limit := match Atoi (rp_limit p) with
               | Some n => if (0 <? n)%Z && (n <? maxLimit)%Z then n else maxLimit
               | None => maxLimit
               end in
  Read (read_query r p limit) s.

(** ** Exports *)

Record ChainProof := mkProof {
  cp_HeadHash : string; cp_ExportedAt : Z; cp_RecordCount : Z; cp_SeqRange : option (Z * Z)
}.

(** The smallest and the largest sequence number so far. *)
Definition widen (b : Z * Z) (r : Rec) : Z * Z :=
  (if (r_Seq r <? b.1)%Z then r_Seq r else b.1, if (b.2 <? r_Seq r)%Z then r_Seq r else b.2).

Definition chainProof (recs : list Rec) (headHash : string) (at_ : Z) : ChainProof :=
  mkProof headHash at_ (Z.of_nat (length recs))
    (match recs with
     | [] => None
     | r0 :: _ =>
         Some (fold_left widen recs (r_Seq r0, r_Seq r0))
     end).

Definition proof_json (p : ChainProof) : json :=
  JObj (fields [always "_type" (JStr "chain_proof"); always "head_hash" (JStr (cp_HeadHash p));
    always "exported_at" (JStr (rfc3339nano (cp_ExportedAt p))); always "record_count" (JNum (dec_string (cp_RecordCount p)));
    match cp_SeqRange p with
    | None => omitempty "seq_range" true JNull
    | Some (lo, hi) => always "seq_range" (JArr [JNum (dec_string lo); JNum (dec_string hi)])
    end]).

(** The exports: the record-count header, and the lines. *)
Record export := mkExport { ex_count : Z; ex_head : string; ex_lines : list string }.

Definition maxExport : Z := 10000.

(** [handleEventsNDJSON]; a record that does not marshal writes nothing. *)
Definition handleEventsNDJSON (now : Z) (r : request) (p : ReadParams) (s : Store) : option export :=
  recs ← queryRecords r p maxExport s;
  let head := es_prevHash s in
  Some (mkExport (Z.of_nat (length recs)) head
          (map (fun rec => marshal (record_json rec)) (filter (fun rec => record_marshals rec : bool) recs)
             ++ [marshal (proof_json (chainProof recs head now))])).

Definition dedupe (xs : list string) : list string :=
  (fold_left (fun acc x => if (x ==s "") || bool_decide (x ∈ acc) then acc else acc ++ [x]) xs []).

Definition truncateForCSV (s : string) (n : nat) : string :=
  if (String.length s <=? n)%nat then s else str_take n s +:+ String (chr 0xE2) (String (chr 0x80) (String (chr 0xA6) "")).

Fixpoint str_join (sep : string) (l : list string) : string :=
  match l with [] => "" | [x] => x | x :: l' => x +:+ sep +:+ str_join sep l' end.

(** The fields of a row. *)
Definition csv_row (rec : Rec) (ev : Event) : list string :=
  [dec_string (r_Seq rec); rfc3339nano (r_IngestAt rec); ev_EventID ev; rfc3339nano (ev_Timestamp ev); ev_Protocol ev;
   ev_Direction ev; ev_Action ev; ev_Severity ev; ev_AgentRunID ev; ev_Counterparty ev; m_Method (ev_Message ev);
   dec_string (findings_of ev); str_join "|" (map f_RuleID (ev_Findings ev)); str_join "|" (dedupe (map f_Category (ev_Findings ev)));
   ev_Severity ev; ev_Source ev; ev_Destination ev; truncateForCSV (m_Raw (ev_Message ev)) 500].

Definition csv_header : list string :=
  ["seq"; "ingest_at"; "event_id"; "timestamp"; "protocol"; "direction"; "action"; "severity"; "agent_run_id"; "counterparty";
   "method"; "finding_count"; "rule_ids"; "categories"; "highest_severity"; "source"; "destination"; "raw"].

(** [handleEventsCSV]: the rows given to the writer, and the proof in the
    trailing comments. *)
Definition handleEventsCSV (now : Z) (r : request) (p : ReadParams) (s : Store) : option (list (list string) * ChainProof) :=
  recs ← queryRecords r p maxExport s;
  Some (csv_header :: omap (fun rec => csv_row rec <$> r_Event rec) recs, chainProof recs (es_prevHash s) now).

(** ** Timelines *)

(** [handleAgentRun]. *)
Definition handleAgentRun (r : request) (s : Store) : result (string * list Rec) Z :=
  let prefix := "/v1/agent-runs/" in
  let rest := TrimPrefix (rq_Path r) prefix in
  if (rest ==s rq_Path r) || (rest ==s "") then Err 400%Z
  else let '(id, suffix) := cut_slash rest in
  if suffix !=s "timeline" then Err 404%Z else Ok (id, Timeline id (tenantFor r) s).

(** ** Analytics *)

Section analytics.
Context `{MapIter}.

Definition handleToolRisk (p : ReadParams) (s : Store) : list ToolRisk :=
  toolRiskFromRecords (es_cache s) (positive_or 20 (rp_limit p)).
Definition handleAgentActivity (p : ReadParams) (s : Store) : list AgentActivity :=
  agentActivityFromRecords (es_cache s) (positive_or 20 (rp_limit p)).
Definition handleCategoryCounts (s : Store) : list (string * Z) := categoryCountsFromRecords (es_cache s).
Definition handleCounterparties (p : ReadParams) (s : Store) : list CounterpartyRisk :=
  counterpartyRisksFromRecords (es_cache s) (positive_or 20 (rp_limit p)).
Definition handleTaskConcerns (p : ReadParams) (s : Store) : list TaskFindingSummary :=
  taskConcernsFromRecords (es_cache s) (positive_or 50 (rp_limit p)).
End analytics.

(** The duration of a parameter, or the default. *)
Definition duration_or (def : Z) (d : option Z) : Z :=
  match d with Some d => if (0 <? d)%Z then d else def | None => def end.

Definition handleMetrics (mem now : Z) (window bucket : option Z) (s : Store) : option Metrics :=
  metricsFromRecords mem now (es_cache s) (duration_or (5 * Minute) window) (duration_or (10 * Second) bucket).
Definition handleHistogram (mem now : Z) (window bucket : option Z) (s : Store) : option Histogram :=
  histogramFromRecords mem now (es_cache s) (duration_or (5 * Minute) window) (duration_or (10 * Second) bucket).

(** ** Verification and health *)

(** [handleVerify]: ok, and the sequence number of the bad record. *)
Definition handleVerify (s : Store) : bool * option Z :=
  match Verify s with
  | None => (true, None)
  | Some (EChain r) | Some (EMismatch r) => (false, Some (r_Seq r))
  | Some _ => (false, None)
  end.

Record chainIntegrityCache := mkChainCache { cc_checkedAt : Z; cc_err : option store_err }.

Definition chain_ttl : Z := (30 * Second)%Z.

(** [cachedChainIntegrity]: the cache and the error. *)
Definition cachedChainIntegrity (now : Z) (c : chainIntegrityCache) (s : Store) : chainIntegrityCache * option store_err :=
  if negb (time_IsZero (cc_checkedAt c)) && (time_Sub now (cc_checkedAt c) <? chain_ttl)%Z then (c, cc_err c)
  else (mkChainCache now (Verify s), Verify s).

(** [handleHealth]: the status code. *)
Definition handleHealth (now : Z) (c : chainIntegrityCache) (s : Store) : chainIntegrityCache * Z :=
  let '(c', err) := cachedChainIntegrity now c s in
  (c', match err with None => 200%Z | Some _ => 503%Z end).

(** ** The live stream *)

(** [subscribe] and [unsubscribe] of the hub. *)
Definition subscribe (subs : list (list Rec)) : list (list Rec) := subs ++ [[]].
Definition unsubscribe (i : nat) (subs : list (list Rec)) : list (list Rec) := delete i subs.

(** [writeSSE]; [None] is an error. *)
Definition writeSSE (rec : Rec) : option string :=
  if record_marshals rec
  then Some ("event: record" +:+ newline +:+ "data: " +:+ marshal (record_json rec) +:+ newline +:+ newline)
  else None.

(** Records written one after the other, up to the first error. *)
Fixpoint stream_records (recs : list Rec) : list string :=
  match recs with
  | [] => []
  | rec :: recs' => match writeSSE rec with Some t => t :: stream_records recs' | None => [] end
  end.

(** The backlog [handleStream] replays, oldest first. *)
Definition stream_backlog (r : request) (p : ReadParams) (s : Store) : option (list string) :=
  match Atoi (rp_backlog p) with
  | Some n => if (0 <? n)%Z
              then recs ← Read (mkQuery n "" "" "" "" "" "" 0 "") s; Some (stream_records (rev recs))
              else Some []
  | None => Some []
  end.

(** What follows: a receive from the channel of subscriber [i]. *)
Definition stream_receive (i : nat) (subs : list (list Rec)) : list (list Rec) * option (option string) :=
  match subs !! i with
  | Some (rec :: q) => (<[i := q]> subs, Some (writeSSE rec))
  | _ => (subs, None)
  end.

(** ** Tenants *)

(** The record is the tenant's. *)
Definition owned (t : string) (rec : Rec) : Prop := exists ev, r_Event rec = Some ev /\ ev_TenantID ev = t.

Lemma read_loop_matches q limit n rs out : read_loop q limit n rs = Some out ->
  forall rec, rec ∈ out -> rec ∈ rs /\ match_record rec q = Some true.
Proof.
  revert n out. induction rs as [|r rs IH]; intros n out; cbn [read_loop]; [intros [= <-] rec []%elem_of_nil|].
  destruct (_ && _); [intros [= <-] rec []%elem_of_nil|]. destruct (match_record r q) as [[]|] eqn:Em; cbn [mbind option_bind]; [| |done].
  - destruct (limit <=? n + 1)%Z.
    + intros [= <-] rec ->%list_elem_of_singleton. split; [apply elem_of_cons; by left|done].
    + destruct (read_loop q limit (n + 1) rs) as [out'|] eqn:Er; [|done]. intros [= <-] rec [->|Hin]%elem_of_cons.
      * split; [apply elem_of_cons; by left|done].
      * destruct (IH _ _ Er rec Hin). split; [apply elem_of_cons; by right|done].
  - intros Hr rec Hin. destruct (IH _ _ Hr rec Hin). split; [apply elem_of_cons; by right|done].
Qed.

Lemma Read_owned q s out t : q_TenantID q = t -> t <> "" -> Read q s = Some out -> Forall (owned t) out.
Proof.
  intros Hq Ht Hr. apply Forall_forall. intros rec Hin. destruct (read_loop_matches _ _ _ _ _ Hr rec Hin) as [_ Hm].
  unfold match_record in Hm. destruct (r_Event rec) as [ev|] eqn:Ee.
  - exists ev. split; [done|]. injection Hm as Hm. unfold match_event in Hm. rewrite Hq in Hm.
    repeat (apply andb_true_iff in Hm as [Hm _]). unfold wants in Hm. rewrite (eqb_neq_s _ _ Ht) in Hm. by apply String.eqb_eq in Hm.
  - unfold no_filter in Hm. rewrite Hq in Hm. cbn [forallb] in Hm. by rewrite (eqb_neq_s _ _ Ht) in Hm.
Qed.

(** The text of a line of a tenant's record. *)
Definition line_of (t : string) (l : string) : Prop := exists rec, owned t rec /\ l = marshal (record_json rec).
Definition row_of (t : string) (row : list string) : Prop := exists rec ev, r_Event rec = Some ev /\ ev_TenantID ev = t /\ row = csv_row rec ev.

(** C11. A tenant reads its own records only: whatever the parameters of the URL
    say, every record of a query, every line of an export but the proof, every
    row of the spreadsheet but the header, and every record of a timeline that
    a caller bound to a tenant is given belongs to that tenant. *)
Theorem reads_stay_in_tenant now r p s t : rq_scope r = Some t -> t <> "" ->
  (forall out, api_query r p s = Some out -> Forall (owned t) out) /\
  (forall ex, handleEventsNDJSON now r p s = Some ex -> exists lines proof, ex_lines ex = lines ++ [marshal (proof_json proof)] /\
     Forall (line_of t) lines) /\
  (forall rows proof, handleEventsCSV now r p s = Some (rows, proof) -> exists rest, rows = csv_header :: rest /\ Forall (row_of t) rest) /\
  (forall id out, handleAgentRun r s = Ok (id, out) -> Forall (owned t) out).
Proof.
  intros Hsc Ht. assert (tenantFor r = t) as Hten by (unfold tenantFor; by rewrite Hsc). split_and!.
  - intros out Ho. unfold api_query in Ho. eapply Read_owned; [|done|exact Ho]. done.
  - unfold handleEventsNDJSON. destruct (queryRecords r p maxExport s) as [recs|] eqn:Eq; [|done].
    assert (Forall (owned t) recs) as Ho by (unfold queryRecords in Eq; eapply Read_owned; [|done|exact Eq]; done). intros ex [= <-].
    cbn [ex_lines]. exists (map (fun rec => marshal (record_json rec)) (filter (fun rec => record_marshals rec : bool) recs)), (chainProof recs (es_prevHash s) now).
    split; [done|]. apply Forall_map, Forall_forall. intros rec [_ Hin]%list_elem_of_filter.
    exists rec. split; [|done]. rewrite Forall_forall in Ho. by apply Ho.
  - unfold handleEventsCSV. destruct (queryRecords r p maxExport s) as [recs|] eqn:Eq; [|done].
    assert (Forall (owned t) recs) as Ho by (unfold queryRecords in Eq; eapply Read_owned; [|done|exact Eq]; done). intros rows proof [= <- _].
    eexists. split; [reflexivity|]. apply Forall_forall. intros row (rec & Hin & Hrow)%list_elem_of_omap.
    destruct (r_Event rec) as [ev|] eqn:Ee; [|done]. injection Hrow as <-. exists rec, ev. split_and!; [done| |done].
    assert (owned t rec) as (ev' & Hev' & <-); [|congruence].
    rewrite Forall_forall in Ho. by apply Ho.
  - unfold handleAgentRun. intros id out. destruct (_ || _); [done|]. destruct (cut_slash _) as [id' suffix].
    destruct (suffix !=s "timeline"); [done|]. intros [= <- <-]. apply Forall_forall. intros rec Hin. unfold Timeline in Hin.
    apply list_elem_of_filter in Hin as [Hb%Is_true_true _]. destruct (r_Event rec) as [ev|] eqn:Ee; [|done]. exists ev. split; [done|].
    apply andb_true_iff in Hb as [_ Hb]. unfold wants in Hb. rewrite Hten, (eqb_neq_s _ _ Ht) in Hb. by apply String.eqb_eq in Hb.
Qed.

(** ** Exports *)

Lemma rec_ok_marshals rec : rec_ok rec -> record_marshals rec = true.
Proof.
  intros (Ht & _ & _ & ev & He & _ & Hev). unfold record_marshals, event_marshals. rewrite He. apply andb_true_iff.
  split; apply time_okb_ok; [done|apply Hev].
Qed.

(** The sequence range of the proof: both ends are records of the export. *)
Definition spans (b : Z * Z) (recs : list Rec) : Prop :=
  (forall r, r ∈ recs -> (b.1 <= r_Seq r <= b.2)%Z) /\ (exists r, r ∈ recs /\ r_Seq r = b.1) /\ (exists r, r ∈ recs /\ r_Seq r = b.2).

Lemma widen_spans seen b recs : spans b seen -> spans (fold_left widen recs b) (seen ++ recs).
Proof.
  revert seen b. induction recs as [|r recs IH]; intros seen b Hb; [by rewrite app_nil_r|].
  cbn [fold_left]. replace (seen ++ r :: recs) with ((seen ++ [r]) ++ recs) by (by rewrite <- app_assoc). apply IH.
  destruct Hb as (Hall & (rl & Hl & El) & (rh & Hh & Eh)). assert (r ∈ seen ++ [r]) as Hr by set_solver.
  unfold widen. split_and!; cbn [fst snd].
  - intros x [Hx| ->%list_elem_of_singleton]%elem_of_app; [specialize (Hall x Hx)|specialize (Hall rl Hl)];
      destruct (r_Seq r <? b.1)%Z eqn:E1, (b.2 <? r_Seq r)%Z eqn:E2; breflect; lia.
  - destruct (r_Seq r <? b.1)%Z; [by exists r|exists rl; split; [set_solver|done]].
  - destruct (b.2 <? r_Seq r)%Z; [by exists r|exists rh; split; [set_solver|done]].
Qed.

Lemma chainProof_range recs head at_ :
  match cp_SeqRange (chainProof recs head at_) with Some b => spans b recs | None => recs = [] end.
Proof.
  destruct recs as [|r0 recs]; [done|]. unfold chainProof. cbn [cp_SeqRange fold_left].
  change (r0 :: recs) with ([r0] ++ recs). apply widen_spans. unfold widen. cbn [fst snd]. rewrite !Z.ltb_irrefl.
  split_and!; [by intros r ->%list_elem_of_singleton|exists r0; split; [apply elem_of_cons; by left|done]..].
Qed.

Lemma filter_true {A} (P : A -> Prop) `{forall x, Decision (P x)} (l : list A) : (forall x, x ∈ l -> P x) -> filter P l = l.
Proof.
  induction l as [|x l IH]; intros Hx; [done|]. rewrite filter_cons_True by (apply Hx, elem_of_cons; by left).
  f_equal. apply IH. intros y Hy. apply Hx, elem_of_cons. by right.
Qed.

Lemma elem_of_drop_1 {A} n (l : list A) x : x ∈ drop n l -> x ∈ l.
Proof. intros Hx. rewrite <- (take_drop n l). apply elem_of_app. by right. Qed.

Definition no_params : ReadParams := mkParams "" "" "" "" "" "" "" "" "".

(** An export can be checked against its own trailer: an export without
    filters is the last records of the log, newest first, one line each; read
    backwards they continue the chain and end at the head hash the trailer
    names, and the trailer counts the lines and spans their sequence numbers. *)
Theorem export_walkable now r s rs ex : holds s rs -> tenantFor r = "" ->
  handleEventsNDJSON now r no_params s = Some ex ->
  exists older recs proof, rs = older ++ rev recs /\
    ex_lines ex = map (fun rec => marshal (record_json rec)) recs ++ [marshal (proof_json proof)] /\
    chained (last_hash (es_chainStart s) older) (rev recs) /\
    cp_HeadHash proof = last_hash (last_hash (es_chainStart s) older) (rev recs) /\
    cp_RecordCount proof = Z.of_nat (length recs) /\ ex_count ex = Z.of_nat (length recs) /\
    match cp_SeqRange proof with Some b => spans b recs | None => recs = [] end.
Proof.
  intros Hs Ht. unfold handleEventsNDJSON, queryRecords, read_query. cbn [Atoi rp_limit no_params since_of].
  rewrite (Read_window s rs _ Hs). cbn [mbind option_bind]. intros [= <-].
  cbn [q_Limit]. change (Z.to_nat (if (maxExport <=? 0)%Z then 50 else maxExport)) with (Z.to_nat maxExport).
  rewrite filter_true.
  2:{ intros x Hx%list_elem_of_In%in_rev%list_elem_of_In%elem_of_drop_1. pose proof (h_recs _ _ Hs) as Hok. rewrite Forall_forall in Hok.
      destruct (Hok x Hx) as (_ & _ & _ & ev & He & _). unfold selects. rewrite He. unfold match_event, wants. cbn. by rewrite Ht. }
  unfold last_n. rewrite firstn_rev, skipn_skipn. set (k := (_ + _)%nat). set (recs := rev (drop k rs)).
  exists (take k rs), recs, (chainProof recs (es_prevHash s) now). cbn [ex_lines ex_count].
  assert (rev recs = drop k rs) as -> by (unfold recs; by rewrite rev_involutive). rewrite take_drop.
  pose proof (h_chain _ _ Hs) as Hc. rewrite <- (take_drop k rs) in Hc. apply chained_app in Hc as [_ Hc].
  split_and!; [done| |done| |done..|apply chainProof_range].
  - f_equal. f_equal. apply filter_true. intros x Hx%list_elem_of_In%in_rev%list_elem_of_In%elem_of_drop_1.
    pose proof (h_recs _ _ Hs) as Hok. rewrite Forall_forall in Hok. by rewrite rec_ok_marshals by (by apply Hok).
  - unfold chainProof. cbn [cp_HeadHash]. rewrite (h_prev _ _ Hs), <- (take_drop k rs) at 1. by rewrite last_hash_app.
Qed.

(** ** What is not bound to the tenant *)

(** The live stream replays every tenant's records to a caller bound to one,
    and a record of any tenant that is broadcast is queued for every
    subscriber. *)
Theorem stream_crosses_tenants :
  exists r p s rec, rq_scope r = Some "acme" /\ rec ∈ es_cache s /\ ~ owned "acme" rec /\
    exists out, stream_backlog r p s = Some out /\ writeSSE rec = Some (hd "" (rev out)) /\
    broadcast rec (subscribe []) = [[rec]].
Proof.
  exists (mkReq "GET" "/v1/events/stream" "Bearer t" "" "" "" (Some "acme")), (mkParams "" "" "" "" "" "" "" "" "5"),
    sample_store, (new_record 90 (sample_event "zeta" "c") sample_first).
  split; [reflexivity|]. split; [vm_compute; right; left|]. split.
  - intros (ev & [= <-] & Ht). by apply String.eqb_neq in Ht; [|vm_compute; reflexivity].
  - eexists. split; [vm_compute; reflexivity|]. split; [vm_compute; reflexivity|reflexivity].
Qed.

(** ** Witnesses *)

Definition tenant_request : request := mkReq "GET" "/v1/agent-runs/run/timeline" "Bearer t" "" "" "zeta" (Some "acme").

Lemma reads_stay_in_tenant_witness :
  Forall (owned "acme") (default [] (api_query tenant_request no_params sample_store)) /\
  length (default [] (api_query tenant_request no_params sample_store)) = 1%nat.
Proof.
  split; [|vm_compute; reflexivity].
  apply (reads_stay_in_tenant 5 tenant_request no_params sample_store "acme"); [reflexivity|discriminate|vm_compute; reflexivity].
Defined.

Definition admin_request : request := mkReq "GET" "/v1/events.ndjson" "" "" "" "" None.
Definition sample_export : export :=
  match handleEventsNDJSON 95 admin_request no_params sample_store with Some ex => ex | None => mkExport 0 "" [] end.

Lemma export_walkable_witness :
  exists older recs proof, sample_records = older ++ rev recs /\
    ex_lines sample_export = map (fun rec => marshal (record_json rec)) recs ++ [marshal (proof_json proof)] /\
    chained (last_hash (es_chainStart sample_store) older) (rev recs) /\
    cp_HeadHash proof = last_hash (last_hash (es_chainStart sample_store) older) (rev recs) /\
    cp_RecordCount proof = Z.of_nat (length recs) /\ ex_count sample_export = Z.of_nat (length recs) /\
    match cp_SeqRange proof with Some b => spans b recs | None => recs = [] end.
Proof.
  apply (export_walkable 95 admin_request sample_store sample_records sample_export sample_holds); [reflexivity|vm_compute; reflexivity].
Defined.
