(* ===== verification/Observe.v ===== *)
(** * The front of the control plane

    [control-plane/api/ratelimit.go], [prom.go] and the middleware of [api.go]:
    token buckets per client, the address a client is known by, request
    counters and the route labels they carry.  Token counts are [float64]. *)

From Stdlib Require Import SpecFloat.
From S2P Require Import Prelude Text Float64 Utf8 DecimalText Sha256 Json Event Http.

(** ** Addresses *)

(** An IP address: four bytes, or eight groups of 16 bits. *)
Inductive ip := V4 (a b c d : N) | V6 (groups : list N).

Definition dot : ascii := ".".
Definition colon : ascii := ":".
Definition comma : ascii := ",".

Fixpoint all_digits (s : string) : bool :=
  match s with EmptyString => true | String c s' => is_digit c && all_digits s' end.

(** One field of a dotted address: digits without a leading zero, at most 255. *)
Definition v4_field (s : string) : option N :=
  match s with
  | EmptyString => None
  | String c s' =>
      if negb (all_digits s) then None
      else if Ascii.eqb c "0" && negb (s' ==s "") then None
      else z ← parse_dec s; if (z <=? 255)%Z then Some (Z.to_N z) else None
  end.

Definition ParseIPv4 (s : string) : option ip :=
  '(f1, r1) ← cut_first dot s; '(f2, r2) ← cut_first dot r1; '(f3, r3) ← cut_first dot r2;
  a ← v4_field f1; b ← v4_field f2; c ← v4_field f3; d ← v4_field r3; Some (V4 a b c d).

Definition hex_val (c : ascii) : option N :=
  let n := N_of_ascii c in
  if in_range 48 57 n then Some (n - 48)%N
  else if in_range 97 102 n then Some (n - 87)%N
  else if in_range 65 70 n then Some (n - 55)%N else None.

(** The leading hexadecimal digits: their number, value and rest. *)
Fixpoint hex_group (s : string) (n : nat) (acc : N) : nat * N * string :=
  match s with
  | String c s' => match hex_val c with Some v => hex_group s' (S n) (acc * 16 + v)%N | None => (n, acc, s) end
  | EmptyString => (n, acc, s)
  end.

(** The groups read, the position of the ellipsis, and the rest; [n] bounds the
    groups still to come. *)
Fixpoint v6_groups (n : nat) (groups : list N) (ellipsis : option nat) (s : string) : option (list N * option nat * string) :=
  match n with
  | O => Some (groups, ellipsis, s)
  | S n' =>
      let '(len, v, rest) := hex_group s 0 0 in
      if (len =? 0)%nat || (4 <? len)%nat then None
      else match rest with
      | String c rest' =>
          if Ascii.eqb c dot then
            if (match ellipsis with None => negb (length groups =? 6)%nat | Some _ => (6 <? length groups)%nat end) then None
            else match ParseIPv4 s with
                 | Some (V4 a b c' d) => Some (groups ++ [a * 256 + b; c' * 256 + d]%N, ellipsis, "")
                 | _ => None
                 end
          else if negb (Ascii.eqb c colon) then None
          else match rest' with
          | EmptyString => None
          | String c2 rest2 =>
              let groups' := groups ++ [v] in
              if Ascii.eqb c2 colon then
                match ellipsis with
                | Some _ => None
                | None => if rest2 ==s "" then Some (groups', Some (length groups'), "")
                          else v6_groups n' groups' (Some (length groups')) rest2
                end
              else v6_groups n' groups' ellipsis rest'
          end
      | EmptyString => Some (groups ++ [v], ellipsis, "")
      end
  end.

Definition ParseIPv6 (s : string) : option ip :=
  let '(ellipsis, s1) := if HasPrefix s "::" then (Some 0%nat, str_drop 2 s) else (None, s) in
  if bool_decide (ellipsis = Some 0%nat) && (s1 ==s "") then Some (V6 (replicate 8 0%N))
  else '(groups, ellipsis, rest) ← v6_groups 8 [] ellipsis s1;
  if rest !=s "" then None
  else match ellipsis with
  | None => if (length groups =? 8)%nat then Some (V6 groups) else None
  | Some i => if (length groups <? 8)%nat
              then Some (V6 (take i groups ++ replicate (8 - length groups) 0%N ++ drop i groups)) else None
  end.

(** The first dot or colon decides the kind. *)
Fixpoint ip_kind (s : string) : option bool :=
  match s with
  | EmptyString => None
  | String c s' => if Ascii.eqb c dot then Some true else if Ascii.eqb c colon then Some false
                   else if Ascii.eqb c "%" then None else ip_kind s'
  end.

(** [net.ParseIP], which refuses zones; an IPv4 address written in the IPv6
    form is that IPv4 address. *)
Definition ParseIP (s : string) : option ip :=
  match ip_kind s with
  | Some true => ParseIPv4 s
  | Some false =>
      match ParseIPv6 s with
      | Some (V6 [0; 0; 0; 0; 0; 0xFFFF; x; y]%N) => Some (V4 (x / 256) (x mod 256) (y / 256) (y mod 256))
      | r => r
      end
  | None => None
  end.

Definition IsLoopback (a : ip) : bool :=
  match a with
  | V4 a _ _ _ => (a =? 127)%N
  | V6 g => bool_decide (g = [0; 0; 0; 0; 0; 0; 0; 1]%N)
  end.

(** [privateCIDRs]. *)
Definition in_privateCIDRs (a : ip) : bool :=
  match a with
  | V4 a b _ _ => (a =? 10)%N || (a =? 172)%N && (b / 16 =? 1)%N || (a =? 192)%N && (b =? 168)%N
  | V6 (g :: _) => (g / 512 =? 126)%N
  | V6 [] => false
  end.

Definition isPrivatePeer (host : string) : bool :=
  match ParseIP host with None => false | Some a => IsLoopback a || in_privateCIDRs a end.

(** [trimSpace] of this file: spaces and tabs. *)
Definition blank (c : ascii) : bool := Ascii.eqb c " " || Ascii.eqb c (chr 9).
Fixpoint rl_trim_left (s : string) : string :=
  match s with String c s' => if blank c then rl_trim_left s' else s | EmptyString => s end.
Fixpoint rl_trim_right (s : string) : string :=
  match s with
  | EmptyString => s
  | String c s' => match rl_trim_right s' with
                   | EmptyString => if blank c then EmptyString else String c EmptyString
                   | t => String c t
                   end
  end.
Definition rl_trimSpace (s : string) : string := rl_trim_right (rl_trim_left s).

Definition clientIP (r : Request) : string :=
  let host := default (rq_RemoteAddr r) (split_host (rq_RemoteAddr r)) in
  if negb (isPrivatePeer host) then host
  else let xff := h_Get "X-Forwarded-For" (rq_Header r) in
  if xff !=s "" then match cut_first comma xff with Some (hop, _) => rl_trimSpace hop | None => rl_trimSpace xff end
  else host.

(** ** Token buckets *)

Record bucket := mkBucket { bk_tokens : spec_float; bk_lastFill : Z; bk_lastUsed : Z }.

Record limiter := mkLimiter {
  lm_rps : Z; lm_burst : Z; lm_evictAfter : Z; lm_lastSweepAt : Z; lm_buckets : gmap string bucket
}.

Definition newLimiter (now rps : Z) : limiter :=
  let rps := if (rps <? 1)%Z then 1%Z else rps in mkLimiter rps (wrap64 (rps * 2)) (10 * Minute) now ∅.

(** The sweep of idle buckets. *)
Definition sweep (now : Z) (l : limiter) : limiter :=
  if (lm_evictAfter l <? time_Sub now (lm_lastSweepAt l))%Z
  then mkLimiter (lm_rps l) (lm_burst l) (lm_evictAfter l) now
         (filter (fun kv => (time_Sub now (bk_lastUsed kv.2) <= lm_evictAfter l)%Z) (lm_buckets l))
  else l.

(** The tokens of a bucket after it is filled up. *)
Definition filled (now : Z) (l : limiter) (b : bucket) : spec_float :=
  let burst := f64_of (lm_burst l) 0 in
  let t := f64_add (bk_tokens b) (f64_mul (Seconds (time_Sub now (bk_lastFill b))) (f64_of (lm_rps l) 0)) in
  if SFltb burst t then burst else t.

Definition one : spec_float := f64_of 1 0.

Definition limiter_allow (now : Z) (key : string) (l : limiter) : limiter * bool :=
  let l := sweep now l in
  let b := default (mkBucket (f64_of (lm_burst l) 0) now zero_time) (lm_buckets l !! key) in
  let t := filled now l b in
  let ok := negb (SFltb t one) in
  (mkLimiter (lm_rps l) (lm_burst l) (lm_evictAfter l) (lm_lastSweepAt l)
     (<[key := mkBucket (if ok then f64_sub t one else t) now now]> (lm_buckets l)), ok).

(** ** Counters *)

Record promRegistry := mkProm {
  pr_events : gmap string Z; pr_requests : gmap string Z; pr_rateLimited : gmap string Z; pr_policyChanges : gmap string Z
}.

Definition newPromRegistry : promRegistry := mkProm ∅ ∅ ∅ ∅.

Definition u64_inc (k : string) (m : gmap string Z) : gmap string Z := <[k := ((default 0 (m !! k) + 1) mod 2 ^ 64)%Z]> m.

Definition or_unknown (s : string) : string := if s ==s "" then "unknown" else s.

Definition incEvent (ev : option Event) (p : promRegistry) : promRegistry :=
  match ev with
  | None => p
  | Some ev => mkProm (u64_inc (or_unknown (ev_Action ev) +:+ "|" +:+ or_unknown (ev_Severity ev)) (pr_events p))
                 (pr_requests p) (pr_rateLimited p) (pr_policyChanges p)
  end.
Definition incRequest (method route : string) (status : Z) (p : promRegistry) : promRegistry :=
  mkProm (pr_events p) (u64_inc (method +:+ "|" +:+ route +:+ "|" +:+ dec_string status) (pr_requests p)) (pr_rateLimited p) (pr_policyChanges p).
Definition incRateLimited (route : string) (p : promRegistry) : promRegistry :=
  mkProm (pr_events p) (pr_requests p) (u64_inc route (pr_rateLimited p)) (pr_policyChanges p).
Definition incPolicyChange (op tenant : string) (p : promRegistry) : promRegistry :=
  mkProm (pr_events p) (pr_requests p) (pr_rateLimited p)
    (u64_inc (op +:+ "|" +:+ (if tenant ==s "" then "_org_" else tenant)) (pr_policyChanges p)).

Definition bar : ascii := "|".
Definition splitTwo (k : string) : string * string := match cut_first bar k with Some x => x | None => (k, "") end.

(** The sorted keys of a counter map. *)
Definition sortedKeys `{MapIter} (m : gmap string Z) : list string := sort_stable string_less (map fst (map_iter m)).

Definition counter_line (name : string) (labels : list (string * string)) (n : Z) : string :=
  name +:+ "{" +:+ foldr (fun x acc => x +:+ acc) ""
    (imap (fun i kv => (if (i =? 0)%nat then "" else ",") +:+ kv.1 +:+ "=" +:+ quoted kv.2) labels) +:+ "} " +:+ dec_string n.

Definition two_labels `{MapIter} (name l1 l2 : string) (m : gmap string Z) : list string :=
  map (fun k => let '(a, b) := splitTwo k in counter_line name [(l1, a); (l2, b)] (default 0%Z (m !! k))) (sortedKeys m).

(** The lines of the request counters; a key without two bars is passed over. *)
Definition request_lines `{MapIter} (m : gmap string Z) : list string :=
  omap (fun k =>
    '(method, rest) ← cut_first bar k; '(path, status) ← cut_first bar rest;
    Some (counter_line "hopframe_http_requests_total" [("method", method); ("path", path); ("status", status)] (default 0%Z (m !! k))))
    (sortedKeys m).

(** [writeTo]: the lines; [uptime] is the printed uptime. *)
Definition writeTo `{MapIter} (uptime : string) (headSeq : Z) (p : promRegistry) : list string :=
  ["# HELP hopframe_uptime_seconds Time since the control plane started."; "# TYPE hopframe_uptime_seconds gauge";
   "hopframe_uptime_seconds " +:+ uptime;
   "# HELP hopframe_chain_head_seq Sequence number of the most recent record in the audit log."; "# TYPE hopframe_chain_head_seq gauge";
   "hopframe_chain_head_seq " +:+ dec_string headSeq;
   "# HELP hopframe_events_ingested_total Number of sensor events ingested, by action and severity.";
   "# TYPE hopframe_events_ingested_total counter"] ++
  two_labels "hopframe_events_ingested_total" "action" "severity" (pr_events p) ++
  ["# HELP hopframe_http_requests_total Number of HTTP requests served, by method, path, and status.";
   "# TYPE hopframe_http_requests_total counter"] ++
  request_lines (pr_requests p) ++
  ["# HELP hopframe_rate_limited_total Number of HTTP requests rejected by the rate limiter, by path.";
   "# TYPE hopframe_rate_limited_total counter"] ++
  map (fun k => counter_line "hopframe_rate_limited_total" [("path", k)] (default 0%Z (pr_rateLimited p !! k))) (sortedKeys (pr_rateLimited p)) ++
  ["# HELP hopframe_policy_changes_total Number of policy CRUD operations, by op and tenant.";
   "# TYPE hopframe_policy_changes_total counter"] ++
  two_labels "hopframe_policy_changes_total" "op" "tenant" (pr_policyChanges p).

(** ** The middleware *)

Definition routeLabel (p : string) : string :=
  if HasPrefix p "/v1/agent-runs/" then "/v1/agent-runs/{id}/timeline"
  else if HasPrefix p "/v1/policies/" then
    if HasSuffix p "/preview" then "/v1/policies/{id}/preview" else "/v1/policies/{id}"
  else if HasPrefix p "/v1/content/" && (p !=s "/v1/content/manifest") then "/v1/content/{name}"
  else if HasPrefix p "/v1/" || (p ==s "/healthz") || (p ==s "/metrics") then p
  else "/ui".

Record Front := mkFront { fr_limiter : option limiter; fr_prom : promRegistry }.

(** [observe]: the front, and the status of the answer; [h] is the mux, with
    the status it writes, and is not run for a refused request. *)
Definition observe {S} (now : Z) (h : Request -> S -> S * Z) (r : Request) (f : Front) (s : S) : Front * S * Z :=
  let route := routeLabel (rq_Path r) in
  let '(lim, ok) := match fr_limiter f with
                    | Some l => if HasPrefix (rq_Path r) "/v1/"
                                then let '(l', ok) := limiter_allow now (clientIP r) l in (Some l', ok) else (Some l, true)
                    | None => (None, true)
                    end in
  if negb ok
  then (mkFront lim (incRequest (rq_Method r) route 429 (incRateLimited route (fr_prom f))), s, 429%Z)
  else let '(s', code) := h r s in (mkFront lim (incRequest (rq_Method r) route code (fr_prom f)), s', code).

(** ** Theorems *)

Lemma u64_inc_lookup k k' m : u64_inc k m !! k' = if decide (k = k') then Some ((default 0 (m !! k) + 1) mod 2 ^ 64)%Z else m !! k'.
Proof. unfold u64_inc. case_decide as E; [subst; by rewrite lookup_insert_eq|by rewrite lookup_insert_ne]. Qed.

Lemma time_Sub_mono t u v : (t <= u)%Z -> (time_Sub t v <= time_Sub u v)%Z.
Proof. unfold time_Sub. lia. Qed.

(** What the limiter keeps about other clients. *)
Lemma sweep_frame now l k :
  (forall b, lm_buckets l !! k = Some b -> (time_Sub now (bk_lastUsed b) <= lm_evictAfter l)%Z) ->
  lm_buckets (sweep now l) !! k = lm_buckets l !! k /\ lm_rps (sweep now l) = lm_rps l /\ lm_burst (sweep now l) = lm_burst l /\
  lm_evictAfter (sweep now l) = lm_evictAfter l.
Proof.
  intros Hk. unfold sweep. destruct (_ <? _)%Z; [|done]. cbn. split_and!; [|done..].
  rewrite map_lookup_filter. destruct (lm_buckets l !! k) as [b|] eqn:E; [|done]. cbn. rewrite option_guard_True; [done|]. by apply Hk.
Qed.

Lemma allow_frame now key l k : k <> key ->
  (forall b, lm_buckets l !! k = Some b -> (time_Sub now (bk_lastUsed b) <= lm_evictAfter l)%Z) ->
  let l' := (limiter_allow now key l).1 in
  lm_buckets l' !! k = lm_buckets l !! k /\ lm_rps l' = lm_rps l /\ lm_burst l' = lm_burst l /\ lm_evictAfter l' = lm_evictAfter l.
Proof.
  intros Hne Hk. destruct (sweep_frame now l k Hk) as (E1 & E2 & E3 & E4). unfold limiter_allow. cbn.
  split_and!; [|done..]. by rewrite lookup_insert_ne, E1.
Qed.

(** The limiter after requests of clients at given times. *)
Definition limiter_run (reqs : list (Z * string)) (l : limiter) : limiter :=
  fold_left (fun l x => (limiter_allow x.1 x.2 l).1) reqs l.

(** A flood is contained: whatever other clients send, and however much,
    whether a client that was active in the last ten minutes, or was never
    seen, is served at a given moment does not change. *)
Theorem flood_contained reqs l k now :
  (forall b, lm_buckets l !! k = Some b -> (time_Sub now (bk_lastUsed b) <= lm_evictAfter l)%Z) ->
  Forall (fun x => x.1 <= now /\ x.2 <> k)%Z reqs ->
  (limiter_allow now k (limiter_run reqs l)).2 = (limiter_allow now k l).2.
Proof.
  intros Hk Hreqs.
  assert (let l' := limiter_run reqs l in lm_buckets l' !! k = lm_buckets l !! k /\ lm_rps l' = lm_rps l /\ lm_burst l' = lm_burst l /\
    lm_evictAfter l' = lm_evictAfter l) as (E1 & E2 & E3 & E4).
  { revert l Hk. induction Hreqs as [|[t key] reqs [Ht Hne] _ IH]; intros l Hk; [done|]. cbn [limiter_run fold_left fst snd] in *.
    destruct (allow_frame t key l k) as (E1 & E2 & E3 & E4); [done| |].
    { intros b Hb. specialize (Hk b Hb). pose proof (time_Sub_mono t now (bk_lastUsed b) Ht). lia. }
    destruct (IH (limiter_allow t key l).1) as (F1 & F2 & F3 & F4); [intros b; rewrite E1, E4; apply Hk|].
    cbn zeta. fold (limiter_run reqs (limiter_allow t key l).1) in *. split_and!; congruence. }
  cbn zeta in *. destruct (sweep_frame now l k Hk) as (G1 & G2 & G3 & _).
  destruct (sweep_frame now (limiter_run reqs l) k) as (H1 & H2 & H3 & _); [intros b; rewrite E1, E4; apply Hk|].
  unfold limiter_allow. cbn [snd]. unfold filled. rewrite H1, H2, H3, G1, G2, G3, E1, E2, E3. done.
Qed.

(** A client outside the private networks is known by its own address: no
    header it sends moves it to another bucket. *)
Theorem public_peer_unspoofable r h :
  isPrivatePeer (default (rq_RemoteAddr r) (split_host (rq_RemoteAddr r))) = false ->
  clientIP (mkRequest (rq_Method r) (rq_Path r) (rq_RawQuery r) (rq_Host r) h (rq_RemoteAddr r) (rq_Body r)) =
  default (rq_RemoteAddr r) (split_host (rq_RemoteAddr r)).
Proof. intros Hp. unfold clientIP. cbn. by rewrite Hp. Qed.

(** The middleware: a request the limiter refuses reaches no handler and is
    answered 429; any other is served with the handler's own status; a path
    outside [/v1/] is never limited; and every request adds one to exactly the
    counter of its method, route and status. *)
Theorem observe_gate {S} now (h : Request -> S -> S * Z) r f s :
  let '(f', s', code) := observe now h r f s in
  let key := rq_Method r +:+ "|" +:+ routeLabel (rq_Path r) +:+ "|" +:+ dec_string code in
  (if match fr_limiter f with
      | Some l => HasPrefix (rq_Path r) "/v1/" && negb (limiter_allow now (clientIP r) l).2
      | None => false
      end
   then s' = s /\ code = 429%Z else (s', code) = h r s) /\
  pr_requests (fr_prom f') !! key = Some ((default 0 (pr_requests (fr_prom f) !! key) + 1) mod 2 ^ 64)%Z /\
  (forall k, k <> key -> pr_requests (fr_prom f') !! k = pr_requests (fr_prom f) !! k).
Proof.
  unfold observe. destruct (fr_limiter f) as [l|]; [destruct (HasPrefix (rq_Path r) "/v1/"); [destruct (limiter_allow now (clientIP r) l) as [l' ok]|]|];
    cbn [snd andb negb]; try destruct ok; cbn [negb]; try destruct (h r s) as [s' code]; cbn beta iota zeta delta [fr_prom pr_requests incRequest incRateLimited];
    (split; [done|split; [by rewrite u64_inc_lookup, decide_True|intros k Hk; by rewrite u64_inc_lookup, decide_False]]).
Qed.

(** *** Labels *)

(** A request for a path that is no route, to a front without a limiter. *)
Definition probe (n : string) : Request := mkRequest "GET" ("/v1/x" +:+ n) "" "" ∅ "" (Ok "").
Definition not_found {S} (_ : Request) (s : S) : S * Z := (s, 404%Z).
Definition probe_all (names : list string) (f : Front) : Front :=
  fold_left (fun f n => (observe 0 not_found (probe n) f tt).1.1) names f.

Lemma probe_dom n f : fr_limiter f = None ->
  let f' := (observe 0 not_found (probe n) f tt).1.1 in
  fr_limiter f' = None /\ dom (pr_requests (fr_prom f')) = {["GET|/v1/x" +:+ n +:+ "|404"]} ∪ dom (pr_requests (fr_prom f)).
Proof.
  intros Hl. unfold observe. rewrite Hl. cbn [negb fst not_found fr_limiter fr_prom incRequest pr_requests]. split; [done|].
  unfold u64_inc. by rewrite dom_insert_L.
Qed.

(** The route labels are not bounded: a path under [/v1/] that is no route is a
    label of its own, so unauthenticated requests for such paths each leave a
    counter behind. *)
Theorem labels_unbounded names f : fr_limiter f = None -> NoDup names ->
  (length names <= size (pr_requests (fr_prom (probe_all names f))))%nat.
Proof.
  intros Hl Hnd. set (key := fun n => "GET|/v1/x" +:+ n +:+ "|404").
  assert (list_to_set (map key names) ∪ dom (pr_requests (fr_prom f)) ⊆ dom (pr_requests (fr_prom (probe_all names f)))) as Hsub.
  { clear Hnd. revert f Hl. induction names as [|n names IH]; intros f Hl; [set_solver|].
    destruct (probe_dom n f Hl) as [Hl' Hd]. cbn [probe_all fold_left map list_to_set]. specialize (IH _ Hl'). rewrite Hd in IH.
    fold (probe_all names (observe 0 not_found (probe n) f tt).1.1). unfold key in *. set_solver. }
  assert (list_to_set (map key names) ⊆ dom (pr_requests (fr_prom (probe_all names f)))) as Hsub' by set_solver.
  assert (Inj (=) (=) key) as Hinj.
  { intros a b E. unfold key in E. apply (sapp_inj_l "GET|/v1/x") in E.
    apply sapp_inj_length in E as [? _]; [done|]. apply (f_equal String.length) in E. rewrite !sapp_length in E. lia. }
  apply subseteq_size in Hsub'. rewrite size_dom, size_list_to_set, length_map in Hsub'; [done|].
  by apply (NoDup_fmap_2 key).
Qed.

(** ** Witnesses *)

Example private_peers : map isPrivatePeer ["10.1.2.3"; "172.31.0.1"; "172.32.0.1"; "::ffff:192.168.1.1"; "fd00::1"; "::1"; "8.8.8.8"; "010.0.0.1"; "2001:db8::1"]
  = [true; true; false; true; true; true; false; false; false].
Proof. vm_compute. reflexivity. Qed.

Definition sample_limiter : limiter := (limiter_allow 0 "198.51.100.7" (newLimiter 0 2)).1.

Lemma flood_contained_witness :
  (limiter_allow 5 "198.51.100.7" (limiter_run (replicate 9 (3%Z, "203.0.113.9")) sample_limiter)).2 = true /\
  (limiter_allow 5 "203.0.113.9" (limiter_run (replicate 9 (3%Z, "203.0.113.9")) sample_limiter)).2 = false.
Proof.
  split; [|vm_compute; reflexivity]. rewrite (flood_contained (replicate 9 (3%Z, "203.0.113.9")) sample_limiter "198.51.100.7" 5).
  - vm_compute. reflexivity.
  - intros b Hb. vm_compute in Hb. injection Hb as <-. vm_compute. discriminate.
  - repeat constructor; try (vm_compute; discriminate). 
Defined.

Lemma public_peer_unspoofable_witness :
  clientIP (mkRequest "GET" "/v1/events" "" "" (h_Set "X-Forwarded-For" "10.0.0.1" ∅) "8.8.8.8:4000" (Ok "")) = "8.8.8.8".
Proof. apply (public_peer_unspoofable (mkRequest "GET" "/v1/events" "" "" ∅ "8.8.8.8:4000" (Ok ""))). vm_compute. reflexivity. Defined.
