(* ===== verification/Config.v ===== *)
(** * Configuration

    [internal/config/config.go], the token lists of
    [cmd/control-plane/main.go] and the route list of
    [cmd/mcp-gateway/main.go].  The YAML decoder is a parameter: what it makes
    of the defaults. *)

From S2P Require Import Prelude Text Json Event Ruleset Roles.

(** ** The sensor configuration *)

Record SensorID := mkSensorID { sn_ID : string; sn_TenantID : string }.
Record Upstream := mkUpstream { us_URL : string; us_Timeout : Z }.
Record Listen := mkListen { ls_Address : string; ls_BasePath : string }.
Record Rules := mkRulesCfg { rs_Dirs : list string; rs_DisabledRules : list string }.
Record TLS := mkTLS { tl_CertFile : string; tl_KeyFile : string; tl_CAFile : string; tl_ServerName : string; tl_InsecureSkipVerify : bool }.
Record EmitterCfg := mkEmitterCfg {
  ec_Sink : string; ec_Path : string; ec_URL : string; ec_BufferSize : Z; ec_SpoolPath : string; ec_SpoolMaxBytes : Z;
  ec_ReplayInterval : Z; ec_BearerToken : string; ec_TLS : TLS
}.
Record PolicyCfg := mkPolicyCfg { pc_FailOpen : bool; pc_DefaultMode : string; pc_BlockTaskDrift : bool }.

Record Config := mkConfig {
  cfg_Sensor : SensorID; cfg_Upstream : Upstream; cfg_Listen : Listen; cfg_Rules : Rules; cfg_Emitter : EmitterCfg; cfg_Policy : PolicyCfg
}.

Definition no_tls : TLS := mkTLS "" "" "" "" false.

Definition Defaults : Config :=
  mkConfig (mkSensorID "mcp-sensor-local" "") (mkUpstream "" (30 * Second)) (mkListen ":7080" "/mcp")
    (mkRulesCfg ["content"] []) (mkEmitterCfg "stdout" "" "" 1024 "" 0 0 "" no_tls) (mkPolicyCfg true "" false).

(** A set variable overrides. *)
Definition env_or (getenv : string -> string) (key cur : string) : string := if getenv key !=s "" then getenv key else cur.

Definition applyEnvOverrides (getenv : string -> string) (c : Config) : Config :=
  let ov := env_or getenv in
  let e := cfg_Emitter c in
  mkConfig
    (mkSensorID (ov "HOPFRAME_SENSOR_ID" (sn_ID (cfg_Sensor c))) (ov "HOPFRAME_TENANT_ID" (sn_TenantID (cfg_Sensor c))))
    (mkUpstream (ov "HOPFRAME_UPSTREAM_URL" (us_URL (cfg_Upstream c))) (us_Timeout (cfg_Upstream c)))
    (mkListen (ov "HOPFRAME_LISTEN_ADDR" (ls_Address (cfg_Listen c))) (ls_BasePath (cfg_Listen c)))
    (cfg_Rules c)
    (mkEmitterCfg (ov "HOPFRAME_EMITTER_SINK" (ec_Sink e)) (ov "HOPFRAME_EMITTER_PATH" (ec_Path e)) (ov "HOPFRAME_EMITTER_URL" (ec_URL e))
       (ec_BufferSize e) (ec_SpoolPath e) (ec_SpoolMaxBytes e) (ec_ReplayInterval e) (ov "HOPFRAME_API_TOKEN" (ec_BearerToken e)) (ec_TLS e))
    (cfg_Policy c).

Definition or_default (s def : string) : string := if s ==s "" then def else s.

Definition applyDefaults (c : Config) : Config :=
  let e := cfg_Emitter c in
  let base := ls_BasePath (cfg_Listen c) in
  mkConfig
    (mkSensorID (or_default (sn_ID (cfg_Sensor c)) "mcp-sensor-local") (sn_TenantID (cfg_Sensor c)))
    (mkUpstream (us_URL (cfg_Upstream c)) (if (us_Timeout (cfg_Upstream c) =? 0)%Z then (30 * Second)%Z else us_Timeout (cfg_Upstream c)))
    (mkListen (or_default (ls_Address (cfg_Listen c)) ":7080")
       (if base ==s "" then "/mcp" else if negb (HasPrefix base "/") then "/" +:+ base else base))
    (mkRulesCfg (if is_nil (rs_Dirs (cfg_Rules c)) then ["content"] else rs_Dirs (cfg_Rules c)) (rs_DisabledRules (cfg_Rules c)))
    (mkEmitterCfg (or_default (ec_Sink e) "stdout") (ec_Path e) (ec_URL e)
       (if (ec_BufferSize e <=? 0)%Z then 1024%Z else ec_BufferSize e)
       (ec_SpoolPath e) (ec_SpoolMaxBytes e) (ec_ReplayInterval e) (ec_BearerToken e) (ec_TLS e))
    (cfg_Policy c).

Inductive config_error := ErrReadConfig | ErrParseConfig | ErrNoUpstream | ErrNoPath | ErrNoURL | ErrSink (sink : string).

Definition config_validate (c : Config) : option config_error :=
  let e := cfg_Emitter c in
  if us_URL (cfg_Upstream c) ==s "" then Some ErrNoUpstream
  else if ec_Sink e ==s "stdout" then None
  else if ec_Sink e ==s "file" then if ec_Path e ==s "" then Some ErrNoPath else None
  else if ec_Sink e ==s "http" then if ec_URL e ==s "" then Some ErrNoURL else None
  else Some (ErrSink (ec_Sink e)).

(** [Load]: [file] is the decoder of the file over a configuration, if the
    file can be read. *)
Definition config_Load (getenv : string -> string) (file : option (Config -> option Config)) : result Config config_error :=
  match file with
  | None => Err ErrReadConfig
  | Some decode =>
      match decode Defaults with
      | None => Err ErrParseConfig
      | Some cfg =>
          let cfg := applyDefaults (applyEnvOverrides getenv cfg) in
          match config_validate cfg with Some e => Err e | None => Ok cfg end
      end
  end.

(** ** The token lists of the control plane *)

Definition is_blank (c : ascii) : bool := Ascii.eqb c " " || Ascii.eqb c "009".
Fixpoint blank_left (s : string) : string :=
  match s with String c s' => if is_blank c then blank_left s' else s | EmptyString => EmptyString end.
Fixpoint blank_right (s : string) : string :=
  match s with
  | EmptyString => EmptyString
  | String c s' => match blank_right s' with
                   | EmptyString => if is_blank c then EmptyString else String c EmptyString
                   | t => String c t
                   end
  end.
Definition trimSpace (s : string) : string := blank_right (blank_left s).

Definition splitTrim (s : string) (sep : ascii) : list string := map trimSpace (split_on sep s).

(** [indexByte] with the two parts around the byte. *)
Fixpoint cut_at (c : ascii) (s : string) : option (string * string) :=
  match s with
  | EmptyString => None
  | String d s' => if Ascii.eqb d c then Some ("", s') else p ← cut_at c s'; Some (String d p.1, p.2)
  end.

Inductive list_error := ErrForm (entry : string) | ErrEmptyToken (entry : string) | ErrDuplicate (token : string) | ErrRole (role : string) | ErrNone.

Fixpoint tenant_entries (entries : list string) (out : gmap string string) : result (gmap string string) list_error :=
  match entries with
  | [] => Ok out
  | entry :: entries' =>
      if entry ==s "" then tenant_entries entries' out
      else match cut_at ":" entry with
      | None => Err (ErrForm entry)
      | Some (a, b) =>
          let token := trimSpace a in
          let tenant := trimSpace b in
          if token ==s "" then Err (ErrEmptyToken entry)
          else if bool_decide (is_Some (out !! token)) then Err (ErrDuplicate token)
          else tenant_entries entries' (<[token := tenant]> out)
      end
  end.
Definition parseTenantTokens (raw : string) : result (gmap string string) list_error :=
  match tenant_entries (splitTrim raw ",") ∅ with
  | Err e => Err e
  | Ok out => if bool_decide (out = ∅) then Err ErrNone else Ok out
  end.

Fixpoint role_entries (entries : list string) (out : gmap string string) : result (gmap string string) list_error :=
  match entries with
  | [] => Ok out
  | entry :: entries' =>
      if entry ==s "" then role_entries entries' out
      else match cut_at ":" entry with
      | None => Err (ErrForm entry)
      | Some (a, b) =>
          let role := trimSpace b in
          let canonical := CanonicalRole role in
          if canonical ==s "" then Err (ErrRole role)
          else role_entries entries' (<[trimSpace a := canonical]> out)
      end
  end.
Definition parseRoleTokens (raw : string) : result (gmap string string) list_error :=
  match role_entries (splitTrim raw ",") ∅ with
  | Err e => Err e
  | Ok out => if bool_decide (out = ∅) then Err ErrNone else Ok out
  end.

(** [dirOf]. *)
Fixpoint last_slash (s : string) (i : nat) (best : option nat) : option nat :=
  match s with EmptyString => best | String c s' => last_slash s' (S i) (if Ascii.eqb c "/" then Some i else best) end.
Definition dirOf (path : string) : string := match last_slash path 0 None with Some i => str_take i path | None => "." end.

(** ** Lemmas: the configuration *)

Lemma config_Load_validated getenv file c : config_Load getenv file = Ok c ->
  exists c0, c = applyDefaults (applyEnvOverrides getenv c0) /\ config_validate c = None.
Proof.
  unfold config_Load. destruct file as [decode|]; [|done]. destruct (decode Defaults) as [c0|]; [|done].
  destruct (config_validate _) eqn:E; [done|]. intros [= <-]. by exists c0.
Qed.

Definition sink_ready (e : EmitterCfg) : Prop :=
  ec_Sink e = "stdout" \/ ec_Sink e = "file" /\ ec_Path e <> "" \/ ec_Sink e = "http" /\ ec_URL e <> "".

Lemma config_validate_spec c : config_validate c = None <-> us_URL (cfg_Upstream c) <> "" /\ sink_ready (cfg_Emitter c).
Proof.
  unfold config_validate, sink_ready. generalize (us_URL (cfg_Upstream c)). destruct (cfg_Emitter c) as [k path url bs sp sm ri bt tl].
  cbn [ec_Sink ec_Path ec_URL]. clear. intros u.
  destruct (u ==s "") eqn:Eu; breflect; [intuition congruence|].
  destruct (k ==s "stdout") eqn:E1; breflect; [tauto|].
  destruct (k ==s "file") eqn:E2; breflect; [destruct (path ==s "") eqn:E; breflect; subst; intuition congruence|].
  destruct (k ==s "http") eqn:E3; breflect; [destruct (url ==s "") eqn:E; breflect; subst; intuition congruence|].
  intuition congruence.
Qed.

Lemma or_default_nonempty s d : d <> "" -> or_default s d <> "".
Proof. unfold or_default. destruct (s ==s "") eqn:E; by breflect. Qed.

Lemma env_or_set getenv key cur : getenv key <> "" -> env_or getenv key cur = getenv key.
Proof. unfold env_or. intros H. destruct (getenv key !=s "") eqn:E; [done|]. by breflect. Qed.

Lemma base_path_rooted base :
  HasPrefix (if base ==s "" then "/mcp" else if negb (HasPrefix base "/") then "/" +:+ base else base) "/" = true.
Proof.
  destruct (base ==s "") eqn:E; [done|]. destruct (HasPrefix base "/") eqn:Ep; cbn [negb]; [done|].
  apply HasPrefix_spec. by exists base.
Qed.

(** ** Lemmas: the token lists *)

Lemma cut_at_spec c s a b : cut_at c s = Some (a, b) <-> s = a +:+ String c b /\ contains_char c a = false.
Proof.
  revert a b. induction s as [|d s IH]; intros a b; cbn [cut_at].
  { split; [done|]. intros [H _]. by destruct a. }
  destruct (Ascii.eqb d c) eqn:E.
  - apply Ascii.eqb_eq in E as ->. split; [by intros [= <- <-]|].
    intros [H Ha]. destruct a as [|e a]; [by injection H as <-|].
    rewrite sapp_cons in H. injection H as <- _. cbn [contains_char] in Ha. by rewrite Ascii.eqb_refl in Ha.
  - split.
    + destruct (cut_at c s) as [[a' b']|]; cbn [mbind option_bind]; [|done].
      intros [= <- <-]. destruct (proj1 (IH a' b') eq_refl) as [-> Ha]. cbn [contains_char]. by rewrite sapp_cons, E.
    + intros [H Ha]. destruct a as [|e a]; [rewrite sapp_nil_l in H; injection H as -> _; by rewrite Ascii.eqb_refl in E|].
      rewrite sapp_cons in H. injection H as <- H. cbn [contains_char] in Ha. rewrite E in Ha.
      by rewrite (proj2 (IH a b) (conj H Ha)).
Qed.

Lemma blank_right_app a b : blank_right (a +:+ b) = if blank_right b ==s "" then blank_right a else a +:+ blank_right b.
Proof.
  induction a as [|c a IH].
  { rewrite !sapp_nil_l. destruct (blank_right b ==s "") eqn:E; breflect; [by rewrite E|done]. }
  rewrite sapp_cons. cbn [blank_right]. rewrite IH. destruct (blank_right b ==s "") eqn:E; [done|]. breflect.
  rewrite sapp_cons. by destruct a, (blank_right b).
Qed.

Lemma blank_left_app a b : a <> "" -> blank_left a = a -> blank_left (a +:+ b) = a +:+ b.
Proof.
  destruct a as [|c a]; [done|]. intros _. rewrite sapp_cons. cbn [blank_left]. destruct (is_blank c) eqn:E; [|done].
  intros H. exfalso. assert (Hl : (String.length (blank_left a) <= String.length a)%nat).
  { clear. induction a as [|d a IH]; cbn [blank_left]; [done|]. destruct (is_blank d); cbn [String.length]; lia. }
  rewrite H in Hl. cbn [String.length] in Hl. lia.
Qed.

(** A string that trimming leaves alone. *)
Definition trimmed (s : string) : bool := (blank_left s ==s s) && (blank_right s ==s s).

Lemma trimmed_trim s : trimmed s = true -> trimSpace s = s.
Proof. unfold trimmed, trimSpace. intros H. breflect. congruence. Qed.

Lemma trimmed_pair a b : a <> "" -> trimmed a = true -> trimmed b = true -> trimmed (a +:+ String ":" b) = true.
Proof.
  unfold trimmed. intros Hne Ha Hb. breflect. rewrite blank_left_app, blank_right_app by done.
  cbn [blank_right]. rewrite andb_true_iff, !String.eqb_eq. split; [done|].
  match goal with H : blank_right b = b |- _ => rewrite H end. by destruct b.
Qed.

Lemma split_on_none c s : contains_char c s = false -> split_on c s = [s].
Proof.
  induction s as [|d s IH]; cbn [split_on contains_char]; [done|]. destruct (Ascii.eqb d c); cbn [orb]; [done|].
  intros H. by rewrite IH.
Qed.

Lemma split_on_app c a b : contains_char c a = false -> split_on c (a +:+ String c b) = a :: split_on c b.
Proof.
  induction a as [|d a IH]; intros H; rewrite ?sapp_nil_l, ?sapp_cons; cbn [split_on contains_char] in *.
  { by rewrite Ascii.eqb_refl. }
  destruct (Ascii.eqb d c); cbn [orb] in *; [done|]. by rewrite IH.
Qed.

Lemma split_on_join c l : l <> [] -> Forall (fun s => contains_char c s = false) l -> split_on c (join (String c "") l) = l.
Proof.
  intros Hne. induction 1 as [|s l Hs Hl IH]; [done|]. destruct l as [|t l].
  - cbn [join]. by apply split_on_none.
  - cbn [join] in *. rewrite sapp_cons, sapp_nil_l. rewrite split_on_app by done. by rewrite IH.
Qed.

(** An entry of a token list, [token:binding] with blanks tolerated. *)
Definition entry_binds (e : string) (p : string * string) : Prop :=
  exists a b, e = a +:+ String ":" b /\ contains_char ":" a = false /\ p = (trimSpace a, trimSpace b).

Definition listed (raw : string) : list string := filter (fun e => e <> "") (splitTrim raw ",").

Lemma tenant_entries_spec es out m : tenant_entries es out = Ok m <->
  exists ps, Forall2 entry_binds (filter (fun e => e <> "") es) ps /\ NoDup ps.*1 /\ ("" ∉ ps.*1) /\
    (forall t, t ∈ ps.*1 -> out !! t = None) /\ m = list_to_map ps ∪ out.
Proof.
  revert out. induction es as [|e es IH]; intros out; cbn [tenant_entries].
  { rewrite filter_nil. split.
    - intros [= <-]. exists []. cbn. rewrite (left_id_L ∅ (∪)). split_and!; try done; [constructor|set_solver|set_solver].
    - intros (ps & Hps & _ & _ & _ & ->). inversion Hps; subst. cbn. by rewrite (left_id_L ∅ (∪)). }
  rewrite filter_cons. destruct (e ==s "") eqn:Ee; breflect.
  { subst e. rewrite decide_False by (intros H; by apply H). apply IH. }
  rewrite decide_True by done.
  destruct (cut_at ":" e) as [[a b]|] eqn:Ec.
  2: { split; [done|]. intros (ps & Hps & _). inversion Hps as [|? p ? ? (a & b & -> & Ha & _)]; subst.
       by rewrite (proj2 (cut_at_spec _ _ a b) (conj eq_refl Ha)) in Ec. }
  assert (Hbind : forall p, entry_binds e p <-> p = (trimSpace a, trimSpace b)).
  { intros p. split; [|intros ->; apply cut_at_spec in Ec as [-> ?]; by exists a, b].
    intros (a' & b' & -> & Ha' & ->). rewrite (proj2 (cut_at_spec _ _ a' b') (conj eq_refl Ha')) in Ec. by injection Ec as -> ->. }
  destruct (trimSpace a ==s "") eqn:Et; breflect.
  { split; [done|]. intros (ps & Hps & _ & Hz & _). inversion Hps as [|? p ? ps' Hb]; subst.
    apply Hbind in Hb as ->. cbn in Hz. rewrite Et in Hz. set_solver. }
  case_bool_decide as Hd.
  { split; [done|]. intros (ps & Hps & _ & _ & Hf & _). inversion Hps as [|? p ? ps' Hb]; subst.
    apply Hbind in Hb as ->. destruct Hd as [? Hd]. rewrite Hf in Hd; [done|cbn; set_solver]. }
  rewrite IH. clear IH. apply eq_None_not_Some in Hd. split.
  - intros (ps & Hps & Hnd & Hz & Hf & ->). exists ((trimSpace a, trimSpace b) :: ps). cbn.
    assert (trimSpace a ∉ ps.*1) by (intros Hin; specialize (Hf _ Hin); by rewrite lookup_insert_eq in Hf).
    split_and!.
    + constructor; [by apply Hbind|done].
    + by constructor.
    + set_solver.
    + intros t [->|Ht]%elem_of_cons; [done|]. specialize (Hf _ Ht). by apply lookup_insert_None in Hf as [? _].
    + rewrite <- insert_union_l. symmetry. by rewrite <- insert_union_r by (by apply not_elem_of_list_to_map_1).
  - intros (ps & Hps & Hnd & Hz & Hf & ->). inversion Hps as [|? p ? ps' Hb Hps']; subst.
    apply Hbind in Hb as ->. cbn in *. apply NoDup_cons in Hnd as [Hn Hnd]. exists ps'. split_and!; [done|done|set_solver| |].
    + intros t Ht. apply lookup_insert_None. split; [apply Hf; set_solver|]. intros E. by rewrite E in Hn.
    + rewrite <- insert_union_l. by rewrite <- insert_union_r by (by apply not_elem_of_list_to_map_1).
Qed.

Lemma render_listed ps : Forall (fun p => p.1 <> "" /\ trimmed p.1 = true /\ trimmed p.2 = true /\
    contains_char "," (p.1 +:+ String ":" p.2) = false) ps -> ps <> [] ->
  listed (join "," (map (fun p => p.1 +:+ String ":" p.2) ps)) = map (fun p => p.1 +:+ String ":" p.2) ps.
Proof.
  intros Hps Hne. unfold listed, splitTrim. rewrite (split_on_join ","); [|by destruct ps|].
  2: { apply Forall_map. eapply Forall_impl; [exact Hps|]. cbn. tauto. }
  rewrite map_map. clear Hne. induction Hps as [|[t n] ps (Ht & H1 & H2 & H3) Hps IH]; [done|].
  cbn [map fst snd] in *. rewrite (trimmed_trim _ (trimmed_pair _ _ Ht H1 H2)), filter_cons, decide_True, IH; [done|].
  by destruct t.
Qed.

(** Role tokens are bound to canonical roles only. *)
Lemma role_tokens_known raw m t r : parseRoleTokens raw = Ok m -> m !! t = Some r -> r ∈ KnownRoles.
Proof.
  unfold parseRoleTokens. destruct (role_entries _ _) as [out|e] eqn:E; [|done]. case_bool_decide; [done|].
  intros [= <-]. revert E. generalize (splitTrim raw ","). intros es.
  assert (H0 : forall t r, (∅ : gmap string string) !! t = Some r -> r ∈ KnownRoles) by done.
  revert H0. generalize (∅ : gmap string string). clear. induction es as [|e es IH]; intros out0 H0 E; cbn [role_entries] in E.
  { injection E as ->. apply H0. }
  destruct (e ==s ""); [by eapply IH|]. destruct (cut_at ":" e) as [[a b]|]; [|done].
  destruct (CanonicalRole (trimSpace b) ==s "") eqn:Er; [done|]. breflect.
  eapply IH; [|exact E]. intros t' r' [[_ <-]|[_ ?]]%lookup_insert_Some; [|by eapply H0]. by apply CanonicalRole_known.
Qed.

Lemma parseTenantTokens_iff raw m : parseTenantTokens raw = Ok m <->
  exists ps, Forall2 entry_binds (listed raw) ps /\ NoDup ps.*1 /\ ("" ∉ ps.*1) /\ ps <> [] /\ m = list_to_map ps.
Proof.
  assert (Hok : parseTenantTokens raw = Ok m <-> tenant_entries (splitTrim raw ",") ∅ = Ok m /\ m <> ∅).
  { unfold parseTenantTokens. destruct (tenant_entries _ _) as [out|e]; [|naive_solver]. case_bool_decide; naive_solver. }
  rewrite Hok, tenant_entries_spec. clear Hok. fold (listed raw).
  assert (Hnil : forall ps, list_to_map (M := gmap string string) ps = ∅ <-> ps = []).
  { intros [|[t n] ps]; [done|]. split; [|done]. cbn. intros H. by apply insert_non_empty in H. }
  split.
  - intros [(ps & Hps & Hnd & Hz & _ & ->) Hne]. rewrite (right_id_L ∅ (∪)) in *. exists ps. rewrite <- Hnil. done.
  - intros (ps & Hps & Hnd & Hz & Hne & ->). rewrite Hnil. split; [|done]. exists ps.
    rewrite (right_id_L ∅ (∪)). done.
Qed.

(** A list that is accepted binds some token. *)
Lemma tenant_tokens_some raw m : parseTenantTokens raw = Ok m -> exists t n, t <> "" /\ m !! t = Some n.
Proof.
  intros (ps & _ & Hnd & Hz & Hne & ->)%parseTenantTokens_iff. destruct ps as [|[t n] ps]; [done|].
  exists t, n. cbn in Hz. split; [set_solver|]. cbn. apply lookup_insert_eq.
Qed.

(** ** Theorems *)

(** Loading: a configuration [Load] accepts has an upstream, a sink it
    knows with the destination that sink needs, a rooted base path, a queue of
    positive length, a rule directory, an address, a timeout and a sensor id;
    and every environment variable that is set has the last word over the
    file, whatever the file says. *)
Theorem loaded_config_usable getenv file c : config_Load getenv file = Ok c ->
  us_URL (cfg_Upstream c) <> "" /\ sink_ready (cfg_Emitter c) /\ HasPrefix (ls_BasePath (cfg_Listen c)) "/" = true /\
  (0 < ec_BufferSize (cfg_Emitter c))%Z /\ rs_Dirs (cfg_Rules c) <> [] /\ ls_Address (cfg_Listen c) <> "" /\
  us_Timeout (cfg_Upstream c) <> 0%Z /\ sn_ID (cfg_Sensor c) <> "" /\
  (getenv "HOPFRAME_UPSTREAM_URL" <> "" -> us_URL (cfg_Upstream c) = getenv "HOPFRAME_UPSTREAM_URL") /\
  (getenv "HOPFRAME_EMITTER_SINK" <> "" -> ec_Sink (cfg_Emitter c) = getenv "HOPFRAME_EMITTER_SINK") /\
  (getenv "HOPFRAME_EMITTER_URL" <> "" -> ec_URL (cfg_Emitter c) = getenv "HOPFRAME_EMITTER_URL") /\
  (getenv "HOPFRAME_TENANT_ID" <> "" -> sn_TenantID (cfg_Sensor c) = getenv "HOPFRAME_TENANT_ID") /\
  (getenv "HOPFRAME_API_TOKEN" <> "" -> ec_BearerToken (cfg_Emitter c) = getenv "HOPFRAME_API_TOKEN").
Proof.
  intros (c0 & -> & [Hu Hs]%config_validate_spec)%config_Load_validated.
  repeat apply conj; [exact Hu|exact Hs|apply base_path_rooted| | |by apply or_default_nonempty| |by apply or_default_nonempty| | | | |];
    cbn [applyDefaults applyEnvOverrides cfg_Sensor cfg_Upstream cfg_Listen cfg_Rules cfg_Emitter cfg_Policy us_URL us_Timeout
         ec_Sink ec_URL ec_BufferSize ec_BearerToken rs_Dirs sn_TenantID].
  - destruct (ec_BufferSize (cfg_Emitter c0) <=? 0)%Z eqn:E; breflect; lia.
  - by destruct (rs_Dirs (cfg_Rules c0)).
  - destruct (us_Timeout (cfg_Upstream c0) =? 0)%Z eqn:E; breflect; [done|lia].
  - apply env_or_set.
  - intros H. rewrite (env_or_set _ _ _ H). unfold or_default. by rewrite eqb_neq_s.
  - apply env_or_set.
  - apply env_or_set.
  - apply env_or_set.
Qed.

(** Token lists: [parseTenantTokens] answers a map exactly when every
    listed entry is a token, a colon and a tenant, no token is empty or listed
    twice, and something is listed; the map it answers then binds each token
    to its tenant and nothing else.  So no entry is dropped and no binding is
    silently replaced. *)
Theorem tenant_tokens_exact raw m : parseTenantTokens raw = Ok m <->
  exists ps, Forall2 entry_binds (listed raw) ps /\ NoDup ps.*1 /\ ("" ∉ ps.*1) /\ ps <> [] /\ m = list_to_map ps.
Proof. apply parseTenantTokens_iff. Qed.

(** Round trip: written out as [token:tenant] and joined by commas, clean
    bindings (no colon in a token, no comma, no surrounding blanks) are read
    back as they were, an empty tenant and colons in a tenant included. *)
Theorem tenant_tokens_roundtrip ps :
  Forall (fun p => p.1 <> "" /\ trimmed p.1 = true /\ trimmed p.2 = true /\ contains_char ":" p.1 = false /\
    contains_char "," (p.1 +:+ String ":" p.2) = false) ps ->
  NoDup ps.*1 -> ps <> [] ->
  parseTenantTokens (join "," (map (fun p => p.1 +:+ String ":" p.2) ps)) = Ok (list_to_map ps).
Proof.
  intros Hps Hnd Hne.
  assert (Hl : listed (join "," (map (fun p => p.1 +:+ String ":" p.2) ps)) = map (fun p => p.1 +:+ String ":" p.2) ps).
  { apply render_listed; [|done]. eapply Forall_impl; [exact Hps|]. cbn. tauto. }
  unfold parseTenantTokens. rewrite (proj2 (tenant_entries_spec _ _ (list_to_map ps))).
  - rewrite bool_decide_eq_false_2; [done|]. destruct ps as [|[t n] ps]; [done|]. cbn. apply insert_non_empty.
  - exists ps. fold (listed (join "," (map (fun p => p.1 +:+ String ":" p.2) ps))). rewrite Hl, (right_id_L ∅ (∪)).
    split_and!; [|done| |done|done].
    + apply Forall2_fmap_l, Forall_Forall2_diag. eapply Forall_impl; [exact Hps|]. intros [t n] (_ & Ht & Hn & Hc & _). cbn in *.
      exists t, n. by rewrite !trimmed_trim.
    + intros Hin. apply list_elem_of_fmap in Hin as (p & Hp & Hin). rewrite Forall_forall in Hps.
      destruct (Hps p Hin) as [H _]. by apply H.
Qed.

(** ** Witnesses *)

Definition example_env (k : string) : string := if k ==s "HOPFRAME_UPSTREAM_URL" then "http://mcp:9000" else "".
Definition example_file : option (Config -> option Config) := Some (fun c => Some c).

Lemma loaded_config_usable_witness : exists c, config_Load example_env example_file = Ok c /\ us_URL (cfg_Upstream c) = "http://mcp:9000".
Proof.
  eexists. split; [reflexivity|].
  refine (proj1 (proj2 (proj2 (proj2 (proj2 (proj2 (proj2 (proj2 (proj2 (loaded_config_usable example_env example_file _ eq_refl))))))))) _).
  vm_compute. discriminate.
Defined.

Lemma tenant_tokens_roundtrip_witness :
  parseTenantTokens "alpha:acme,beta:,gamma:a:b" = Ok (list_to_map [("alpha", "acme"); ("beta", ""); ("gamma", "a:b")]).
Proof.
  refine (tenant_tokens_roundtrip [("alpha", "acme"); ("beta", ""); ("gamma", "a:b")] _ _ _).
  - repeat constructor; try discriminate; reflexivity.
  - cbn. repeat constructor; set_solver.
  - discriminate.
Defined.
