(* ===== verification/Bundle.v ===== *)
(** * Export bundles on disk

    [cmd/hopframe-export]: the records of a tenant and a time range fetched
    from a control plane and written out with their hashes, signatures and a
    Merkle root, and the check of its [VERIFY.md]; with the signer of
    [pkg/audit/sign.go]. *)

From Stdlib Require Import Decimal DecimalString.
From S2P Require Import Prelude Sha256 Utf8 DecimalText Rfc3339 Json Event Normalize A2a Merkle EventStore.
From S2P Require Import Roles Tokens Users Server AuditApi Exporter ReadApi.

(** ** Signatures

    The key pair of a seed; a signature verifies under the public key. *)
Class SigningKeys `{Ed25519} := {
  ed25519_Public : string -> string;
  ed25519_Sign : string -> string -> string;
  sign_verifies seed msg : ed25519_Verify (ed25519_Public seed) msg (ed25519_Sign seed msg) = true
}.

Section signer.
Context `{SigningKeys}.

Definition SeedSize : nat := 32.

(** [Signer]: the seed its keys come from. *)
Record Signer := mkSigner { sg_seed : string }.

(** [NewSignerFromSeed]. *)
Definition NewSignerFromSeed (seed : string) : option Signer :=
  if (String.length seed <? SeedSize)%nat then None else Some (mkSigner (str_take SeedSize seed)).

Definition signer_PublicKey (s : Signer) : string := hex (ed25519_Public (sg_seed s)).
Definition signer_Sign (s : Signer) (canonical : string) : string := b64_encode (ed25519_Sign (sg_seed s) canonical).

Inductive signature_error := ErrDecodePub | ErrDecodeSig | ErrSignature.

(** [VerifyRecordSignature]; [None] is the nil error. *)
Definition VerifyRecordSignature (pubKeyHex canonical sigB64 : string) : option signature_error :=
  match hex_decode pubKeyHex with
  | None => Some ErrDecodePub
  | Some pub =>
      match b64_decode false true (drop_breaks sigB64) with
      | None => Some ErrDecodeSig
      | Some sig => if negb (ed25519_Verify pub canonical sig) then Some ErrSignature else None
      end
  end.

(** ** Records as the exporter reads them *)

Record record := mkRecord { xr_Seq : Z; xr_IngestAt : Z; xr_PrevHash : string; xr_Hash : string; xr_Event : json }.

(** A record of the control plane, through its JSON form. *)
Definition fetched (r : Rec) : record := mkRecord (r_Seq r) (r_IngestAt r) (r_PrevHash r) (r_Hash r) (event_opt_json (r_Event r)).

Definition canonicalRecord (r : record) : string :=
  CanonicalRecord (xr_Seq r) (rfc3339nano (xr_IngestAt r)) (xr_PrevHash r) (xr_Event r).

Inductive export_error := ErrStats | ErrEmptyHead | ErrEvents | ErrNoRecords.

(** [fetchStats] and [fetchRecords] on the two replies: the head hash, and the
    records newest first. *)
Definition fetchStats (stats : option string) : result string export_error :=
  match stats with
  | None => Err ErrStats
  | Some head => if head ==s "" then Err ErrEmptyHead else Ok head
  end.
Definition fetchRecords (stats : option string) (events : option (list record)) : result (list record * string) export_error :=
  match fetchStats stats with
  | Err e => Err e
  | Ok head => match events with None => Err ErrEvents | Some recs => Ok (rev recs, head) end
  end.

(** [filterByTime]. *)
Definition in_range_of (since until : Z) (r : record) : bool :=
  negb (negb (time_IsZero since) && time_Before (xr_IngestAt r) since)
  && negb (negb (time_IsZero until) && time_After (xr_IngestAt r) until).
Definition filterByTime (since until : Z) (l : list record) : list record := filter (fun r => in_range_of since until r = true) l.

(** ** The bundle *)

Record exportEntry := mkEntryRow { xe_Seq : Z; xe_Hash : string; xe_LeafHash : string; xe_IngestAt : Z; xe_Signature : string }.
Record exportManifest := mkManifest {
  xm_ExportedAt : Z; xm_ControlPlane : string; xm_Tenant : string; xm_ChainHead : string; xm_MerkleRoot : string;
  xm_RecordCount : Z; xm_SignerPubKey : string; xm_Records : list exportEntry
}.
Record Bundle := mkBundle { bd_files : gmap string string; bd_manifest : exportManifest }.

(** [%012d]. *)
Fixpoint zeros (n : nat) (s : string) : string := match n with O => s | S n' => String "0" (zeros n' s) end.
Definition pad12 (n : Z) : string := let d := dec_string n in zeros (12 - String.length d) d.
Definition record_file (seq : Z) : string := "record-" +:+ pad12 seq +:+ ".json".

Definition leaf_of (r : record) : string := sha256 (canonicalRecord r).

Definition entry_of (signer : option Signer) (r : record) : exportEntry :=
  mkEntryRow (xr_Seq r) (xr_Hash r) (hex (leaf_of r)) (xr_IngestAt r)
    (match signer with Some s => signer_Sign s (canonicalRecord r) | None => "" end).

Definition publicKeyOrEmpty (signer : option Signer) : string :=
  match signer with Some s => signer_PublicKey s | None => "" end.

(** The files in the order they are written: a later one replaces an earlier
    one of the same name. *)
Definition write_records (recs : list record) : gmap string string :=
  fold_left (fun m r => <[record_file (xr_Seq r) := canonicalRecord r]> m) recs ∅.

Definition build_bundle (now : Z) (base tenant head : string) (signer : option Signer) (recs : list record) : Bundle :=
  mkBundle (write_records recs)
    (mkManifest now base tenant head (hex (default "" (Root (NewMerkleTree (map leaf_of recs)))))
       (Z.of_nat (length recs)) (publicKeyOrEmpty signer) (map (entry_of signer) recs)).

(** [main], after the flags. *)
Definition export_main (now : Z) (base tenant : string) (signer : option Signer) (since until : Z)
    (stats : option string) (events : option (list record)) : result Bundle export_error :=
  match fetchRecords stats events with
  | Err e => Err e
  | Ok (recs, head) =>
      match filterByTime since until recs with
      | [] => Err ErrNoRecords
      | recs => Ok (build_bundle now base tenant head signer recs)
      end
  end.

(** ** The receiver's check

    The steps of [VERIFY.md]: the hash of every file, its signature when there
    is a key, and the root over the leaf hashes. *)
Definition verify_entry (b : Bundle) (e : exportEntry) : bool :=
  match bd_files b !! record_file (xe_Seq e) with
  | None => false
  | Some text =>
      (hex (sha256 text) ==s xe_LeafHash e)
      && ((xm_SignerPubKey (bd_manifest b) ==s "")
          || match VerifyRecordSignature (xm_SignerPubKey (bd_manifest b)) text (xe_Signature e) with None => true | Some _ => false end)
  end.
Definition verify_bundle (b : Bundle) : bool :=
  let m := bd_manifest b in
  forallb (verify_entry b) (xm_Records m)
  && match mapM (fun e => hex_decode (xe_LeafHash e)) (xm_Records m) with
     | None => false
     | Some leaves => hex (default "" (Root (NewMerkleTree leaves))) ==s xm_MerkleRoot m
     end.
End signer.

(** ** Lemmas: names of files *)

#[local] Opaque sha256.

Definition digit_first (s : string) : Prop := exists c s', s = String c s' /\ DecimalText.is_digit c = true.

Lemma parse_dec_zero s : digit_first s -> parse_dec (String "0" s) = parse_dec s.
Proof.
  intros (c & s' & -> & Hc). unfold parse_dec. cbn [NilZero.int_of_string].
  assert (Hm : Ascii.eqb c "-" = false) by (apply Ascii.eqb_neq; intros ->; discriminate Hc).
  rewrite Hm. change (Ascii.eqb "0" "-") with false. cbn iota.
  change (NilZero.uint_of_string (String "0" (String c s'))) with (option_map D0 (NilEmpty.uint_of_string (String c s'))).
  change (NilZero.uint_of_string (String c s')) with (NilEmpty.uint_of_string (String c s')).
  by destruct (NilEmpty.uint_of_string (String c s')).
Qed.

Lemma zeros_digit n s : digit_first s -> digit_first (zeros n s).
Proof. destruct n; [done|]. intros _. by eexists _, _. Qed.

Lemma parse_zeros n s : digit_first s -> parse_dec (zeros n s) = parse_dec s.
Proof. intros Hs. induction n as [|n IH]; [done|]. cbn [zeros]. rewrite parse_dec_zero by (by apply zeros_digit). exact IH. Qed.

Lemma pad12_inj a b : (0 <= a)%Z -> (0 <= b)%Z -> pad12 a = pad12 b -> a = b.
Proof.
  intros Ha Hb E%(f_equal parse_dec). unfold pad12 in E.
  rewrite !parse_zeros, !parse_dec_string in E by (by apply dec_string_head). by injection E.
Qed.

Lemma record_file_inj a b : (0 <= a)%Z -> (0 <= b)%Z -> record_file a = record_file b -> a = b.
Proof.
  intros Ha Hb E. unfold record_file in E. apply sapp_inj_l in E. apply pad12_inj; [done..|].
  assert (Hl : String.length (pad12 a) = String.length (pad12 b)).
  { apply (f_equal String.length) in E. rewrite !sapp_length in E. lia. }
  by apply (sapp_inj_length _ _ _ _ Hl) in E as [? _].
Qed.

Lemma write_records_lookup recs r : NoDup (map xr_Seq recs) -> Forall (fun r => 0 <= xr_Seq r)%Z recs -> r ∈ recs ->
  write_records recs !! record_file (xr_Seq r) = Some (canonicalRecord r).
Proof.
  unfold write_records. induction recs as [|x recs IH] using rev_ind; intros Hnd Hpos Hin; [by apply elem_of_nil in Hin|].
  rewrite fold_left_app. cbn [fold_left]. rewrite map_app in Hnd. apply NoDup_app in Hnd as (Hnd & Hdis & _).
  apply Forall_app in Hpos as [Hpos Hx]. apply Forall_cons in Hx as [Hx _].
  apply elem_of_app in Hin as [Hin | ->%list_elem_of_singleton]; [|apply lookup_insert_eq].
  rewrite lookup_insert_ne; [by apply IH|]. intros E. rewrite Forall_forall in Hpos.
  assert (xr_Seq r = xr_Seq x) as E' by (apply record_file_inj; [by apply Hpos|exact Hx|by symmetry]).
  apply (Hdis (xr_Seq r)); [by apply list_elem_of_fmap_2|].
  rewrite E'. apply list_elem_of_singleton. reflexivity.
Qed.

(** ** Lemmas: signatures *)

Lemma drop_breaks_base64 s : all_base64 s -> drop_breaks s = s.
Proof.
  induction s as [|c s IH]; [done|]. cbn [all_base64 drop_breaks]. intros (_ & Hc & Hs).
  destruct (Ascii.eqb c "010" || Ascii.eqb c "013") eqn:E; [|by rewrite IH].
  apply orb_true_iff in E as [->%Ascii.eqb_eq | ->%Ascii.eqb_eq]; discriminate Hc.
Qed.

Section facts.
Context `{SigningKeys}.

Lemma signature_verifies s msg : VerifyRecordSignature (signer_PublicKey s) msg (signer_Sign s msg) = None.
Proof.
  unfold VerifyRecordSignature, signer_PublicKey, signer_Sign.
  rewrite hex_decode_hex, drop_breaks_base64, b64_decode_encode by apply b64_encode_base64. by rewrite sign_verifies.
Qed.

Lemma entry_verifies now base tenant head signer recs r : NoDup (map xr_Seq recs) -> Forall (fun r => 0 <= xr_Seq r)%Z recs ->
  r ∈ recs -> verify_entry (build_bundle now base tenant head signer recs) (entry_of signer r) = true.
Proof.
  intros Hnd Hpos Hin. unfold verify_entry. cbn [build_bundle bd_files bd_manifest xm_SignerPubKey entry_of xe_Seq xe_LeafHash xe_Signature].
  rewrite (write_records_lookup recs r Hnd Hpos Hin). unfold leaf_of. rewrite eqb_refl_s. cbn [andb].
  destruct signer as [s|]; [|done]. cbn [publicKeyOrEmpty]. rewrite signature_verifies. apply orb_true_r.
Qed.

Lemma leaves_decode signer recs : mapM (fun e => hex_decode (xe_LeafHash e)) (map (entry_of signer) recs) = Some (map leaf_of recs).
Proof.
  apply mapM_Some_2. rewrite Forall2_fmap. apply Forall_Forall2_diag, Forall_forall. intros r _. cbn. apply hex_decode_hex.
Qed.

Lemma filterByTime_sublist since until l : filterByTime since until l `sublist_of` l.
Proof. apply sublist_filter. Qed.

(** What the receiver hashes: the files, and the tree over their hashes. *)
Definition bundle_inputs (files : list string) : list string := files ++ merkle_inputs (map sha256 files).

Lemma collision_cons x y xs ys : collision xs ys -> collision (x :: xs) (y :: ys).
Proof. apply collision_mono; intros z; apply list_elem_of_further. Qed.

Lemma collision_here x y xs ys : x <> y -> sha256 x = sha256 y -> collision (x :: xs) (y :: ys).
Proof. intros Hne E. exists x, y. split_and!; [apply list_elem_of_here|apply list_elem_of_here|exact Hne|exact E]. Qed.

Lemma collision_left x y xs ys : collision x y -> collision (x ++ xs) (y ++ ys).
Proof. apply collision_mono; intros z Hz; apply elem_of_app; by left. Qed.
Lemma collision_right x y xs ys : collision x y -> collision (xs ++ x) (ys ++ y).
Proof. apply collision_mono; intros z Hz; apply elem_of_app; by right. Qed.

Lemma hashes_bind fs fs' : map sha256 fs = map sha256 fs' ->
  fs = fs' \/ collision fs fs'.
Proof.
  revert fs'. induction fs as [|f fs IH]; intros [|f' fs'] E; [by left|discriminate E..|].
  pose proof (f_equal (hd "") E) as E1. pose proof (f_equal tl E) as E2. cbn [map hd tl] in E1, E2. clear E.
  destruct (IH fs' E2) as [->|Hc]; [|right; by apply collision_cons].
  destruct (decide (f = f')) as [->|Hne]; [by left|]. right. by apply collision_here.
Qed.

(** The files a manifest names. *)
Definition named_files (b : Bundle) : option (list string) := mapM (fun e => bd_files b !! record_file (xe_Seq e)) (xm_Records (bd_manifest b)).

Lemma verify_bundle_files b : verify_bundle b = true -> exists fs, named_files b = Some fs /\
  length fs = length (xm_Records (bd_manifest b)) /\
  map (fun e => xe_LeafHash e) (xm_Records (bd_manifest b)) = map (fun f => hex (sha256 f)) fs /\
  hex (default "" (Root (NewMerkleTree (map sha256 fs)))) = xm_MerkleRoot (bd_manifest b).
Proof.
  unfold verify_bundle. intros [Hall Hroot]%andb_true_iff. rewrite forallb_forall in Hall. unfold named_files.
  assert (exists fs, mapM (fun e => bd_files b !! record_file (xe_Seq e)) (xm_Records (bd_manifest b)) = Some fs /\
    map (fun e => xe_LeafHash e) (xm_Records (bd_manifest b)) = map (fun f => hex (sha256 f)) fs) as (fs & Hfs & Hl).
  { revert Hall. generalize (xm_Records (bd_manifest b)). intros es. clear Hroot. induction es as [|e es IH]; intros Hall; [by exists []|].
    destruct IH as (fs & Hfs & Hl); [intros x Hx; apply Hall; by right|].
    specialize (Hall e (or_introl eq_refl)). unfold verify_entry in Hall.
    destruct (bd_files b !! record_file (xe_Seq e)) as [text|] eqn:Et; [|done].
    apply andb_true_iff in Hall as [Hh%String.eqb_eq _]. exists (text :: fs). split.
    - cbn [mapM]. rewrite Et. cbn [mbind option_bind]. by rewrite Hfs.
    - cbn [map]. by rewrite Hl, Hh. }
  exists fs. split_and!; [done| |done|].
  - pose proof (f_equal length Hl) as E. rewrite !length_map in E. by symmetry.
  - assert (mapM (fun e => hex_decode (xe_LeafHash e)) (xm_Records (bd_manifest b)) = Some (map sha256 fs)) as Hm.
    { revert Hl. generalize (xm_Records (bd_manifest b)). clear. intros es. revert fs. induction es as [|e es IH]; intros [|f fs] E; [done|discriminate E..|].
      pose proof (f_equal (hd "") E) as E1. pose proof (f_equal tl E) as E2. cbn [map hd tl] in E1, E2. clear E.
      cbn [mapM]. rewrite E1, hex_decode_hex. cbn [mbind option_bind]. by rewrite (IH fs E2). }
    rewrite Hm in Hroot. by apply String.eqb_eq in Hroot.
Qed.

(** *** What the control plane sends *)

Lemma Atoi_string z : (0 <= z <= max_int64)%Z -> Atoi (dec_string z) = Some z.
Proof.
  intros [H1 H2]. destruct (dec_string_head z H1) as (c & s & E & Hc). unfold Atoi. rewrite E.
  destruct (Ascii.eqb c plus) eqn:Ep; [apply Ascii.eqb_eq in Ep; by subst|].
  rewrite <- E, parse_dec_string. cbn [mbind option_bind].
  rewrite (proj2 (Z.leb_le min_int64 z)), (proj2 (Z.leb_le z max_int64)); [done|done|unfold min_int64; lia].
Qed.

(** The query of the exporter. *)
Definition exporter_query (limit : Z) : ReadParams := mkParams (dec_string limit) "" "" "" "" "" "" "" "".

(** The record is visible to a query for the tenant [t], or for any when [t] is
    empty. *)
Definition of_tenant (t : string) (r : Rec) : bool :=
  match r_Event r with Some ev => wants t (ev_TenantID ev ==s t) | None => false end.

Lemma exporter_read r s rs limit : holds s rs -> (0 < limit <= max_int64)%Z ->
  exists out, api_query r (exporter_query limit) s = Some out /\
    rev out = last_n limit (filter (fun x => of_tenant (tenantFor r) x = true) (last_n (es_cacheCap s) rs)).
Proof.
  intros Hs Hl. unfold api_query, positive_or. cbn [rp_limit exporter_query]. rewrite Atoi_string by lia.
  rewrite (proj2 (Z.ltb_lt 0 limit)) by lia. rewrite (Read_window s rs _ Hs). eexists. split; [reflexivity|].
  cbn [read_query q_Limit q_SinceSeq since_of rp_since_seq exporter_query]. rewrite (proj2 (Z.leb_gt limit 0)) by lia.
  set (w := last_n (es_cacheCap s) rs).
  assert (filter (fun x => selects (read_query r (exporter_query limit) limit) x && ((0 =? 0)%Z || (0 <? r_Seq x)%Z)) (rev w)
    = rev (filter (fun x => of_tenant (tenantFor r) x = true) w)) as E.
  { transitivity (filter (fun x => of_tenant (tenantFor r) x = true) (rev w)).
    - apply list_filter_iff. intros x. rewrite Is_true_true. unfold selects, of_tenant, match_event, wants. cbn.
      destruct (r_Event x) as [ev|]; [|done]. by rewrite !andb_true_r.
    - induction w as [|x w' IH]; [done|]. cbn [rev]. rewrite filter_app, IH, (filter_cons _ x w'), filter_cons.
      destruct (decide _); [done|]. cbn. by rewrite app_nil_r. }
  change (since_of "") with 0%Z. rewrite E, firstn_rev, rev_involutive. unfold last_n. done.
Qed.

Lemma bundle_files_named now base tenant head signer recs : NoDup (map xr_Seq recs) -> Forall (fun r => 0 <= xr_Seq r)%Z recs ->
  named_files (build_bundle now base tenant head signer recs) = Some (map canonicalRecord recs).
Proof.
  intros Hnd Hpos. unfold named_files. cbn [build_bundle bd_manifest bd_files xm_Records]. apply mapM_Some_2.
  rewrite Forall2_fmap. apply Forall_Forall2_diag, Forall_forall. intros r Hr. cbn [entry_of xe_Seq]. by apply write_records_lookup.
Qed.

(** ** Theorems *)

(** An export verifies offline: for records with sequence numbers of their
    own, whatever they hold, the bundle that is written passes the receiver's
    check, signatures included when a key was given, and its files are the
    canonical records in the order of the manifest. *)
Theorem bundle_verifies now base tenant head signer recs : NoDup (map xr_Seq recs) -> Forall (fun r => 0 <= xr_Seq r)%Z recs ->
  let b := build_bundle now base tenant head signer recs in
  verify_bundle b = true /\ named_files b = Some (map canonicalRecord recs).
Proof.
  intros Hnd Hpos. cbn zeta. split.
  - unfold verify_bundle. apply andb_true_iff. split.
    + apply forallb_forall. intros e He. cbn [build_bundle bd_manifest xm_Records] in He.
      apply in_map_iff in He as (r & <- & Hr). by apply entry_verifies, list_elem_of_In.
    + cbn [build_bundle bd_manifest xm_Records xm_MerkleRoot]. rewrite leaves_decode. apply eqb_refl_s.
  - by apply bundle_files_named.
Qed.

(** C26. A bundle cannot be altered under its root: any bundle with the Merkle
    root and the number of records of an exported one that passes the check has
    the exported files, in the same order, unless checking the two hashes two
    different inputs to the same SHA-256. *)
Theorem bundle_tamper_evident now base tenant head signer recs b' : NoDup (map xr_Seq recs) -> Forall (fun r => 0 <= xr_Seq r)%Z recs ->
  recs <> [] -> verify_bundle b' = true ->
  xm_MerkleRoot (bd_manifest b') = xm_MerkleRoot (bd_manifest (build_bundle now base tenant head signer recs)) ->
  length (xm_Records (bd_manifest b')) = length recs ->
  exists fs', named_files b' = Some fs' /\
    (fs' = map canonicalRecord recs \/ collision (bundle_inputs fs') (bundle_inputs (map canonicalRecord recs))).
Proof.
  intros Hnd Hpos Hne Hv Hroot Hlen. destruct (verify_bundle_files b' Hv) as (fs & Hfs & Hl & _ & Hr).
  exists fs. split; [done|]. rewrite Hroot in Hr. cbn [build_bundle bd_manifest xm_MerkleRoot] in Hr. apply hex_inj in Hr.
  assert (map leaf_of recs = map sha256 (map canonicalRecord recs)) as El by (by rewrite map_map).
  rewrite El in Hr. set (gs := map canonicalRecord recs) in *.
  assert (Hlg : length (map sha256 fs) = length (map sha256 gs)) by (unfold gs; rewrite !length_map; congruence).
  assert (Hne' : map sha256 fs <> []) by (intros E; apply (f_equal length) in E; rewrite Hlg in E; unfold gs in E; rewrite !length_map in E; by destruct recs).
  assert (Hdig : forall l, Forall is_digest (map sha256 l)).
  { intros l. apply Forall_map, Forall_forall. intros x _. apply length_sha256. }
  assert (Root (NewMerkleTree (map sha256 fs)) = Root (NewMerkleTree (map sha256 gs))) as Hroots.
  { destruct (Root_Some (map sha256 fs)) as [x Hx], (Root_Some (map sha256 gs)) as [y Hy]. rewrite Hx, Hy in *. cbn in Hr. by rewrite Hr. }
  destruct (root_binds _ _ Hlg Hne' (Hdig fs) (Hdig gs) Hroots) as [E|Hc].
  - destruct (hashes_bind fs gs E) as [?|Hc]; [by left|]. right. by apply collision_left.
  - right. by apply collision_right.
Qed.

Lemma seqs_distinct rs : StronglySorted (fun a b => r_Seq a < r_Seq b)%Z rs -> NoDup (map r_Seq rs).
Proof.
  induction 1 as [|x l _ IH Hx]; [constructor|]. cbn [map]. constructor; [|done].
  intros (y & Ey & Hy)%list_elem_of_fmap. rewrite Forall_forall in Hx. specialize (Hx y Hy). lia.
Qed.

Lemma fetched_canonical r : rec_ok r -> canonicalRecord (fetched r) = canonicalRecordBytes r.
Proof.
  intros Hr%rec_ok_marshals. unfold record_marshals in Hr. apply andb_true_iff in Hr as [_ Hr].
  unfold canonicalRecordBytes. by rewrite Hr.
Qed.

Lemma filter_fetched since until l :
  filterByTime since until (map fetched l) = map fetched (filter (fun x => in_range_of since until (fetched x) = true) l).
Proof. unfold filterByTime. induction l as [|x l IH]; [done|]. cbn [map]. rewrite !filter_cons, IH. by destruct (decide _). Qed.

Lemma export_records now base tenant signer since until head (out : list Rec) b :
  export_main now base tenant signer since until head (Some (map fetched out)) = Ok b ->
  exists h, b = build_bundle now base tenant h signer
    (map fetched (filter (fun x => in_range_of since until (fetched x) = true) (rev out))).
Proof.
  unfold export_main, fetchRecords. destruct (fetchStats head) as [h|e]; [|done].
  rewrite <- map_rev, filter_fetched. destruct (map fetched _) eqn:E; [done|]. intros [= <-]. by exists h.
Qed.

End facts.

(** ** Witnesses *)

#[local] Transparent sha256.

Section witnesses.

(** Signatures that carry the key and the text. *)
#[local] Instance plain_verify : Ed25519 := { ed25519_Verify pub msg sig := sig ==s pub +:+ msg }.
#[local, refine] Instance plain_sign : SigningKeys := { ed25519_Public seed := seed; ed25519_Sign seed msg := seed +:+ msg }.
Proof. intros seed msg. apply eqb_refl_s. Defined.

Definition sample_signer : option Signer := NewSignerFromSeed "0123456789abcdef0123456789abcdef".
Definition two_records : list record := map fetched sample_records.
Definition sample_bundle : Bundle := build_bundle 100 "http://cp" "" "head" sample_signer two_records.

Lemma two_distinct : NoDup (map xr_Seq two_records) /\ Forall (fun r => 0 <= xr_Seq r)%Z two_records.
Proof. split; [apply (bool_decide_unpack _); vm_compute; reflexivity|]. repeat constructor; vm_compute; discriminate. Qed.

Lemma bundle_verifies_witness : verify_bundle sample_bundle = true.
Proof. exact (proj1 (bundle_verifies 100 "http://cp" "" "head" sample_signer two_records (proj1 two_distinct) (proj2 two_distinct))). Defined.

(** The same bundle under another address. *)
Definition moved_bundle : Bundle := build_bundle 200 "http://mirror" "" "head" sample_signer two_records.

Lemma bundle_tamper_evident_witness : exists fs', named_files moved_bundle = Some fs' /\
  (fs' = map canonicalRecord two_records \/ collision (bundle_inputs fs') (bundle_inputs (map canonicalRecord two_records))).
Proof.
  apply (bundle_tamper_evident 100 "http://cp" "" "head" sample_signer two_records moved_bundle (proj1 two_distinct) (proj2 two_distinct));
    [discriminate|vm_compute; reflexivity|reflexivity|reflexivity].
Defined.

Definition everyone : request := mkReq "GET" "/v1/events" "" "" "" "" None.

Definition exported (limit until : Z) : result Bundle export_error :=
  export_main 100 "http://cp" "" None zero_time until (Some "head") (map fetched <$> api_query everyone (exporter_query limit) sample_store).

Definition exported_bundle : Bundle := match exported 5 90 with Ok b => b | Err _ => sample_bundle end.

Lemma exported_ok : exported 5 90 = Ok exported_bundle.
Proof. vm_compute. reflexivity. Qed.


(** The limit is applied before the range: a record of the range is missing
    when enough newer records lie outside it. *)
Theorem export_misses_range : exported 1 1 = Err ErrNoRecords /\
  exists b, exported 2 1 = Ok b /\ map xe_Seq (xm_Records (bd_manifest b)) = [1%Z].
Proof. split; [vm_compute; reflexivity|]. eexists. split; vm_compute; reflexivity. Qed.
End witnesses.
