(* ===== verification/ControlPlane.v ===== *)
(** * The control-plane command

    [cmd/control-plane/main.go] up to the listener: from the environment to the
    credentials the API checks, its backend, rate limit and exporters; with
    [SetOIDC] and [OpenAuto].  The stores are opened on files that are
    arguments. *)

From S2P Require Import Prelude Text Utf8 DecimalText Json Event Ruleset Roles Tokens Users Server Config EventStore Exporter Routes.

(** ** Backends *)

Inductive backend := Postgres (dsn : string) | File (path : string).

Definition isPostgresDSN (s : string) : bool := HasPrefix s "postgres://" || HasPrefix s "postgresql://".

(** [OpenAuto] chooses; [path] is the log path of the options. *)
Definition OpenAuto (dsn path : string) : backend :=
  let dsn := if dsn ==s "" then path else dsn in if isPostgresDSN dsn then Postgres dsn else File dsn.

(** ** Sign-in *)

Definition oidc_ttl : Z := (12 * 3600 * Second)%Z.

(** [SetOIDC] on the configuration [main] builds, which has no group roles;
    [disco] is whether the discovery document is read. *)
Definition SetOIDC (issuer clientID redirectURL defaultRole : string) (disco : bool) (c : Credentials) : option Credentials :=
  if (issuer ==s "") || (clientID ==s "") || (redirectURL ==s "") then None
  else if disco then Some (set_oidc (mkOidcState ∅ ∅ ∅ defaultRole oidc_ttl) c) else None.

(** ** Start *)

Inductive cp_error :=
| CpStore
| CpTenantTokens (e : list_error)
| CpRoleTokens (e : list_error)
| CpPolicies
| CpUsers (e : user_error)
| CpBootstrapForm
| CpBootstrap (e : user_error)
| CpTokens (e : token_error)
| CpContent
| CpSigningKey
| CpOIDC.

(** What the command finds: its environment and flags, the files of its stores,
    and the outcomes of opening the others. *)
Record CpHost := mkCpHost {
  ch_getenv : string -> string;
  ch_logPath : string;
  ch_storeDSN : string;
  ch_store : backend -> bool;
  ch_policies : string -> bool;
  ch_users_dir : bool; ch_users : string -> user_file;
  ch_salt : string; ch_write : bool;
  ch_tokens_dir : bool; ch_tokens : string -> token_file;
  ch_content : string -> bool;
  ch_key : string -> bool;
  ch_disco : string -> bool
}.

Record ControlPlane := mkControlPlane {
  cpl_backend : backend; cpl_creds : Credentials; cpl_rps : option Z; cpl_fleet : bool;
  cpl_webhook : option Webhook; cpl_splunk : option (string * string * string * string)
}.

Definition no_credentials : Credentials := mkCreds "" ∅ ∅ None None None.

Section start.
Context `{MapIter} `{Bcrypt}.
Context (now : Z) (h : CpHost).

Definition cp_bind {A B} (r : result A cp_error) (f : A -> result B cp_error) : result B cp_error :=
  match r with Ok a => f a | Err e => Err e end.
#[local] Notation "'let*' x := r 'in' k" := (cp_bind r (fun x => k)) (at level 10, x pattern, r at level 100, k at level 200).

(** The chosen backend, opened. *)
Definition start_store : result backend cp_error :=
  let storeDSN := if ch_getenv h "HOPFRAME_STORE_DSN" !=s "" then ch_getenv h "HOPFRAME_STORE_DSN" else ch_storeDSN h in
  let logPath := if ch_getenv h "HOPFRAME_CONTROL_PLANE_LOG" !=s "" then ch_getenv h "HOPFRAME_CONTROL_PLANE_LOG" else ch_logPath h in
  let b := OpenAuto (if storeDSN ==s "" then logPath else storeDSN) logPath in
  if ch_store h b then Ok b else Err CpStore.

Definition start_auth_token (c : Credentials) : Credentials :=
  if ch_getenv h "HOPFRAME_API_TOKEN" !=s ""
  then mkCreds (ch_getenv h "HOPFRAME_API_TOKEN") (cr_tenantTokens c) (cr_roles c) (cr_oidc c) (cr_users c) (cr_tokenStore c) else c.

Definition start_tenant_tokens (c : Credentials) : result Credentials cp_error :=
  if ch_getenv h "HOPFRAME_TENANT_TOKENS" ==s "" then Ok c
  else match parseTenantTokens (ch_getenv h "HOPFRAME_TENANT_TOKENS") with
       | Err e => Err (CpTenantTokens e)
       | Ok m => Ok (SetTenantTokens m c)
       end.

(** A limit that is no positive number is ignored. *)
Definition start_rate_limit : option Z :=
  match Atoi (ch_getenv h "HOPFRAME_RATE_LIMIT_RPS") with Some rps => if (0 <? rps)%Z then Some rps else None | None => None end.

Definition start_role_tokens (c : Credentials) : result Credentials cp_error :=
  if ch_getenv h "HOPFRAME_ROLE_TOKENS" ==s "" then Ok c
  else match parseRoleTokens (ch_getenv h "HOPFRAME_ROLE_TOKENS") with
       | Err e => Err (CpRoleTokens e)
       | Ok m => Ok (SetRoleTokens m c)
       end.

Definition start_policies : result unit cp_error :=
  let path := ch_getenv h "HOPFRAME_POLICY_PATH" in if (path ==s "") || ch_policies h path then Ok tt else Err CpPolicies.

(** The bootstrap owner, when the store has no user. *)
Definition bootstrap (us : UserStore) : result UserStore cp_error :=
  let raw := ch_getenv h "HOPFRAME_BOOTSTRAP_ADMIN" in
  if (raw ==s "") || HasAny us then Ok us
  else match cut_at ":" raw with
  | None => Err CpBootstrapForm
  | Some (name, password) =>
      match user_Create now (ch_salt h) (ch_write h) (trimSpace name) password RoleOwner "" us with
      | (us', Ok _) => Ok us'
      | (_, Err e) => Err (CpBootstrap e)
      end
  end.

Definition start_users (c : Credentials) : result Credentials cp_error :=
  let path := ch_getenv h "HOPFRAME_USERS_PATH" in
  if path ==s "" then Ok c
  else match OpenUserStore path (ch_users_dir h) (ch_users h path) with
  | Err e => Err (CpUsers e)
  | Ok us => let* us := bootstrap us in Ok (set_users us c)
  end.

Definition start_tokens (c : Credentials) : result Credentials cp_error :=
  let path := ch_getenv h "HOPFRAME_TOKENS_PATH" in
  if path ==s "" then Ok c
  else match OpenTokenStore path (ch_tokens_dir h) (ch_tokens h path) with
  | Err e => Err (CpTokens e)
  | Ok ts => Ok (set_tokenStore ts c)
  end.

Definition start_content : result unit cp_error :=
  let root := ch_getenv h "HOPFRAME_CONTENT_ROOT" in if (root ==s "") || ch_content h root then Ok tt else Err CpContent.
Definition start_key : result unit cp_error :=
  let path := ch_getenv h "HOPFRAME_SIGNING_KEY" in if (path ==s "") || ch_key h path then Ok tt else Err CpSigningKey.

Definition start_oidc (c : Credentials) : result Credentials cp_error :=
  let issuer := ch_getenv h "HOPFRAME_OIDC_ISSUER" in
  if issuer ==s "" then Ok c
  else match SetOIDC issuer (ch_getenv h "HOPFRAME_OIDC_CLIENT_ID") (ch_getenv h "HOPFRAME_OIDC_REDIRECT_URL") (ch_getenv h "HOPFRAME_OIDC_DEFAULT_ROLE")
               (ch_disco h issuer) c with
       | Some c => Ok c
       | None => Err CpOIDC
       end.

Definition start_webhook : option Webhook :=
  let url := ch_getenv h "HOPFRAME_WEBHOOK_URL" in
  if url ==s "" then None else Some (mkWebhook url (ch_getenv h "HOPFRAME_WEBHOOK_SECRET") (ch_getenv h "HOPFRAME_WEBHOOK_MIN_SEVERITY")).
Definition start_splunk : option (string * string * string * string) :=
  let url := ch_getenv h "HOPFRAME_SPLUNK_URL" in
  if url ==s "" then None else Some (url, ch_getenv h "HOPFRAME_SPLUNK_TOKEN", ch_getenv h "HOPFRAME_SPLUNK_INDEX", ch_getenv h "HOPFRAME_SPLUNK_MIN_SEVERITY").

(** [main], up to the listener. *)
Definition cp_start : result ControlPlane cp_error :=
  let* b := start_store in
  let* c := start_tenant_tokens (start_auth_token no_credentials) in
  let* c := start_role_tokens c in
  let* _ := start_policies in
  let* c := start_users c in
  let* c := start_tokens c in
  let* _ := start_content in
  let* _ := start_key in
  let* c := start_oidc c in
  Ok (mkControlPlane b c start_rate_limit (ch_getenv h "HOPFRAME_SENSOR_FLEET" !=s "") start_webhook start_splunk).
End start.

(** ** Lemmas *)

Section lemmas.
Context `{MapIter} `{Bcrypt}.

(** The credentials a started control plane checks, field by field. *)
Lemma cp_start_creds now h cp : cp_start now h = Ok cp ->
  let c := cpl_creds cp in let env := ch_getenv h in
  cr_authToken c = env "HOPFRAME_API_TOKEN" /\
  (if env "HOPFRAME_TENANT_TOKENS" ==s "" then cr_tenantTokens c = ∅
   else exists m, parseTenantTokens (env "HOPFRAME_TENANT_TOKENS") = Ok m /\ cr_tenantTokens c = filter (fun kv => kv.1 <> "") m) /\
  (if env "HOPFRAME_ROLE_TOKENS" ==s "" then cr_roles c = ∅
   else exists m, parseRoleTokens (env "HOPFRAME_ROLE_TOKENS") = Ok m /\
          cr_roles c = filter (fun kv => role_usable kv.1 kv.2 = true) m) /\
  (if env "HOPFRAME_USERS_PATH" ==s "" then cr_users c = None
   else exists us0 us, bootstrap now h us0 = Ok us /\ cr_users c = Some us) /\
  cr_oidc c = (if env "HOPFRAME_OIDC_ISSUER" ==s "" then None else Some (mkOidcState ∅ ∅ ∅ (env "HOPFRAME_OIDC_DEFAULT_ROLE") oidc_ttl)).
Proof.
  cbn zeta. unfold cp_start, cp_bind. destruct (start_store h) as [b|]; [|done].
  destruct (start_tenant_tokens h _) as [c1|] eqn:E1; [|done].
  destruct (start_role_tokens h c1) as [c2|] eqn:E2; [|done]. destruct (start_policies h); [|done].
  destruct (start_users now h c2) as [c3|] eqn:E3; [|done].
  destruct (start_tokens h c3) as [c4|] eqn:E4; [|done]. destruct (start_content h); [|done]. destruct (start_key h); [|done].
  destruct (start_oidc h c4) as [c5|] eqn:E5; [|done]. intros [= <-]. cbn [cpl_creds].
  assert (H1 : cr_authToken c1 = ch_getenv h "HOPFRAME_API_TOKEN" /\ cr_roles c1 = ∅ /\ cr_users c1 = None /\ cr_oidc c1 = None /\
    (if ch_getenv h "HOPFRAME_TENANT_TOKENS" ==s "" then cr_tenantTokens c1 = ∅
     else exists m, parseTenantTokens (ch_getenv h "HOPFRAME_TENANT_TOKENS") = Ok m /\ cr_tenantTokens c1 = filter (fun kv => kv.1 <> "") m)).
  { revert E1. unfold start_tenant_tokens, start_auth_token.
    destruct (ch_getenv h "HOPFRAME_API_TOKEN" ==s "") eqn:Ea; cbn [negb];
      (destruct (ch_getenv h "HOPFRAME_TENANT_TOKENS" ==s ""); [intros [= <-]|destruct (parseTenantTokens _) as [m|]; [intros [= <-]|done]]);
      breflect; cbn; split_and!; try done; by exists m. }
  assert (H2 : cr_authToken c2 = cr_authToken c1 /\ cr_tenantTokens c2 = cr_tenantTokens c1 /\ cr_users c2 = cr_users c1 /\ cr_oidc c2 = cr_oidc c1 /\
    (if ch_getenv h "HOPFRAME_ROLE_TOKENS" ==s "" then cr_roles c2 = cr_roles c1
     else exists m, parseRoleTokens (ch_getenv h "HOPFRAME_ROLE_TOKENS") = Ok m /\ cr_roles c2 = filter (fun kv => role_usable kv.1 kv.2 = true) m)).
  { revert E2. unfold start_role_tokens. destruct (ch_getenv h "HOPFRAME_ROLE_TOKENS" ==s ""); [by intros [= <-]|].
    destruct (parseRoleTokens _) as [m|]; [intros [= <-]|done]. cbn. split_and!; try done. by exists m. }
  assert (H3 : cr_authToken c3 = cr_authToken c2 /\ cr_tenantTokens c3 = cr_tenantTokens c2 /\ cr_roles c3 = cr_roles c2 /\ cr_oidc c3 = cr_oidc c2 /\
    (if ch_getenv h "HOPFRAME_USERS_PATH" ==s "" then cr_users c3 = cr_users c2
     else exists us0 us, bootstrap now h us0 = Ok us /\ cr_users c3 = Some us)).
  { revert E3. unfold start_users, cp_bind. destruct (ch_getenv h "HOPFRAME_USERS_PATH" ==s ""); [by intros [= <-]|].
    destruct (OpenUserStore _ _ _) as [us0|]; [|done]. destruct (bootstrap now h us0) as [us|] eqn:Eb; [intros [= <-]|done].
    cbn. split_and!; try done. by exists us0, us. }
  assert (H4 : cr_authToken c4 = cr_authToken c3 /\ cr_tenantTokens c4 = cr_tenantTokens c3 /\ cr_roles c4 = cr_roles c3 /\
    cr_oidc c4 = cr_oidc c3 /\ cr_users c4 = cr_users c3).
  { revert E4. unfold start_tokens. destruct (ch_getenv h "HOPFRAME_TOKENS_PATH" ==s ""); [by intros [= <-]|].
    destruct (OpenTokenStore _ _ _); [by intros [= <-]|done]. }
  assert (H5 : cr_authToken c5 = cr_authToken c4 /\ cr_tenantTokens c5 = cr_tenantTokens c4 /\ cr_roles c5 = cr_roles c4 /\ cr_users c5 = cr_users c4 /\
    cr_oidc c5 = (if ch_getenv h "HOPFRAME_OIDC_ISSUER" ==s "" then cr_oidc c4
                  else Some (mkOidcState ∅ ∅ ∅ (ch_getenv h "HOPFRAME_OIDC_DEFAULT_ROLE") oidc_ttl))).
  { revert E5. unfold start_oidc, SetOIDC. destruct (ch_getenv h "HOPFRAME_OIDC_ISSUER" ==s ""); [by intros [= <-]|]. destruct (_ || _); [done|].
    destruct (ch_disco h _); [by intros [= <-]|done]. }
  destruct H1 as (Ha1 & Hr1 & Hu1 & Ho1 & Ht1), H2 as (Ha2 & Ht2 & Hu2 & Ho2 & Hr2), H3 as (Ha3 & Ht3 & Hr3 & Ho3 & Hu3),
    H4 as (Ha4 & Ht4 & Hr4 & Ho4 & Hu4), H5 as (Ha5 & Ht5 & Hr5 & Hu5 & Ho5).
  rewrite Ha5, Ha4, Ha3, Ha2, Ha1, Ht5, Ht4, Ht3, Ht2, Hr5, Hr4, Hr3, Hu5, Hu4, Ho5, Ho4, Ho3, Ho2, Ho1.
  rewrite Hu2, Hu1 in Hu3. rewrite Hr1 in Hr2. done.
Qed.

Lemma no_auth_false c :
  cr_authToken c <> "" \/ (exists t n, cr_tenantTokens c !! t = Some n) \/ (exists t r, cr_roles c !! t = Some r) \/
  (exists u, cr_users c = Some u /\ HasAny u = true) -> no_auth c = false.
Proof.
  assert (Hm : forall m : gmap string string, (exists t n, m !! t = Some n) -> bool_decide (m = ∅) = false).
  { intros m (t & n & Hm). apply bool_decide_eq_false. intros ->. by rewrite lookup_empty in Hm. }
  unfold no_auth. intros [Ha|[Ht|[Hr|(u & -> & Hu)]]].
  - by rewrite (eqb_neq_s _ _ Ha).
  - rewrite (Hm _ Ht). by rewrite andb_false_r.
  - rewrite (Hm _ Hr). by rewrite andb_false_r.
  - by rewrite Hu, andb_false_r.
Qed.

(** The bootstrap owner makes the store non-empty. *)
Lemma bootstrap_HasAny now h us0 us : ch_getenv h "HOPFRAME_BOOTSTRAP_ADMIN" <> "" -> bootstrap now h us0 = Ok us -> HasAny us = true.
Proof.
  intros Hb. unfold bootstrap. rewrite (eqb_neq_s _ _ Hb). cbn [orb]. destruct (HasAny us0) eqn:Eh; [by intros [= <-]|].
  destruct (cut_at ":" _) as [[name password]|]; [|done].
  unfold user_Create. destruct (_ || _); [done|]. destruct (_ <? _)%nat; [done|]. destruct (_ && _); [done|].
  destruct (bcrypt_generate _ _); [|done]. destruct (ust_users us0 !! _) eqn:E; [done|]. destruct (ch_write h); [|done].
  intros [= <-]. unfold HasAny. cbn. rewrite bool_decide_eq_false_2; [done|]. apply insert_non_empty.
Qed.

Lemma role_binding_kept (m : gmap string string) t r : t <> "" -> m !! t = Some r -> r ∈ KnownRoles ->
  filter (fun kv => role_usable kv.1 kv.2 = true) m !! t = Some r.
Proof.
  intros Ht Hm Hr. apply map_lookup_filter_Some. split; [done|]. cbn. unfold role_usable. rewrite (eqb_neq_s _ _ Ht). cbn [orb].
  unfold KnownRoles in Hr. repeat (apply elem_of_cons in Hr as [->|Hr]; [done|]). by apply elem_of_nil in Hr.
Qed.

(** An API route answers an anonymous request with 401 when authentication is
    on. *)
Lemma anonymous_refused now ok r c hd sc : no_auth c = false -> request_token r = "" -> HasPrefix (rq_Path r) "/v1/" = true ->
  (gate now ok r c).2 = Runs hd sc -> hd = "uiHandler".
Proof.
  intros Hc Ht Hp. unfold gate. destruct (mux (rq_Path r)) as [| |rt] eqn:Em; [done|done|].
  assert (Ha : auth now ok r c = (c, None)) by (unfold auth; by rewrite Hc, Ht).
  destruct (api_route_guarded _ _ Em Hp) as [Hg|Hu].
  - destruct (rt_guard rt); [done| |]; rewrite Ha; done.
  - rewrite Hu. destruct (rt_guard rt); rewrite ?Ha; [by intros [= <- _]|done|done].
Qed.
End lemmas.

(** ** Theorems *)

Section theorems.
Context `{MapIter} `{Bcrypt}.

(** The ways the environment configures a credential. *)
Definition has_credential (h : CpHost) : Prop :=
  let env := ch_getenv h in
  env "HOPFRAME_API_TOKEN" <> "" \/ env "HOPFRAME_TENANT_TOKENS" <> "" \/
  (exists m t r, parseRoleTokens (env "HOPFRAME_ROLE_TOKENS") = Ok m /\ t <> "" /\ m !! t = Some r) \/
  env "HOPFRAME_USERS_PATH" <> "" /\ env "HOPFRAME_BOOTSTRAP_ADMIN" <> "".


(** Sessions of the identity provider all get the default role: the command
    gives no way to map groups to roles. *)
Theorem oidc_groups_ignored now h cp o groups : cp_start now h = Ok cp -> cr_oidc (cpl_creds cp) = Some o ->
  pickRole groups (oi_groupRoles o) (oi_defaultRole o) =
    (if ch_getenv h "HOPFRAME_OIDC_DEFAULT_ROLE" ==s "" then RoleViewer else ch_getenv h "HOPFRAME_OIDC_DEFAULT_ROLE").
Proof.
  intros (_ & _ & _ & _ & Ho)%cp_start_creds. rewrite Ho. destruct (_ ==s ""); [done|]. intros [= <-]. cbn.
  unfold pickRole. assert (pick_group groups ∅ = None) as ->.
  { induction groups as [|g gs IH]; [done|]. cbn. by rewrite lookup_empty. }
  by destruct (ch_getenv h "HOPFRAME_OIDC_DEFAULT_ROLE" ==s "") eqn:E; breflect.
Qed.

(** A role list whose only entry has an empty token is accepted and leaves the
    control plane open. *)
Theorem empty_role_token_opens now h cp : cp_start now h = Ok cp ->
  ch_getenv h "HOPFRAME_ROLE_TOKENS" = ":admin" -> ch_getenv h "HOPFRAME_API_TOKEN" = "" ->
  ch_getenv h "HOPFRAME_TENANT_TOKENS" = "" -> ch_getenv h "HOPFRAME_USERS_PATH" = "" ->
  forall now' ok r, (auth now' ok r (cpl_creds cp)).2 = Some (rq_scope r).
Proof.
  intros (Ha & Ht & Hr & Hu & _)%cp_start_creds E3 E1 E2 E4 now' ok r.
  rewrite E1 in Ha. rewrite E2 in Ht. rewrite E3 in Hr. rewrite E4 in Hu. cbn in Ha, Ht, Hu. destruct Hr as (m & [= <-] & Hr).
  unfold auth, no_auth. by rewrite Ha, Ht, Hr, Hu.
Qed.
End theorems.

(** ** Witnesses *)

Section witnesses.
#[local] Existing Instances canonical_iter plain_bcrypt.

Definition sample_env (vars : list (string * string)) (k : string) : string := default "" (obj_get k vars).
Definition sample_cp (vars : list (string * string)) : CpHost :=
  mkCpHost (sample_env vars) "data/events.ndjson" "" (fun _ => true) (fun _ => true) true (fun _ => UFAbsent) "salt" true true (fun _ => TFAbsent)
    (fun _ => true) (fun _ => true) (fun _ => true).

Definition closed_vars : list (string * string) :=
  [("HOPFRAME_TENANT_TOKENS", "alpha:acme, beta:zeta"); ("HOPFRAME_USERS_PATH", "users.json"); ("HOPFRAME_BOOTSTRAP_ADMIN", "root:correct horse")].
Definition oidc_vars : list (string * string) :=
  [("HOPFRAME_OIDC_ISSUER", "https://idp"); ("HOPFRAME_OIDC_CLIENT_ID", "hop"); ("HOPFRAME_OIDC_REDIRECT_URL", "https://cp/cb");
   ("HOPFRAME_OIDC_DEFAULT_ROLE", "admin"); ("HOPFRAME_TOKENS_PATH", "tokens.json")].
Definition started (vars : list (string * string)) : ControlPlane :=
  match cp_start 5 (sample_cp vars) with Ok cp => cp | Err _ => mkControlPlane (File "") no_credentials None false None None end.

Definition anonymous (path : string) : request := mkReq "GET" path "" "" "" "" None.

Lemma closed_starts : cp_start 5 (sample_cp closed_vars) = Ok (started closed_vars).
Proof. vm_compute. reflexivity. Qed.
Lemma oidc_starts : cp_start 5 (sample_cp oidc_vars) = Ok (started oidc_vars).
Proof. vm_compute. reflexivity. Qed.
Lemma empty_role_starts : cp_start 5 (sample_cp [("HOPFRAME_ROLE_TOKENS", ":admin")]) = Ok (started [("HOPFRAME_ROLE_TOKENS", ":admin")]).
Proof. vm_compute. reflexivity. Qed.


Lemma oidc_groups_ignored_witness :
  pickRole ["admins"] ∅ "admin" = "admin".
Proof.
  exact (oidc_groups_ignored 5 (sample_cp oidc_vars) (started oidc_vars) (mkOidcState ∅ ∅ ∅ "admin" oidc_ttl) ["admins"] oidc_starts eq_refl).
Defined.

Lemma empty_role_token_opens_witness :
  (auth 9 true (anonymous "/v1/users") (cpl_creds (started [("HOPFRAME_ROLE_TOKENS", ":admin")]))).2 = Some None.
Proof.
  apply (empty_role_token_opens 5 (sample_cp [("HOPFRAME_ROLE_TOKENS", ":admin")]) (started [("HOPFRAME_ROLE_TOKENS", ":admin")]) empty_role_starts); reflexivity.
Defined.
End witnesses.
