(* ===== verification/PgStore.v ===== *)
(** * The Postgres log

    [control-plane/store/pgstore.go]: the event log on a Postgres database.
    The two tables of its schema are a value, the statements of a transaction
    act on it in order, and a transaction takes its outcome as an argument; it
    holds the row lock of the chain head from its first statement, so it is one
    step.  The cache of a process is outside the database: filling it is a step
    of its own. *)

From S2P Require Import Prelude Sha256 Rfc3339 Json Event EventStore.

(** ** The database *)

(** What a [jsonb] column gives back for a text, if it accepts it: the same
    value, with the keys in another order and without repetitions. *)
Class Jsonb := { jsonb : json -> option json }.
Class JsonbLaws `{Jsonb} : Prop := { jsonb_wire : forall v w, jsonb v = Some w -> wire w = wire v }.

(** [hopframe_events], whose rows are kept in the order of their key, and the
    one row of [hopframe_chain_head]. *)
Record Row := mkRow {
  rw_seq : Z; rw_ingest_at : Z; rw_prev_hash : string; rw_hash : string; rw_event : json;
  rw_tenant_id : option string; rw_agent_run_id : option string; rw_action : option string;
  rw_severity : option string; rw_method : option string
}.
Record DB := mkDB { db_events : list Row; db_seq : Z; db_head_hash : string; db_chain_start : string }.

(** What the schema makes of an empty database. *)
Definition schema : DB := mkDB [] 0 genesisHash genesisHash.

Definition nullif (s : string) : option string := if s ==s "" then None else Some s.

Fixpoint insert_row (row : Row) (l : list Row) : list Row :=
  match l with
  | [] => [row]
  | x :: l' => if (rw_seq row <? rw_seq x)%Z then row :: l else x :: insert_row row l'
  end.

(** The insertion fails when the key does not fit its column, or when the key
    or the hash is taken. *)
Definition insert_event (row : Row) (db : DB) : option DB :=
  if (max_int64 <? rw_seq row)%Z
     || existsb (fun x => (rw_seq x =? rw_seq row)%Z || (rw_hash x ==s rw_hash row)) (db_events db)
  then None else Some (mkDB (insert_row row (db_events db)) (db_seq db) (db_head_hash db) (db_chain_start db)).

(** ** Stores *)

Record PGStore := mkPG { pg_dsn : string; pg_cache : list Rec; pg_cacheCap : Z; pg_retention : Z }.

(** How a transaction ends: committed, rolled back with an error, or committed
    with the acknowledgement lost. *)
Inductive tx := TxCommits | TxFails | TxUnacknowledged.
Inductive pg_error := PgEmptyDSN | PgDatabase | PgMarshal | PgDecode | PgChain (r : Rec) | PgMismatch (r : Rec).

(** [Truncate(time.Microsecond)]. *)
Definition to_micros (t : Z) : Z := (t / 1000 * 1000)%Z.

Section ops.
Context `{Jsonb}.

(** A row scanned into a record. *)
Definition row_record (row : Row) : option Rec :=
  ev ← event_of_json (wire (rw_event row));
  Some (mkRec (rw_seq row) (rw_ingest_at row) (rw_prev_hash row) (rw_hash row) (Some ev)).

(** The newest rows that a condition selects, at most [limit]. *)
Definition select_desc (cond : Row -> bool) (limit : Z) (db : DB) : list Row :=
  take (Z.to_nat limit) (filter (fun row => cond row = true) (rev (db_events db))).

(** [warmCache]: the cache it leaves; [ok] is whether the query answers. *)
Definition warmCache (ok : bool) (db : DB) (s : PGStore) : PGStore * option pg_error :=
  if negb ok then (s, Some PgDatabase)
  else match mapM row_record (select_desc (fun _ => true) (pg_cacheCap s) db) with
       | None => (s, Some PgDecode)
       | Some fresh => (mkPG (pg_dsn s) (rev fresh) (pg_cacheCap s) (pg_retention s), None)
       end.

(** [OpenPostgres]: [db_ok] is whether the database can be reached and takes
    the schema; an existing database is left as it is. *)
Definition OpenPostgres (dsn : string) (retention cacheCap : Z) (db_ok warm_ok : bool) (db : DB) : result PGStore pg_error :=
  if dsn ==s "" then Err PgEmptyDSN
  else
    let cap := if (cacheCap <=? 0)%Z then 1024%Z else cacheCap in
    if negb db_ok then Err PgDatabase
    else match warmCache warm_ok db (mkPG dsn [] cap retention) with
         | (s, None) => Ok s
         | (_, Some e) => Err e
         end.

(** The record [Append] builds under the lock, and its row. *)
Definition pg_record (now : Z) (ev : Event) (db : DB) : Rec :=
  let rec := mkRec (wrapu64 (db_seq db + 1)) (to_micros now) (db_head_hash db) "" (Some ev) in
  mkRec (r_Seq rec) (r_IngestAt rec) (r_PrevHash rec) (computeHash rec) (r_Event rec).

Definition indexed_row (r : Rec) (ev : Event) (v : json) : Row :=
  mkRow (r_Seq r) (r_IngestAt r) (r_PrevHash r) (r_Hash r) v
    (nullif (ev_TenantID ev)) (nullif (ev_AgentRunID ev)) (nullif (ev_Action ev)) (nullif (ev_Severity ev))
    (nullif (m_Method (ev_Message ev))).

(** The transaction of [Append]. *)
Definition append_tx (now : Z) (t : tx) (ev : Event) (db : DB) : DB * result Rec pg_error :=
  match t with
  | TxFails => (db, Err PgDatabase)
  | _ =>
      let rec := pg_record now ev db in
      if negb (event_marshals (Some ev)) then (db, Err PgMarshal)
      else match v ← jsonb (event_json ev); insert_event (indexed_row rec ev v) db with
      | None => (db, Err PgDatabase)
      | Some db' =>
          (mkDB (db_events db') (r_Seq rec) (r_Hash rec) (db_chain_start db'),
           match t with TxCommits => Ok rec | _ => Err PgDatabase end)
      end
  end.

(** The step that follows a commit. *)
Definition cache_record (r : Rec) (s : PGStore) : PGStore :=
  mkPG (pg_dsn s) (appendCacheLocked (pg_cacheCap s) (pg_cache s) r) (pg_cacheCap s) (pg_retention s).

Definition pg_Append (now : Z) (t : tx) (ev : Event) (x : PGStore * DB) : (PGStore * DB) * result Rec pg_error :=
  let '(db', res) := append_tx now t ev x.2 in
  ((match res with Ok r => cache_record r x.1 | Err _ => x.1 end, db'), res).

(** [Stats]; [ok] is whether the query answers. *)
Definition pg_Stats (ok : bool) (x : PGStore * DB) : Z * string * string :=
  if ok then (db_seq x.2, pg_dsn x.1, db_head_hash x.2) else (0%Z, "", "").

(** ** Reading *)

Definition column_is (param : string) (column : option string) : bool :=
  (param ==s "") || match column with Some v => v ==s param | None => false end.

(** The [WHERE] clause of [Read]. *)
Definition where_clause (q : Query) (oldest : option Z) (row : Row) : bool :=
  match oldest with Some n => (rw_seq row <? n)%Z | None => true end
  && column_is (q_TenantID q) (rw_tenant_id row)
  && column_is (q_Action q) (rw_action row)
  && column_is (q_Severity q) (rw_severity row)
  && column_is (q_Method q) (rw_method row)
  && ((q_SinceSeq q =? 0)%Z || (q_SinceSeq q <? rw_seq row)%Z).

(** The loop over the rows, which filters again and stops at the limit; [None]
    is the nil dereference of [match]. *)
Fixpoint scan_rows (q : Query) (limit : Z) (out : list Rec) (rows : list Row) : option (list Rec * option pg_error) :=
  match rows with
  | [] => Some (out, None)
  | row :: rows' =>
      match row_record row with
      | None => Some (out, Some PgDecode)
      | Some r =>
          ok ← match_record r q;
          if negb ok then scan_rows q limit out rows'
          else let out := out ++ [r] in
               if (limit <=? Z.of_nat (length out))%Z then Some (out, None) else scan_rows q limit out rows'
      end
  end.

(** [Read]: the loop over the cache is that of the file store; [ok] is whether
    the query answers, which it does not for a number that is no [bigint]. *)
Definition pg_Read (q : Query) (ok : bool) (x : PGStore * DB) : option (list Rec * option pg_error) :=
  let limit := if (q_Limit q <=? 0)%Z then 50%Z else q_Limit q in
  out ← read_loop q limit 0 (rev (pg_cache x.1));
  if (limit <=? Z.of_nat (length out))%Z then Some (out, None)
  else if negb ok || (max_int64 <? q_SinceSeq q)%Z then Some (out, Some PgDatabase)
  else scan_rows q limit out (select_desc (where_clause q (r_Seq <$> head (pg_cache x.1))) limit x.2).

(** [Verify]. *)
Fixpoint pg_verify_loop (prev : string) (rows : list Row) : option pg_error :=
  match rows with
  | [] => None
  | row :: rows' =>
      match row_record row with
      | None => Some PgDecode
      | Some r =>
          if r_PrevHash r !=s prev then Some (PgChain r)
          else if r_Hash r !=s computeHash r then Some (PgMismatch r)
          else pg_verify_loop (r_Hash r) rows'
      end
  end.
Definition pg_Verify (ok : bool) (db : DB) : option pg_error :=
  if negb ok then Some PgDatabase else pg_verify_loop (db_chain_start db) (db_events db).

(** [Timeline]: the cached records of the run or else those of the table, up to
    the first that does not decode. *)
Fixpoint decode_rows (rows : list Row) : list Rec :=
  match rows with
  | [] => []
  | row :: rows' => match row_record row with Some r => r :: decode_rows rows' | None => [] end
  end.
Definition pg_Timeline (agentRunID tenantID : string) (ok : bool) (x : PGStore * DB) : list Rec :=
  let out := filter (fun r => match r_Event r with
                   | None => false
                   | Some ev => (ev_AgentRunID ev ==s agentRunID) && wants tenantID (ev_TenantID ev ==s tenantID)
                   end = true) (pg_cache x.1) in
  if negb (is_nil out) then out
  else if negb ok then []
  else decode_rows (filter (fun row => match rw_agent_run_id row with Some v => v ==s agentRunID | None => false end
                                       && column_is tenantID (rw_tenant_id row) = true) (db_events x.2)).

(** ** Rotation *)

(** The transaction of [Rotate], with the counts of kept and dropped rows; the
    count of kept rows answers.  When nothing is old the outcome of the commit
    is not looked at, and a commit that fails there is as [TxCommits]. *)
Definition rotate_tx (cutoff : Z) (t : tx) (db : DB) : DB * (Z * Z) * option pg_error :=
  let old row := time_Before (rw_ingest_at row) cutoff in
  let kept := filter (fun row => old row = false) (db_events db) in
  let dropped := Z.of_nat (length (filter (fun row => old row = true) (db_events db))) in
  match t with
  | TxFails => (db, (0, 0)%Z, Some PgDatabase)
  | _ =>
      match select_desc old 1 db with
      | [] => (db, (Z.of_nat (length kept), 0%Z), None)
      | youngest :: _ =>
          let db' := mkDB kept (db_seq db) (db_head_hash db) (rw_hash youngest) in
          match t with
          | TxCommits => (db', (Z.of_nat (length kept), dropped), None)
          | _ => (db', (0, 0)%Z, Some PgDatabase)
          end
      end
  end.

Definition pg_Rotate (now : Z) (t : tx) (warm_ok : bool) (x : PGStore * DB) : (PGStore * DB) * (Z * Z) * option pg_error :=
  let '(s, db) := x in
  if (pg_retention s <=? 0)%Z then (x, (0, 0)%Z, None)
  else
    let '(db', (kept, dropped), err) := rotate_tx (time_Add now (- pg_retention s)) t db in
    match err with
    | Some e => ((s, db'), (kept, dropped), Some e)
    | None =>
        if (dropped =? 0)%Z then ((s, db'), (kept, dropped), None)
        else let '(s', werr) := warmCache warm_ok db' s in ((s', db'), (kept, dropped), werr)
    end.
End ops.

(** ** The table as a log *)

(** The row that [Append] writes for a record. *)
Definition row_of `{Jsonb} (row : Row) (r : Rec) : Prop :=
  exists ev v, r_Event r = Some ev /\ event_canonical ev = true /\ event_ok ev /\ jsonb (event_json ev) = Some v /\
    row = indexed_row r ev v.

Fixpoint consecutive (n : Z) (rs : list Rec) : Prop :=
  match rs with [] => True | r :: rs' => r_Seq r = n /\ consecutive (n + 1) rs' end.

(** The table holds the log [rs]: its rows in order, numbered up to the head
    without a gap, chained from the recorded start to the head's hash. *)
Record pg_holds `{Jsonb} (db : DB) (rs : list Rec) : Prop := {
  pg_rows : Forall2 row_of (db_events db) rs;
  pg_numbers : consecutive (db_seq db - Z.of_nat (length rs) + 1) rs;
  pg_room : (Z.of_nat (length rs) <= db_seq db <= max_int64)%Z;
  pg_chain : chained (db_chain_start db) rs;
  pg_head : db_head_hash db = last_hash (db_chain_start db) rs
}.

(** ** Lemmas *)

#[local] Opaque sha256.

Lemma Forall2_filter_iff {A B} (R : A -> B -> Prop) (P : A -> Prop) (Q : B -> Prop) `{forall x, Decision (P x)}
    `{forall y, Decision (Q y)} l l' :
  Forall2 R l l' -> (forall x y, R x y -> P x <-> Q y) -> Forall2 R (filter P l) (filter Q l').
Proof.
  intros Hl HPQ. induction Hl as [|x y l l' Hxy _ IH]; [constructor|]. rewrite !filter_cons.
  specialize (HPQ x y Hxy). destruct (decide (P x)), (decide (Q y)); try tauto. by constructor.
Qed.

Lemma consecutive_app n rs rs' : consecutive n (rs ++ rs') <-> consecutive n rs /\ consecutive (n + Z.of_nat (length rs)) rs'.
Proof.
  revert n. induction rs as [|r rs IH]; intros n; cbn [app consecutive length].
  - replace (n + Z.of_nat 0)%Z with n by lia. tauto.
  - rewrite IH. replace (n + 1 + Z.of_nat (length rs))%Z with (n + Z.of_nat (S (length rs)))%Z by lia. tauto.
Qed.

Lemma consecutive_range n rs : consecutive n rs -> Forall (fun r => n <= r_Seq r < n + Z.of_nat (length rs))%Z rs.
Proof.
  revert n. induction rs as [|r rs IH]; intros n; cbn [consecutive length]; [constructor|]. intros [Hr Hc].
  constructor; [lia|]. eapply Forall_impl; [by apply IH|]. simpl. lia.
Qed.

Lemma consecutive_sorted n rs : consecutive n rs -> StronglySorted (fun a b => r_Seq a < r_Seq b)%Z rs.
Proof.
  revert n. induction rs as [|r rs IH]; intros n; cbn [consecutive]; [constructor|]. intros [Hr Hc].
  constructor; [by eapply IH|]. eapply Forall_impl; [by apply consecutive_range|]. simpl. lia.
Qed.

Lemma insert_row_last row l : Forall (fun x => rw_seq x < rw_seq row)%Z l -> insert_row row l = l ++ [row].
Proof.
  induction 1 as [|x l Hx _ IH]; [done|]. simpl. rewrite (proj2 (Z.ltb_ge _ _)) by lia. by rewrite IH.
Qed.

Lemma column_nullif p v : column_is p (nullif v) = wants p (v ==s p).
Proof.
  unfold column_is, nullif, wants. destruct (p ==s "") eqn:Ep; [done|]. breflect.
  destruct (v ==s "") eqn:Ev; breflect; [|done]. subst. symmetry. apply String.eqb_neq. congruence.
Qed.

Lemma filter_ext_Forall {A} (P Q : A -> Prop) `{forall x, Decision (P x)} `{forall x, Decision (Q x)} l :
  Forall (fun x => P x <-> Q x) l -> filter P l = filter Q l.
Proof.
  induction 1 as [|x l Hx _ IH]; [done|]. rewrite !filter_cons, IH.
  destruct (decide (P x)), (decide (Q x)); tauto || done.
Qed.
Lemma Forall_rev_iff {A} (P : A -> Prop) l : Forall P (rev l) <-> Forall P l.
Proof. rewrite rev_alt. apply Forall_reverse. Qed.
Lemma filter_rev {A} (P : A -> Prop) `{forall x, Decision (P x)} l : filter P (rev l) = rev (filter P l).
Proof. rewrite !rev_alt. apply filter_reverse. Qed.

Section lemmas.
Context `{JsonbLaws}.

Lemma row_record_of row r : row_of row r -> row_record row = Some r.
Proof.
  intros (ev & v & He & Hc & Hok & Hv & ->). unfold row_record. cbn [indexed_row rw_event].
  rewrite (jsonb_wire _ _ Hv), event_reload, wire_event_canonical by done. cbn. rewrite <- He. by destruct r.
Qed.

Lemma mapM_rows rows rs : Forall2 row_of rows rs -> mapM row_record rows = Some rs.
Proof. intros Hr. apply mapM_Some. eapply Forall2_impl; [done|apply row_record_of]. Qed.

Lemma pg_verify_chained rows rs start : Forall2 row_of rows rs -> chained start rs -> pg_verify_loop start rows = None.
Proof.
  intros Hr. revert start. induction Hr as [|row r rows rs Hrow _ IH]; intros start; [done|].
  intros (Hp & Hh & Hc). cbn [pg_verify_loop]. rewrite (row_record_of _ _ Hrow), Hp, <- Hh, !eqb_refl_s. by apply IH.
Qed.

Lemma pg_holds_verify db rs : pg_holds db rs -> pg_Verify true db = None.
Proof. intros []. unfold pg_Verify. by eapply pg_verify_chained. Qed.

Lemma row_of_fields row r : row_of row r -> rw_seq row = r_Seq r /\ rw_ingest_at row = r_IngestAt r /\ rw_hash row = r_Hash r.
Proof. by intros (ev & v & _ & _ & _ & _ & ->). Qed.

(** *** Append *)

(** What an append needs: an event as decoded from JSON, accepted by the
    column, room for its number, and a hash that no row has. *)
Definition pg_fits (now : Z) (ev : Event) (db : DB) : Prop :=
  event_canonical ev = true /\ event_ok ev /\ is_Some (jsonb (event_json ev)) /\ (db_seq db < max_int64)%Z /\
  computeHash (pg_record now ev db) ∉ map rw_hash (db_events db).

Lemma pg_record_seq now ev db rs : pg_holds db rs -> r_Seq (pg_record now ev db) = (db_seq db + 1)%Z.
Proof.
  intros []. cbn. unfold wrapu64, max_int64 in *. apply Z.mod_small. lia.
Qed.

Lemma rows_below db rs : pg_holds db rs -> Forall (fun row => rw_seq row <= db_seq db)%Z (db_events db).
Proof.
  intros []. apply consecutive_range in pg_numbers0. apply Forall_forall. intros row Hrow.
  apply list_elem_of_lookup in Hrow as [i Hi]. destruct (Forall2_lookup_l _ _ _ _ _ pg_rows0 Hi) as (r & Hr & Hrr).
  apply row_of_fields in Hrr as (-> & _). apply list_elem_of_lookup_2 in Hr.
  rewrite Forall_forall in pg_numbers0. specialize (pg_numbers0 _ Hr). simpl in *. lia.
Qed.

Lemma pg_holds_insert now ev db rs v : pg_holds db rs -> event_canonical ev = true -> event_ok ev ->
  jsonb (event_json ev) = Some v -> (db_seq db < max_int64)%Z ->
  pg_holds (mkDB (db_events db ++ [indexed_row (pg_record now ev db) ev v]) (r_Seq (pg_record now ev db))
              (r_Hash (pg_record now ev db)) (db_chain_start db)) (rs ++ [pg_record now ev db]).
Proof.
  intros Hh Hc Hok Hv Hq. pose proof (pg_record_seq now ev db rs Hh) as Hs. destruct Hh.
  constructor; cbn [db_events db_seq db_head_hash db_chain_start].
  - apply Forall2_app; [done|]. constructor; [|constructor]. by exists ev, v.
  - rewrite Hs, length_app. cbn [length]. apply consecutive_app. split.
    + by replace (db_seq db + 1 - Z.of_nat (length rs + 1) + 1)%Z with (db_seq db - Z.of_nat (length rs) + 1)%Z by lia.
    + split; [rewrite Hs; lia|done].
  - rewrite Hs, length_app. cbn [length]. lia.
  - apply chained_app. split; [done|]. split; [exact pg_head0|by split].
  - by rewrite last_hash_snoc.
Qed.

(** A transaction either leaves the table alone, and then returns an error, or
    appends its record. *)
Lemma append_tx_cases now t ev db rs : pg_holds db rs -> event_canonical ev = true -> event_ok ev ->
  let '(db', res) := append_tx now t ev db in
  (db' = db /\ exists e, res = Err e) \/
  (pg_holds db' (rs ++ [pg_record now ev db]) /\ res = (if t is TxCommits then Ok (pg_record now ev db) else Err PgDatabase)).
Proof.
  intros Hh Hc Hok. unfold append_tx. destruct t; [|by left; eauto|].
  all: destruct (event_marshals (Some ev)); [cbn [negb]|by left; eauto].
  all: destruct (jsonb (event_json ev)) as [v|] eqn:Hv; cbn [mbind option_bind]; [|by left; eauto].
  all: unfold insert_event; destruct (_ || _) eqn:E; [by left; eauto|right; split; [|done]].
  all: apply orb_false_iff in E as [E _]; cbn [rw_seq indexed_row] in E; breflect.
  all: rewrite (pg_record_seq now ev db rs Hh) in E.
  all: cbn [db_events db_chain_start]; rewrite insert_row_last; [by apply pg_holds_insert; [..|lia]|].
  all: eapply Forall_impl; [by eapply rows_below|]; cbn [rw_seq indexed_row]; rewrite (pg_record_seq now ev db rs Hh); simpl; lia.
Qed.

Lemma append_tx_fits now ev db rs : pg_holds db rs -> pg_fits now ev db ->
  exists db', append_tx now TxCommits ev db = (db', Ok (pg_record now ev db)) /\ pg_holds db' (rs ++ [pg_record now ev db]).
Proof.
  intros Hh (Hc & Hok & [v Hv] & Hq & Hn).
  pose proof (append_tx_cases now TxCommits ev db rs Hh Hc Hok) as Hcases.
  destruct (append_tx now TxCommits ev db) as [db' res] eqn:E. destruct Hcases as [[-> [e ->]]|[Hh' ->]]; [|by exists db'].
  exfalso. revert E. unfold append_tx.
  assert (event_marshals (Some ev) = true) as -> by (destruct Hok; by apply time_okb_ok).
  cbn [negb]. rewrite Hv. cbn [mbind option_bind]. unfold insert_event.
  destruct (_ || _) eqn:E; [intros _|done]. cbn [rw_seq indexed_row] in E.
  rewrite (pg_record_seq now ev db rs Hh) in E. rewrite (proj2 (Z.ltb_ge _ _)) in E by lia. cbn [orb] in E.
  apply existsb_exists in E as (row & Hrow%list_elem_of_In & [E|E]%orb_true_iff); breflect.
  - pose proof (rows_below db rs Hh) as Hb. rewrite Forall_forall in Hb. specialize (Hb _ Hrow). simpl in Hb. lia.
  - apply Hn. apply list_elem_of_fmap. exists row. split; [|done]. rewrite E. done.
Qed.

(** *** Rotation *)

(** The expired records are a prefix, and the rest is not expired. *)
Lemma expired_prefix cutoff rs : timed rs -> exists pre, rs = pre ++ unexpired cutoff rs /\
  Forall (fun r => time_Before (r_IngestAt r) cutoff = true) pre /\
  Forall (fun r => time_Before (r_IngestAt r) cutoff = false) (unexpired cutoff rs).
Proof.
  intros Ht. destruct (unexpired_suffix cutoff rs Ht) as [pre Hpre]. exists pre. split; [done|].
  assert (Forall (fun r => time_Before (r_IngestAt r) cutoff = false) (unexpired cutoff rs)) as Hkept.
  { apply Forall_forall. intros r [Hr _]%list_elem_of_filter. by destruct (time_Before (r_IngestAt r) cutoff). }
  split; [|done]. apply Forall_forall. intros r Hr.
  destruct (time_Before (r_IngestAt r) cutoff) eqn:E; [done|exfalso].
  assert (length (unexpired cutoff rs) = length (unexpired cutoff pre) + length (unexpired cutoff (unexpired cutoff rs)))%nat as Hl.
  { rewrite Hpre at 1. unfold unexpired at 1. rewrite filter_app, length_app. done. }
  assert (unexpired cutoff (unexpired cutoff rs) = unexpired cutoff rs) as Hid.
  { unfold unexpired. rewrite list_filter_filter. apply list_filter_iff. tauto. }
  rewrite Hid in Hl. assert (r ∈ unexpired cutoff pre) as Hin.
  { apply list_elem_of_filter. split; [by rewrite E|done]. }
  destruct (unexpired cutoff pre); [by apply not_elem_of_nil in Hin|simpl in Hl; lia].
Qed.

Lemma filter_all {A} (P : A -> Prop) `{forall x, Decision (P x)} l : Forall P l -> filter P l = l.
Proof. induction 1 as [|x l Hx _ IH]; [done|]. by rewrite filter_cons_True, IH. Qed.
Lemma filter_none {A} (P : A -> Prop) `{forall x, Decision (P x)} l : Forall (fun x => ~ P x) l -> filter P l = [].
Proof. induction 1 as [|x l Hx _ IH]; [done|]. by rewrite filter_cons_False. Qed.

Lemma rotate_tx_cases cutoff t db rs : pg_holds db rs -> timed rs ->
  let '(db', counts, err) := rotate_tx cutoff t db in
  (t = TxFails /\ db' = db /\ err = Some PgDatabase) \/
  (t <> TxFails /\ pg_holds db' (unexpired cutoff rs) /\ (db_seq db', db_head_hash db') = (db_seq db, db_head_hash db) /\
   (t = TxCommits -> err = None /\
      counts = (Z.of_nat (length (unexpired cutoff rs)), Z.of_nat (length rs) - Z.of_nat (length (unexpired cutoff rs)))%Z)).
Proof.
  intros Hh Ht. destruct (expired_prefix cutoff rs Ht) as (pre & Hpre & Hold & Hnew).
  set (kept := unexpired cutoff rs) in *. destruct Hh as [Hrows Hnum Hroom Hchain Hhead].
  rewrite Hpre in Hrows. apply Forall2_app_inv_r in Hrows as (rows1 & rows2 & Hr1 & Hr2 & Hrows).
  assert (Forall (fun row => time_Before (rw_ingest_at row) cutoff = true) rows1) as Ho1.
  { eapply Forall2_Forall_l; [done|]. eapply Forall_impl; [done|]. intros r Hr row (_ & Hi & _)%row_of_fields. by rewrite Hi. }
  assert (Forall (fun row => time_Before (rw_ingest_at row) cutoff = false) rows2) as Ho2.
  { eapply Forall2_Forall_l; [done|]. eapply Forall_impl; [done|]. intros r Hr row (_ & Hi & _)%row_of_fields. by rewrite Hi. }
  assert (filter (fun row => time_Before (rw_ingest_at row) cutoff = false) (db_events db) = rows2) as Hkept.
  { rewrite Hrows, filter_app, (filter_none _ rows1), (filter_all _ rows2); [done..|].
    eapply Forall_impl; [done|]. simpl. congruence. }
  assert (filter (fun row => time_Before (rw_ingest_at row) cutoff = true) (db_events db) = rows1) as Hdrop.
  { rewrite Hrows, filter_app, (filter_all _ rows1), (filter_none _ rows2), app_nil_r; [done| |done].
    eapply Forall_impl; [done|]. simpl. congruence. }
  assert (select_desc (fun row => time_Before (rw_ingest_at row) cutoff) 1 db = take 1 (rev rows1)) as Hsel.
  { unfold select_desc. change (Z.to_nat 1) with 1%nat. by rewrite filter_rev, Hdrop. }
  assert (Hlen : length rs = (length pre + length kept)%nat) by (rewrite Hpre at 1; by rewrite length_app).
  pose proof (Forall2_length _ _ _ Hr1) as Hl1. pose proof (Forall2_length _ _ _ Hr2) as Hl2.
  rewrite Hpre in Hchain, Hhead, Hnum. apply chained_app in Hchain as [Hc1 Hc2]. apply consecutive_app in Hnum as [_ Hn2].
  rewrite last_hash_app in Hhead.
  assert (forall h, h = last_hash (db_chain_start db) pre ->
    pg_holds (mkDB rows2 (db_seq db) (db_head_hash db) h) kept) as Hfin.
  { intros h ->. constructor; cbn [db_events db_seq db_head_hash db_chain_start]; [done| |lia|done|done].
    rewrite length_app in Hn2.
    by replace (db_seq db - Z.of_nat (length kept) + 1)%Z
      with (db_seq db - Z.of_nat (length pre + length kept) + 1 + Z.of_nat (length pre))%Z by lia. }
  clearbody kept. unfold rotate_tx. cbv zeta beta. rewrite Hkept, Hdrop, Hsel.
  destruct rows1 as [|row1 rows1 _] using rev_ind.
  - cbn [rev take length] in *. apply Forall2_nil_inv_l in Hr1 as ->. cbn [app last_hash last length] in *.
    assert (db = mkDB rows2 (db_seq db) (db_head_hash db) (db_chain_start db)) as Hdb by (destruct db; cbn in *; by subst).
    specialize (Hfin _ eq_refl). cbn [last_hash last] in Hfin. rewrite <- Hdb in Hfin.
    destruct t; [right|by left|right]; (split; [done|]); split_and!; [done|done| |done|done|done].
    intros _. split; [done|]. f_equal; lia.
  - rewrite rev_unit. cbn [take]. rewrite length_app in *. cbn [length] in *.
    apply Forall2_app_inv_l in Hr1 as (pre1 & l & _ & Hr1 & ->).
    apply Forall2_cons_inv_l in Hr1 as (r1 & l' & Hrow & Hnil & ->). apply Forall2_nil_inv_l in Hnil as ->.
    apply row_of_fields in Hrow as (_ & _ & Hhash). rewrite last_hash_snoc in Hfin.
    rewrite length_app in *. cbn [length] in *.
    destruct t; [right|by left|right]; (split; [done|]); split_and!; [|done| |..]; try by apply Hfin.
    all: done || (intros _; split; [done|f_equal; lia]).
Qed.

(** *** The cache *)

(** A store whose cache is what the database last gave it, the only writer. *)
Definition in_step (x : PGStore * DB) (rs : list Rec) : Prop :=
  pg_holds x.2 rs /\ (0 < pg_cacheCap x.1)%Z /\ pg_cache x.1 = last_n (pg_cacheCap x.1) rs.

Lemma rev_take_last {A} n (l : list A) : rev (take n (rev l)) = drop (length l - n) l.
Proof. by rewrite firstn_rev, rev_involutive. Qed.

Lemma newest_rows db rs cap : pg_holds db rs ->
  Forall2 row_of (select_desc (fun _ => true) cap db) (take (Z.to_nat cap) (rev rs)).
Proof.
  intros []. unfold select_desc. apply Forall2_take. rewrite filter_all; [|apply Forall_forall; done].
  rewrite !rev_alt. by apply Forall2_reverse.
Qed.

Lemma warmCache_holds db rs s : pg_holds db rs ->
  warmCache true db s = (mkPG (pg_dsn s) (last_n (pg_cacheCap s) rs) (pg_cacheCap s) (pg_retention s), None).
Proof.
  intros Hh. unfold warmCache. cbn [negb].
  rewrite (mapM_rows _ _ (newest_rows db rs _ Hh)). by rewrite rev_take_last.
Qed.

Lemma OpenPostgres_in_step dsn retention cap db rs : pg_holds db rs -> dsn <> "" ->
  exists p, OpenPostgres dsn retention cap true true db = Ok p /\ in_step (p, db) rs.
Proof.
  intros Hh Hdsn. unfold OpenPostgres. rewrite (eqb_neq_s _ _ Hdsn). cbn [negb].
  rewrite (warmCache_holds db rs) by done. eexists. split; [done|]. unfold in_step. cbn.
  split_and!; [done| |done]. destruct (_ <=? _)%Z eqn:E; breflect; lia.
Qed.

Lemma Append_in_step now ev x rs : in_step x rs -> pg_fits now ev x.2 ->
  exists x', pg_Append now TxCommits ev x = (x', Ok (pg_record now ev x.2)) /\ pg_retention x'.1 = pg_retention x.1 /\
    pg_cacheCap x'.1 = pg_cacheCap x.1 /\ in_step x' (rs ++ [pg_record now ev x.2]).
Proof.
  intros (Hh & Hcap & Hcache) Hf. destruct (append_tx_fits now ev x.2 rs Hh Hf) as (db' & E & Hh').
  unfold pg_Append. rewrite E. eexists. split; [done|]. cbn. split_and!; [done..|]. split_and!; [done..|].
  cbn. rewrite Hcache. by apply append_cache_last_n.
Qed.

Lemma Rotate_in_step now x rs : in_step x rs -> timed rs -> (0 < pg_retention x.1)%Z ->
  let kept := unexpired (now - pg_retention x.1) rs in
  exists x', pg_Rotate now TxCommits true x =
      (x', (Z.of_nat (length kept), Z.of_nat (length rs) - Z.of_nat (length kept))%Z, None) /\ in_step x' kept.
Proof.
  intros (Hh & Hcap & Hcache) Ht Hret kept. destruct x as [s db]. cbn [fst snd] in *. unfold pg_Rotate.
  rewrite (proj2 (Z.leb_gt _ 0%Z)) by lia. unfold time_Add. change (now + - pg_retention s)%Z with (now - pg_retention s)%Z.
  pose proof (rotate_tx_cases (now - pg_retention s) TxCommits db rs Hh Ht) as Hr.
  destruct (rotate_tx _ _ db) as [[db' counts] err]. destruct Hr as [[? _]|(_ & Hh' & _ & Hr)]; [done|].
  destruct (Hr eq_refl) as [-> ->]. fold kept in Hh' |- *.
  destruct (Z.eqb_spec (Z.of_nat (length rs) - Z.of_nat (length kept)) 0) as [E|_].
  - exists (s, db'). split; [done|]. unfold in_step. split_and!; [done..|]. cbn. rewrite Hcache.
    destruct (unexpired_suffix (now - pg_retention s) rs Ht) as [pre Hpre]. fold kept in Hpre.
    assert (pre = []) as ->; [|by rewrite Hpre].
    apply (f_equal length) in Hpre. rewrite length_app in Hpre. apply length_zero_iff_nil. lia.
  - rewrite (warmCache_holds db' kept s Hh'). eexists. split; [done|]. unfold in_step. by split_and!.
Qed.

(** *** Reading *)

(** The filters that have a column. *)
Definition indexed (q : Query) : Prop := q_MinSeverity q = "" /\ q_Category q = "" /\ q_Search q = "".

(** A record that a query is after. *)
Definition wanted (q : Query) (r : Rec) : bool := selects q r && ((q_SinceSeq q =? 0)%Z || (q_SinceSeq q <? r_Seq r)%Z).

Lemma where_clause_row q oldest row r : indexed q -> row_of row r ->
  where_clause q oldest row = match oldest with Some n => (r_Seq r <? n)%Z | None => true end && wanted q r.
Proof.
  intros (Hm & Hc & Hs) (ev & v & He & _ & _ & _ & ->). unfold where_clause, wanted, selects, match_event, indexed_row.
  cbn [rw_seq rw_tenant_id rw_action rw_severity rw_method]. rewrite !column_nullif, He, Hm, Hc, Hs. cbn [wants].
  unfold wants at 5 6 7. cbn [String.eqb orb]. rewrite !andb_true_r, <- !andb_assoc.
  f_equal. f_equal. f_equal. rewrite !andb_assoc. f_equal. apply andb_comm.
Qed.

Lemma scan_rows_matching q limit rows l : (0 < limit)%Z -> Forall2 row_of rows l -> Forall (fun r => match_record r q = Some true) l ->
  forall out, (Z.of_nat (length out) < limit)%Z ->
  scan_rows q limit out rows = Some (take (Z.to_nat limit) (out ++ l), None).
Proof.
  intros Hlim Hr. induction Hr as [|row r rows l Hrow _ IH]; intros Hm out Hout; cbn [scan_rows].
  { rewrite app_nil_r, take_ge by lia. done. }
  apply Forall_cons in Hm as [Hm Hms]. rewrite (row_record_of _ _ Hrow), Hm. cbn [mbind option_bind negb].
  destruct (limit <=? _)%Z eqn:E; breflect; rewrite length_app in E; cbn [length] in E.
  - rewrite (cons_middle r out l), app_assoc, take_app_le, take_ge; [done|..]; rewrite length_app; cbn [length]; lia.
  - rewrite IH; [by rewrite <- app_assoc|done|]. rewrite length_app. cbn [length]. lia.
Qed.

(** Below the oldest cached number lie the records before the cache. *)
Lemma filter_below q rs1 r2 rs2 n : consecutive n (rs1 ++ r2 :: rs2) ->
  filter (fun r => (r_Seq r <? r_Seq r2)%Z && wanted q r = true) (rev (rs1 ++ r2 :: rs2))
  = filter (fun r => wanted q r = true) (rev rs1).
Proof.
  intros [H1 H2]%consecutive_app. pose proof H2 as [H2' _]. apply consecutive_range in H1, H2.
  rewrite rev_app_distr, filter_app, (filter_none _ (rev (r2 :: rs2))).
  - cbn [app]. apply filter_ext_Forall, Forall_rev_iff. eapply Forall_impl; [done|]. simpl. intros r Hr.
    by rewrite (proj2 (Z.ltb_lt _ _)) by lia.
  - apply Forall_rev_iff. eapply Forall_impl; [done|]. simpl. intros r Hr.
    by rewrite (proj2 (Z.ltb_ge _ _)) by lia.
Qed.

Lemma row_of_matches q rows l : Forall2 row_of rows l -> Forall (fun r => wanted q r = true) l ->
  Forall (fun r => match_record r q = Some true) l.
Proof.
  induction 1 as [|row r rows l Hrow _ IH]; [constructor|]. intros [Hw Hws]%Forall_cons. constructor; [|by apply IH].
  destruct Hrow as (ev & _ & He & _). unfold wanted, selects in Hw. unfold match_record. rewrite He in *.
  by apply andb_true_iff in Hw as [-> _].
Qed.

Lemma row_of_events rows rs : Forall2 row_of rows rs -> Forall (fun r => is_Some (r_Event r)) rs.
Proof. intros Hr. eapply Forall2_Forall_r; [done|]. apply Forall_forall. intros row _ r (ev & v & -> & _). by eexists. Qed.

(** What the query for the older rows selects, for a cache that holds the rest. *)
Lemma older_rows q limit db rs1 rs2 : indexed q -> pg_holds db (rs1 ++ rs2) -> (rs2 = [] -> rs1 = []) ->
  Forall2 row_of (select_desc (where_clause q (r_Seq <$> head rs2)) limit db)
    (take (Z.to_nat limit) (filter (fun r => wanted q r = true) (rev rs1))).
Proof.
  intros Hq Hh Hne. destruct Hh as [Hrows Hnum _ _ _]. unfold select_desc. apply Forall2_take.
  assert (filter (fun r => wanted q r = true) (rev rs1) =
    filter (fun r => match r_Seq <$> head rs2 with Some n => (r_Seq r <? n)%Z | None => true end && wanted q r = true) (rev (rs1 ++ rs2))) as ->.
  { destruct rs2 as [|r2 rs2]; [by rewrite Hne|]. symmetry. by eapply filter_below. }
  eapply Forall2_filter_iff; [rewrite !rev_alt; by apply Forall2_reverse|].
  intros row r Hrow. by rewrite (where_clause_row _ _ _ _ Hq Hrow).
Qed.

Lemma pg_Read_in_step q x rs : in_step x rs -> indexed q -> (q_SinceSeq q <= max_int64)%Z ->
  pg_Read q true x =
  Some (take (Z.to_nat (if (q_Limit q <=? 0)%Z then 50%Z else q_Limit q)) (filter (fun r => wanted q r = true) (rev rs)), None).
Proof.
  intros (Hh & Hcap & Hcache) Hq Hs. unfold pg_Read. set (limit := if (q_Limit q <=? 0)%Z then 50%Z else q_Limit q).
  assert (0 < limit)%Z as Hlim by (unfold limit; destruct (_ <=? _)%Z eqn:E; breflect; lia). clearbody limit.
  pose proof Hh as [Hrows Hnum _ _ _]. set (k := (length rs - Z.to_nat (pg_cacheCap x.1))%nat).
  assert (pg_cache x.1 = drop k rs) as Hc by done. clear Hcache. rewrite Hc.
  rewrite (read_loop_spec q limit 0); [|lia| |].
  2:{ apply Forall_rev_iff, Forall_drop'. by eapply row_of_events. }
  2:{ apply (StronglySorted_rev (fun a b => r_Seq a < r_Seq b)%Z). eapply sorted_drop, consecutive_sorted. done. }
  rewrite Z.sub_0_r. cbn [mbind option_bind].
  assert (forall l : list Rec, filter (fun r => selects q r && ((q_SinceSeq q =? 0)%Z || (q_SinceSeq q <? r_Seq r)%Z)) l
                    = filter (fun r => wanted q r = true) l) as Hfil.
  { intros l. apply list_filter_iff. intros r. unfold wanted. by destruct (_ && _). }
  rewrite Hfil. clear Hfil.
  assert (filter (fun r => wanted q r = true) (rev rs) =
    filter (fun r => wanted q r = true) (rev (drop k rs)) ++ filter (fun r => wanted q r = true) (rev (take k rs))) as ->.
  { rewrite <- filter_app, <- rev_app_distr. by rewrite take_drop. }
  set (new := filter _ (rev (drop k rs))).
  destruct (limit <=? _)%Z eqn:E; breflect; rewrite length_take in E.
  { rewrite take_app_le by lia. done. }
  cbn [negb orb]. rewrite (proj2 (Z.ltb_ge _ _)) by lia. rewrite (take_ge new) by lia.
  assert (Forall2 row_of (select_desc (where_clause q (r_Seq <$> head (drop k rs))) limit x.2)
    (take (Z.to_nat limit) (filter (fun r => wanted q r = true) (rev (take k rs))))) as Hold.
  { apply older_rows; [done|by rewrite take_drop|]. intros Hnil. apply (f_equal length) in Hnil. rewrite length_drop in Hnil.
    cbn [length] in Hnil. unfold k in *. assert (length rs = 0)%nat as Hz by lia. apply length_zero_iff_nil in Hz. rewrite Hz.
    by rewrite take_nil. }
  rewrite (scan_rows_matching q limit _ _ Hlim Hold).
  - do 2 f_equal. rewrite !take_app. f_equal. rewrite take_take. f_equal. lia.
  - eapply row_of_matches; [done|]. apply Forall_take. apply Forall_forall. intros r Hr. by apply list_elem_of_filter in Hr as [? _].
  - lia.
Qed.

(** *** Histories *)

(** The transactions of any number of processes, in the order in which they
    hold the row lock. *)
Inductive pg_op := PgAppend (now : Z) (t : tx) (ev : Event) | PgRotate (cutoff : Z) (t : tx).

Definition pg_step (db : DB) (o : pg_op) : DB * option Rec :=
  match o with
  | PgAppend now t ev =>
      let '(db', res) := append_tx now t ev db in (db', match res with Ok r => Some r | Err _ => None end)
  | PgRotate cutoff t => ((rotate_tx cutoff t db).1.1, None)
  end.

(** The database afterwards, and the records that appends returned. *)
Fixpoint pg_run (db : DB) (ops : list pg_op) : DB * list Rec :=
  match ops with
  | [] => (db, [])
  | o :: ops' => let '(db1, a) := pg_step db o in let '(db2, acks) := pg_run db1 ops' in (db2, option_list a ++ acks)
  end.

(** The clocks at the appends never go back, and events are as decoded. *)
Fixpoint pg_admissible (T : Z) (ops : list pg_op) : Prop :=
  match ops with
  | [] => True
  | PgAppend now _ ev :: ops' => (T <= now)%Z /\ event_canonical ev = true /\ event_ok ev /\ pg_admissible now ops'
  | PgRotate _ _ :: ops' => pg_admissible T ops'
  end.

(** All that was ever written, and the part of it still in the table. *)
Record history (T : Z) (cutoffs : list Z) (db : DB) (written rs : list Rec) : Prop := {
  hi_holds : pg_holds db rs;
  hi_written : exists dropped, written = dropped ++ rs /\
    Forall (fun r => Exists (fun cutoff => r_IngestAt r < cutoff)%Z cutoffs) dropped;
  hi_numbers : consecutive 1 written;
  hi_chain : chained genesisHash written;
  hi_head : db_head_hash db = last_hash genesisHash written;
  hi_seq : db_seq db = Z.of_nat (length written);
  hi_timed : timed rs;
  hi_bound : Forall (fun r => r_IngestAt r <= to_micros T)%Z rs
}.

Lemma to_micros_mono a b : (a <= b)%Z -> (to_micros a <= to_micros b)%Z.
Proof. intros Hab. unfold to_micros. pose proof (Z.div_le_mono a b 1000 ltac:(lia) Hab). lia. Qed.

Lemma history_append T C now db db' written rs r : history T C db written rs -> (T <= now)%Z ->
  r_Seq r = (db_seq db + 1)%Z -> r_IngestAt r = to_micros now -> r_PrevHash r = db_head_hash db -> r_Hash r = computeHash r ->
  pg_holds db' (rs ++ [r]) -> history now C db' (written ++ [r]) (rs ++ [r]).
Proof.
  intros [Hh (dropped & Hw & Hd) Hn Hc Hhead Hseq Ht Hb] HT Hs Hi Hp Hr Hh'.
  assert (Forall (fun r => r_IngestAt r <= to_micros now)%Z rs) as Hb'.
  { eapply Forall_impl; [done|]. simpl. intros x Hx. pose proof (to_micros_mono T now HT). lia. }
  constructor.
  - done.
  - exists dropped. by rewrite Hw, app_assoc.
  - apply consecutive_app. split; [done|]. cbn [consecutive]. split; [lia|done].
  - apply chained_app. split; [done|]. cbn [chained]. split_and!; [congruence|done|done].
  - rewrite (pg_head _ _ Hh'), !last_hash_snoc. done.
  - pose proof (pg_numbers _ _ Hh') as Hn'. apply consecutive_app in Hn' as [_ [Hn' _]].
    rewrite length_app in *. cbn [length] in *. lia.
  - apply sorted_snoc; [done|]. eapply Forall_impl; [done|]. simpl. intros x Hx. by rewrite Hi.
  - apply Forall_app. split; [done|]. constructor; [by rewrite Hi|constructor].
Qed.

Lemma history_rotate T C cutoff t db written rs : history T C db written rs ->
  exists rs', history T (cutoff :: C) (rotate_tx cutoff t db).1.1 written rs'.
Proof.
  intros [Hh (dropped & Hw & Hd) Hn Hc Hhead Hseq Ht Hb].
  assert (Forall (fun r => Exists (fun c => r_IngestAt r < c)%Z (cutoff :: C)) dropped) as Hd'.
  { eapply Forall_impl; [done|]. simpl. intros r Hr. by right. }
  pose proof (rotate_tx_cases cutoff t db rs Hh Ht) as Hr. destruct (rotate_tx cutoff t db) as [[db' counts] err]. cbn [fst].
  destruct Hr as [(-> & -> & _)|(_ & Hh' & [= Hs' Hh''] & _)].
  { exists rs. constructor; [done|by exists dropped|done..]. }
  destruct (expired_prefix cutoff rs Ht) as (pre & Hpre & Hold & _). exists (unexpired cutoff rs).
  constructor; [done| |done|done|congruence|congruence| |].
  - exists (dropped ++ pre). split; [by rewrite <- app_assoc, <- Hpre|]. apply Forall_app. split; [done|].
    eapply Forall_impl; [done|]. simpl. intros r Hr%Z.ltb_lt. by left.
  - rewrite Hpre in Ht. by apply sorted_suffix in Ht.
  - rewrite Hpre in Hb. by apply Forall_app in Hb as [_ ?].
Qed.

Lemma history_schema : history 0 [] schema [] [].
Proof.
  constructor; try done; [exists []; by split|constructor].
Qed.

Definition cutoffs_of (ops : list pg_op) : list Z := omap (fun o => match o with PgRotate c _ => Some c | _ => None end) ops.

Lemma pg_run_history ops : forall T C db written rs, history T C db written rs -> pg_admissible T ops ->
  exists T' C' new rs', history T' C' (pg_run db ops).1 (written ++ new) rs' /\ (forall c, c ∈ C' -> c ∈ C \/ c ∈ cutoffs_of ops) /\
    (pg_run db ops).2 `sublist_of` new.
Proof.
  induction ops as [|[now t ev|cutoff t] ops IH]; intros T C db written rs Hh Ha; cbn [pg_run pg_admissible cutoffs_of] in *.
  - exists T, C, [], rs. rewrite app_nil_r. split_and!; [done|by left|done].
  - destruct Ha as (HT & Hc & Hok & Ha). cbn [pg_step].
    pose proof (append_tx_cases now t ev db rs (hi_holds _ _ _ _ _ Hh) Hc Hok) as Hcases.
    destruct (append_tx now t ev db) as [db' res]. destruct Hcases as [[-> [e ->]]|[Hh' Hres]].
    + destruct (IH now C db written rs) as (T' & C' & new & rs' & H1 & H2 & H3); [|done|].
      { destruct Hh as [? ? ? ? ? ? ? Hb]. constructor; try done. eapply Forall_impl; [done|]. simpl. intros x Hx.
        pose proof (to_micros_mono T now HT). lia. }
      exists T', C', new, rs'. destruct (pg_run db ops). by split_and!.
    + set (r := pg_record now ev db) in *. destruct (IH now C db' (written ++ [r]) (rs ++ [r])) as (T' & C' & new & rs' & H1 & H2 & H3); [|done|].
      { eapply history_append; [done|done|by eapply pg_record_seq, hi_holds|done..]. }
      exists T', C', (r :: new), rs'. rewrite <- app_assoc in H1. destruct (pg_run db' ops) as [db2 acks]. cbn [fst snd] in *.
      split_and!; [done|done|]. subst res. destruct t; cbn [option_list app]; [by apply sublist_skip|by apply sublist_cons..].
  - cbn [pg_step]. destruct (history_rotate T C cutoff t db written rs Hh) as (rs' & Hh').
    destruct (IH T (cutoff :: C) _ written rs' Hh' Ha) as (T' & C' & new & rs2 & H1 & H2 & H3).
    exists T', C', new, rs2. destruct (pg_run _ ops) as [db2 acks]. cbn [fst snd option_list app] in *. split_and!; [done| |done].
    intros c Hc. change (cutoffs_of (PgRotate cutoff t :: ops)) with (cutoff :: cutoffs_of ops).
    rewrite elem_of_cons. destruct (H2 c Hc) as [[->|?]%elem_of_cons|?]; tauto.
Qed.

(** ** Theorems *)


(** C13. One process refines a plain log.  For a process that is the only writer,
    with the database answering: it opens on any table that holds a log; an
    append that fits adds one record and returns it; verification passes; a
    rotation keeps exactly the records that are not expired; the statistics are
    those of the last record; and a query on indexed columns answers the newest
    matching records of the whole log, wherever they are kept. *)
Theorem pg_refines_log x rs : in_step x rs ->
  (forall now ev, pg_fits now ev x.2 -> exists x', pg_Append now TxCommits ev x = (x', Ok (pg_record now ev x.2)) /\
     in_step x' (rs ++ [pg_record now ev x.2])) /\
  pg_Verify true x.2 = None /\
  (forall now, timed rs -> (0 < pg_retention x.1)%Z -> let kept := unexpired (now - pg_retention x.1) rs in
     exists x', pg_Rotate now TxCommits true x =
       (x', (Z.of_nat (length kept), Z.of_nat (length rs) - Z.of_nat (length kept))%Z, None) /\ in_step x' kept) /\
  (rs <> [] -> exists r, last rs = Some r /\ pg_Stats true x = (r_Seq r, pg_dsn x.1, r_Hash r)) /\
  (forall q, indexed q -> (q_SinceSeq q <= max_int64)%Z -> pg_Read q true x =
     Some (take (Z.to_nat (if (q_Limit q <=? 0)%Z then 50%Z else q_Limit q)) (filter (fun r => wanted q r = true) (rev rs)), None)) /\
  (forall dsn retention cap, dsn <> "" -> exists s, OpenPostgres dsn retention cap true true x.2 = Ok s /\ in_step (s, x.2) rs).
Proof.
  intros Hx. pose proof Hx as (Hh & Hcap & Hcache). split_and!.
  - intros now ev Hf. destruct (Append_in_step now ev x rs Hx Hf) as (x' & E & _ & _ & Hx'). by exists x'.
  - by eapply pg_holds_verify.
  - intros now Ht Hr. by apply Rotate_in_step.
  - intros Hne. destruct rs as [|r rs _] using rev_ind; [done|]. exists r. split; [by rewrite last_snoc|].
    destruct Hh as [_ Hn _ _ Hhead]. rewrite last_hash_snoc in Hhead. apply consecutive_app in Hn as [_ [Hn _]].
    rewrite length_app in Hn. cbn [length] in Hn. unfold pg_Stats. rewrite Hhead. do 2 f_equal. lia.
  - intros q Hq Hs. by apply pg_Read_in_step.
  - intros dsn retention cap Hdsn. by apply OpenPostgres_in_step.
Qed.
End lemmas.

(** ** Behaviours worth knowing *)

Section witnesses.
#[local] Transparent sha256.

#[local] Instance plain_jsonb : Jsonb := {| jsonb v := Some v |}.
#[local] Instance plain_jsonb_laws : JsonbLaws.
Proof. constructor. by intros v w [= ->]. Qed.

Definition query_of (limit since : Z) (category : string) : Query := mkQuery limit "" "" "" "" category "" since "".

(** Appends of three events by stores over one database. *)
Definition pg_first : DB * result Rec pg_error := append_tx 1000 TxCommits (sample_event "acme" "a") schema.
Definition pg_second : DB * result Rec pg_error := append_tx 2000 TxCommits (sample_event "acme" "b") pg_first.1.
Definition pg_third : DB * result Rec pg_error := append_tx 3000 TxCommits (sample_event "acme" "c") pg_second.1.
Definition cached (x : DB * result Rec pg_error) (s : PGStore) : PGStore :=
  match x.2 with Ok r => cache_record r s | Err _ => s end.
Definition empty_store (cap : Z) : PGStore := mkPG "postgres://db" [] cap 0.
Definition numbers (o : option (list Rec * option pg_error)) : option (list Z) := option_map (fun p => map r_Seq p.1) o.

(** A second process goes unread: of three records, the second appended
    elsewhere, a process answers the first and the third, which it cached; so
    it does after an append whose acknowledgement was lost. *)
Theorem replica_reads_gap :
  numbers (pg_Read (query_of 10 0 "") true (cached pg_third (cached pg_first (empty_store 8)), pg_third.1)) = Some [3; 1]%Z /\
  length (db_events pg_third.1) = 3%nat.
Proof. split; vm_compute; reflexivity. Qed.

(** The cache is filled after the lock is released: when two appends of one
    process get there in the other order, the answer is out of order, and a
    reader that asks for what follows the first record is answered nothing,
    though the second is stored. *)
Theorem late_cache_hides_record :
  let s := cached pg_first (cached pg_second (empty_store 8)) in
  numbers (pg_Read (query_of 10 0 "") true (s, pg_second.1)) = Some [1; 2; 1]%Z /\
  numbers (pg_Read (query_of 10 1 "") true (s, pg_second.1)) = Some [].
Proof. split; vm_compute; reflexivity. Qed.

(** The limit of the query applies before the filters that have no column: a
    search for the text of the first record finds nothing, though it is
    there. *)
Theorem search_stops_short :
  let x := (cached pg_third (empty_store 1), pg_third.1) in
  numbers (pg_Read (mkQuery 1 "" "" "" "" "" "a" 0 "") true x) = Some [] /\
  numbers (pg_Read (mkQuery 3 "" "" "" "" "" "a" 0 "") true x) = Some [1]%Z.
Proof. split; vm_compute; reflexivity. Qed.

(** A clock that goes back breaks the chain at the next rotation: the record
    that expires is not the oldest, and what is kept no longer starts where the
    rotation says. *)
Theorem rotation_after_clock_step :
  let db1 := (append_tx 3000 TxCommits (sample_event "acme" "a") schema).1 in
  let db2 := (append_tx 1000 TxCommits (sample_event "acme" "b") db1).1 in
  let db3 := (rotate_tx 2000 TxCommits db2).1.1 in
  pg_Verify true db2 = None /\ exists r, pg_Verify true db3 = Some (PgChain r).
Proof. split; [vm_compute; reflexivity|]. eexists. vm_compute. reflexivity. Qed.

(** ** Witnesses *)

Definition pg_ops : list pg_op :=
  [PgAppend 1000 TxCommits (sample_event "acme" "a"); PgAppend 2000 TxUnacknowledged (sample_event "acme" "b");
   PgRotate 2 TxCommits; PgAppend 3000 TxFails (sample_event "acme" "c"); PgAppend 3000 TxCommits (sample_event "zeta" "d")].


Lemma pg_refines_log_witness : pg_Verify true schema = None.
Proof.
  apply (pg_refines_log (empty_store 8, schema) []). split; [exact (hi_holds _ _ _ _ _ history_schema)|by split].
Defined.
End witnesses.
