(* ===== verification/Backends.v ===== *)
(** * Two backends, one log

    [control-plane/store/iface.go]: what the control plane asks of an event
    log, as an interface with laws; the file store and the Postgres store keep
    them, and what a client sees does not depend on which one it has. *)

From S2P Require Import Prelude Sha256 Json Event EventStore PgStore.

(** ** The interface *)

(** [EventStore]: an append whose writes succeed, verification, reading, the
    capacity of the cache and the number of the next record. *)
Class EventLog (S : Type) := {
  el_append : Z -> Event -> S -> S * option Rec;
  el_verify : S -> bool;
  el_read : Query -> S -> option (list Rec);
  el_cap : S -> Z;
  el_next : S -> Z;
  (** What an append needs to succeed, and what a log holds. *)
  el_fits : Z -> Event -> S -> Prop;
  el_holds : S -> list Rec -> Prop
}.

Definition limit_of (q : Query) : nat := Z.to_nat (if (q_Limit q <=? 0)%Z then 50%Z else q_Limit q).

(** Queries that every backend answers in full. *)
Definition portable (q : Query) : Prop := indexed q /\ (q_SinceSeq q <= max_int64)%Z.

(** [window] is how much of the log a backend reads: at least its cache. *)
Class EventLogLaws (S : Type) `{EventLog S} : Prop := {
  el_append_ok : forall s rs now ev, el_holds s rs -> el_fits now ev s ->
    exists s' r, el_append now ev s = (s', Some r) /\ r_Event r = Some ev /\ r_Seq r = el_next s /\
      el_cap s' = el_cap s /\ el_next s' = (el_next s + 1)%Z /\ el_holds s' (rs ++ [r]);
  el_verifies : forall s rs, el_holds s rs -> el_verify s = true;
  el_chained : forall s rs, el_holds s rs -> exists start, chained start rs;
  el_reads : forall s rs q, el_holds s rs -> portable q ->
    exists window, (el_cap s <= window)%Z /\
      el_read q s = Some (take (limit_of q) (filter (fun r => wanted q r = true) (rev (last_n window rs))))
}.

(** ** Clients *)

(** What a reader sees of a record that does not depend on the backend. *)
Definition view (r : Rec) : Z * option Event := (r_Seq r, r_Event r).
Definition views (rs : list Rec) : list (Z * option Event) := map view rs.

Section client.
Context {S : Type} `{EventLogLaws S}.

Definition feed (evs : list (Z * Event)) (s : S) : S := fold_left (fun s e => (el_append e.1 e.2 s).1) evs s.

Fixpoint all_fit (evs : list (Z * Event)) (s : S) : Prop :=
  match evs with [] => True | e :: evs' => el_fits e.1 e.2 s /\ all_fit evs' (el_append e.1 e.2 s).1 end.

(** The views of the records that a feed adds. *)
Definition fed (n : Z) (evs : list (Z * Event)) : list (Z * option Event) :=
  imap (fun i e => ((n + Z.of_nat i)%Z, Some e.2)) evs.

Lemma fed_cons n e evs : fed n (e :: evs) = (n, Some e.2) :: fed (n + 1) evs.
Proof.
  unfold fed. cbn [imap]. f_equal; [f_equal; lia|]. apply imap_ext. intros i x _. cbn. f_equal. lia.
Qed.

(** Every event of a feed is stored, in order, numbered without a gap. *)
Lemma feed_holds evs : forall s rs, el_holds s rs -> all_fit evs s ->
  exists new, el_holds (feed evs s) (rs ++ new) /\ views new = fed (el_next s) evs /\ el_cap (feed evs s) = el_cap s.
Proof.
  induction evs as [|[now ev] evs IH]; intros s rs Hs Hf.
  { exists []. by rewrite app_nil_r. }
  destruct Hf as [Hf Hfs]. destruct (el_append_ok s rs now ev Hs Hf) as (s' & r & E & He & Hn & Hc & Hx & Hs').
  cbn [feed fold_left fst snd] in *. rewrite E in *. cbn [fst] in *.
  destruct (IH s' (rs ++ [r]) Hs' Hfs) as (new & Hnew & Hv & Hcap). exists (r :: new).
  rewrite <- app_assoc in Hnew. split; [done|]. rewrite fed_cons. split; [|by etrans].
  change (views (r :: new)) with (view r :: views new). rewrite Hv, Hx. unfold view. by rewrite He, Hn.
Qed.
End client.

Lemma Forall2_fmap_eq {A B} (f : A -> B) l l' : map f l = map f l' -> Forall2 (fun a b => f a = f b) l l'.
Proof.
  revert l'. induction l as [|a l IH]; intros [|b l'] Hl; try done. injection Hl as Ha Hl. constructor; [done|by apply IH].
Qed.

Lemma views_filter q l l' : views l = views l' ->
  views (filter (fun r => wanted q r = true) l) = views (filter (fun r => wanted q r = true) l').
Proof.
  intros Hv. assert (Forall2 (fun a b => view a = view b) l l') as Hl.
  { apply Forall2_fmap_eq. exact Hv. }
  assert (Forall2 (fun a b => view a = view b) (filter (fun r => wanted q r = true) l) (filter (fun r => wanted q r = true) l')) as Hf.
  { eapply Forall2_filter_iff; [done|]. intros a b [= Hs He]. unfold wanted, selects. by rewrite Hs, He. }
  clear -Hf. unfold views. induction Hf as [|a b k k' Hab _ IH]; [done|]. cbn [map]. by rewrite Hab, IH.
Qed.

Lemma last_n_all {A} n (l : list A) : (Z.of_nat (length l) <= n)%Z -> last_n n l = l.
Proof. intros Hn. unfold last_n. by replace (length l - Z.to_nat n)%nat with 0%nat by lia. Qed.

(** Two backends that hold the same events answer a query alike as long as
    both caches hold the log. *)
Lemma reads_alike {A B} `{EventLogLaws A} `{EventLogLaws B} (a : A) (b : B) rsa rsb q :
  el_holds a rsa -> el_holds b rsb -> views rsa = views rsb -> portable q ->
  (Z.of_nat (length rsa) <= el_cap a)%Z -> (Z.of_nat (length rsb) <= el_cap b)%Z ->
  views <$> el_read q a = views <$> el_read q b.
Proof.
  intros Ha Hb Hv Hq Hla Hlb. destruct (el_reads a rsa q Ha Hq) as (wa & Hwa & ->), (el_reads b rsb q Hb Hq) as (wb & Hwb & ->).
  rewrite !last_n_all by lia. cbn [fmap option_fmap option_map]. f_equal. unfold views. rewrite <- !firstn_map. f_equal.
  apply views_filter. unfold views in *. rewrite !map_rev. by f_equal.
Qed.

(** ** The implementations *)

#[export] Instance file_log : EventLog Store := {
  el_append now ev s := match Append now AppendOK ev s with (s', Ok r) => (s', Some r) | (s', Err _) => (s', None) end;
  el_verify s := match Verify s with None => true | Some _ => false end;
  el_read := Read;
  el_cap := es_cacheCap;
  el_next s := (es_seq s + 1)%Z;
  el_fits now ev s := storable now ev s /\ record_marshals (new_record now ev s) = true;
  el_holds := holds
}.

#[export] Instance file_log_laws : EventLogLaws Store.
Proof.
  constructor; cbn [el_append el_verify el_read el_cap el_next el_fits el_holds file_log].
  - intros s rs now ev Hs [Hst Hm]. destruct (holds_append s rs now ev Hs Hst Hm) as (s' & E & _ & _ & Hc & Hs').
    rewrite E. exists s', (new_record now ev s). split_and!; [done..| |done| |done].
    + cbn. unfold wrapu64, max_uint64 in *. destruct Hst as (_ & _ & Hq & _). rewrite (h_seq _ _ Hs) in *.
      pose proof (last_seq_range rs (h_recs _ _ Hs)). unfold max_uint64 in *. apply Z.mod_small. lia.
    + unfold Append in E. rewrite Hm, (h_open _ _ Hs) in E. cbn [negb] in E. apply (f_equal fst) in E. cbn [fst] in E.
      rewrite <- E. cbn. unfold wrapu64. destruct Hst as (_ & _ & Hq & _). rewrite (h_seq _ _ Hs) in *.
      pose proof (last_seq_range rs (h_recs _ _ Hs)). unfold max_uint64 in *. f_equal. apply Z.mod_small. lia.
  - intros s rs Hs. by rewrite (holds_Verify s rs).
  - intros s rs Hs. exists (es_chainStart s). by apply h_chain.
  - intros s rs q Hs _. exists (es_cacheCap s). split; [lia|]. rewrite (Read_window s rs q Hs). unfold limit_of. do 2 f_equal.
    apply list_filter_iff. intros r. fold (wanted q r). by destruct (wanted q r).
Qed.

Section postgres.
Context `{JsonbLaws}.

#[export] Instance pg_log : EventLog (PGStore * DB) := {
  el_append now ev x := match pg_Append now TxCommits ev x with (x', Ok r) => (x', Some r) | (x', Err _) => (x', None) end;
  el_verify x := match pg_Verify true x.2 with None => true | Some _ => false end;
  el_read q x := match pg_Read q true x with Some (out, None) => Some out | _ => None end;
  el_cap x := pg_cacheCap x.1;
  el_next x := (db_seq x.2 + 1)%Z;
  el_fits now ev x := pg_fits now ev x.2;
  el_holds := in_step
}.

#[export] Instance pg_log_laws : EventLogLaws (PGStore * DB).
Proof.
  constructor; cbn [el_append el_verify el_read el_cap el_next el_fits el_holds pg_log].
  - intros x rs now ev Hx Hf. destruct (Append_in_step now ev x rs Hx Hf) as (x' & E & _ & Hc & Hx').
    rewrite E. exists x', (pg_record now ev x.2). pose proof (pg_record_seq now ev x.2 rs (proj1 Hx)) as Hs.
    split_and!; [done|done|done|done| |done]. destruct Hx' as [Hh' _]. apply pg_numbers, consecutive_app in Hh' as [_ [Hn _]].
    rewrite length_app in Hn. cbn [length] in Hn. lia.
  - intros x rs [Hh _]. by rewrite (pg_holds_verify x.2 rs Hh).
  - intros x rs [Hh _]. exists (db_chain_start x.2). by apply pg_chain.
  - intros x rs q Hx [Hq Hs]. exists (Z.max (pg_cacheCap x.1) (Z.of_nat (length rs))). split; [lia|].
    rewrite (pg_Read_in_step q x rs Hx Hq Hs), last_n_all by lia. done.
Qed.
End postgres.

(** ** Theorems *)

(** A query decides on the view of a record. *)
Definition wanted_view (q : Query) (v : Z * option Event) : bool := wanted q (mkRec v.1 0 "" "" v.2).

Lemma views_wanted q rs : views (filter (fun r => wanted q r = true) rs) = filter (fun v => wanted_view q v = true) (views rs).
Proof.
  induction rs as [|r rs IH]; [done|]. change (views (r :: rs)) with (view r :: views rs). rewrite !filter_cons, <- IH.
  change (wanted_view q (view r)) with (wanted q r). by destruct (decide _).
Qed.

(** What a backend that started empty answers after a feed its cache holds. *)
Lemma fed_answers {S} `{EventLogLaws S} (s : S) evs q : el_holds s [] -> all_fit evs s -> portable q ->
  (Z.of_nat (length evs) <= el_cap s)%Z ->
  el_verify (feed evs s) = true /\ exists out, el_read q (feed evs s) = Some out /\
    views out = take (limit_of q) (filter (fun v => wanted_view q v = true) (rev (fed (el_next s) evs))).
Proof.
  intros Hs Hf Hq Hl. destruct (feed_holds evs s [] Hs Hf) as (new & Hnew & Hv & Hcap). cbn [app] in Hnew.
  split; [by eapply el_verifies|]. destruct (el_reads _ _ q Hnew Hq) as (w & Hw & E). eexists. split; [exact E|].
  assert (length new = length evs) as Hlen.
  { apply (f_equal length) in Hv. unfold views, fed in Hv. by rewrite length_map, length_imap in Hv. }
  rewrite last_n_all by lia. unfold views at 1. rewrite <- firstn_map. fold (views (filter (fun r => wanted q r = true) (rev new))).
  rewrite views_wanted. unfold views in *. by rewrite map_rev, Hv.
Qed.

(** Stores that are opened empty. *)
Lemma opened_file_holds path retention cap f : OpenWithOptions path retention cap true (mkDisk [] false None) = Ok f ->
  holds f [] /\ es_seq f = 0%Z.
Proof.
  unfold OpenWithOptions. destruct (path ==s ""); [done|]. cbn. intros [= <-]. split; [|done].
  destruct (fresh_holds 0 path retention (if (cap <=? 0)%Z then 1024%Z else cap)) as [Hh _]; [|exact Hh].
  destruct (cap <=? 0)%Z eqn:E; breflect; lia.
Qed.

Lemma opened_pg_in_step `{JsonbLaws} dsn retention cap p : OpenPostgres dsn retention cap true true schema = Ok p -> in_step (p, schema) [].
Proof.
  intros Hp. destruct (decide (dsn = "")) as [->|Hd]; [done|].
  destruct (OpenPostgres_in_step dsn retention cap schema [] (hi_holds _ _ _ _ _ history_schema) Hd) as (p' & E & Hp'). congruence.
Qed.


(** ** Witnesses *)

Section witnesses.
#[local] Existing Instances plain_jsonb plain_jsonb_laws.

Definition sample_feed : list (Z * Event) := [(1000, sample_event "acme" "a"); (2000, sample_event "zeta" "b")]%Z.
Definition tenant_query : Query := mkQuery 10 "" "" "" "" "" "" 0 "zeta".

Lemma pg_fits_check now ev db :
  event_canonical ev && event_marshals (Some ev) && (min_int64 <=? ev_LatencyMicros ev)%Z && (ev_LatencyMicros ev <=? max_int64)%Z
  && (db_seq db <? max_int64)%Z && forallb (fun h => computeHash (pg_record now ev db) !=s h) (map rw_hash (db_events db)) = true ->
  pg_fits now ev db.
Proof.
  intros H. breflect. unfold pg_fits. split_and!; [done| |by eexists|done|].
  - split; [by apply Rfc3339.time_okb_ok|by split].
  - intros Hin%list_elem_of_In. match goal with Ha : forallb _ _ = true |- _ => rewrite forallb_forall in Ha; specialize (Ha _ Hin) end.
    breflect. done.
Qed.

Lemma sample_fits : all_fit sample_feed (fresh_store "events.log" 0 8) /\ all_fit sample_feed (mkPG "postgres://db" [] 8 0, schema).
Proof.
  split.
  - cbn [all_fit sample_feed el_fits file_log fst snd].
    split_and!; [apply storable_check; vm_compute; reflexivity|vm_compute; reflexivity|apply storable_check; vm_compute; reflexivity|vm_compute; reflexivity|done].
  - cbn [all_fit sample_feed el_fits pg_log fst snd].
    split_and!; [apply pg_fits_check; vm_compute; reflexivity..|done].
Qed.

End witnesses.
