(* ===== verification/StoreViews.v ===== *)
(** * The reports of a store

    The rest of [control-plane/store/iface.go], [AnalyticsStore]: the reports
    of the console, which each backend computes from a copy of its cache
    ([analytics.go], [metrics.go], [counterparty.go] and
    [pgstore_analytics.go]), and that it does not matter which one does. *)

From S2P Require Import Prelude Group Json Event EventStore Analytics PgStore Backends.

(** ** The interface *)

Class AnalyticsStore (S : Type) := { cacheSnapshot : S -> list Rec }.

(** A snapshot is the end of the log, as long as the cache. *)
Class AnalyticsLaws (S : Type) `{EventLog S} `{AnalyticsStore S} : Prop := {
  snapshot_window : forall s rs, el_holds s rs -> cacheSnapshot s = last_n (el_cap s) rs
}.

Section reports.
Context {S : Type} `{AnalyticsStore S} `{MapIter}.

Definition store_ToolRisk (limit : Z) (s : S) : list ToolRisk := toolRiskFromRecords (cacheSnapshot s) limit.
Definition store_AgentActivity (limit : Z) (s : S) : list AgentActivity := agentActivityFromRecords (cacheSnapshot s) limit.
Definition store_CategoryCounts (s : S) : list (string * Z) := categoryCountsFromRecords (cacheSnapshot s).
Definition store_CounterpartyRisks (limit : Z) (s : S) : list CounterpartyRisk := counterpartyRisksFromRecords (cacheSnapshot s) limit.
Definition store_TaskConcerns (limit : Z) (s : S) : list TaskFindingSummary := taskConcernsFromRecords (cacheSnapshot s) limit.
Definition store_Histogram (mem now window bucket : Z) (s : S) : option Histogram :=
  histogramFromRecords mem now (cacheSnapshot s) window bucket.
Definition store_Metrics (mem now window bucket : Z) (s : S) : option Metrics :=
  metricsFromRecords mem now (cacheSnapshot s) window bucket.
End reports.

Definition file_snapshot (s : Store) : list Rec := es_cache s.
Definition pg_snapshot (s : PGStore) : list Rec := pg_cache s.

#[export] Instance file_analytics : AnalyticsStore Store := { cacheSnapshot := file_snapshot }.
#[export] Instance pg_analytics : AnalyticsStore (PGStore * DB) := { cacheSnapshot x := pg_snapshot x.1 }.

#[export] Instance file_analytics_laws : AnalyticsLaws Store.
Proof. constructor. intros s rs Hs. exact (h_cache s rs Hs). Qed.
#[export] Instance pg_analytics_laws `{JsonbLaws} : AnalyticsLaws (PGStore * DB).
Proof. constructor. by intros x rs (_ & _ & Hc). Qed.

(** ** Reports look at the views of records *)

(** A record without what differs between backends. *)
Definition strip (r : Rec) : Rec := mkRec (r_Seq r) 0 "" "" (r_Event r).

Lemma strip_views rs rs' : views rs = views rs' -> map strip rs = map strip rs'.
Proof.
  revert rs'. induction rs as [|r rs IH]; intros [|r' rs'] Hv; try done. injection Hv as Hs He Hv. cbn [map].
  rewrite (IH rs' Hv). unfold strip. by rewrite Hs, He.
Qed.

Lemma group_strip {B} key fresh (upd : B -> Rec -> B) rs :
  (forall r, key (strip r) = key r) -> (forall b r, upd b (strip r) = upd b r) ->
  group key fresh upd (map strip rs) = group key fresh upd rs.
Proof.
  intros Hk Hu. unfold group. generalize (∅ : gmap string B). induction rs as [|r rs IH]; intros m; [done|]. cbn [map fold_left].
  rewrite IH. unfold group_step. by rewrite Hk, Hu.
Qed.

Lemma omap_strip {B} (f : Rec -> option B) rs : (forall r, f (strip r) = f r) -> omap f (map strip rs) = omap f rs.
Proof. intros Hf. induction rs as [|r rs IH]; [done|]. cbn [map omap list_omap]. rewrite Hf. destruct (f r); [f_equal|]; exact IH. Qed.

Lemma concerns_strip limit rs : forall out, concerns_loop limit out (map strip rs) = concerns_loop limit out rs.
Proof.
  induction rs as [|r rs IH]; intros out; [done|]. cbn [map concerns_loop]. change (r_Event (strip r)) with (r_Event r).
  change (record_concerns (strip r)) with (record_concerns r). rewrite !IH. done.
Qed.

Section same.
Context {A B : Type} `{AnalyticsStore A} `{AnalyticsStore B} `{MapIter}.

(** Two stores whose snapshots hold the same events report the same. *)
Definition same_reports (a : A) (b : B) : Prop :=
  (forall limit, store_ToolRisk limit a = store_ToolRisk limit b) /\
  (forall limit, store_AgentActivity limit a = store_AgentActivity limit b) /\
  store_CategoryCounts a = store_CategoryCounts b /\
  (forall limit, store_CounterpartyRisks limit a = store_CounterpartyRisks limit b) /\
  (forall limit, store_TaskConcerns limit a = store_TaskConcerns limit b) /\
  (forall mem now window bucket, store_Histogram mem now window bucket a = store_Histogram mem now window bucket b) /\
  (forall mem now window bucket, store_Metrics mem now window bucket a = store_Metrics mem now window bucket b).

Lemma views_report (a : A) (b : B) : views (cacheSnapshot a) = views (cacheSnapshot b) -> same_reports a b.
Proof.
  intros Hv%strip_views. unfold same_reports, store_ToolRisk, store_AgentActivity, store_CategoryCounts, store_CounterpartyRisks,
    store_TaskConcerns, store_Histogram, store_Metrics. generalize dependent (cacheSnapshot b). generalize (cacheSnapshot a).
  intros la lb Hv. split_and!; intros.
  - unfold toolRiskFromRecords. rewrite <- (group_strip tool_key _ tool_add la), Hv, group_strip by done. done.
  - unfold agentActivityFromRecords. rewrite <- (group_strip agent_key _ agent_add la), Hv, group_strip by done. done.
  - unfold categoryCountsFromRecords. do 3 f_equal. assert (forall l, map strip l ≫= record_categories = l ≫= record_categories) as Hs.
    { induction l as [|r l IH]; [done|]. cbn [map mbind list_bind]. by rewrite IH. }
    by rewrite <- Hs, Hv, Hs.
  - unfold counterpartyRisksFromRecords. rewrite <- (group_strip counterparty_key _ counterparty_add la), Hv, group_strip by done. done.
  - unfold taskConcernsFromRecords. by rewrite <- (concerns_strip _ (rev la)), map_rev, Hv, <- map_rev, concerns_strip.
  - unfold histogramFromRecords. by rewrite <- (omap_strip _ la), Hv, omap_strip.
  - unfold metricsFromRecords. by rewrite <- (omap_strip _ la), Hv, omap_strip.
Qed.
End same.

(** What the snapshot shows after a feed. *)
Lemma fed_snapshot {S} `{AnalyticsLaws S} `{!EventLogLaws S} (s : S) evs : el_holds s [] -> all_fit evs s ->
  views (cacheSnapshot (feed evs s)) = last_n (el_cap s) (fed (el_next s) evs).
Proof.
  intros Hs Hf. destruct (feed_holds evs s [] Hs Hf) as (new & Hnew & Hv & Hcap). cbn [app] in Hnew.
  rewrite (snapshot_window _ _ Hnew), Hcap, <- Hv. unfold last_n, views. by rewrite length_map, <- skipn_map.
Qed.

(** ** Theorem *)

(** The console does not show the backend either: a file store and a Postgres
    store with caches of one size that are opened empty and given the same
    events give the same reports, however many events there were. *)
Theorem reports_agree `{MapIter} `{JsonbLaws} path retention cap dsn retention' cap' f p evs :
  OpenWithOptions path retention cap true (mkDisk [] false None) = Ok f ->
  OpenPostgres dsn retention' cap' true true schema = Ok p ->
  all_fit evs f -> all_fit evs (p, schema) -> es_cacheCap f = pg_cacheCap p ->
  same_reports (feed evs f) (feed evs (p, schema)).
Proof.
  intros Hf Hp Hff Hpf Hc. destruct (opened_file_holds _ _ _ _ Hf) as [Hf0 Hfs]. pose proof (opened_pg_in_step _ _ _ _ Hp) as Hp0.
  apply views_report.
  rewrite (@fed_snapshot Store file_log file_analytics file_analytics_laws file_log_laws f evs Hf0 Hff).
  rewrite (@fed_snapshot (PGStore * DB) pg_log pg_analytics pg_analytics_laws pg_log_laws (p, schema) evs Hp0 Hpf).
  cbn [el_cap el_next file_log pg_log]. cbn. by rewrite Hc, Hfs.
Qed.

(** ** Witness *)

Section witnesses.
#[local] Existing Instances canonical_iter plain_jsonb plain_jsonb_laws.

Lemma reports_agree_witness :
  same_reports (feed sample_feed (fresh_store "events.log" 0 8)) (feed sample_feed (mkPG "postgres://db" [] 8 0, schema)).
Proof.
  apply (reports_agree "events.log" 0 8 "postgres://db" 0 8 (fresh_store "events.log" 0 8) (mkPG "postgres://db" [] 8 0) sample_feed).
  - reflexivity.
  - reflexivity.
  - exact (proj1 sample_fits).
  - exact (proj2 sample_fits).
  - reflexivity.
Defined.
End witnesses.
