(* ===== verification/SinkOpen.v ===== *)
(** * Opening a sink

    [internal/emitter/emitter.go], the constructors: what becomes of the sink
    that a command's [buildSink] asks for.  Reading certificates out of PEM
    text is a parameter; which files exist is an argument. *)

From S2P Require Import Prelude Event Config EventStore Emitter Sensor Adapters.

(** ** Definitions *)

(** [tls.X509KeyPair] of the texts of a certificate and a key file, and the
    certificates that [AppendCertsFromPEM] finds. *)
Class X509 := { key_pair : string -> string -> option string; pem_certs : string -> list string }.

(** [tls.VersionTLS12]. *)
Definition VersionTLS12 : Z := 771.

Record client_tls := mkClientTLS {
  ct_MinVersion : Z; ct_ServerName : string; ct_InsecureSkipVerify : bool; ct_Certificates : list string;
  ct_RootCAs : option (list string)
}.

Inductive sink_error := LoadClientCert | ReadCA | NoUsableCerts (file : string) | OpenFile (path : string) | OpenSpool (e : string).

(** The files of the host: what reading one gives, and the lines of one that is
    opened for appending, which creates it. *)
Record Files := mkFiles { fl_read : string -> option string; fl_append : string -> option (list line) }.

Inductive opened :=
| StdoutSink
| FileSink (path : string) (lines : list line)
| HttpSink (sink : HTTPSink) (timeout replayEvery : Z) (transport : option client_tls).

Section sinks.
Context `{X509}.

Definition client_certificates (fs : Files) (certFile keyFile : string) : result (list string) sink_error :=
  if (certFile !=s "") && (keyFile !=s "") then
    match cert ← fl_read fs certFile; key ← fl_read fs keyFile; key_pair cert key with
    | None => Err LoadClientCert
    | Some c => Ok [c]
    end
  else Ok [].

Definition root_cas (fs : Files) (caFile : string) : result (option (list string)) sink_error :=
  if caFile !=s "" then
    match fl_read fs caFile with
    | None => Err ReadCA
    | Some body => match pem_certs body with [] => Err (NoUsableCerts caFile) | pool => Ok (Some pool) end
    end
  else Ok None.

Definition BuildClientTLSConfig (fs : Files) (certFile keyFile caFile serverName : string) (insecure : bool)
    : result client_tls sink_error :=
  match client_certificates fs certFile keyFile with
  | Err e => Err e
  | Ok certs =>
      match root_cas fs caFile with
      | Err e => Err e
      | Ok pool => Ok (mkClientTLS VersionTLS12 serverName insecure certs pool)
      end
  end.

Definition NewFileSink (fs : Files) (path : string) : result opened sink_error :=
  match fl_append fs path with None => Err (OpenFile path) | Some ls => Ok (FileSink path ls) end.

(** [NewHTTPSinkWithOptions] with its defaults; no command sets the timeout. *)
Definition new_http_sink (fs : Files) (url spoolPath : string) (spoolMax replayEvery timeout : Z) (token : string)
    (tls : option client_tls) : result opened sink_error :=
  match NewHTTPSinkWithOptions url token spoolPath spoolMax (fl_append fs spoolPath) with
  | Err e => Err (OpenSpool e)
  | Ok s => Ok (HttpSink s (if (timeout <=? 0)%Z then 5 * Second else timeout)%Z
                  (if (replayEvery <=? 0)%Z then 5 * Second else replayEvery)%Z tls)
  end.

(** What [buildSink] opens. *)
Definition open_spec (fs : Files) (spec : sink_spec) : result opened sink_error :=
  match spec with
  | SinkStdout => Ok StdoutSink
  | SinkFile path => NewFileSink fs path
  | SinkHTTP url spoolPath spoolMax replayEvery token tls =>
      match tls with
      | None => new_http_sink fs url spoolPath spoolMax replayEvery 0 token None
      | Some t =>
          match BuildClientTLSConfig fs (tl_CertFile t) (tl_KeyFile t) (tl_CAFile t) (tl_ServerName t) (tl_InsecureSkipVerify t) with
          | Err e => Err e
          | Ok c => new_http_sink fs url spoolPath spoolMax replayEvery 0 token (Some c)
          end
      end
  end.
Definition open_configured (fs : Files) (ec : EmitterCfg) : result opened sink_error := open_spec fs (buildSink ec).
End sinks.

(** ** Lemmas *)

Section facts.
Context `{X509}.

Lemma new_http_sink_ok fs url sp mx ev to token tls s :
  new_http_sink fs url sp mx ev to token tls = Ok s ->
  exists h, s = HttpSink h (if (to <=? 0)%Z then 5 * Second else to)%Z (if (ev <=? 0)%Z then 5 * Second else ev)%Z tls /\
    hs_url h = url /\ hs_token h = token /\ hs_accepted h = [] /\
    match hs_spool h with
    | None => sp = ""
    | Some q => sp <> "" /\ sp_path q = sp /\ fl_append fs sp = Some (sp_lines q) /\ (0 < sp_max q)%Z
    end.
Proof.
  unfold new_http_sink, NewHTTPSinkWithOptions, NewSpool. destruct (sp ==s "") eqn:E; cbn [negb].
  - intros [= <-]. apply String.eqb_eq in E. eexists. by split_and!.
  - destruct (fl_append fs sp) as [ls|]; [|done]. intros [= <-]. apply String.eqb_neq in E. eexists. split_and!; [done..|].
    cbn. split_and!; [done..|]. destruct (mx <=? 0)%Z eqn:Em; [done|]. by apply Z.leb_gt in Em.
Qed.

Lemma BuildClientTLSConfig_ok fs t c :
  BuildClientTLSConfig fs (tl_CertFile t) (tl_KeyFile t) (tl_CAFile t) (tl_ServerName t) (tl_InsecureSkipVerify t) = Ok c ->
  ct_MinVersion c = VersionTLS12 /\ ct_ServerName c = tl_ServerName t /\ ct_InsecureSkipVerify c = tl_InsecureSkipVerify t /\
  (ct_Certificates c <> [] <-> tl_CertFile t <> "" /\ tl_KeyFile t <> "") /\
  match ct_RootCAs c with None => tl_CAFile t = "" | Some pool => pool <> [] /\ pem_certs <$> fl_read fs (tl_CAFile t) = Some pool end.
Proof.
  unfold BuildClientTLSConfig, client_certificates, root_cas. intros Hb.
  destruct (tl_CertFile t ==s "") eqn:Ec; destruct (tl_KeyFile t ==s "") eqn:Ek; cbn [negb andb] in Hb; breflect;
    destruct (tl_CAFile t ==s "") eqn:Ea; cbn [negb] in Hb; breflect; cbn [mbind option_bind] in Hb;
    repeat (case_match; simplify_eq/=); split_and!; try done; naive_solver.
Qed.
End facts.

(** ** Theorems *)

Section theorems.
Context `{X509}.

(** What a configured HTTP sink trusts: it opens with the URL, the token and
    the spool it was configured with, holding what the spool's file held, and
    checks the control plane against the roots of the configured file, of which
    there is one at least, or the system's when none is configured, unless the
    configuration says not to check; it shows a certificate exactly when both
    files of the pair are configured. *)
Theorem http_sink_as_configured fs ec o : ec_Sink ec = "http" -> open_configured fs ec = Ok o ->
  exists h replay transport, o = HttpSink h (5 * Second) replay transport /\
    hs_url h = ec_URL ec /\ hs_token h = ec_BearerToken ec /\
    (hs_spool h = None <-> ec_SpoolPath ec = "") /\
    (forall q, hs_spool h = Some q -> fl_append fs (ec_SpoolPath ec) = Some (sp_lines q)) /\
    let t := ec_TLS ec in
    match transport with
    | None => tl_CertFile t = "" /\ tl_CAFile t = "" /\ tl_InsecureSkipVerify t = false
    | Some c =>
        ct_ServerName c = tl_ServerName t /\ ct_InsecureSkipVerify c = tl_InsecureSkipVerify t /\
        (ct_Certificates c <> [] <-> tl_CertFile t <> "" /\ tl_KeyFile t <> "") /\
        match ct_RootCAs c with
        | None => tl_CAFile t = ""
        | Some pool => pool <> [] /\ pem_certs <$> fl_read fs (tl_CAFile t) = Some pool
        end
    end.
Proof.
  intros Hk. unfold open_configured, buildSink. rewrite Hk. cbn -[open_spec Z.mul].
  set (t := ec_TLS ec). destruct (tl_CertFile t !=s "") eqn:Ec; [|destruct (tl_CAFile t !=s "") eqn:Ea; [|destruct (tl_InsecureSkipVerify t) eqn:Ei]].
  4: { cbn [orb open_spec]. intros Ho. destruct (new_http_sink_ok _ _ _ _ _ _ _ _ _ Ho) as (h & -> & Hu & Ht & _ & Hs).
       exists h. do 2 eexists. split; [reflexivity|]. breflect.
       split_and!; [done..| |destruct (hs_spool h); naive_solver|done|done|done]. destruct (hs_spool h); naive_solver. }
  all: cbn [orb open_spec]; destruct (BuildClientTLSConfig _ _ _ _ _ _) as [c|e] eqn:Eb; [|done]; intros Ho;
    destruct (new_http_sink_ok _ _ _ _ _ _ _ _ _ Ho) as (h & -> & Hu & Ht & _ & Hs);
    destruct (BuildClientTLSConfig_ok fs t c Eb) as (_ & Hn & Hi & Hc & Hr);
    exists h; do 2 eexists; (split; [reflexivity|]);
    split_and!; try done; try (destruct (hs_spool h); naive_solver).
Qed.
(** What an earlier run of the sensor left in the spool, the next one holds. *)
Theorem spool_survives_restart fs ec h timeout replay transport ls ev :
  ec_Sink ec = "http" -> ec_SpoolPath ec <> "" -> open_configured fs ec = Ok (HttpSink h timeout replay transport) ->
  fl_append fs (ec_SpoolPath ec) = Some ls -> LJson (event_json ev) ∈ ls -> holds h ev.
Proof.
  intros Hk Hp Ho Hf Hin. revert Ho. unfold open_configured, buildSink. rewrite Hk. cbn -[Z.mul].
  assert (forall tls, new_http_sink fs (ec_URL ec) (ec_SpoolPath ec) (ec_SpoolMaxBytes ec) (ec_ReplayInterval ec) 0 (ec_BearerToken ec) tls
            = Ok (HttpSink h timeout replay transport) -> holds h ev) as Hn.
  { intros tls Ho. destruct (new_http_sink_ok _ _ _ _ _ _ _ _ _ Ho) as (h' & [= -> _ _ _] & _ & _ & _ & Hs).
    right. destruct (hs_spool h') as [q|]; [|done]. destruct Hs as (_ & _ & Hq & _). exists q. split; [done|].
    rewrite Hf in Hq. injection Hq as ->. exact Hin. }
  destruct (_ || _); [|apply Hn]. destruct (BuildClientTLSConfig _ _ _ _ _ _); [apply Hn|done].
Qed.

(** A certificate without its key is configured without effect: the sink opens
    and shows no certificate. *)
Theorem half_pair_ignored fs ec o : ec_Sink ec = "http" -> tl_CertFile (ec_TLS ec) <> "" -> tl_KeyFile (ec_TLS ec) = "" ->
  open_configured fs ec = Ok o -> exists h timeout replay c, o = HttpSink h timeout replay (Some c) /\ ct_Certificates c = [].
Proof.
  intros Hk Hc Hy. unfold open_configured, buildSink. rewrite Hk, (eqb_neq_s _ _ Hc). cbn -[Z.mul].
  destruct (BuildClientTLSConfig _ _ _ _ _ _) as [c|e] eqn:Eb; [|done]. intros Ho.
  destruct (new_http_sink_ok _ _ _ _ _ _ _ _ _ Ho) as (h & -> & _). do 4 eexists. split; [reflexivity|].
  destruct (BuildClientTLSConfig_ok fs _ c Eb) as (_ & _ & _ & Hcs & _).
  destruct (ct_Certificates c); [done|]. assert (tl_CertFile (ec_TLS ec) <> "" /\ tl_KeyFile (ec_TLS ec) <> "") as [_ Hn] by by apply Hcs.
  done.
Qed.

(** A server name, or a key, alone changes nothing: no settings are made for
    the connection. *)
Theorem lone_server_name_ignored fs ec o : ec_Sink ec = "http" ->
  tl_CertFile (ec_TLS ec) = "" -> tl_CAFile (ec_TLS ec) = "" -> tl_InsecureSkipVerify (ec_TLS ec) = false ->
  open_configured fs ec = Ok o -> exists h timeout replay, o = HttpSink h timeout replay None.
Proof.
  intros Hk Hc Ha Hi. unfold open_configured, buildSink. rewrite Hk, Hc, Ha, Hi. cbn -[Z.mul]. intros Ho.
  destruct (new_http_sink_ok _ _ _ _ _ _ _ _ _ Ho) as (h & -> & _). do 3 eexists. reflexivity.
Qed.
End theorems.

(** ** Witnesses *)

Section witnesses.
#[local] Instance sample_certs : X509 := {| key_pair c k := Some c; pem_certs body := [body] |}.

Definition tls_emitter : EmitterCfg :=
  mkEmitterCfg "http" "" "https://cp:7090/v1/events" 16 "spool.ndjson" 0 0 "tok" (mkTLS "c.pem" "k.pem" "ca.pem" "cp" false).
Definition sample_files : Files :=
  mkFiles (fun f => Some ("text of " +:+ f)) (fun _ => Some [LJson (event_json (sample_event "acme" "a"))]).
Definition opened_sink : HTTPSink :=
  mkHTTPSink "https://cp:7090/v1/events" "tok"
    (Some (mkSpool "spool.ndjson" (64 * 1024 * 1024) [LJson (event_json (sample_event "acme" "a"))])) [].

Definition opened_tls : client_tls := mkClientTLS VersionTLS12 "cp" false ["text of c.pem"] (Some ["text of ca.pem"]).

Lemma tls_opens : open_configured sample_files tls_emitter = Ok (HttpSink opened_sink (5 * Second) (5 * Second) (Some opened_tls)).
Proof. vm_compute. reflexivity. Qed.

Lemma http_sink_as_configured_witness :
  exists h replay transport, open_configured sample_files tls_emitter = Ok (HttpSink h (5 * Second) replay transport) /\
    hs_token h = "tok" /\ (exists c, transport = Some c /\ ct_RootCAs c = Some ["text of ca.pem"]).
Proof.
  destruct (http_sink_as_configured sample_files tls_emitter
    (HttpSink opened_sink (5 * Second) (5 * Second) (Some opened_tls)) eq_refl tls_opens) as (h & replay & transport & Ho & _ & Ht & _ & _ & Htls).
  exists h, replay, transport. split; [exact (eq_trans tls_opens (f_equal Ok Ho))|]. split; [exact Ht|].
  injection Ho as _ _ <-. eexists. split; reflexivity.
Defined.

Lemma spool_survives_restart_witness : holds opened_sink (sample_event "acme" "a").
Proof.
  apply (spool_survives_restart sample_files tls_emitter opened_sink (5 * Second) (5 * Second)
           (Some opened_tls)
           [LJson (event_json (sample_event "acme" "a"))]); [reflexivity|discriminate|exact tls_opens|reflexivity|left].
Defined.
End witnesses.
