(* ===== verification/StdioLife.v ===== *)
(** * The life of a stdio session

    [Run] of [internal/stdioproxy/stdioproxy.go]: the two reading loops, the
    wait for the child and the final select are goroutines; their steps, and
    those of the client, the child and the context around them, are one
    interleaving.  The lines are handled by [StdioProxy].  The child's output
    is what the pipe buffers; waiting for a child that has exited closes the
    pipe, as [os/exec] documents.  The child's output is taken to end with the
    child. *)

From S2P Require Import Prelude Utf8 Json Event Normalize Ruleset Mcp Pipeline Heuristic Judge Http Proxy Config Sensor StdioProxy Adapters.

(** ** State *)

Inductive main_state :=
| Selecting
| Draining                        (* the child has been waited for *)
| Interrupting                    (* the context was canceled *)
| Returned (failed : bool).

Record life := mkLife {
  lf_session : session;
  lf_in_done : bool; lf_out_done : bool;
  lf_stdin_open : bool;           (* the child's standard input *)
  lf_buffered : list string;      (* what the child wrote and nobody read *)
  lf_child : option bool;         (* [Some ok] after the exit *)
  lf_waited : bool; lf_canceled : bool; lf_main : main_state
}.

Inductive life_op :=
| ClientLine (a : Ambient) (line : string) (child_ok : bool)
| ClientEnds
| ChildWrites (line : string)
| ChildExits (ok : bool)
| CancelContext
| ReadChild (a : Ambient)
| EndChild
| WaitReturns
| SelectWait
| SelectDone
| MainReturns.

Inductive run_error := RunInvalid (e : string) | RunStdin | RunStdout | RunStart.

(** The token limit of the two scanners. *)
Definition scan_limit : Z := (8 * 1024 * 1024)%Z.
Definition too_long (line : string) : bool := (scan_limit <=? Z.of_nat (String.length line))%Z.

Section life.
Context `{MapIter} `{Unicode} `{JsonText}.

(** [Run] up to its goroutines; the pipes and the start may fail. *)
Definition run_start (pipeline emitter stdin stdout start : bool) (command : string) (p : Pipeline) : result life run_error :=
  match stdio_validate pipeline emitter command with
  | Some e => Err (RunInvalid e)
  | None =>
      if negb stdin then Err RunStdin
      else if negb stdout then Err RunStdout
      else if negb start then Err RunStart
      else Ok (mkLife (mkSession p true) false false true [] None false false Selecting)
  end.

Definition end_input (l : life) : life :=
  mkLife (lf_session l) true (lf_out_done l) false (lf_buffered l) (lf_child l) (lf_waited l) (lf_canceled l) (lf_main l).
Definition end_output (ls : list string) (l : life) : life :=
  mkLife (lf_session l) (lf_in_done l) true (lf_stdin_open l) ls (lf_child l) (lf_waited l) (lf_canceled l) (lf_main l).
Definition set_main (m : main_state) (l : life) : life :=
  mkLife (lf_session l) (lf_in_done l) (lf_out_done l) (lf_stdin_open l) (lf_buffered l) (lf_child l) (lf_waited l) (lf_canceled l) m.
Definition running (l : life) : bool := match lf_child l with None => true | Some _ => false end.

(** The inbound loop: a line that is too long ends it like the client's end of
    file; a write to a child that has exited fails, and ends it without closing
    the child's input. *)
Definition client_line (o : StdioOptions) (run : string) (a : Ambient) (line : string) (child_ok : bool) (l : life)
    : option (life * list stdio_effect) :=
  if lf_in_done l || (child_ok && negb (running l)) then None
  else if too_long line then Some (end_input l, [])
  else let '(st, es) := stdio_step o run (lf_session l) (FromClient a line child_ok) in
       Some (mkLife st (negb (ss_reading st)) (lf_out_done l) (lf_stdin_open l) (lf_buffered l) (lf_child l) (lf_waited l)
               (lf_canceled l) (lf_main l), es).

(** The outbound loop. *)
Definition read_child (o : StdioOptions) (run : string) (a : Ambient) (l : life) : option (life * list stdio_effect) :=
  match lf_out_done l, lf_buffered l with
  | false, line :: rest =>
      if too_long line then Some (end_output rest l, [])
      else let '(st, es) := stdio_step o run (lf_session l) (FromChild a line) in
           Some (mkLife st (lf_in_done l) false (lf_stdin_open l) rest (lf_child l) (lf_waited l) (lf_canceled l) (lf_main l), es)
  | _, _ => None
  end.

(** [None]: the step is not enabled. *)
Definition life_step (o : StdioOptions) (run : string) (op : life_op) (l : life) : option (life * list stdio_effect) :=
  match op with
  | ClientLine a line child_ok => client_line o run a line child_ok l
  | ClientEnds => if lf_in_done l then None else Some (end_input l, [])
  | ChildWrites line =>
      if running l then Some (mkLife (lf_session l) (lf_in_done l) (lf_out_done l) (lf_stdin_open l) (lf_buffered l ++ [line]) None
                                (lf_waited l) (lf_canceled l) (lf_main l), [])
      else None
  | ChildExits ok =>
      if running l then Some (mkLife (lf_session l) (lf_in_done l) (lf_out_done l) (lf_stdin_open l) (lf_buffered l) (Some ok)
                                (lf_waited l) (lf_canceled l) (lf_main l), [])
      else None
  | CancelContext =>
      Some (mkLife (lf_session l) (lf_in_done l) (lf_out_done l) (lf_stdin_open l) (lf_buffered l) (lf_child l) (lf_waited l) true
              (lf_main l), [])
  | ReadChild a => read_child o run a l
  | EndChild => if lf_out_done l || running l || negb (is_nil (lf_buffered l)) then None else Some (end_output [] l, [])
  | WaitReturns =>
      if running l || lf_waited l then None
      else Some (mkLife (lf_session l) (lf_in_done l) (lf_out_done l) false [] (lf_child l) true (lf_canceled l) (lf_main l), [])
  | SelectWait => match lf_main l with Selecting => if lf_waited l then Some (set_main Draining l, []) else None | _ => None end
  | SelectDone => match lf_main l with Selecting => if lf_canceled l then Some (set_main Interrupting l, []) else None | _ => None end
  | MainReturns =>
      match lf_main l with
      | Draining =>
          if lf_in_done l && lf_out_done l
          then Some (set_main (Returned (negb (default true (lf_child l)))) l, []) else None
      | Interrupting => if lf_waited l then Some (set_main (Returned false) l, []) else None
      | _ => None
      end
  end.

Fixpoint life_run (o : StdioOptions) (run : string) (ops : list life_op) (l : life) : option (life * list stdio_effect) :=
  match ops with
  | [] => Some (l, [])
  | op :: ops' =>
      '(l1, es) ← life_step o run op l;
      '(l2, es') ← life_run o run ops' l1;
      Some (l2, es ++ es')
  end.
End life.

(** The steps of the sensor itself. *)
Definition own (op : life_op) : bool :=
  match op with ReadChild _ | EndChild | WaitReturns | SelectWait | SelectDone | MainReturns => true | _ => false end.

Definition started (p : Pipeline) : life := mkLife (mkSession p true) false false true [] None false false Selecting.

(** Lines as the two sides sent them. *)
Definition client_sent (ops : list life_op) : list string :=
  flat_map (fun op => match op with ClientLine _ line _ => [line] | _ => [] end) ops.
Definition child_wrote (ops : list life_op) : list string :=
  flat_map (fun op => match op with ChildWrites line => [line] | _ => [] end) ops.
Definition of_client (ls : list stdio_line) : list string :=
  flat_map (fun l => match l with FromClient _ line _ => [line] | _ => [] end) ls.
Definition of_child (ls : list stdio_line) : list string :=
  flat_map (fun l => match l with FromChild _ line => [line] | _ => [] end) ls.

(** ** Lemmas *)

Section facts.
Context `{MapIter} `{Unicode} `{JsonText}.
Context (o : StdioOptions) (run : string).
#[local] Arguments stdio_step : simpl never.

Ltac step_cases :=
  repeat match goal with
  | H : context [match ?x with _ => _ end] |- _ => let E := fresh "E" in destruct x eqn:E; try discriminate H
  end.

(** What holds between the steps. *)
Definition main_ok (l : life) : Prop :=
  match lf_main l with
  | Selecting => True
  | Draining => lf_waited l = true
  | Interrupting => lf_canceled l = true
  | Returned failed =>
      lf_waited l = true /\ (failed = true -> lf_child l = Some false) /\
      (lf_canceled l = false -> lf_in_done l = true /\ lf_out_done l = true /\ lf_child l = Some (negb failed))
  end.

Record life_ok (l : life) : Prop := {
  lo_reading : lf_in_done l = false -> ss_reading (lf_session l) = true;
  lo_waited : lf_waited l = true -> running l = false /\ lf_buffered l = [];
  lo_main : main_ok l
}.

Lemma started_ok p : life_ok (started p).
Proof. by split. Qed.

Lemma from_child_reading st a line : ss_reading (stdio_step o run st (FromChild a line)).1 = ss_reading st.
Proof. unfold stdio_step. destruct (_ ==s ""); [done|]. by destruct (evaluateAndForwardOutbound _ _ _ _ _). Qed.

Ltac life_cases Hs :=
  cbn in Hs; unfold client_line, read_child, running, end_input, end_output, set_main in Hs;
  cbn in Hs; step_cases; simplify_eq/=;
  repeat match goal with
  | H : _ || _ = false |- _ => apply orb_false_iff in H as [? ?]
  | H : _ && _ = true |- _ => apply andb_true_iff in H as [? ?]
  end; subst.

Lemma life_step_reading op l l' es : life_step o run op l = Some (l', es) ->
  (lf_in_done l = false -> ss_reading (lf_session l) = true) -> lf_in_done l' = false -> ss_reading (lf_session l') = true.
Proof.
  intros Hs Hrd. destruct op; life_cases Hs; try done; try (by intros ?%negb_false_iff).
  pose proof (from_child_reading (lf_session l) a s) as Hfc. by rewrite E2 in Hfc; cbn in Hfc; rewrite Hfc; apply Hrd.
Qed.

Lemma life_step_waited op l l' es : life_step o run op l = Some (l', es) ->
  (lf_waited l = true -> running l = false /\ lf_buffered l = []) -> lf_waited l' = true -> running l' = false /\ lf_buffered l' = [].
Proof.
  intros Hs Hw. unfold running in *. destruct op; life_cases Hs; try done; intros Hwt; destruct (Hw Hwt); congruence.
Qed.

Lemma life_step_main op l l' es : life_step o run op l = Some (l', es) ->
  (lf_waited l = true -> running l = false /\ lf_buffered l = []) -> main_ok l -> main_ok l'.
Proof.
  intros Hs Hw. unfold main_ok, running in *. destruct op; life_cases Hs; try (by destruct (lf_main l); intuition congruence).
  destruct b; cbn; intuition congruence.
Qed.

Lemma life_step_ok op l l' es : life_step o run op l = Some (l', es) -> life_ok l -> life_ok l'.
Proof.
  intros Hs [Hr Hw Hm]. split; [by eapply life_step_reading|by eapply life_step_waited|by eapply life_step_main].
Qed.


Lemma life_run_ok ops l l' es : life_run o run ops l = Some (l', es) -> life_ok l -> life_ok l'.
Proof.
  revert l es. induction ops as [|op ops IH]; intros l es; cbn [life_run]; [by intros [= <- <-]|].
  destruct (life_step o run op l) as [[l1 es1]|] eqn:E; [|done]. cbn [mbind option_bind].
  destruct (life_run o run ops l1) as [[l2 es2]|] eqn:E2; [|done]. intros [= <- <-] Hl.
  eapply IH; [done|]. by eapply life_step_ok.
Qed.

(** *** The effects are those of a session *)

Lemma stdio_run_app st ls ls' :
  stdio_run o run st (ls ++ ls') =
  let '(st1, es) := stdio_run o run st ls in let '(st2, es') := stdio_run o run st1 ls' in (st2, es ++ es').
Proof.
  revert st. induction ls as [|l ls IH]; intros st; cbn [stdio_run app]; [by destruct (stdio_run o run st ls')|].
  destruct (stdio_step o run st l) as [st1 es]. rewrite IH. destruct (stdio_run o run st1 ls) as [st2 es2].
  destruct (stdio_run o run st2 ls') as [st3 es3]. by rewrite app_assoc.
Qed.

Lemma stdio_run_one st l : stdio_run o run st [l] = stdio_step o run st l.
Proof. cbn [stdio_run]. destruct (stdio_step o run st l) as [st1 es]. by rewrite app_nil_r. Qed.

(** The lines a step handles: a line of the client is the step's, a line of the
    child the first that waits. *)
Lemma life_step_lines op l l' es : life_step o run op l = Some (l', es) ->
  exists ls, stdio_run o run (lf_session l) ls = (lf_session l', es) /\
    of_client ls `sublist_of` client_sent [op] /\
    of_child ls ++ lf_buffered l' `sublist_of` lf_buffered l ++ child_wrote [op].
Proof.
  intros Hs. destruct op; cbn [life_step] in Hs; unfold client_line, read_child in Hs; step_cases; simplify_eq/=;
    try (exists []; split; [done|]; split; [apply sublist_nil_l|]; cbn; rewrite ?app_nil_r; first [done|apply sublist_nil_l|by apply sublist_cons]).
  - exists [FromClient a line child_ok]. rewrite stdio_run_one. split; [done|]. split; [done|]. cbn. by rewrite app_nil_r.
  - exists [FromChild a s]. rewrite stdio_run_one. split; [done|]. split; [done|]. cbn. by rewrite app_nil_r.
Qed.

Lemma life_run_lines ops l l' es : life_run o run ops l = Some (l', es) ->
  exists ls, stdio_run o run (lf_session l) ls = (lf_session l', es) /\
    of_client ls `sublist_of` client_sent ops /\
    of_child ls ++ lf_buffered l' `sublist_of` lf_buffered l ++ child_wrote ops.
Proof.
  revert l es. induction ops as [|op ops IH]; intros l es; cbn [life_run].
  { intros [= <- <-]. exists []. split_and!; [done..|]. cbn. by rewrite app_nil_r. }
  destruct (life_step o run op l) as [[l1 es1]|] eqn:E; [|done]. cbn [mbind option_bind].
  destruct (life_run o run ops l1) as [[l2 es2]|] eqn:E2; [|done]. intros [= <- <-].
  destruct (life_step_lines _ _ _ _ E) as (ls1 & H1' & Hc1 & Hb1). destruct (IH _ _ E2) as (ls2 & H2 & Hc2 & Hb2).
  exists (ls1 ++ ls2). rewrite stdio_run_app, H1', H2. split; [done|]. change (op :: ops) with ([op] ++ ops).
  unfold of_client, of_child, client_sent, child_wrote in *. rewrite !flat_map_app. split; [by apply sublist_app|].
  rewrite <- !app_assoc. etrans; [apply sublist_app; [reflexivity|exact Hb2]|]. rewrite !app_assoc.
  apply sublist_app; [exact Hb1|reflexivity].
Qed.

(** *** The sensor's own steps come to an end *)

Definition main_rank (m : main_state) : nat := match m with Selecting => 2 | Draining | Interrupting => 1 | Returned _ => 0 end.
Definition own_left (l : life) : nat :=
  length (lf_buffered l) + (if lf_out_done l then 0 else 1) + (if lf_waited l then 0 else 1) + main_rank (lf_main l).

Lemma own_step_decreases op l l' es : own op = true -> life_step o run op l = Some (l', es) -> (own_left l' < own_left l)%nat.
Proof.
  intros Ho Hs. unfold own_left. destruct op; try discriminate Ho; cbn [life_step] in Hs; unfold read_child in Hs; step_cases; simplify_eq/=;
    rewrite ?orb_false_iff in *; destruct_and?; repeat match goal with H : _ = _ |- _ => rewrite H end; cbn; try lia.
Qed.

Lemma own_run_bounded ops l l' es : Forall (fun op => own op = true) ops -> life_run o run ops l = Some (l', es) ->
  (length ops + own_left l' <= own_left l)%nat.
Proof.
  revert l es. induction ops as [|op ops IH]; intros l es Hf; cbn [life_run]; [by intros [= <- _]|].
  apply Forall_cons in Hf as [Ho Hf]. destruct (life_step o run op l) as [[l1 es1]|] eqn:E; [|done]. cbn [mbind option_bind].
  destruct (life_run o run ops l1) as [[l2 es2]|] eqn:E2; [|done]. intros [= <- _].
  pose proof (own_step_decreases _ _ _ _ Ho E). pose proof (IH _ _ Hf E2). cbn [length]. lia.
Qed.

(** A sensor that cannot step has returned, once the child has exited and the
    client's input has ended. *)
Lemma stuck_returned l : life_ok l -> running l = false -> lf_in_done l = true ->
  (forall op, own op = true -> life_step o run op l = None) -> exists failed, lf_main l = Returned failed.
Proof.
  intros [_ Hw Hm] Hr Hi Hstuck.
  pose proof (Hstuck WaitReturns eq_refl) as Hwait. cbn in Hwait. rewrite Hr in Hwait. destruct (lf_waited l) eqn:Ew; [|done].
  destruct (Hw eq_refl) as [_ Hb]. pose proof (Hstuck EndChild eq_refl) as Hend. cbn in Hend. rewrite Hr, Hb in Hend.
  destruct (lf_out_done l) eqn:Eo; [|done].
  pose proof (Hstuck SelectWait eq_refl) as Hsel. pose proof (Hstuck MainReturns eq_refl) as Hret. cbn in Hsel, Hret.
  destruct (lf_main l); [by rewrite Ew in Hsel|by rewrite Hi, Eo in Hret|by rewrite Ew in Hret|by eexists].
Qed.

(** *** Reachable states *)

Definition reached (p : Pipeline) (ops : list life_op) (l : life) (es : list stdio_effect) : Prop :=
  life_run o run ops (started p) = Some (l, es).

Lemma reached_ok p ops l es : reached p ops l es -> life_ok l.
Proof. intros Hr. eapply life_run_ok; [exact Hr|apply started_ok]. Qed.

(** The sensor's own steps change neither the child's state nor what the client
    and the context did. *)
Lemma own_step_frame op l l' es : own op = true -> life_step o run op l = Some (l', es) ->
  lf_child l' = lf_child l /\ lf_in_done l' = lf_in_done l /\ lf_canceled l' = lf_canceled l.
Proof. intros Ho Hs. destruct op; try discriminate Ho; life_cases Hs; done. Qed.

Lemma own_run_frame ops l l' es : Forall (fun op => own op = true) ops -> life_run o run ops l = Some (l', es) ->
  lf_child l' = lf_child l /\ lf_in_done l' = lf_in_done l /\ lf_canceled l' = lf_canceled l.
Proof.
  intros Hf. revert l es. induction Hf as [|op ops Ho Hf IH]; intros l es; cbn [life_run]; [by intros [= <- _]|].
  destruct (life_step o run op l) as [[l1 es1]|] eqn:E; [|done]. cbn [mbind option_bind].
  destruct (life_run o run ops l1) as [[l2 es2]|] eqn:E2; [|done]. intros [= <- _].
  destruct (own_step_frame _ _ _ _ Ho E) as (<- & <- & <-). by eapply IH.
Qed.

Lemma silent_step op l l' es : lf_out_done l = true -> life_step o run op l = Some (l', es) ->
  lf_out_done l' = true /\ exists ls, stdio_run o run (lf_session l) ls = (lf_session l', es) /\ of_child ls = [].
Proof.
  intros Hd Hs. destruct op; cbn [life_step] in Hs; unfold client_line, read_child in Hs; rewrite ?Hd in Hs; step_cases; simplify_eq/=;
    try (split; [done|]; exists []; by split).
  split; [done|]. exists [FromClient a line child_ok]. rewrite stdio_run_one. by split.
Qed.

Lemma silent_run ops l l' es : lf_out_done l = true -> life_run o run ops l = Some (l', es) ->
  exists ls, stdio_run o run (lf_session l) ls = (lf_session l', es) /\ of_child ls = [].
Proof.
  revert l es. induction ops as [|op ops IH]; intros l es Hd; cbn [life_run]; [intros [= <- <-]; by exists []|].
  destruct (life_step o run op l) as [[l1 es1]|] eqn:E; [|done]. cbn [mbind option_bind].
  destruct (life_run o run ops l1) as [[l3 es3]|] eqn:E2; [|done]. intros [= <- <-].
  destruct (silent_step _ _ _ _ Hd E) as (Hd1 & ls1 & Hs1 & Hc1). destruct (IH _ _ Hd1 E2) as (ls2 & Hs2 & Hc2).
  exists (ls1 ++ ls2). rewrite stdio_run_app, Hs1, Hs2. split; [done|]. unfold of_child in *. by rewrite flat_map_app, Hc1, Hc2.
Qed.
End facts.

(** ** Theorems *)

Section theorems.
Context `{MapIter} `{Unicode} `{JsonText}.

(** A whole run of the sensor is a session of lines: whatever the goroutines,
    the two sides and the context do in between, everything it emits and writes
    is what handling some of the client's lines and some of the child's, in the
    order they were sent, emits and writes. *)
Theorem life_is_session o run p ops l es : reached o run p ops l es ->
  exists ls, stdio_run o run (mkSession p true) ls = (lf_session l, es) /\
    of_client ls `sublist_of` client_sent ops /\ of_child ls `sublist_of` child_wrote ops.
Proof.
  intros Hr. destruct (life_run_lines o run _ _ _ _ Hr) as (ls & Hls & Hc & Hb). exists ls. split_and!; [exact Hls|exact Hc|].
  etrans; [|exact Hb]. apply sublist_inserts_r. reflexivity.
Qed.

(** What [Run] returns: it returns after the child has exited, and an error
    only for a child that failed; without a cancellation it says just that, and
    both loops have ended. *)
Theorem run_result o run p ops l es failed : reached o run p ops l es -> lf_main l = Returned failed ->
  (failed = true -> lf_child l = Some false) /\ running l = false /\
  (lf_canceled l = false -> lf_child l = Some (negb failed) /\ lf_in_done l = true /\ lf_out_done l = true).
Proof.
  intros Hr Hm. destruct (reached_ok o run _ _ _ _ Hr) as [_ Hw Hok]. unfold main_ok in Hok. rewrite Hm in Hok. destruct Hok as (Hwt & Hf & Hn).
  destruct (Hw Hwt) as [Hrun _]. split_and!; [exact Hf|exact Hrun|]. intros Hc. destruct (Hn Hc) as (? & ? & ?). done.
Qed.

(** C39. The session ends: once the child has exited and the client's input has
    ended, the steps left to the sensor are at most the lines it has yet to
    read and four more, in any order, and when none is left [Run] has
    returned. *)
Theorem session_ends o run p ops l es more l' es' :
  reached o run p ops l es -> running l = false -> lf_in_done l = true ->
  Forall (fun op => own op = true) more -> life_run o run more l = Some (l', es') ->
  (length more <= length (lf_buffered l) + 4)%nat /\
  ((forall op, own op = true -> life_step o run op l' = None) -> exists failed, lf_main l' = Returned failed).
Proof.
  intros Hr Hx Hi Hown Hm. pose proof (own_run_bounded o run _ _ _ _ Hown Hm) as Hb.
  destruct (own_run_frame o run _ _ _ _ Hown Hm) as (Hch & Hin & _).
  split; [unfold own_left in Hb; destruct (lf_out_done l), (lf_waited l), (lf_main l); cbn in Hb; lia|].
  apply stuck_returned; [eapply life_run_ok; [exact Hm|by eapply reached_ok]| |congruence]. unfold running in *. by rewrite Hch.
Qed.

(** A client that keeps its end open holds the session: the child may have
    exited, but unless the context is canceled no steps of the sensor let [Run]
    return. *)
Theorem open_client_holds o run p ops l es more l' es' :
  reached o run p ops l es -> lf_in_done l = false -> lf_canceled l = false ->
  Forall (fun op => own op = true) more -> life_run o run more l = Some (l', es') ->
  forall failed, lf_main l' <> Returned failed.
Proof.
  intros Hr Hi Hc Hown Hm failed Hret.
  assert (life_ok l') as [_ _ Hok] by (eapply life_run_ok; [exact Hm|by eapply reached_ok]).
  destruct (own_run_frame o run _ _ _ _ Hown Hm) as (_ & Hin & Hca).
  unfold main_ok in Hok. rewrite Hret in Hok. destruct Hok as (_ & _ & Hn). destruct Hn as [E _]; congruence.
Qed.

(** A line of the child that is too long silences it: the loop that reads it
    ends, and nothing the child writes is handled from then on, though the
    session goes on. *)
Theorem long_line_silences o run a l line rest ops l' es :
  lf_out_done l = false -> lf_buffered l = line :: rest -> too_long line = true ->
  life_run o run (ReadChild a :: ops) l = Some (l', es) ->
  exists ls, stdio_run o run (lf_session l) ls = (lf_session l', es) /\ of_child ls = [].
Proof.
  intros Hd Hb Hl. cbn [life_run life_step]. unfold read_child. rewrite Hd, Hb, Hl. cbn [mbind option_bind].
  destruct (life_run o run ops (end_output rest l)) as [[l2 es2]|] eqn:E; [|done]. intros [= <- <-].
  by apply (silent_run o run ops (end_output rest l)).
Qed.

Context `{Letters} `{RegexLib} `{DecodeErrors}.

(** C15. The stdio sensor end to end: started from a configuration, whatever its
    goroutines, the client, the child and the context have done, it passes the
    next line of the client that is an MCP message on to the child unchanged
    unless the message calls a quarantined tool or a blocking rule hits it, and
    then the child reads nothing.  Its events never share the channel to the
    client: it does not start with the sink that writes to standard output. *)
Theorem shipped_stdio_life h args o p0 cfg rs run ops l es a line child_ok l' es' env :
  stdio_start h args = Ok (o, p0) ->
  config_Load (ho_getenv h) (ho_file h) = Ok cfg -> loadRules (ho_dirs h) (cfg_Rules cfg) = Ok rs ->
  NoDup (map rl_ID rs) -> (forall id, id ∈ reserved_ids -> id ∉ map rl_ID rs) ->
  reached o run p0 ops l es -> life_step o run (ClientLine a line child_ok) l = Some (l', es') ->
  too_long line = false -> bytesTrimSpace line <> "" -> ParseText line = Ok env ->
  let stop := call_quarantined (am_now a) env DirectionInbound (ss_pipe (lf_session l)) \/
              blocking_hit rs (mkInput ProtocolMCP DirectionInbound (env_Method env) (ExtractFields env) line) in
  ec_Sink (cfg_Emitter cfg) <> "stdout" /\ (stop /\ to_child es' = [] \/ ~ stop /\ to_child es' = [line +:+ newline]).
Proof.
  intros Hstart Hc Hr Hnd Hres Hreach Hstep Hshort Hline Hparse. cbn zeta.
  destruct (life_run_lines o run _ _ _ _ Hreach) as (ls & Hls & _). destruct (reached_ok o run _ _ _ _ Hreach) as [Hrd _ _].
  revert Hstep. cbn [life_step]. unfold client_line. destruct (lf_in_done l); [done|]. cbn [orb].
  destruct (child_ok && _); [done|]. rewrite Hshort. destruct (stdio_step _ _ _ _) as [st1 es1] eqn:Es. intros [= _ <-].
  pose proof (stdio_gate_after h args o p0 cfg rs run ls (lf_session l) a line env child_ok Hstart Hc Hr Hnd Hres) as Hg.
  rewrite Es in Hg. apply Hg; [by change (mkSession p0 true) with (lf_session (started p0)); rewrite Hls|by apply Hrd|done|done].
Qed.
End theorems.

(** ** Witnesses *)

Section witnesses.
#[local] Existing Instances canonical_iter ascii_tables ascii_letters literal_regex w_errors sample_docs.

Definition stdio_options : StdioOptions := mkStdio "python" true.
Definition stdio_pipe : Pipeline := stdio_pipeline stdio_config stdio_rules.

(** The child answers and exits before the answer was read: the wait closes the
    pipe, and the client gets nothing; [Run] reports a clean end. *)
Definition lost_answer : list life_op :=
  [ChildWrites (marshal sample_call); ChildExits true; WaitReturns; ClientEnds; EndChild; SelectWait; MainReturns].
Theorem last_answer_lost :
  exists l, reached stdio_options "run" stdio_pipe lost_answer l [] /\ lf_main l = Returned false.
Proof. eexists. split; reflexivity. Qed.

(** The child has failed, and the session waits for the client. *)
Definition failed_child : list life_op := [ChildExits false; WaitReturns; EndChild; SelectWait].
Definition after (ops : list life_op) : life :=
  match life_run stdio_options "run" ops (started stdio_pipe) with Some (l, _) => l | None => started stdio_pipe end.

Lemma life_is_session_witness : exists ls, stdio_run stdio_options "run" (mkSession stdio_pipe true) ls = (lf_session (after lost_answer), []).
Proof.
  destruct (life_is_session stdio_options "run" stdio_pipe lost_answer (after lost_answer) [] eq_refl) as (ls & Hls & _).
  by exists ls.
Defined.

Lemma run_result_witness : lf_child (after (failed_child ++ [ClientEnds; MainReturns])) = Some false.
Proof.
  apply (run_result stdio_options "run" stdio_pipe (failed_child ++ [ClientEnds; MainReturns])
           (after (failed_child ++ [ClientEnds; MainReturns])) [] true); reflexivity.
Defined.

Lemma open_client_holds_witness : lf_main (after failed_child) <> Returned true.
Proof.
  apply (open_client_holds stdio_options "run" stdio_pipe failed_child (after failed_child) [] [] (after failed_child) []);
    [reflexivity..|constructor|reflexivity].
Defined.

Lemma session_ends_witness :
  (length [MainReturns] <= length (lf_buffered (after (failed_child ++ [ClientEnds]))) + 4)%nat.
Proof.
  apply (session_ends stdio_options "run" stdio_pipe (failed_child ++ [ClientEnds]) (after (failed_child ++ [ClientEnds])) []
           [MainReturns] (after (failed_child ++ [ClientEnds; MainReturns])) []); [reflexivity..|repeat constructor|reflexivity].
Defined.

Definition called : life * list stdio_effect :=
  match life_step stdio_options "run" (ClientLine (w_ambient 5) (marshal sample_call) true) (started stdio_pipe) with
  | Some r => r
  | None => (started stdio_pipe, [])
  end.

Lemma call_is_short : too_long (marshal sample_call) = false /\ bytesTrimSpace (marshal sample_call) <> "".
Proof. split; [vm_compute; reflexivity|]. intros Hl. apply String.eqb_eq in Hl. vm_compute in Hl. discriminate Hl. Qed.

Lemma call_steps :
  life_step stdio_options "run" (ClientLine (w_ambient 5) (marshal sample_call) true) (started stdio_pipe) = Some (called.1, called.2).
Proof.
  unfold called. cbn [life_step]. unfold client_line. change (lf_in_done (started stdio_pipe)) with false.
  change (true && negb (running (started stdio_pipe))) with false. cbn [orb]. rewrite (proj1 call_is_short).
  by destruct (stdio_step _ _ _ _).
Qed.

Lemma shipped_stdio_life_witness :
  let stop := call_quarantined 5 sample_env DirectionInbound stdio_pipe \/
              blocking_hit stdio_rules (mkInput ProtocolMCP DirectionInbound "tools/call" (ExtractFields sample_env) (marshal sample_call)) in
  ec_Sink (cfg_Emitter stdio_config) <> "stdout" /\
  (stop /\ to_child called.2 = [] \/ ~ stop /\ to_child called.2 = [marshal sample_call +:+ newline]).
Proof.
  apply (shipped_stdio_life stdio_host ["python"] stdio_options stdio_pipe stdio_config stdio_rules "run" []
    (started stdio_pipe) [] (w_ambient 5) (marshal sample_call) true called.1 called.2 sample_env).
  - reflexivity.
  - reflexivity.
  - reflexivity.
  - exact (proj1 stdio_rule_ids).
  - exact (proj2 stdio_rule_ids).
  - reflexivity.
  - exact call_steps.
  - exact (proj1 call_is_short).
  - exact (proj2 call_is_short).
  - exact sample_parses.
Defined.
End witnesses.
