(* ===== verification/Url.v ===== *)
(** * Queries of URLs

    The standard library package [net/url] as the development uses it: query
    escaping, and the encoding and parsing of query strings and form bodies,
    with keys in order and one value each. *)

From S2P Require Import Prelude Text Utf8 Json Http Ruleset Config.

(** ** Definitions *)

Definition unreserved (c : ascii) : bool :=
  let n := N_of_ascii c in
  ((48 <=? n) && (n <=? 57) || (65 <=? n) && (n <=? 90) || (97 <=? n) && (n <=? 122)
   || (n =? 45) || (n =? 46) || (n =? 95) || (n =? 126))%N.
Definition upper_hex (n : N) : ascii := chr (if n <? 10 then 48 + n else 55 + n)%N.

(** [url.QueryEscape]. *)
Fixpoint QueryEscape (s : string) : string :=
  match s with
  | EmptyString => EmptyString
  | String c s' =>
      if unreserved c then String c (QueryEscape s')
      else if Ascii.eqb c " " then String "+" (QueryEscape s')
      else String "%" (String (upper_hex (N_of_ascii c / 16)) (String (upper_hex (N_of_ascii c mod 16)) (QueryEscape s')))
  end.

Definition hex_digit (c : ascii) : option N :=
  let n := N_of_ascii c in
  (if (48 <=? n) && (n <=? 57) then Some (n - 48)
   else if (65 <=? n) && (n <=? 70) then Some (n - 55)
   else if (97 <=? n) && (n <=? 102) then Some (n - 87)
   else None)%N.

(** [url.QueryUnescape]. *)
Fixpoint QueryUnescape (s : string) : option string :=
  match s with
  | EmptyString => Some EmptyString
  | String c s' =>
      if Ascii.eqb c "%" then
        match s' with
        | String a (String b s'') => x ← hex_digit a; y ← hex_digit b; t ← QueryUnescape s''; Some (String (chr (16 * x + y)) t)
        | _ => None
        end
      else t ← QueryUnescape s'; Some (String (if Ascii.eqb c "+" then " "%char else c) t)
  end.

(** [url.ParseQuery], which skips what it cannot read. *)
Definition query_pair (part : string) : option (string * string) :=
  if (part ==s "") || Contains part ";" then None
  else let '(k, v) := match cut_first "=" part with Some kv => kv | None => (part, "") end in
       k ← QueryUnescape k; v ← QueryUnescape v; Some (k, v).
Definition ParseQuery (q : string) : list (string * string) := omap query_pair (split_on "&" q).
Definition query_Get (key : string) (q : list (string * string)) : string :=
  default "" (snd <$> List.find (fun kv => kv.1 ==s key) q).

(** [Values.Encode] of keys in order, one value each. *)
Definition query_encode (kvs : list (string * string)) : string :=
  join "&" (map (fun kv => QueryEscape kv.1 +:+ "=" +:+ QueryEscape kv.2) kvs).

(** ** Lemmas *)

Lemma no_char_app c a b : contains_char c (a +:+ b) = contains_char c a || contains_char c b.
Proof.
  induction a as [|d a IH]; [by rewrite sapp_nil_l|]. rewrite sapp_cons. cbn [contains_char]. by rewrite IH, orb_assoc.
Qed.

Lemma no_char_Contains c s : contains_char c s = false -> Contains s (String c "") = false.
Proof.
  intros H. destruct (Contains s (String c "")) eqn:E; [|done]. apply Contains_spec in E as (a & b & ->).
  rewrite !no_char_app in H. cbn [contains_char] in H. by rewrite Ascii.eqb_refl, orb_true_r in H.
Qed.

Lemma cut_first_app c a b : contains_char c a = false -> cut_first c (a +:+ String c b) = Some (a, b).
Proof.
  induction a as [|d a IH]; intros H; rewrite ?sapp_nil_l, ?sapp_cons; cbn [cut_first contains_char] in *.
  { by rewrite Ascii.eqb_refl. }
  apply orb_false_iff in H as [-> H]. by rewrite IH.
Qed.

(** *** Escaping *)

(** A character is escaped to something the parser reads back. *)
Definition escape_char (c : ascii) : string := QueryEscape (String c "").

Lemma QueryEscape_cons c s : QueryEscape (String c s) = escape_char c +:+ QueryEscape s.
Proof. unfold escape_char. cbn [QueryEscape]. destruct (unreserved c); [done|]. by destruct (Ascii.eqb c " "). Qed.

Lemma unescape_escape_char c s : QueryUnescape (escape_char c +:+ s) = t ← QueryUnescape s; Some (String c t).
Proof. destruct c as [[] [] [] [] [] [] [] []]; reflexivity. Qed.

Definition structural (c : ascii) : bool := Ascii.eqb c "&" || Ascii.eqb c "=" || Ascii.eqb c ";".

Lemma escape_char_plain d c : structural d = true -> contains_char d (escape_char c) = false.
Proof.
  unfold structural. intros H. assert (d = "&"%char \/ d = "="%char \/ d = ";"%char) as Hd.
  { rewrite !orb_true_iff, !Ascii.eqb_eq in H. tauto. }
  destruct Hd as [-> | [-> | ->]]; destruct c as [[] [] [] [] [] [] [] []]; reflexivity.
Qed.

Lemma QueryUnescape_escape s : QueryUnescape (QueryEscape s) = Some s.
Proof. induction s as [|c s IH]; [done|]. by rewrite QueryEscape_cons, unescape_escape_char, IH. Qed.

Lemma QueryEscape_plain d s : structural d = true -> contains_char d (QueryEscape s) = false.
Proof.
  intros Hd. induction s as [|c s IH]; [done|]. by rewrite QueryEscape_cons, no_char_app, escape_char_plain, IH.
Qed.

Definition encode_pair (kv : string * string) : string := QueryEscape kv.1 +:+ String "=" (QueryEscape kv.2).

Lemma encode_pair_plain d kv : structural d = true -> d <> "="%char -> contains_char d (encode_pair kv) = false.
Proof.
  intros Hd Hne. unfold encode_pair. rewrite no_char_app. cbn [contains_char]. rewrite !QueryEscape_plain by done.
  destruct (Ascii.eqb "=" d) eqn:E; [|done]. apply Ascii.eqb_eq in E. by subst.
Qed.

Lemma query_pair_encode kv : query_pair (encode_pair kv) = Some kv.
Proof.
  unfold query_pair. rewrite no_char_Contains by by apply encode_pair_plain. rewrite orb_false_r.
  destruct (encode_pair kv ==s "") eqn:E.
  { apply String.eqb_eq in E. unfold encode_pair in E. by destruct (QueryEscape kv.1). }
  unfold encode_pair. rewrite cut_first_app by by apply QueryEscape_plain. rewrite !QueryUnescape_escape. by destruct kv.
Qed.

Lemma query_encode_pairs kvs : query_encode kvs = join (String "&" "") (map encode_pair kvs).
Proof. done. Qed.

(** What [Encode] writes, [ParseQuery] reads, whatever the values hold. *)
Lemma ParseQuery_encode kvs : ParseQuery (query_encode kvs) = kvs.
Proof.
  destruct kvs as [|kv kvs]; [done|]. unfold ParseQuery. rewrite query_encode_pairs, split_on_join; [|done|].
  - generalize (kv :: kvs). clear. intros l. induction l as [|kv l IH]; [done|].
    cbn [map omap list_omap]. rewrite query_pair_encode. by rewrite IH.
  - apply Forall_forall. intros s (kv' & -> & _)%list_elem_of_fmap. by apply encode_pair_plain.
Qed.

Lemma cut_first_none c s : contains_char c s = false -> cut_first c s = None.
Proof.
  induction s as [|d s IH]; cbn [cut_first contains_char]; [done|]. intros [-> H]%orb_false_iff. by rewrite IH.
Qed.
