(* ===== verification/Cli.v ===== *)
(** * The operator's command line

    [cmd/hopframe/main.go]: from the arguments to the request the command
    sends to the control plane, and to the exit status.  Package [flag] is
    written out for the flags the command declares, with the integers of
    [strconv.ParseInt] in base 0; [url.Values] is [Url].  The environment and
    the contents of files are arguments. *)

From S2P Require Import Prelude Text DecimalText Utf8 Json EventStore Http Ruleset Config Url Roles Server Routes ReadApi Bundle.

(** ** Package [flag] *)

(** A flag is declared with the test its value has to pass. *)
Definition flags : Type := list (string * (string -> bool)).
Definition text_flag (name : string) : string * (string -> bool) := (name, fun _ => true).

Definition declared (fs : flags) (name : string) : option (string -> bool) := obj_get name fs.

(** [Parse] with [ExitOnError]: the values set, or the exit status. *)
Fixpoint parse_flags (fs : flags) (args : list string) (vals : gmap string string) : result (gmap string string) Z :=
  match args with
  | String "-" (String c s) :: args' =>
      let name := if Ascii.eqb c "-" then s else String c s in
      if Ascii.eqb c "-" && (s ==s "") then Ok vals
      else if (name ==s "") || HasPrefix name "-" || HasPrefix name "=" then Err 2%Z
      else
        let '(name, value) := match cut_first "=" name with Some (n, v) => (n, Some v) | None => (name, None) end in
        match declared fs name with
        | None => Err (if (name ==s "help") || (name ==s "h") then 0 else 2)%Z
        | Some ok =>
            match value, args' with
            | Some v, _ => if ok v then parse_flags fs args' (<[name := v]> vals) else Err 2%Z
            | None, [] => Err 2%Z
            | None, v :: args'' => if ok v then parse_flags fs args'' (<[name := v]> vals) else Err 2%Z
            end
        end
  | _ => Ok vals
  end.

Definition flag_value (vals : gmap string string) (name def : string) : string := default def (vals !! name).

(** ** Integers of flags *)

Definition lower_byte (c : ascii) : N := let n := N_of_ascii c in if ((65 <=? n) && (n <=? 90))%N then (n + 32)%N else n.
Definition is_digit (c : ascii) : bool := let n := N_of_ascii c in ((48 <=? n) && (n <=? 57))%N.

(** The base that a prefix gives, and the digits behind it. *)
Definition int_base (s : string) : Z * string :=
  match s with
  | String "0" s' =>
      match s' with
      | String c (String d r) =>
          let n := lower_byte c in
          if (n =? 98)%N then (2, String d r)%Z else if (n =? 111)%N then (8, String d r)%Z
          else if (n =? 120)%N then (16, String d r)%Z else (8, s')%Z
      | _ => (8, s')%Z
      end
  | _ => (10, s)%Z
  end.

Definition digit_value (c : ascii) : option Z :=
  let n := lower_byte c in
  if is_digit c then Some (Z.of_N n - 48)%Z
  else if ((97 <=? n) && (n <=? 122))%N then Some (Z.of_N n - 87)%Z else None.

(** The loop of [ParseUint]; what overflows is refused in the end. *)
Fixpoint parse_digits (base : Z) (s : string) (n : Z) : option Z :=
  match s with
  | EmptyString => Some n
  | String c s' =>
      if Ascii.eqb c "_" then parse_digits base s' n
      else d ← digit_value c; if (base <=? d)%Z then None else parse_digits base s' (base * n + d)%Z
  end.

(** [underscoreOK] behind the sign and the prefix; what it saw last is a digit,
    an underscore, or something else. *)
Inductive seen := SawDigit | SawUnderscore | SawOther.
Fixpoint underscores (hex : bool) (i : seen) (s : string) : bool :=
  match s with
  | EmptyString => match i with SawUnderscore => false | _ => true end
  | String c s' =>
      if is_digit c || (hex && (97 <=? lower_byte c)%N && (lower_byte c <=? 102)%N) then underscores hex SawDigit s'
      else if Ascii.eqb c "_" then match i with SawDigit => underscores hex SawUnderscore s' | _ => false end
      else match i with SawUnderscore => false | _ => underscores hex SawOther s' end
  end.
Definition underscoreOK (s : string) : bool :=
  match s with
  | String "0" (String c r) =>
      let n := lower_byte c in
      if ((n =? 98) || (n =? 111) || (n =? 120))%N then underscores (n =? 120)%N SawDigit r else underscores false SawOther s
  | _ => underscores false SawOther s
  end.

(** [strconv.ParseInt(s, 0, 64)]. *)
Definition ParseInt (s : string) : option Z :=
  let '(neg, u) := match s with String "+" u => (false, u) | String "-" u => (true, u) | _ => (false, s) end in
  if u ==s "" then None
  else
    n ← (let '(base, ds) := int_base u in parse_digits base ds 0);
    if negb (underscoreOK u) then None
    else let z := if neg then (- n)%Z else n in
         if ((min_int64 <=? z) && (z <=? max_int64))%Z then Some z else None.

Example ParseInt_spellings :
  map ParseInt ["7"; "-0x1F"; "010"; "+0b1_0"; "1_000"; "0_7"; "0"; "0x"; "_1"; "1__0"; ""; "-"; "9223372036854775808"; "-9223372036854775808"] =
  [Some 7; Some (-31); Some 8; Some 2; Some 1000; Some 7; Some 0; None; None; None; None; None; None; Some min_int64]%Z.
Proof. vm_compute. reflexivity. Qed.

(** ** The command *)

Inductive outcome :=
| Exit (code : Z)
| Send (method path : string) (body : option string).

Section cli.
Context (getenv : string -> string) (read_file : string -> option string).

(** The flags that may stand anywhere: the server, the token, and the rest. *)
Fixpoint extract (args : list string) (server token : string) (filtered : list string) : option (string * string * list string) :=
  match args with
  | [] => Some (server, token, filtered)
  | a :: args' =>
      if a ==s "--server" then match args' with [] => None | v :: args'' => extract args'' v token filtered end
      else if HasPrefix a "--server=" then extract args' (str_drop 9 a) token filtered
      else if a ==s "--token" then match args' with [] => None | v :: args'' => extract args'' server v filtered end
      else if HasPrefix a "--token=" then extract args' server (str_drop 8 a) filtered
      else extract args' server token (filtered ++ [a])
  end.

Definition number_flag (name : string) : string * (string -> bool) :=
  (name, fun v => match ParseInt v with Some _ => true | None => false end).

Definition setIf (key val : string) : list (string * string) := if val !=s "" then [(key, val)] else [].

Definition events_flags : flags :=
  [number_flag "limit"; text_flag "action"; text_flag "severity"; text_flag "category"; text_flag "method"].

(** The keys of the query, which [Encode] sorts. *)
Definition events_query (vals : gmap string string) : list (string * string) :=
  setIf "action" (flag_value vals "action" "") ++ setIf "category" (flag_value vals "category" "")
  ++ [("limit", dec_string (default 50%Z (v ← vals !! "limit"; ParseInt v)))]
  ++ setIf "method" (flag_value vals "method" "") ++ setIf "severity" (flag_value vals "severity" "").

(** The second argument, which some subcommands need. *)
Definition with_id (args : list string) (k : string -> outcome) : outcome :=
  match args with id :: _ => k id | [] => Exit 2 end.

Definition eventsCmd (args : list string) : outcome :=
  match args with
  | [] => Exit 2
  | sub :: args' =>
      if sub ==s "list" then
        match parse_flags events_flags args' ∅ with
        | Err code => Exit code
        | Ok vals => Send "GET" ("/v1/events?" +:+ query_encode (events_query vals)) None
        end
      else if sub ==s "get" then with_id args' (fun seq => Send "GET" ("/v1/records/" +:+ seq) None)
      else Exit 2
  end.

Definition policiesCmd (args : list string) : outcome :=
  match args with
  | [] => Exit 2
  | sub :: args' =>
      if sub ==s "list" then Send "GET" "/v1/policies" None
      else if sub ==s "create" then
        match parse_flags [text_flag "f"] args' ∅ with
        | Err code => Exit code
        | Ok vals =>
            let file := flag_value vals "f" "" in
            if file ==s "" then Exit 2
            else match read_file file with None => Exit 1 | Some body => Send "POST" "/v1/policies" (Some body) end
        end
      else if sub ==s "get" then with_id args' (fun id => Send "GET" ("/v1/policies/" +:+ id) None)
      else if sub ==s "preview" then with_id args' (fun id => Send "POST" ("/v1/policies/" +:+ id +:+ "/preview") (Some (marshal (JObj []))))
      else if sub ==s "delete" then with_id args' (fun id => Send "DELETE" ("/v1/policies/" +:+ id) None)
      else Exit 2
  end.

(** [sensors] and [rules] list, with or without the word. *)
Definition listCmd (path : string) (args : list string) : outcome :=
  match args with
  | [] => Send "GET" path None
  | sub :: _ => if sub ==s "list" then Send "GET" path None else Exit 2
  end.

Definition tokensCmd (args : list string) : outcome :=
  match args with
  | [] => Exit 2
  | sub :: args' =>
      if sub ==s "list" then Send "GET" "/v1/tokens" None
      else if sub ==s "mint" then
        match parse_flags [text_flag "name"; text_flag "role"; text_flag "tenant"] args' ∅ with
        | Err code => Exit code
        | Ok vals =>
            let name := flag_value vals "name" "" in let role := flag_value vals "role" "" in
            if (name ==s "") || (role ==s "") then Exit 2
            else Send "POST" "/v1/tokens"
                   (Some (marshal (JObj [("name", JStr name); ("role", JStr role); ("tenant_id", JStr (flag_value vals "tenant" ""))])))
        end
      else if sub ==s "revoke" then with_id args' (fun id => Send "DELETE" ("/v1/tokens/" +:+ id) None)
      else Exit 2
  end.

(** [users password], whose flags come after the name. *)
Definition passwordCmd (username : string) (args : list string) : outcome :=
  match parse_flags [text_flag "password"] args ∅ with
  | Err code => Exit code
  | Ok vals =>
      let password := flag_value vals "password" "" in
      if password ==s "" then Exit 2
      else Send "POST" ("/v1/users/" +:+ username +:+ "/password") (Some (marshal (JObj [("password", JStr password)])))
  end.

Definition usersCmd (args : list string) : outcome :=
  match args with
  | [] => Exit 2
  | sub :: args' =>
      if sub ==s "list" then Send "GET" "/v1/users" None
      else if sub ==s "add" then
        match parse_flags [text_flag "username"; text_flag "password"; text_flag "role"; text_flag "tenant"] args' ∅ with
        | Err code => Exit code
        | Ok vals =>
            let username := flag_value vals "username" "" in let password := flag_value vals "password" "" in
            if (username ==s "") || (password ==s "") then Exit 2
            else Send "POST" "/v1/users"
                   (Some (marshal (JObj [("password", JStr password); ("role", JStr (flag_value vals "role" "viewer"));
                                         ("tenant_id", JStr (flag_value vals "tenant" "")); ("username", JStr username)])))
        end
      else if sub ==s "password" then with_id args' (fun username => passwordCmd username (tail args'))
      else Exit 2
  end.

Definition dispatch_cmd (cmd : string) (args : list string) : outcome :=
  if cmd ==s "stats" then Send "GET" "/v1/stats" None
  else if cmd ==s "verify" then Send "GET" "/v1/verify" None
  else if cmd ==s "events" then eventsCmd args
  else if cmd ==s "policies" then policiesCmd args
  else if cmd ==s "sensors" then listCmd "/v1/sensors" args
  else if cmd ==s "rules" then listCmd "/v1/rules" args
  else if cmd ==s "tokens" then tokensCmd args
  else if cmd ==s "users" then usersCmd args
  else if cmd ==s "export" then Exit 2
  else if (cmd ==s "help") || (cmd ==s "-h") || (cmd ==s "--help") then Exit 0
  else Exit 2.

(** A request as it is sent: method, URL, headers and body. *)
Record cli_request := mkCliRequest { cq_method : string; cq_url : string; cq_headers : list (string * string); cq_body : option string }.

(** [main], up to the request. *)
Definition cli_main (args : list string) : result cli_request Z :=
  let server := if getenv "HOPFRAME_SERVER" ==s "" then "http://127.0.0.1:7090" else getenv "HOPFRAME_SERVER" in
  match args with
  | [] => Err 2%Z
  | _ =>
      match extract args server (getenv "HOPFRAME_API_TOKEN") [] with
      | None | Some (_, _, []) => Err 2%Z
      | Some (server, token, cmd :: args) =>
          match dispatch_cmd cmd args with
          | Exit code => Err code
          | Send method path body =>
              Ok (mkCliRequest method (TrimRight server "/" +:+ path)
                    ((if body is Some _ then [("Content-Type", "application/json")] else [])
                       ++ (if token !=s "" then [("Authorization", "Bearer " +:+ token)] else [])) body)
          end
      end
  end.

(** [do] and [mustOK] on the status of the reply, if there is one. *)
Definition cli_exit (status : option Z) : Z :=
  match status with Some st => if (st / 100 =? 2)%Z then 0 else 1 | None => 1 end.
End cli.

(** ** Lemmas *)

Lemma Atoi_written z : (min_int64 <= z <= max_int64)%Z -> Atoi (dec_string z) = Some z.
Proof.
  intros Hz. destruct (Z_le_gt_dec 0 z) as [Hp|Hp]; [apply Atoi_string; lia|]. unfold Atoi.
  destruct z as [|p|p]; [lia..|]. pose proof (parse_dec_string (Zneg p)) as E.
  assert (exists s, dec_string (Zneg p) = String minus s) as [s Es] by (eexists; reflexivity).
  rewrite Es in *. change (Ascii.eqb minus plus) with false. cbv iota. rewrite E. cbn [mbind option_bind].
  rewrite (proj2 (Z.leb_le _ _)), (proj2 (Z.leb_le _ _)) by lia. done.
Qed.

(** *** Flags *)

Lemma ParseInt_range s n : ParseInt s = Some n -> (min_int64 <= n <= max_int64)%Z.
Proof.
  unfold ParseInt. destruct (match s with EmptyString => _ | _ => _ end) as [neg u]. destruct (u ==s ""); [done|].
  destruct (let '(base, ds) := int_base u in parse_digits base ds 0) as [m|]; [|done]. cbn [mbind option_bind].
  destruct (negb _); [done|]. destruct (_ && _) eqn:E; [|done]. intros [= <-]. by apply andb_true_iff in E as [?%Z.leb_le ?%Z.leb_le].
Qed.

(** A name of a flag, and the arguments that set flags. *)
Definition flag_name (n : string) : bool :=
  negb ((n ==s "") || HasPrefix n "-" || HasPrefix n "=") && negb (contains_char "=" n).
Definition render_flags (kvs : list (string * string)) : list string := flat_map (fun kv => ["--" +:+ kv.1; kv.2]) kvs.
Definition set_flags (kvs : list (string * string)) : gmap string string := fold_left (fun m kv => <[kv.1 := kv.2]> m) kvs ∅.

Definition settable (fs : flags) (kv : string * string) : Prop :=
  flag_name kv.1 = true /\ exists ok, declared fs kv.1 = Some ok /\ ok kv.2 = true.

Lemma parse_flags_render fs kvs m : Forall (settable fs) kvs ->
  parse_flags fs (render_flags kvs) m = Ok (fold_left (fun m kv => <[kv.1 := kv.2]> m) kvs m).
Proof.
  intros H. revert m. induction H as [|[n v] kvs (Hn & ok & Hd & Hv) _ IH]; intros m; [done|].
  cbn [render_flags flat_map fst snd] in *. rewrite !sapp_cons, sapp_nil_l. cbn [app parse_flags fold_left fst snd].
  change (Ascii.eqb "-" "-") with true. cbn [andb]. unfold flag_name in Hn. cbn [fst snd] in *.
  apply andb_true_iff in Hn as [Hn Hc]. apply negb_true_iff in Hn, Hc. rewrite Hn.
  apply orb_false_iff in Hn as [[He _]%orb_false_iff _]. rewrite He, cut_first_none, Hd, Hv by done. apply IH.
Qed.

(** *** The global flags *)

(** An argument list with the two global flags in either form among words
    that are neither. *)
Inductive item := Word (w : string) | ServerFlag (v : string) (joined : bool) | TokenFlag (v : string) (joined : bool).
Definition render_item (i : item) : list string :=
  match i with
  | Word w => [w]
  | ServerFlag v joined => if joined then ["--server=" +:+ v] else ["--server"; v]
  | TokenFlag v joined => if joined then ["--token=" +:+ v] else ["--token"; v]
  end.
Definition global_word (a : string) : bool :=
  (a ==s "--server") || HasPrefix a "--server=" || (a ==s "--token") || HasPrefix a "--token=".
Definition word_ok (i : item) : Prop := match i with Word w => global_word w = false | _ => True end.

Definition words (xs : list item) : list string := flat_map (fun i => match i with Word w => [w] | _ => [] end) xs.
Definition last_server (def : string) (xs : list item) : string :=
  fold_left (fun s i => match i with ServerFlag v _ => v | _ => s end) xs def.
Definition last_token (def : string) (xs : list item) : string :=
  fold_left (fun s i => match i with TokenFlag v _ => v | _ => s end) xs def.

Lemma joined_flag p v : HasPrefix (p +:+ v) p = true /\ str_drop (String.length p) (p +:+ v) = v.
Proof. split; [apply HasPrefix_spec; by exists v|apply str_drop_app]. Qed.

Lemma server_not_token v : HasPrefix ("--token=" +:+ v) "--server=" = false /\ ("--token=" +:+ v ==s "--server") = false.
Proof. split; reflexivity. Qed.

Lemma extract_globals xs s t f : Forall word_ok xs ->
  extract (flat_map render_item xs) s t f = Some (last_server s xs, last_token t xs, f ++ words xs).
Proof.
  intros H. revert s t f. induction H as [|i xs Hi _ IH]; intros s t f; [cbn; by rewrite app_nil_r|].
  destruct i as [w|v []|v []]; cbn [flat_map render_item app extract words last_server last_token fold_left].
  - cbn [word_ok] in Hi. unfold global_word in Hi. rewrite !orb_false_iff in Hi. destruct Hi as [[[-> ->] ->] ->].
    rewrite IH. by rewrite <- app_assoc.
  - replace ("--server=" +:+ v ==s "--server") with false by reflexivity.
    destruct (joined_flag "--server=" v) as [-> E]. change 9 with (String.length "--server="). rewrite E. apply IH.
  - change ("--server" ==s "--server") with true. apply IH.
  - destruct (server_not_token v) as [-> ->]. replace ("--token=" +:+ v ==s "--token") with false by reflexivity.
    destruct (joined_flag "--token=" v) as [-> E]. change 8 with (String.length "--token="). rewrite E. apply IH.
  - change ("--token" ==s "--server") with false. change (HasPrefix "--token" "--server=") with false.
    change ("--token" ==s "--token") with true. apply IH.
Qed.

(** *** Routing *)

(** An identifier that stands in a path as one clean element. *)
Definition path_id (s : string) : bool := negb (contains_char "/" s || contains_char "?" s) && clean_element s.

(** No pattern lies properly below the prefix of [rt], and only [rt] is it. *)
Definition lone_prefix (rt : route) : bool :=
  forallb (fun x => (rt_pattern x ==s rt_pattern rt) && (rt_handler x ==s rt_handler rt) || negb (HasPrefix (rt_pattern x) (rt_pattern rt))) routes.

Lemma str_eq_prefix s t : s = t -> HasPrefix s t = true.
Proof. intros ->. apply HasPrefix_spec. exists "". by rewrite sapp_nil_r. Qed.

Lemma prefix_of_longer p q s : HasPrefix s p = true -> HasPrefix s q = true -> (String.length p <= String.length q)%nat -> HasPrefix q p = true.
Proof.
  intros [a ->]%HasPrefix_spec [b E]%HasPrefix_spec Hl. destruct (prefix_comparable _ _ _ _ E) as [Hp|Hp]; [|done].
  apply HasPrefix_spec in Hp as [u ->]. rewrite sapp_length in Hl. destruct u; [by rewrite sapp_nil_r; apply str_eq_prefix|cbn in Hl; lia].
Qed.

Lemma fold_longer_some l b : exists rt, fold_left longer l (Some b) = Some rt.
Proof.
  revert b. induction l as [|x l IH]; intros b; cbn [fold_left]; [by exists b|].
  unfold longer at 2. destruct (_ <? _)%nat; apply IH.
Qed.

Lemma mux_below rt rest : rt ∈ routes -> lone_prefix rt = true -> HasSuffix (rt_pattern rt) "/" = true -> rest <> "" ->
  is_clean (rt_pattern rt +:+ rest) = true ->
  existsb (fun x => rt_pattern x ==s rt_pattern rt +:+ rest +:+ "/") routes = false ->
  exists x, mux (rt_pattern rt +:+ rest) = Serve x /\ rt_handler x = rt_handler rt.
Proof.
  intros Hin Hlone Hsuf Hrest Hclean Hred. unfold mux. rewrite Hclean. cbn [negb]. rewrite <- sapp_assoc in Hred. rewrite Hred. cbn [andb].
  assert (pattern_covers (rt_pattern rt +:+ rest) (rt_pattern rt) = true) as Hcov.
  { unfold pattern_covers. rewrite Hsuf. apply orb_true_iff. right. cbn [andb]. apply HasPrefix_spec. by exists rest. }
  destruct (mux_match (rt_pattern rt +:+ rest)) as [x|] eqn:Em.
  - exists x. split; [done|]. apply mux_match_spec in Em as (Hx & Hc & Hmax). specialize (Hmax rt Hin Hcov).
    unfold lone_prefix in Hlone. rewrite forallb_forall in Hlone. specialize (Hlone x (proj1 (list_elem_of_In _ _) Hx)).
    assert (HasPrefix (rt_pattern x) (rt_pattern rt) = true) as Hp.
    { unfold pattern_covers in Hc. apply orb_true_iff in Hc as [Hc%String.eqb_eq|[_ Hc]%andb_true_iff].
      - rewrite <- Hc. apply HasPrefix_spec. by exists rest.
      - eapply prefix_of_longer; [|exact Hc|done]. apply HasPrefix_spec. by exists rest. }
    rewrite Hp in Hlone. apply orb_true_iff in Hlone as [[_ Hh%String.eqb_eq]%andb_true_iff|?]; done.
  - exfalso. unfold mux_match in Em. destruct (filter _ routes) as [|y l] eqn:Ef.
    + assert (rt ∈ filter (fun rt0 => pattern_covers (rt_pattern rt +:+ rest) (rt_pattern rt0)) routes) as Hi
        by (apply list_elem_of_filter; by rewrite Hcov). rewrite Ef in Hi. by apply elem_of_nil in Hi.
    + cbn [fold_left] in Em. destruct (fold_longer_some l y) as [z Ez]. unfold longer at 2 in Em. by rewrite Ez in Em.
Qed.

Lemma mux_id rt rest : rt ∈ routes -> lone_prefix rt = true -> HasSuffix (rt_pattern rt) "/" = true -> rest <> "" ->
  is_clean (rt_pattern rt +:+ rest) = true -> exists x, mux (rt_pattern rt +:+ rest) = Serve x /\ rt_handler x = rt_handler rt.
Proof.
  intros Hin Hl Hs Hr Hc. apply mux_below; [done..|]. apply not_true_iff_false. rewrite existsb_exists. intros (x & Hx & E%String.eqb_eq).
  unfold lone_prefix in Hl. rewrite forallb_forall in Hl. specialize (Hl x Hx). apply orb_true_iff in Hl as [[Hp%String.eqb_eq _]%andb_true_iff|Hp].
  - apply (f_equal String.length) in E. rewrite Hp, !sapp_length in E. destruct rest; [done|cbn in E; lia].
  - rewrite E in Hp. apply negb_true_iff in Hp. assert (HasPrefix (rt_pattern rt +:+ rest +:+ "/") (rt_pattern rt) = true) as Hq
      by (apply HasPrefix_spec; by exists (rest +:+ "/")). by rewrite Hq in Hp.
Qed.

Lemma path_id_parts id : path_id id = true -> contains_char "/" id = false /\ contains_char "?" id = false /\ clean_element id = true /\ id <> "".
Proof.
  unfold path_id. intros [[H1 H2]%negb_true_iff%orb_false_iff Hc]%andb_true_iff. split_and!; [done..|]. by intros ->.
Qed.

(** The rest of a path below [/v1/x/]: an identifier, and perhaps a word. *)
Lemma clean_below seg id rest : contains_char "/" seg = false -> clean_element seg = true -> path_id id = true ->
  rest = "" \/ rest = "/preview" \/ rest = "/password" -> is_clean ("/v1/" +:+ seg +:+ String "/" (id +:+ rest)) = true.
Proof.
  intros Hs Hse Hid Hr. destruct (path_id_parts id Hid) as (Hi & _ & Hie & Hne). unfold is_clean.
  change ("/v1/" +:+ seg +:+ String "/" (id +:+ rest)) with ("" +:+ String "/" ("v1" +:+ String "/" (seg +:+ String "/" (id +:+ rest)))).
  rewrite !split_on_app by done.
  destruct Hr as [-> |[-> | ->]].
  - rewrite sapp_nil_r, split_on_none by done. cbn [removelast forallb List.last]. rewrite Hse. cbn.
    unfold clean_element in Hie. apply negb_true_iff, orb_false_iff in Hie as [[_ ->]%orb_false_iff ->]. done.
  - change "/preview" with (String "/" "preview"). rewrite split_on_app by done. cbn [split_on removelast forallb List.last Ascii.eqb Bool.eqb].
    change (split_on "/" "preview") with ["preview"]. cbn [removelast forallb List.last]. by rewrite Hse, Hie.
  - change "/password" with (String "/" "password"). rewrite split_on_app by done. cbn [split_on removelast forallb List.last Ascii.eqb Bool.eqb].
    change (split_on "/" "password") with ["password"]. cbn [removelast forallb List.last]. by rewrite Hse, Hie.
Qed.

(** *** Where commands land *)

(** The path of a URL. *)
Definition url_path (u : string) : string := match cut_first "?" u with Some (p, _) => p | None => u end.

(** The identifier that a command puts into the path, if it takes one. *)
Definition target (args : list string) : option string :=
  match args with
  | sub :: id :: _ => if existsb (String.eqb sub) ["get"; "preview"; "delete"; "revoke"; "password"] then Some id else None
  | _ => None
  end.

(** The handlers that a command is for. *)
Definition handlers_of (cmd : string) : list string :=
  default [] (obj_get cmd
    [("stats", ["handleStats"]); ("verify", ["handleVerify"]); ("events", ["handleEvents"; "handleRecordByID"]);
     ("policies", ["handlePolicies"; "handlePolicyByID"]); ("sensors", ["handleSensors"]); ("rules", ["handleRules"]);
     ("tokens", ["handleTokensCollection"; "handleTokenByID"]); ("users", ["handleUsersCollection"; "handleUserByName"])]).

Definition lands (cmd path : string) : Prop := exists x, mux (url_path path) = Serve x /\ rt_handler x ∈ handlers_of cmd.

Lemma lands_fixed cmd path rt : mux (url_path path) = Serve rt -> existsb (String.eqb (rt_handler rt)) (handlers_of cmd) = true -> lands cmd path.
Proof.
  intros Hm (h & Hh & E%String.eqb_eq)%existsb_exists. exists rt. split; [done|]. rewrite E. by apply list_elem_of_In.
Qed.

Definition below (seg min h : string) : route := mkRoute ("/v1/" +:+ seg +:+ "/") (AuthRole min) h.

Lemma lands_below cmd seg min h id rest :
  below seg min h ∈ routes -> lone_prefix (below seg min h) = true -> existsb (String.eqb h) (handlers_of cmd) = true ->
  contains_char "/" seg || contains_char "?" seg = false -> clean_element seg = true -> path_id id = true ->
  rest = "" \/ rest = "/preview" \/ rest = "/password" ->
  HasSuffix ("/v1/" +:+ seg +:+ "/") "/" = true ->
  lands cmd ("/v1/" +:+ seg +:+ "/" +:+ id +:+ rest).
Proof.
  intros Hin Hl Hh [Hs Hq]%orb_false_iff Hse Hid Hr Hsuf. destruct (path_id_parts id Hid) as (_ & Hiq & _ & Hne).
  assert (contains_char "?" ("/v1/" +:+ seg +:+ "/" +:+ id +:+ rest) = false) as Hnq.
  { rewrite !no_char_app, Hq, Hiq. by destruct Hr as [-> |[-> | ->]]. }
  destruct (mux_id (below seg min h) (id +:+ rest)) as (x & Hx & Ex); [done..| | |].
  - by destruct id.
  - cbn [below rt_pattern]. rewrite !sapp_assoc. change ("/" +:+ id +:+ rest) with (String "/" (id +:+ rest)). by apply clean_below.
  - cbn [below rt_pattern rt_handler] in *. rewrite !sapp_assoc in Hx. eapply (lands_fixed _ _ x); [|by rewrite Ex].
    unfold url_path. by rewrite cut_first_none.
Qed.

Section landing.
Context (read_file : string -> option string).

(** [users password alice ...] and the like: the identifier of the command is
    the one in its path. *)
Lemma target_id sub id args : (forall i, target (sub :: id :: args) = Some i -> path_id i = true) ->
  existsb (String.eqb sub) ["get"; "preview"; "delete"; "revoke"; "password"] = true -> path_id id = true.
Proof. intros H Hs. apply H. cbn [target]. by rewrite Hs. Qed.

(** One step through the branches of a command. *)
Ltac branch Hd Hid :=
  match type of Hd with
  | Exit _ = Send _ _ _ => discriminate Hd
  | Send _ ?p _ = Send _ _ _ => injection Hd as <- <- <-
  | (if ?sub ==s ?k then _ else _) = _ =>
      let E := fresh "E" in destruct (sub ==s k) eqn:E; [apply String.eqb_eq in E as ->|clear E]
  | with_id ?l _ = _ => destruct l as [|?id ?args]; cbn [with_id] in Hd; [|apply target_id in Hid; [|reflexivity]]
  | (if ?b then _ else _) = _ => destruct b
  | (match ?x with _ => _ end) = _ => destruct x
  end.

Ltac fixed := eapply lands_fixed; [reflexivity|reflexivity].
Ltac member := repeat (apply list_elem_of_here || apply list_elem_of_further).
Ltac at_id seg min h id :=
  let H := fresh in
  pose proof (fun cmd => lands_below cmd seg min h id "") as H; setoid_rewrite sapp_nil_r in H;
  apply H; [member|reflexivity|reflexivity|reflexivity|reflexivity|assumption|by left|reflexivity].
Ltac at_id_word seg min h id word :=
  apply (lands_below _ seg min h id word); [member|reflexivity|reflexivity|reflexivity|reflexivity|assumption|auto|reflexivity].

Lemma events_land args method path body : eventsCmd args = Send method path body ->
  (forall id, target args = Some id -> path_id id = true) -> lands "events" path.
Proof.
  unfold eventsCmd. intros Hd Hid. destruct args as [|sub args]; [done|]. repeat branch Hd Hid; [fixed|].
  at_id "records" RoleViewer "handleRecordByID" id.
Qed.

Lemma policies_land args method path body : policiesCmd read_file args = Send method path body ->
  (forall id, target args = Some id -> path_id id = true) -> lands "policies" path.
Proof.
  unfold policiesCmd. intros Hd Hid. destruct args as [|sub args]; [done|]. cbv zeta in Hd. repeat branch Hd Hid; try fixed.
  - at_id "policies" RoleViewer "handlePolicyByID" id.
  - at_id_word "policies" RoleViewer "handlePolicyByID" id "/preview".
  - at_id "policies" RoleViewer "handlePolicyByID" id.
Qed.

Lemma tokens_land args method path body : tokensCmd args = Send method path body ->
  (forall id, target args = Some id -> path_id id = true) -> lands "tokens" path.
Proof.
  unfold tokensCmd. intros Hd Hid. destruct args as [|sub args]; [done|]. cbv zeta in Hd. repeat branch Hd Hid; try fixed.
  at_id "tokens" RoleAdmin "handleTokenByID" id.
Qed.

Lemma users_land args method path body : usersCmd args = Send method path body ->
  (forall id, target args = Some id -> path_id id = true) -> lands "users" path.
Proof.
  unfold usersCmd, passwordCmd. intros Hd Hid. destruct args as [|sub args]; [done|]. cbv zeta in Hd. repeat branch Hd Hid; try fixed.
  at_id_word "users" RoleAdmin "handleUserByName" id "/password".
Qed.
End landing.

Lemma list_lands cmd path rt args method path' body : listCmd path args = Send method path' body ->
  mux (url_path path) = Serve rt -> existsb (String.eqb (rt_handler rt)) (handlers_of cmd) = true -> lands cmd path'.
Proof.
  unfold listCmd. intros Hd Hm Hh. assert (path' = path) as -> by (destruct args as [|sub args]; [by injection Hd|];
    destruct (sub ==s "list"); [by injection Hd|discriminate Hd]). by eapply lands_fixed.
Qed.

(** ** Theorems *)

(** The operator's commands reach the handlers they are for: whatever the
    options, the path of the request of a command, with an identifier that is
    one clean element, is neither redirected nor served by another route. *)
Theorem commands_reach_handlers read_file cmd args method path body :
  dispatch_cmd read_file cmd args = Send method path body ->
  (forall id, target args = Some id -> path_id id = true) ->
  lands cmd path.
Proof.
  intros Hd Hid. unfold dispatch_cmd in Hd.
  repeat match type of Hd with
  | (if ?c ==s ?k then _ else _) = _ =>
      let E := fresh "E" in destruct (c ==s k) eqn:E; [apply String.eqb_eq in E as ->|clear E]
  end; [..|by destruct (_ || _)]; try discriminate Hd.
  - injection Hd as <- <- <-. by eapply lands_fixed.
  - injection Hd as <- <- <-. by eapply lands_fixed.
  - by eapply events_land.
  - by eapply policies_land.
  - by eapply (list_lands "sensors").
  - by eapply (list_lands "rules").
  - by eapply tokens_land.
  - by eapply users_land.
Qed.

(** The two global flags are found wherever they stand, before the command,
    behind it or among its own flags, in either spelling; the last of each
    counts, and the words that are left are the command and its arguments. *)
Theorem globals_anywhere getenv read_file xs cmd args :
  Forall word_ok xs -> words xs = cmd :: args ->
  cli_main getenv read_file (flat_map render_item xs) =
  match dispatch_cmd read_file cmd args with
  | Exit code => Err code
  | Send method path body =>
      let server := last_server (if getenv "HOPFRAME_SERVER" ==s "" then "http://127.0.0.1:7090" else getenv "HOPFRAME_SERVER") xs in
      let token := last_token (getenv "HOPFRAME_API_TOKEN") xs in
      Ok (mkCliRequest method (TrimRight server "/" +:+ path)
            ((if body is Some _ then [("Content-Type", "application/json")] else [])
               ++ (if token !=s "" then [("Authorization", "Bearer " +:+ token)] else [])) body)
  end.
Proof.
  intros Hw Hx. unfold cli_main. cbv zeta. rewrite extract_globals by done. rewrite app_nil_l, Hx.
  destruct (flat_map render_item xs) eqn:E; [|by destruct (dispatch_cmd _ _ _)].
  exfalso. destruct xs as [|[w|v []|v []] xs]; discriminate.
Qed.

(** The parameters that the handlers of records read from a query. *)
Definition params_of (q : list (string * string)) : ReadParams :=
  mkParams (query_Get "limit" q) (query_Get "since_seq" q) (query_Get "action" q) (query_Get "severity" q)
    (query_Get "min_severity" q) (query_Get "method" q) (query_Get "category" q) (query_Get "search" q) (query_Get "backlog" q).

(** The number of records that [events list] is for. *)
Definition asked_limit (m : gmap string string) : Z :=
  let n := default 50%Z (v ← m !! "limit"; ParseInt v) in if (0 <? n)%Z then n else 50%Z.

Lemma events_query_Get m :
  let q := events_query m in
  params_of q = mkParams (dec_string (default 50%Z (v ← m !! "limit"; ParseInt v))) "" (flag_value m "action" "")
    (flag_value m "severity" "") "" (flag_value m "method" "") (flag_value m "category" "") "" "".
Proof.
  unfold events_query, params_of, setIf. generalize (dec_string (default 50%Z (v ← m !! "limit"; ParseInt v))). intros l.
  generalize (flag_value m "action" ""), (flag_value m "category" ""), (flag_value m "method" ""), (flag_value m "severity" "").
  by intros [] [] [] [].
Qed.

(** C38. What [events list] asks for is what the control plane reads: with any
    of its flags in any order, the last of each counting, and whatever
    characters their values hold, the query that is sent is read back by the
    server as those filters, and the answer is the log's read of them. *)
Theorem events_list_faithful kvs :
  Forall (settable (events_flags)) kvs ->
  exists query, eventsCmd ("list" :: render_flags kvs) = Send "GET" ("/v1/events?" +:+ query) None /\
    let m := set_flags kvs in
    forall r s, api_query r (params_of (ParseQuery query)) s =
    Read (mkQuery (asked_limit m) (flag_value m "action" "") (flag_value m "severity" "") "" (flag_value m "method" "")
            (flag_value m "category" "") "" 0 (tenantFor r)) s.
Proof.
  intros Hk. unfold eventsCmd. cbv zeta. change ("list" ==s "list") with true. cbv iota.
  rewrite parse_flags_render by done. eexists. split; [reflexivity|]. fold (set_flags kvs). generalize (set_flags kvs). intros m.
  intros r s. rewrite ParseQuery_encode, events_query_Get. unfold api_query, read_query. cbn [rp_limit rp_since_seq rp_action rp_severity rp_min_severity rp_method rp_category rp_search].
  assert (positive_or 50 (dec_string (default 50%Z (v ← m !! "limit"; ParseInt v))) = asked_limit m) as ->; [|done].
  unfold positive_or, asked_limit. rewrite Atoi_written; [done|].
  destruct (m !! "limit") as [v|]; cbn [mbind option_bind]; [|cbn; unfold min_int64, max_int64; lia].
  destruct (ParseInt v) as [n|] eqn:E; [by eapply ParseInt_range|cbn; unfold min_int64, max_int64; lia].
Qed.

(** ** Witnesses *)

Lemma commands_reach_handlers_witness :
  lands "users" "/v1/users/alice/password" /\ lands "policies" "/v1/policies/p-1/preview".
Proof.
  split.
  - eapply (commands_reach_handlers (fun _ => None) "users" ["password"; "alice"; "--password=s3cret/?x"]); [reflexivity|].
    intros id [= <-]. reflexivity.
  - eapply (commands_reach_handlers (fun _ => None) "policies" ["preview"; "p-1"]); [reflexivity|]. intros id [= <-]. reflexivity.
Defined.

Lemma globals_anywhere_witness :
  cli_main (fun _ => "") (fun _ => None) ["--token"; "old"; "events"; "--server=http://cp/"; "get"; "--token=t"; "7"] =
  Ok (mkCliRequest "GET" "http://cp/v1/records/7" [("Authorization", "Bearer t")] None).
Proof.
  apply (globals_anywhere (fun _ => "") (fun _ => None)
    [TokenFlag "old" false; Word "events"; ServerFlag "http://cp/" true; Word "get"; TokenFlag "t" true; Word "7"] "events" ["get"; "7"]);
    [repeat constructor|reflexivity].
Defined.

Lemma events_list_faithful_witness : exists query,
  eventsCmd ["list"; "--method"; "tools/call & more=yes;"; "--limit"; "7"; "--action"; "block"; "--limit"; "3"] =
    Send "GET" ("/v1/events?" +:+ query) None /\
  forall r s, api_query r (params_of (ParseQuery query)) s = Read (mkQuery 3 "block" "" "" "tools/call & more=yes;" "" "" 0 (tenantFor r)) s.
Proof.
  apply (events_list_faithful [("method", "tools/call & more=yes;"); ("limit", "7"); ("action", "block"); ("limit", "3")]).
  repeat constructor; cbn; eexists; (split; [reflexivity|reflexivity]).
Defined.
