(* ===== verification/Delivery.v ===== *)
(** * From a sensor to the log

    The composition of [internal/emitter] with the ingest half of
    [control-plane/api/api.go]: the exchanges of the HTTP sink, and of its
    replay loop, are requests that the control plane serves behind its guard
    and writes to its log.  The network decides which requests arrive and which
    answers come back; the outcome of each write to the log, and what other
    clients do meanwhile, are arguments. *)

From S2P Require Import Prelude Utf8 Json Event EventStore Emitter Roles Tokens Users Server Routes PolicyApi ReadApi.

(** ** The endpoint *)

Section endpoint.
Context `{MapIter}.

(** [handleEvents]: a response, or the records of a query. *)
Definition handleEvents (now : Z) (io : append_io) (r : request) (body : option Event) (p : ReadParams) (s : Api)
    : Api * (response + option (list Rec)) :=
  if rq_Method r ==s "POST" then let '(s', resp) := ingest now io r body s in (s', inl resp)
  else if rq_Method r ==s "GET" then (s, inr (api_query r p (ap_log s)))
  else (s, inl (PolicyApi.fail 405)).

Definition answer_code (a : response + option (list Rec)) : Z :=
  match a with inl resp => rs_code resp | inr (Some _) => 200 | inr None => 500 end.

(** The route of [handleEvents] behind its guard: the state and the status. *)
Definition serve_events (now : Z) (io : append_io) (ok : bool) (r : request) (body : option Event) (p : ReadParams) (s : Api)
    : Api * Z :=
  let '(c, out) := gate now ok r (ap_creds s) in
  let s1 := set_creds c s in
  match out with
  | Answered code => (s1, code)
  | Runs _ sc => let '(s2, a) := handleEvents now io (with_scope sc r) body p s1 in (s2, answer_code a)
  end.

(** The request of [post]. *)
Definition post_request (token : string) : request :=
  mkReq "POST" "/v1/events" (if token !=s "" then "Bearer " +:+ token else "") "" "" "" None.

Definition no_query : ReadParams := mkParams "" "" "" "" "" "" "" "" "".

(** ** The link *)

(** What becomes of one exchange: the request is lost, or arrives at a time,
    with an outcome of the log's write and of the token store's, and its answer
    is received or lost. *)
Inductive exchange :=
| Lost
| Arrives (now : Z) (io : append_io) (tokens_ok answered : bool).

(** A sink and the control plane that it posts to.  [lk_net] are the exchanges
    to come, and the network is down when they end.  [lk_torn] records that the
    log was written to behind a line that was left incomplete. *)
Record Link := mkLink { lk_sink : HTTPSink; lk_cp : Api; lk_net : list exchange; lk_torn : bool }.

Definition cp_torn (s : Api) : bool := dk_torn (es_disk (ap_log s)).

(** One exchange of [post]; the body is what [Marshal] wrote. *)
Definition exchange_event (canceled : bool) (token : string) (ev : Event) (s : Api) (net : list exchange)
    : Api * list exchange * option Z :=
  if negb (event_marshals (Some ev)) || canceled then (s, net, None)
  else match net with
  | [] => (s, [], None)
  | Lost :: net' => (s, net', None)
  | Arrives now io ok answered :: net' =>
      let '(s', code) := serve_events now io ok (post_request token) (event_of_json (wire (event_json ev))) no_query s in
      (s', net', if answered then Some code else None)
  end.

Definition link_Deliver (canceled : bool) (io : DeliverIO) (ev : Event) (l : Link) : Link * bool :=
  let '(s, net, status) := exchange_event canceled (hs_token (lk_sink l)) ev (lk_cp l) (lk_net l) in
  let '(sink, failed) := http_Deliver canceled (mkDeliverIO status (do_stat io) (do_write io)) ev (lk_sink l) in
  (mkLink sink s net (lk_torn l || cp_torn (lk_cp l)), failed).

(** The events that [Drain] offers, in order. *)
Fixpoint offered (ls : list line) : list Event :=
  match ls with
  | [] => []
  | l :: ls' =>
      if (spool_max_line <=? line_len l)%N then []
      else match line_event l with Some ev => ev :: offered ls' | None => offered ls' end
  end.

(** The exchanges of a tick of [runReplay], up to the first that fails, and
    whether an exchange met a log whose last line was incomplete. *)
Fixpoint post_all (token : string) (evs : list Event) (s : Api) (net : list exchange) : Api * list exchange * list (option Z) * bool :=
  match evs with
  | [] => (s, net, [], false)
  | ev :: evs' =>
      let '(s1, net1, status) := exchange_event false token ev s net in
      if post false status ev then (s1, net1, [status], cp_torn s)
      else let '(s2, net2, sts, torn) := post_all token evs' s1 net1 in (s2, net2, status :: sts, cp_torn s || torn)
  end.

(** A tick of [runReplay]: the seek and the truncation may fail. *)
Definition link_tick (seek trunc : bool) (l : Link) : Link :=
  match hs_spool (lk_sink l) with
  | None => l
  | Some sp =>
      if negb seek then l
      else
        let '(s, net, sts, torn) := post_all (hs_token (lk_sink l)) (offered (sp_lines sp)) (lk_cp l) (lk_net l) in
        let io := mkDrainIO seek trunc true (length (sp_lines sp)) in
        mkLink (replay_tick io (fun n => nth n sts None) (lk_sink l)) s net (lk_torn l || torn)
  end.

(** Another client's event, or the audit event of a policy change. *)
Definition link_other (now : Z) (io : append_io) (ev : Event) (l : Link) : Link :=
  mkLink (lk_sink l) (append_and_broadcast now io ev (lk_cp l)).1 (lk_net l) (lk_torn l || cp_torn (lk_cp l)).

(** ** What is recorded *)

(** The lines that end in a newline. *)
Definition whole_lines (d : Disk) : list line := if dk_torn d then removelast (dk_lines d) else dk_lines d.

(** An event as ingest stamps it. *)
Definition ingested (scope : option string) (ev : Event) : Event :=
  set_event_tenant (if ev_Schema ev ==s "" then SchemaVersion else ev_Schema ev)
    (match scope with Some t => t | None => ev_TenantID ev end) ev.

Definition recorded (s : Api) (ev : Event) : Prop :=
  exists r scope, LJson (record_json r) ∈ whole_lines (es_disk (ap_log s)) /\ r_Event r = Some (ingested scope ev).

Definition in_spool (h : HTTPSink) (ev : Event) : Prop := exists sp, hs_spool h = Some sp /\ spooled ev sp.
End endpoint.

(** ** Lemmas *)

Lemma in_push_line l l' d torn : l ∈ whole_lines d -> l ∈ whole_lines (push_line l' d torn).
Proof.
  unfold whole_lines, push_line. destruct (dk_torn d) eqn:Et; [destruct (last (dk_lines d)) as [l0|] eqn:El|].
  - cbn [dk_torn dk_lines]. intros Hl. destruct torn; [by rewrite removelast_app, app_nil_r by done|].
    apply elem_of_app. by left.
  - apply last_None in El. rewrite El. intros []%elem_of_nil.
  - cbn [dk_torn dk_lines]. intros Hl. destruct torn; [by rewrite removelast_app, app_nil_r by done|].
    apply elem_of_app. by left.
Qed.

Lemma in_append_disk l io r d : l ∈ whole_lines d -> l ∈ whole_lines (append_disk io r d).
Proof. intros Hl. destruct io; cbn [append_disk]; [by apply in_push_line|done|by apply in_push_line..]. Qed.

Lemma Append_disk now io ev s : es_disk (Append now io ev s).1 = es_disk s \/
  es_disk (Append now io ev s).1 = append_disk io (new_record now ev s) (es_disk s).
Proof. unfold Append. destruct (negb _); [by left|]. destruct (negb _); [by left|]. right. by destruct io. Qed.

Lemma Append_written now io ev s s' rec : Append now io ev s = (s', Ok rec) -> dk_torn (es_disk s) = false ->
  LJson (record_json rec) ∈ whole_lines (es_disk s') /\ r_Event rec = Some ev.
Proof.
  unfold Append. destruct (negb _); [done|]. destruct (negb _); [done|]. destruct io; try done.
  intros E Ht. apply pair_equal_spec in E as [<- E]. apply (f_equal (fun x => match x with Ok a => a | Err _ => rec end)) in E.
  cbv beta iota in E. subst rec. split; [|done]. cbn [es_disk with_disk append_disk]. unfold whole_lines, push_line. rewrite Ht. cbn [dk_torn dk_lines].
  apply elem_of_app. right. by apply list_elem_of_singleton.
Qed.

Lemma broadcast_log now io ev s : ap_log (append_and_broadcast now io ev s).1 = (Append now io ev (ap_log s)).1.
Proof. unfold append_and_broadcast. by destruct (Append _ _ _ _) as [? []]. Qed.

Lemma recorded_broadcast now io ev ev' s : recorded s ev' -> recorded (append_and_broadcast now io ev s).1 ev'.
Proof.
  intros (r & sc & Hl & Hr). exists r, sc. split; [|done]. rewrite broadcast_log.
  destruct (Append_disk now io ev (ap_log s)) as [-> | ->]; [done|]. by apply in_append_disk.
Qed.

Lemma ingest_log now io r body s : ap_log (ingest now io r body s).1 =
  match body with Some ev => ap_log (append_and_broadcast now io (ingested (rq_scope r) ev) s).1 | None => ap_log s end.
Proof.
  unfold ingest. destruct body as [ev|]; [|done]. fold (ingested (rq_scope r) ev). cbv zeta. fold (ingested (rq_scope r) ev).
  by destruct (append_and_broadcast _ _ _ _) as [? []].
Qed.

Lemma recorded_log s s' ev : ap_log s' = ap_log s -> recorded s ev -> recorded s' ev.
Proof. unfold recorded. by intros ->. Qed.

Lemma ingest_accepts now io r ev s : (rs_code (ingest now io r (Some ev) s).2 < 300)%Z -> cp_torn s = false ->
  recorded (ingest now io r (Some ev) s).1 ev.
Proof.
  unfold ingest, append_and_broadcast. cbv zeta. fold (ingested (rq_scope r) ev).
  destruct (Append now io (ingested (rq_scope r) ev) (ap_log s)) as [log' [rec|e]] eqn:Ea; [|cbn; lia].
  intros _ Ht. destruct (Append_written _ _ _ _ _ _ Ea Ht) as [Hl Hr]. by exists rec, (rq_scope r).
Qed.

Section facts.
Context `{MapIter}.

Lemma gate_answers now ok r c c' code : gate now ok r c = (c', Answered code) -> (300 <= code)%Z.
Proof.
  unfold gate. destruct (mux (rq_Path r)) as [| |rt]; [intros [= _ <-]; lia..|]. destruct (rt_guard rt) as [| |min].
  - done.
  - destruct (auth _ _ _ _) as [c1 [sc|]]; [done|]. intros [= _ <-]. lia.
  - destruct (auth _ _ _ _) as [c1 [sc|]]; [|intros [= _ <-]; lia].
    destruct (requireRole _ _ _ _ _) as [c2 []]; [done|intros [= _ <-]; lia..].
Qed.

Lemma serve_keeps now io ok r body p s ev : recorded s ev -> recorded (serve_events now io ok r body p s).1 ev.
Proof.
  intros Hr. unfold serve_events. destruct (gate _ _ _ _) as [c [code|h sc]]; [by eapply recorded_log|].
  unfold handleEvents. cbn [rq_Method with_scope]. destruct (rq_Method r ==s "POST").
  - pose proof (ingest_log now io (with_scope sc r) body (set_creds c s)) as Hlog.
    destruct (ingest _ _ _ _ _) as [s2 resp]. cbn [fst] in *.
    destruct body as [ev0|]; (eapply recorded_log; [exact Hlog|]).
    + apply recorded_broadcast. exact Hr.
    + exact Hr.
  - destruct (_ ==s "GET"); by eapply recorded_log.
Qed.

Lemma serve_accepts now io ok r ev p s : rq_Method r = "POST" -> ((serve_events now io ok r (Some ev) p s).2 < 300)%Z ->
  cp_torn s = false -> recorded (serve_events now io ok r (Some ev) p s).1 ev.
Proof.
  intros Hm. unfold serve_events. destruct (gate now ok r (ap_creds s)) as [c [code|h sc]] eqn:Eg.
  { apply gate_answers in Eg. cbn. lia. }
  unfold handleEvents. cbn [rq_Method with_scope]. rewrite Hm. change ("POST" ==s "POST") with true. cbv iota.
  intros Hc Ht. pose proof (ingest_accepts now io (with_scope sc r) ev (set_creds c s)) as Hi.
  destruct (ingest _ _ _ _ _) as [s2 resp]. cbn [fst snd] in *. by apply Hi.
Qed.

Lemma exchange_keeps canceled token ev s net ev' : recorded s ev' ->
  recorded (exchange_event canceled token ev s net).1.1 ev'.
Proof.
  intros Hr. unfold exchange_event. destruct (_ || _); [done|]. destruct net as [|[|now io ok answered] net]; [done..|].
  pose proof (serve_keeps now io ok (post_request token) (event_of_json (wire (event_json ev))) no_query s ev' Hr) as Hs.
  by destruct (serve_events _ _ _ _ _ _ _) as [s' code].
Qed.

Lemma exchange_accepts canceled token ev s net : faithful ev ->
  post canceled (exchange_event canceled token ev s net).2 ev = false -> cp_torn s = false ->
  recorded (exchange_event canceled token ev s net).1.1 ev.
Proof.
  intros Hf. unfold exchange_event, post. destruct (negb (event_marshals (Some ev)) || canceled); [done|]. cbn [orb].
  destruct net as [|[|now io ok answered] net]; [done..|]. rewrite Hf.
  pose proof (serve_accepts now io ok (post_request token) ev no_query s eq_refl) as Hs.
  destruct (serve_events _ _ _ _ _ _ _) as [s' code]. cbn [fst snd] in *. destruct answered; [|done].
  intros Hc%Z.leb_gt Ht. by apply Hs.
Qed.

(** *** A tick *)

Lemma post_all_keeps token evs : forall s net ev, recorded s ev -> recorded (post_all token evs s net).1.1.1 ev.
Proof.
  induction evs as [|ev0 evs IH]; intros s net ev Hr; cbn [post_all]; [done|].
  pose proof (exchange_keeps false token ev0 s net ev Hr) as Hk.
  destruct (exchange_event _ _ _ _ _) as [[s1 net1] status]. cbn [fst] in Hk. destruct (post _ _ _); [done|].
  specialize (IH s1 net1 ev Hk). by destruct (post_all token evs s1 net1) as [[[s2 net2] sts] torn].
Qed.

(** The events that the scan consumes are recorded. *)
Lemma drain_recorded token ls : forall s net n (f : nat -> option Z) ev,
  let '(s', _, sts, torn) := post_all token (offered ls) s net in
  (forall i, (i < length sts)%nat -> f (n + i)%nat = nth i sts None) -> torn = false -> faithful ev ->
  ev ∈ (drain_scan (fun m e => negb (post false (f m) e)) n false ls).1.1 -> recorded s' ev.
Proof.
  assert (forall fn ls n, (drain_scan fn n true ls).1.1 = []) as Hstop.
  { clear. intros fn ls. induction ls as [|l ls IH]; intros n; [done|]. cbn [drain_scan]. destruct (_ <=? _)%N; [done|].
    specialize (IH n). destruct l; [done|destruct (drain_scan fn n true ls) as [[dn kp] ok]; exact IH..]. }
  induction ls as [|l ls IH]; intros s net n f ev; cbn [offered drain_scan].
  { intros _ _ _ []%elem_of_nil. }
  destruct (spool_max_line <=? line_len l)%N; [intros _ _ _ []%elem_of_nil|].
  destruct l as [|k|v]; cbn [line_event]; [apply IH..|].
  destruct (event_of_json (wire v)) as [ev0|]; [|apply IH]. cbn [post_all].
  pose proof (exchange_accepts false token ev0 s net) as Hacc.
  destruct (exchange_event false token ev0 s net) as [[s1 net1] status] eqn:Ex. cbn [fst snd] in Hacc.
  destruct (post false status ev0) eqn:Ep.
  - intros Hf Ht Hfaith. assert (f n = status) as En by (specialize (Hf 0%nat); rewrite Nat.add_0_r in Hf; apply Hf; cbn; lia).
    rewrite En, Ep. cbn [negb]. pose proof (Hstop (fun m e => negb (post false (f m) e)) ls (S n)) as Hs0.
    destruct (drain_scan _ (S n) true ls) as [[dn kp] ok]. cbn [fst] in *. subst dn. intros []%elem_of_nil.
  - specialize (IH s1 net1 (S n) f ev). pose proof (post_all_keeps token (offered ls) s1 net1 ev) as Hkeep.
    destruct (post_all token (offered ls) s1 net1) as [[[s2 net2] sts] torn]. cbn [fst] in Hkeep. intros Hf Ht Hfaith.
    apply orb_false_iff in Ht as [Ht1 Ht2].
    assert (f n = status) as En by (specialize (Hf 0%nat); rewrite Nat.add_0_r in Hf; apply Hf; cbn; lia).
    rewrite En, Ep. cbn [negb].
    assert (forall i, (i < length sts)%nat -> f (S n + i)%nat = nth i sts None) as Hf'.
    { intros i Hi. specialize (Hf (S i)). rewrite Nat.add_succ_r in Hf. apply Hf. cbn. lia. }
    specialize (IH Hf' Ht2 Hfaith). destruct (drain_scan _ (S n) false ls) as [[dn kp] ok]. cbn [fst] in *.
    intros [->|Hin]%elem_of_cons; [by apply Hkeep, Hacc|by apply IH].
Qed.

(** The link keeps the promise of a sink. *)
Definition link_holds (l : Link) (ev : Event) : Prop :=
  lk_torn l = true \/ (faithful ev -> recorded (lk_cp l) ev \/ in_spool (lk_sink l) ev).

#[export, refine] Instance link_sink : Sink Link := {| Deliver := link_Deliver; holds := link_holds |}.
Proof.
  - intros canceled io ev l. unfold link_Deliver, link_holds.
    pose proof (exchange_accepts canceled (hs_token (lk_sink l)) ev (lk_cp l) (lk_net l)) as Hacc.
    destruct (exchange_event _ _ _ _ _) as [[s net] status]. cbn [fst snd] in Hacc.
    unfold http_Deliver. cbn [do_status do_stat do_write]. destruct (post canceled status ev) eqn:Ep.
    + destruct (hs_spool (lk_sink l)) as [sp|]; [|done].
      destruct (spool_Append_spec (do_stat io) (do_write io) ev sp) as [Ha _].
      destruct (spool_Append _ _ _ _) as [sp' failed]. cbn in *. intros Hf. right. intros _. right. exists sp'. split; [done|by apply Ha].
    + cbn. intros _. destruct (cp_torn (lk_cp l)); [left; apply orb_true_r|]. right. intros Hf. left. by apply Hacc.
  - intros canceled io ev ev' l. unfold link_Deliver, link_holds.
    pose proof (exchange_keeps canceled (hs_token (lk_sink l)) ev (lk_cp l) (lk_net l) ev') as Hkeep.
    destruct (exchange_event _ _ _ _ _) as [[s net] status]. cbn [fst] in Hkeep.
    pose proof (fun sp => proj2 (spool_Append_spec (do_stat io) (do_write io) ev sp) ev') as Hsp.
    assert (in_spool (lk_sink l) ev' -> in_spool (http_Deliver canceled (mkDeliverIO status (do_stat io) (do_write io)) ev (lk_sink l)).1 ev') as Hin.
    { intros (sp & E & Hs). unfold http_Deliver. cbn [do_status do_stat do_write]. destruct (post _ _ _); [|by exists sp].
      rewrite E. specialize (Hsp sp Hs). destruct (spool_Append _ _ _ _) as [sp' failed]. cbn in *. by exists sp'. }
    destruct (http_Deliver _ _ _ _) as [sink failed]. cbn in *.
    intros [-> |Hh]; [by left|]. right. intros Hf. destruct (Hh Hf) as [?|?]; [left; by apply Hkeep|right; by apply Hin].
Defined.

Lemma tick_keeps seek trunc l ev : faithful ev -> link_holds l ev -> link_holds (link_tick seek trunc l) ev.
Proof.
  intros Hf Hh. unfold link_tick. destruct (hs_spool (lk_sink l)) as [sp|] eqn:Esp; [|done]. destruct seek; [|done]. cbn [negb].
  pose proof (post_all_keeps (hs_token (lk_sink l)) (offered (sp_lines sp)) (lk_cp l) (lk_net l) ev) as Hkeep.
  pose proof (drain_recorded (hs_token (lk_sink l)) (sp_lines sp) (lk_cp l) (lk_net l) 0) as Hdrain.
  destruct (post_all _ _ _ _) as [[[s net] sts] torn]. cbn [fst] in Hkeep. specialize (Hdrain (fun n => nth n sts None) ev).
  unfold link_holds in *. cbn [lk_torn lk_cp lk_sink] in *. destruct Hh as [-> |Hh]; [by left|]. destruct torn; [left; apply orb_true_r|].
  right. intros _. specialize (Hdrain ltac:(done) eq_refl Hf). destruct (Hh Hf) as [Hr|(sp0 & E & Hs)]; [left; by apply Hkeep|].
  rewrite Esp in E. injection E as <-. unfold replay_tick. rewrite Esp. unfold Drain. cbn [di_seek di_truncate di_seek2 di_writes negb].
  pose proof (drain_scan_keeps (fun m e => negb (post false (nth m sts None) e)) 0 false (sp_lines sp) ev Hf Hs) as Hk.
  pose proof (drain_scan_length (fun m e => negb (post false (nth m sts None) e)) 0 false (sp_lines sp)) as Hl.
  destruct (drain_scan _ 0 false (sp_lines sp)) as [[dn keep] ok]. cbn [fst snd] in *.
  destruct ok; cbn [negb]; [|right; by exists sp]. destruct trunc; cbn [negb]; [|right; by exists sp].
  destruct (Hk eq_refl) as [Hd|Hk']; [left; by apply Hdrain|right]. eexists. split; [done|]. unfold spooled. cbn [sp_lines set_lines].
  by rewrite take_ge by lia.
Qed.

Lemma other_keeps now io ev0 l ev : link_holds l ev -> link_holds (link_other now io ev0 l) ev.
Proof.
  unfold link_holds, link_other. cbn [lk_torn lk_cp lk_sink]. intros [-> |Hh]; [by left|]. right. intros Hf.
  destruct (Hh Hf) as [?|?]; [left; by apply recorded_broadcast|by right].
Qed.

(** *** When no write fails halfway *)

(** Lines are only left incomplete by writes that fail halfway. *)
Definition whole_write (io : append_io) : bool := match io with WritePart _ | WriteNoNewline => false | _ => true end.
Definition whole_exchange (x : exchange) : bool := match x with Lost => true | Arrives _ io _ _ => whole_write io end.
Definition whole_link (l : Link) : Prop :=
  lk_torn l = false /\ cp_torn (lk_cp l) = false /\ forallb whole_exchange (lk_net l) = true.
Definition whole_op (op : em_op Link) : Prop :=
  match op with
  | OpSink f => (exists seek trunc, f = link_tick seek trunc) \/ (exists now io ev, whole_write io = true /\ f = link_other now io ev)
  | _ => True
  end.

Lemma whole_op_safe op : whole_op op -> op_safe op.
Proof.
  destruct op as [| | |f| |]; try done. intros [(seek & trunc & ->)|(now & io & ev0 & _ & ->)] s ev Hf Hh.
  - by apply tick_keeps.
  - by apply other_keeps.
Qed.

Lemma append_whole now io ev s : whole_write io = true -> cp_torn s = false -> cp_torn (append_and_broadcast now io ev s).1 = false.
Proof.
  intros Hw Ht. unfold cp_torn in *. rewrite broadcast_log.
  destruct (Append_disk now io ev (ap_log s)) as [-> | ->]; [done|]. destruct io; cbn in *; unfold push_line; by rewrite ?Ht.
Qed.

Lemma serve_whole now io ok r body p s : whole_write io = true -> cp_torn s = false ->
  cp_torn (serve_events now io ok r body p s).1 = false.
Proof.
  intros Hw Ht. unfold serve_events. destruct (gate _ _ _ _) as [c [code|h sc]]; [done|].
  unfold handleEvents. cbn [rq_Method with_scope]. destruct (rq_Method r ==s "POST").
  - pose proof (ingest_log now io (with_scope sc r) body (set_creds c s)) as Hlog.
    destruct (ingest _ _ _ _ _) as [s2 resp]. cbn [fst] in *. unfold cp_torn. rewrite Hlog.
    destruct body as [ev0|]; [|done]. by apply (append_whole now io _ (set_creds c s)).
  - by destruct (_ ==s "GET").
Qed.

Lemma exchange_whole canceled token ev s net : cp_torn s = false -> forallb whole_exchange net = true ->
  cp_torn (exchange_event canceled token ev s net).1.1 = false /\
  forallb whole_exchange (exchange_event canceled token ev s net).1.2 = true.
Proof.
  intros Ht Hn. unfold exchange_event. destruct (_ || _); [done|]. destruct net as [|[|now io ok answered] net]; [done..|].
  cbn in Hn. apply andb_true_iff in Hn as [Hw Hn].
  pose proof (serve_whole now io ok (post_request token) (event_of_json (wire (event_json ev))) no_query s Hw Ht) as Hs.
  by destruct (serve_events _ _ _ _ _ _ _) as [s' code].
Qed.

Lemma post_all_whole token evs : forall s net, cp_torn s = false -> forallb whole_exchange net = true ->
  let '(s', net', _, torn) := post_all token evs s net in
  cp_torn s' = false /\ forallb whole_exchange net' = true /\ torn = false.
Proof.
  induction evs as [|ev evs IH]; intros s net Ht Hn; cbn [post_all]; [done|].
  pose proof (exchange_whole false token ev s net Ht Hn) as [Ht1 Hn1].
  destruct (exchange_event _ _ _ _ _) as [[s1 net1] status]. cbn [fst snd] in *. destruct (post _ _ _); [done|].
  specialize (IH s1 net1 Ht1 Hn1). destruct (post_all token evs s1 net1) as [[[s2 net2] sts] torn].
  destruct IH as (? & ? & ->). by rewrite Ht.
Qed.

Lemma em_step_whole op e e1 : em_step op e = Some e1 -> whole_op op -> whole_link (em_sink e) -> whole_link (em_sink e1).
Proof.
  intros Hs Hop (Hl & Ht & Hn). destruct op as [ev0| |io|f| |]; cbn in Hs.
  - unfold Emit in Hs. destruct (em_closed e); [done|]. by destruct (_ <? _)%nat; injection Hs as <-.
  - unfold worker_take in Hs. destruct (em_busy e); [done|]. destruct (em_queue e); [done|]. by injection Hs as <-.
  - unfold worker_finish in Hs. destruct (em_busy e) as [ev0|]; [|done]. cbn [Deliver link_sink] in Hs. unfold link_Deliver in Hs.
    pose proof (exchange_whole (em_canceled e) (hs_token (lk_sink (em_sink e))) ev0 _ _ Ht Hn) as [Ht1 Hn1].
    destruct (exchange_event _ _ _ _ _) as [[s net] status]. cbn [fst snd] in *. destruct (http_Deliver _ _ _ _) as [sink failed].
    injection Hs as <-. cbn. unfold whole_link. cbn [lk_torn lk_cp lk_net]. by rewrite Hl, Ht.
  - injection Hs as <-. cbn [em_sink]. destruct Hop as [(seek & trunc & ->)|(now & io & ev0 & Hw & ->)].
    + unfold link_tick. destruct (hs_spool _) as [sp|]; [|done]. destruct seek; [|done]. cbn [negb].
      pose proof (post_all_whole (hs_token (lk_sink (em_sink e))) (offered (sp_lines sp)) _ _ Ht Hn) as Hp.
      destruct (post_all _ _ _ _) as [[[s net] sts] torn]. destruct Hp as (Ht1 & Hn1 & ->).
      unfold whole_link. cbn [lk_torn lk_cp lk_net]. by rewrite Hl.
    + unfold whole_link, link_other. cbn [lk_torn lk_cp lk_net]. rewrite Hl, Ht. split_and!; [done|by apply append_whole|done].
  - by injection Hs as <-.
  - by injection Hs as <-.
Qed.

Lemma em_run_whole ops : forall e e', em_run ops e = Some e' -> Forall whole_op ops -> whole_link (em_sink e) -> whole_link (em_sink e').
Proof.
  induction ops as [|op ops IH]; intros e e' Hr Ho Hw; [by injection Hr as <-|]. cbn in Hr.
  destruct (em_step op e) as [e1|] eqn:Es; [|done]. cbn in Hr. inversion Ho; subst.
  eapply IH; [exact Hr|done|]. by eapply em_step_whole.
Qed.
(** ** Theorems *)

End facts.

(** ** Witnesses *)

Section witnesses.
#[local] Existing Instance canonical_iter.

(** A control plane with a token bound to the tenant [acme]. *)
Definition tenant_cp : Api :=
  mkApi (mkCreds "" {["t1" := "acme"]} ∅ None None None) None (fresh_store "events.log" 0 8) [] None "".

(** The first exchange is lost, the answer to the second too, and the third
    succeeds. *)
Definition sample_link : Link :=
  mkLink (mkHTTPSink "http://cp/v1/events" "t1" (Some (mkSpool "spool" 100000 [])) []) tenant_cp
    [Lost; Arrives 1000 AppendOK true false; Arrives 2000 AppendOK true true] false.
Definition delivery_ops : list (em_op Link) :=
  [OpEmit (Some (sample_event "zeta" "a")); OpTake; OpFinish (mkDeliverIO None true true);
   OpSink (link_tick true true); OpSink (link_tick true true)].
Definition delivery_end : Emitter Link :=
  match em_run delivery_ops (emitter_New sample_link 4) with Some e => e | None => emitter_New sample_link 4 end.

Lemma delivery_runs : em_run delivery_ops (emitter_New sample_link 4) = Some delivery_end.
Proof. unfold delivery_end. destruct (em_run _ _) eqn:E; [done|]. vm_compute in E. discriminate E. Qed.

Lemma delivery_idle : em_dropped delivery_end = 0%Z /\ em_queue delivery_end = [] /\ em_busy delivery_end = None /\
  hs_spool (lk_sink (em_sink delivery_end)) = Some (mkSpool "spool" 100000 []).
Proof. vm_compute. auto. Qed.

(** Delivery is at least once: the answer that was lost costs a second copy. *)
Example delivered_twice : length (dk_lines (es_disk (ap_log (lk_cp (em_sink delivery_end))))) = 2%nat.
Proof. vm_compute. reflexivity. Qed.

End witnesses.
