(* ===== verification/Bench.v ===== *)
(** * The benchmark of the detectors

    [cmd/hopframe-bench/main.go]: the labelled corpus, its run through the
    detectors, the confusion counts per category and overall, the scores, and
    the percentile of the latency mode.  Timing, the random texts of the
    latency mode and the printed table are not modelled.  Texts are decoded by
    the parameter [JsonText]. *)

From Stdlib Require Import SpecFloat.
From S2P Require Import Prelude Text Utf8 Json Event Ruleset Pipeline Heuristic Http Float64 FloatBounds FloatText.

(** ** The corpus *)

Record Sample := mkSample {
  sm_ID : string; sm_Category : string; sm_Label : string; sm_Text : string; sm_Method : string; sm_Direction : string; sm_Field : string
}.

Definition sample_of_json (v : json) : option Sample :=
  match v with
  | JNull => Some (mkSample "" "" "" "" "" "" "")
  | JObj o =>
      id ← get_str "id" o; category ← get_str "category" o; label ← get_str "label" o; text ← get_str "text" o;
      method ← get_str "method" o; direction ← get_str "direction" o; field ← get_str "field" o;
      Some (mkSample id category label text method direction field)
  | _ => None
  end.

Definition nonempty_or (s def : string) : string := if s ==s "" then def else s.

(** The input a sample is evaluated as. *)
Definition sample_input (s : Sample) : Input :=
  let dir := nonempty_or (sm_Direction s) DirectionInbound in
  let name := nonempty_or (sm_Field s) (if dir ==s DirectionOutbound then "result.text" else "params.arguments.text") in
  mkInput "" dir (nonempty_or (sm_Method s) "tools/call") [mkField name (sm_Text s)] "".

Definition summarizeVerdict (findings : list Finding) : bool * string :=
  match findings with [] => (false, "") | f :: _ => (true, f_Category f) end.

(** The detectors one after the other on one verdict; an error leaves what was
    found. *)
Fixpoint detect_all (ds : list Detector) (i : Input) (v : list Finding) : list Finding :=
  match ds with
  | [] => v
  | d :: ds' => detect_all ds' i (match d i v with Ok v' => v' | Err _ => v end)
  end.

Record Result := mkResult { re_sample : Sample; re_flagged : bool; re_flaggedAs : string }.

Definition evaluate (ds : list Detector) (s : Sample) : Result :=
  let '(flagged, cat) := summarizeVerdict (detect_all ds (sample_input s) []) in mkResult s flagged cat.

(** One line of the corpus: blank lines, comments and malformed lines are
    skipped. *)
Definition corpus_line `{JsonText} (ds : list Detector) (line : string) : option Result :=
  let line := TrimSpaceU line in
  if (line ==s "") || HasPrefix line "#" then None
  else v ← Unmarshal line; s ← sample_of_json v; Some (evaluate ds s).
Definition run_corpus `{JsonText} (ds : list Detector) (lines : list string) : list Result := omap (corpus_line ds) lines.

(** ** The counts *)

Record metrics := mkMetrics { me_tp : Z; me_fp : Z; me_fn : Z; me_tn : Z }.
Definition no_metrics : metrics := mkMetrics 0 0 0 0.

Definition malicious (r : Result) : bool := sm_Label (re_sample r) ==s "malicious".

Definition count_result (r : Result) (m : metrics) : metrics :=
  match malicious r, re_flagged r with
  | true, true => mkMetrics (me_tp m + 1) (me_fp m) (me_fn m) (me_tn m)
  | true, false => mkMetrics (me_tp m) (me_fp m) (me_fn m + 1) (me_tn m)
  | false, true => mkMetrics (me_tp m) (me_fp m + 1) (me_fn m) (me_tn m)
  | false, false => mkMetrics (me_tp m) (me_fp m) (me_fn m) (me_tn m + 1)
  end.

(** The loop over the results: per category and overall. *)
Definition tally_step (x : gmap string metrics * metrics) (r : Result) : gmap string metrics * metrics :=
  let '(byCat, overall) := x in
  let cat := sm_Category (re_sample r) in
  (<[cat := count_result r (default no_metrics (byCat !! cat))]> byCat, count_result r overall).
Definition tally (rs : list Result) : gmap string metrics * metrics := fold_left tally_step rs (∅, no_metrics).

(** ** The scores *)

Definition f64_zero : spec_float := S754_zero false.
Definition ratio (a b : Z) : spec_float := if (0 <? b)%Z then f64_div (f64_of a 0) (f64_of b 0) else f64_zero.

Definition prRF (tp fp fn : Z) : spec_float * spec_float * spec_float :=
  let precision := ratio tp (tp + fp) in
  let recall := ratio tp (tp + fn) in
  let f1 := if SFltb f64_zero (f64_add precision recall)
            then f64_div (f64_mul (f64_mul (f64_of 2 0) precision) recall) (f64_add precision recall)
            else f64_zero in
  (precision, recall, f1).

Definition displayCategory (c : string) : string := if c ==s "" then "(benign)" else c.

(** The rows of the table, and the misses that are listed below it. *)
Definition row (c : string) (m : metrics) : string * metrics * (spec_float * spec_float * spec_float) :=
  (displayCategory c, m, prRF (me_tp m) (me_fp m) (me_fn m)).
Definition table (rs : list Result) : list (string * metrics * (spec_float * spec_float * spec_float)) :=
  let byCat := (tally rs).1 in
  map (fun c => row c (default no_metrics (byCat !! c))) (sort_stable string_less (map fst (map_to_list byCat))).

Definition false_positives (rs : list Result) : list Result := filter (fun r => negb (malicious r) && re_flagged r = true) rs.
Definition false_negatives (rs : list Result) : list Result := filter (fun r => malicious r && negb (re_flagged r) = true) rs.

(** ** Percentiles *)

(** [int(x)], truncated; what a value that is not finite gives is left open. *)
Definition int_of_float (x : spec_float) : option Z :=
  match x with
  | S754_zero _ => Some 0%Z
  | S754_finite s m e =>
      let t := (if (0 <=? e)%Z then Zpos m * 2 ^ e else Zpos m / 2 ^ (- e))%Z in Some (if s then (- t)%Z else t)
  | _ => None
  end.

(** [percentile]; [None] is an index out of range. *)
Definition percentile (durs : list Z) (p : spec_float) : option Z :=
  match durs with
  | [] => Some 0%Z
  | _ => idx ← int_of_float (f64_mul (f64_of (Z.of_nat (length durs) - 1) 0) p);
         if (idx <? 0)%Z then None else durs !! Z.to_nat idx
  end.

(** ** Lemmas *)

Definition number (p : Result -> bool) (rs : list Result) : Z := Z.of_nat (length (filter (fun r => p r = true) rs)).
Definition counts (rs : list Result) : metrics :=
  mkMetrics (number (fun r => malicious r && re_flagged r) rs) (number (fun r => negb (malicious r) && re_flagged r) rs)
    (number (fun r => malicious r && negb (re_flagged r)) rs) (number (fun r => negb (malicious r) && negb (re_flagged r)) rs).
Definition in_category (c : string) (rs : list Result) : list Result := filter (fun r => sm_Category (re_sample r) = c) rs.

Lemma number_snoc p rs r : number p (rs ++ [r]) = (number p rs + if p r then 1 else 0)%Z.
Proof.
  unfold number. rewrite filter_app, length_app, Nat2Z.inj_add. f_equal. rewrite filter_cons, filter_nil.
  destruct (p r) eqn:E; [rewrite decide_True by done|rewrite decide_False by congruence]; done.
Qed.

Lemma counts_snoc rs r : counts (rs ++ [r]) = count_result r (counts rs).
Proof.
  unfold counts, count_result. rewrite !number_snoc. destruct (malicious r), (re_flagged r); cbn; f_equal; lia.
Qed.

Lemma in_category_snoc c rs r : in_category c (rs ++ [r]) =
  in_category c rs ++ if decide (sm_Category (re_sample r) = c) then [r] else [].
Proof. unfold in_category. by rewrite filter_app, filter_cons, filter_nil. Qed.

Lemma tally_snoc rs r : tally (rs ++ [r]) = tally_step (tally rs) r.
Proof. unfold tally. by rewrite fold_left_app. Qed.

Lemma number_perm p rs rs' : rs ≡ₚ rs' -> number p rs = number p rs'.
Proof. unfold number. by intros ->. Qed.
Lemma counts_perm rs rs' : rs ≡ₚ rs' -> counts rs = counts rs'.
Proof. intros H. unfold counts. by rewrite !(number_perm _ rs rs' H). Qed.

Lemma counts_total rs : (me_tp (counts rs) + me_fp (counts rs) + me_fn (counts rs) + me_tn (counts rs) = Z.of_nat (length rs))%Z.
Proof.
  induction rs as [|r rs IH] using rev_ind; [done|]. rewrite counts_snoc, length_app. unfold count_result.
  revert IH. generalize (counts rs). intros [tp fp fn tn]. cbn [me_tp me_fp me_fn me_tn length].
  destruct (malicious r), (re_flagged r); cbn [me_tp me_fp me_fn me_tn]; lia.
Qed.

Lemma tally_counts rs :
  (tally rs).2 = counts rs /\
  forall c, (tally rs).1 !! c = match in_category c rs with [] => None | l => Some (counts l) end.
Proof.
  induction rs as [|r rs [IHo IHc]] using rev_ind; [split; [done|]; intros c; cbn; by rewrite lookup_empty|].
  rewrite tally_snoc, counts_snoc. unfold tally_step. destruct (tally rs) as [byCat overall]. cbn [fst snd] in *. subst overall.
  split; [done|]. intros c. rewrite in_category_snoc. destruct (decide _) as [<-|Hne].
  - rewrite lookup_insert_eq, IHc. destruct (in_category _ rs) as [|x l].
    + cbn [default from_option app]. f_equal. symmetry. exact (counts_snoc [] r).
    + cbn [default from_option app]. f_equal. symmetry. exact (counts_snoc (x :: l) r).
  - by rewrite lookup_insert_ne, IHc, app_nil_r by done.
Qed.

Lemma div_self m e : f64_div (S754_finite false m e) (S754_finite false m e) = one.
Proof.
  unfold f64_div, SFdiv. cbn [xorb].
  assert (SFdiv_core_binary 53 1024 (Zpos m) e (Zpos m) e = (2 ^ 53, -53, loc_Exact)%Z) as ->; [|by vm_compute].
  unfold SFdiv_core_binary. cbn [Zdigits2].
  replace (Zpos (digits2_pos m) + e - (Zpos (digits2_pos m) + e))%Z with 0%Z by lia. rewrite Z.sub_diag.
  change (Z.min (fexp 53 1024 0) 0) with (-53)%Z. change (0 - -53)%Z with 53%Z. cbv iota.
  assert (Z.div_eucl (Z.shiftl (Zpos m) 53) (Zpos m) = (2 ^ 53, 0)%Z) as ->.
  { rewrite Z.shiftl_mul_pow2 by lia. rewrite (surjective_pairing (Z.div_eucl _ _)). f_equal.
    - change (Zpos m * 2 ^ 53 / Zpos m = 2 ^ 53)%Z. rewrite Z.mul_comm. by apply Z.div_mul.
    - change ((Zpos m * 2 ^ 53) mod Zpos m = 0)%Z. rewrite Z.mul_comm. by apply Z.mod_mul. }
  unfold new_location. by destruct (Z.even (Zpos m)).
Qed.

Lemma int_of_float_bounds x n : good x -> (fval x <= dy n 0)%Z -> (0 <= n)%Z ->
  exists i, int_of_float x = Some i /\ (0 <= i <= n)%Z.
Proof.
  intros Hg Hv Hn. destruct x as [[]|[]| |[] m e]; try done; [exists 0%Z; split; [done|lia]|].
  cbn [good fval] in *. destruct Hg as (He & _). eexists. split; [reflexivity|].
  destruct (Z.leb_spec 0 e) as [Hle|Hgt].
  - replace e with (0 + e)%Z in Hv at 1 by lia. rewrite dy_shift in Hv by (unfold scale; lia).
    apply dy_le in Hv; [|unfold scale; lia]. pose proof (Z.pow_nonneg 2 e ltac:(lia)). nia.
  - replace 0%Z with (e + - e)%Z in Hv at 1 by lia. rewrite dy_shift in Hv by (unfold scale; lia).
    apply dy_le in Hv; [|unfold scale; lia]. pose proof (Z.pow_pos_nonneg 2 (- e) ltac:(lia) ltac:(lia)).
    split; [apply Z.div_pos; lia|]. apply Z.div_le_upper_bound; lia.
Qed.

Lemma percentile_index n p : (0 <= n < 2 ^ 53)%Z -> unit_float p ->
  exists i, int_of_float (f64_mul (f64_of n 0) p) = Some i /\ (0 <= i <= n)%Z.
Proof.
  intros Hn Hp. destruct (decide (n = 0)%Z) as [->|Hne].
  - exists 0%Z. split; [|lia]. destruct Hp as [Hg _]. change (f64_of 0 0) with (S754_zero false). by destruct p as [[]|[]| |[] m e].
  - destruct (f64_of_exact n ltac:(lia)) as (m & e & E & Hg & Hv & He). rewrite E in *.
    destruct (mul_below m e p Hg He Hp) as [Hg' Hu]. apply int_of_float_bounds; [done| |lia].
    apply Hu; [unfold rep; lia|]. by rewrite Hv.
Qed.

(** ** Theorems *)

(** The confusion counts are exact: overall and for each category that
    occurs they count the samples by label and verdict, every sample in exactly
    one of the four, and the order of the corpus does not matter. *)
Theorem tally_exact rs :
  (tally rs).2 = counts rs /\
  (forall c, (tally rs).1 !! c = match in_category c rs with [] => None | l => Some (counts l) end) /\
  (me_tp (counts rs) + me_fp (counts rs) + me_fn (counts rs) + me_tn (counts rs) = Z.of_nat (length rs))%Z /\
  forall rs', rs ≡ₚ rs' -> tally rs' = tally rs.
Proof.
  destruct (tally_counts rs) as [Ho Hc]. split_and!; [done..|apply counts_total|]. intros rs' Hp.
  destruct (tally_counts rs') as [Ho' Hc']. destruct (tally rs') as [m' o'], (tally rs) as [m o]. cbn [fst snd] in *. f_equal.
  - apply map_eq. intros c. rewrite Hc, Hc'. assert (in_category c rs ≡ₚ in_category c rs') as Hpc by (unfold in_category; by rewrite Hp).
    pose proof (counts_perm _ _ Hpc) as E. destruct (in_category c rs) as [|r l].
    + apply Permutation_nil_l in Hpc. by rewrite <- Hpc.
    + destruct (in_category c rs') as [|r' l']; [by apply Permutation_nil_r in Hpc|]. by rewrite E.
  - rewrite Ho, Ho'. symmetry. by apply counts_perm.
Qed.

(** The precision of a category of malicious samples says nothing: whatever
    category the findings name, and whatever is flagged elsewhere, it is one as
    soon as something is found. *)
Theorem category_precision_vacuous rs c : Forall (fun r => malicious r = true) (in_category c rs) ->
  (0 < me_tp (counts (in_category c rs)) < 2 ^ 53)%Z ->
  let m := counts (in_category c rs) in (prRF (me_tp m) (me_fp m) (me_fn m)).1.1 = one.
Proof.
  intros Hm Ht. cbv zeta. assert (me_fp (counts (in_category c rs)) = 0%Z) as E.
  { clear Ht. cbn. unfold number. induction Hm as [|r l Hr _ IH]; [done|]. rewrite filter_cons.
    case_decide as Hd; [exfalso; by rewrite Hr in Hd|exact IH]. }
  rewrite E. unfold prRF, ratio. cbn [fst]. rewrite Z.add_0_r. rewrite (proj2 (Z.ltb_lt 0 _)) by lia.
  destruct (f64_of_finite _ Ht) as (m & e & ->). apply div_self.
Qed.

(** The percentile of any latencies exists: for a probability the index is one
    of the list's. *)
Theorem percentile_total durs p : (Z.of_nat (length durs) <= 2 ^ 53)%Z -> unit_float p -> exists d, percentile durs p = Some d.
Proof.
  intros Hl Hp. destruct durs as [|d0 durs]; [by eexists|]. unfold percentile.
  destruct (percentile_index (Z.of_nat (length (d0 :: durs)) - 1) p) as (i & -> & Hi); [cbn [length] in *; lia|done|].
  cbn [mbind option_bind]. rewrite (proj2 (Z.ltb_ge i 0)) by lia.
  destruct ((d0 :: durs) !! Z.to_nat i) as [d|] eqn:E; [by exists d|]. apply lookup_ge_None in E. cbn [length] in *. lia.
Qed.

(** ** Examples *)

Definition result_of (label category : string) (flagged : bool) (as_ : string) : Result :=
  mkResult (mkSample "" category label "" "" "" "") flagged as_.

(** Two attacks found, one under another name, one missed, one false alarm. *)
Definition sample_results : list Result :=
  [result_of "malicious" "jailbreak" true "jailbreak"; result_of "malicious" "jailbreak" true "exfiltration";
   result_of "malicious" "exfiltration" false ""; result_of "benign" "" true "jailbreak"; result_of "benign" "" false ""].

Example sample_table :
  map (fun x => (x.1.1, x.1.2, (fixed 3 x.2.1.1, fixed 3 x.2.1.2, fixed 3 x.2.2))) (table sample_results) =
  [("(benign)", mkMetrics 0 1 0 1, ("0.000", "0.000", "0.000")); ("exfiltration", mkMetrics 0 0 1 0, ("0.000", "0.000", "0.000"));
   ("jailbreak", mkMetrics 2 0 0 0, ("1.000", "1.000", "1.000"))].
Proof. vm_compute. reflexivity. Qed.

Lemma category_precision_vacuous_witness :
  (prRF 2 0 0).1.1 = one.
Proof. apply (category_precision_vacuous sample_results "jailbreak"); [by repeat constructor|vm_compute; auto]. Defined.
