(* ===== verification/Signin.v ===== *)
(** * Signing in

    [control-plane/api/oidc.go] and [login.go]: the exchanges with the identity
    provider (discovery, the redirect to it, the exchange of the code) around
    the callback of [Jwks], and the answer that tells a console who it is.
    Answers of the provider are arguments, bodies as decoded. *)

From S2P Require Import Prelude Text Json Http Ruleset Config Url Roles Tokens Users Server Jwks Routes.

(** ** Discovery *)

Record oidcDiscovery := mkDiscovery {
  od_AuthorizationEndpoint : string; od_TokenEndpoint : string; od_UserInfoEndpoint : string; od_JWKSURI : string; od_Issuer : string
}.

(** An answer: its status and its body, [None] when it does not decode. *)
Definition answer : Type := Z * option json.

Inductive discovery_error := DiscoveryUnreached | DiscoveryStatus (code : Z) | DiscoveryDecode | DiscoveryMissing.

Definition discovery_url (issuer : string) : string := TrimRight issuer "/" +:+ "/.well-known/openid-configuration".

Definition discovery_of_json (v : json) : option oidcDiscovery :=
  match v with
  | JNull => Some (mkDiscovery "" "" "" "" "")
  | JObj o =>
      a ← get_str "authorization_endpoint" o; t ← get_str "token_endpoint" o; u ← get_str "userinfo_endpoint" o;
      j ← get_str "jwks_uri" o; i ← get_str "issuer" o; Some (mkDiscovery a t u j i)
  | _ => None
  end.

(** [discoverOIDC]; [get] is the exchange. *)
Definition discoverOIDC (get : string -> option answer) (issuer : string) : result oidcDiscovery discovery_error :=
  match get (discovery_url issuer) with
  | None => Err DiscoveryUnreached
  | Some (code, body) =>
      if (code =? 200)%Z then
        match v ← body; discovery_of_json v with
        | None => Err DiscoveryDecode
        | Some d => if (od_AuthorizationEndpoint d ==s "") || (od_TokenEndpoint d ==s "") then Err DiscoveryMissing else Ok d
        end
      else Err (DiscoveryStatus code)
  end.

(** ** The redirect and the exchange of the code *)

Record OIDCConfig := mkOIDCConfig { oc_ClientID : string; oc_ClientSecret : string; oc_RedirectURL : string; oc_Scopes : list string }.

Definition authorize_params (cfg : OIDCConfig) (state : string) : list (string * string) :=
  [("client_id", oc_ClientID cfg); ("redirect_uri", oc_RedirectURL cfg); ("response_type", "code");
   ("scope", join " " (oc_Scopes cfg)); ("state", state)].

(** [handleOIDCLogin]: the state it draws is recorded, and the destination. *)
Definition handleOIDCLogin (now : Z) (state : string) (cfg : OIDCConfig) (d : oidcDiscovery) (o : oidcState) : oidcState * string :=
  (oidc_login now state o, od_AuthorizationEndpoint d +:+ "?" +:+ query_encode (authorize_params cfg state)).

Definition token_params (cfg : OIDCConfig) (code : string) : list (string * string) :=
  [("client_id", oc_ClientID cfg)]
  ++ (if oc_ClientSecret cfg !=s "" then [("client_secret", oc_ClientSecret cfg)] else [])
  ++ [("code", code); ("grant_type", "authorization_code"); ("redirect_uri", oc_RedirectURL cfg)].

(** The form that is posted to the token endpoint. *)
Definition token_form (cfg : OIDCConfig) (code : string) : string := query_encode (token_params cfg code).

(** The id token of the answer; both members have to decode. *)
Definition id_token (a : option answer) : option string :=
  '(code, body) ← a; v ← body;
  if (code =? 200)%Z then
    match v with
    | JNull => Some ""
    | JObj o => _ ← get_str "access_token" o; get_str "id_token" o
    | _ => None
    end
  else None.

Section callback.
Context `{JsonText} `{JwtCrypto}.

(** [handleOIDCCallback] with its exchange; [post] is the provider. *)
Definition oidc_signin (now : Z) (session code state : string) (post : string -> string -> option answer) (cfg : OIDCConfig)
    (d : oidcDiscovery) (vcfg : oidcSettings) (c : jwksCache) (fs : fetches) (o : oidcState)
    : jwksCache * fetches * (oidcState * option (string * string)) :=
  handleOIDCCallback now session code state (id_token (post (od_TokenEndpoint d) (token_form cfg code))) vcfg c fs o.
End callback.

(** ** Who is signed in *)

Inductive session_info :=
| Anonymous
| NotSignedIn
| SessionExpired
| SignedIn (username : option string) (role tenant : string).

(** The cookie comes first here. *)
Definition info_token (r : request) : string :=
  if rq_Cookie r !=s "" then rq_Cookie r
  else if bearerToken (rq_Authorization r) !=s "" then bearerToken (rq_Authorization r)
  else rq_TokenParam r.

Section info.
Context `{MapIter}.

Definition username_for (now : Z) (token : string) (c : Credentials) : Credentials * string :=
  match cr_users c with
  | None => (c, "")
  | Some u => let '(u', n) := UsernameForSession now token u in (set_users u' c, n)
  end.

(** [handleSessionInfo]. *)
Definition handleSessionInfo (now : Z) (ok : bool) (r : request) (c : Credentials) : Credentials * session_info :=
  if negb (uiRequiresAuth c) then (c, Anonymous)
  else
    let token := info_token r in
    if token ==s "" then (c, NotSignedIn)
    else
      let '(c1, sess) := lookup_user_session now token c in
      match sess with
      | Some (role, tenant) => let '(c2, name) := username_for now token c1 in (c2, SignedIn (Some name) role tenant)
      | None =>
          let '(c2, role) := roleForToken now ok token c1 in
          (c2, if role !=s "" then SignedIn None role (default "" (cr_tenantTokens c !! token)) else SessionExpired)
      end.
End info.

(** ** Lemmas *)

Section facts.
Context `{MapIter}.

(** Tokens of one kind are not tokens of another. *)
Definition separate (c : Credentials) : Prop :=
  cr_tenantTokens c !! cr_authToken c = None /\
  forall u k, cr_users c = Some u -> is_Some (ust_sessions u !! k) ->
    k <> cr_authToken c /\ cr_tenantTokens c !! k = None /\ cr_roles c !! k = None /\
    forall o, cr_oidc c = Some o -> oi_sessions o !! k = None.

Lemma found_session now token c x : (lookup_user_session now token c).2 = Some x -> token <> "" /\
  (lookup_user_session now token c).1 = c /\ exists u, cr_users c = Some u /\ is_Some (ust_sessions u !! token).
Proof.
  unfold lookup_user_session. destruct (cr_users c) as [u|] eqn:Eu; [|done]. unfold LookupSession, find_session.
  destruct (token ==s "") eqn:Et; [done|]. apply String.eqb_neq in Et. destruct (ust_sessions u !! token) as [sess|] eqn:Es; [|done].
  destruct (time_After now (us_expiresAt sess)); [done|]. cbn. intros _. split; [done|]. split; [|by exists u].
  unfold set_users. rewrite <- Eu. by destruct c.
Qed.

(** A lookup that finds nothing leaves nothing to find. *)
Lemma missed_session now token c : (lookup_user_session now token c).2 = None ->
  let c1 := (lookup_user_session now token c).1 in
  (lookup_user_session now token c1).2 = None /\ cr_authToken c1 = cr_authToken c /\ cr_tenantTokens c1 = cr_tenantTokens c /\
  cr_roles c1 = cr_roles c /\ cr_oidc c1 = cr_oidc c /\ cr_tokenStore c1 = cr_tokenStore c.
Proof.
  destruct (cr_users c) as [u|] eqn:Eu; [|unfold lookup_user_session; rewrite Eu; cbn [fst snd]; by rewrite Eu].
  unfold lookup_user_session at 1 2. rewrite Eu. unfold LookupSession, find_session.
  destruct (token ==s "") eqn:Et; [|destruct (ust_sessions u !! token) as [sess|] eqn:Es; [destruct (time_After now (us_expiresAt sess)) eqn:Ea|]].
  - cbn [fst snd]. intros _. unfold lookup_user_session. cbn [cr_users set_users]. unfold LookupSession, find_session. by rewrite Et.
  - cbn [fst snd]. intros _. unfold lookup_user_session. cbn [cr_users set_users]. unfold LookupSession, find_session. rewrite Et.
    assert (ust_sessions (RevokeSession token u) !! token = None) as -> by apply lookup_delete_eq. done.
  - cbn [fst snd]. done.
  - cbn [fst snd]. intros _. unfold lookup_user_session. cbn [cr_users set_users]. unfold LookupSession, find_session. by rewrite Et, Es.
Qed.

Lemma roleForSession_result now token c c' : cr_oidc c' = cr_oidc c ->
  (roleForSession now token c').2 = (roleForSession now token c).2.
Proof.
  intros E. unfold roleForSession. rewrite E. destruct (cr_oidc c) as [o|]; [|done]. destruct (token ==s ""); [done|].
  destruct (oi_sessions o !! token) as [s|]; [|done]. by destruct (time_After _ _).
Qed.

Lemma missed_after_session now token c : (lookup_user_session now token c).2 = None ->
  (lookup_user_session now token (roleForSession now token c).1).2 = None.
Proof.
  destruct (roleForSession_frame now token c) as [E _]. unfold lookup_user_session. rewrite E.
  destruct (cr_users c) as [u|]; [|done]. by destruct (LookupSession now token u).
Qed.

Lemma store_token_result now ok token c c' : cr_tokenStore c' = cr_tokenStore c ->
  (roleAndTenantForStoreToken now ok token c').2 = (roleAndTenantForStoreToken now ok token c).2.
Proof.
  intros E. unfold roleAndTenantForStoreToken. rewrite E. destruct (cr_tokenStore c) as [ts|]; [|done]. by destruct (token_Lookup _ _ _ _).
Qed.

(** The role of a token with no user session. *)
Definition plain_role (now : Z) (ok : bool) (token : string) (c : Credentials) : string :=
  if token ==s "" then "" else
  match cr_roles c !! token with
  | Some r => r
  | None =>
    if (cr_authToken c !=s "") && (token ==s cr_authToken c) then RoleSuperAdmin
    else match cr_tenantTokens c !! token with
    | Some _ => RolePolicyAuthor
    | None =>
      if (roleForSession now token c).2 !=s "" then (roleForSession now token c).2
      else match (roleAndTenantForStoreToken now ok token c).2 with Some (role, _) => role | None => "" end
    end
  end.

Lemma roleForToken_plain now ok token c : (lookup_user_session now token c).2 = None ->
  (roleForToken now ok token c).2 = plain_role now ok token c.
Proof.
  intros Hm. unfold roleForToken, plain_role. destruct (token ==s ""); [done|]. destruct (cr_roles c !! token); [done|].
  destruct (_ && _); [done|]. destruct (cr_tenantTokens c !! token); [done|].
  pose proof (missed_after_session now token c Hm) as Hm1. destruct (roleForSession_frame now token c) as [_ Ets].
  destruct (roleForSession now token c) as [c1 r1]. cbn [fst snd] in *. destruct (r1 !=s ""); [done|].
  unfold roleForUserSession. destruct (missed_session now token c1 Hm1) as (_ & _ & _ & _ & _ & Ets2).
  destruct (lookup_user_session now token c1) as [c2 x]. cbn [fst snd] in *. subst x. change ("" !=s "") with false. cbv iota.
  pose proof (store_token_result now ok token c c2 ltac:(congruence)) as Er.
  destruct (roleAndTenantForStoreToken now ok token c2) as [c3 r3]. cbn [fst snd] in *. by rewrite <- Er.
Qed.

Lemma plain_role_frame now ok token c c' : cr_authToken c' = cr_authToken c -> cr_tenantTokens c' = cr_tenantTokens c ->
  cr_roles c' = cr_roles c -> cr_oidc c' = cr_oidc c -> cr_tokenStore c' = cr_tokenStore c ->
  plain_role now ok token c' = plain_role now ok token c.
Proof.
  intros E1 E2 E3 E4 E5. unfold plain_role. by rewrite E1, E2, E3, (roleForSession_result _ _ _ _ E4), (store_token_result _ _ _ _ _ E5).
Qed.

Lemma auth_plain now ok r c : no_auth c = false -> (lookup_user_session now (request_token r) c).2 = None -> separate c ->
  plain_role now ok (request_token r) c <> "" ->
  exists sc, (auth now ok r c).2 = Some sc /\
    forall t, cr_tenantTokens c !! request_token r = Some t -> sc = Some t.
Proof.
  intros Hn Hm [Hsep _] Hr. unfold auth, plain_role in *. rewrite Hn. destruct (request_token r ==s "") eqn:Et; [done|].
  destruct ((cr_authToken c !=s "") && (request_token r ==s cr_authToken c)) eqn:Ea.
  { apply andb_true_iff in Ea as [_ Ea%String.eqb_eq]. exists (rq_scope r). split; [done|]. rewrite Ea, Hsep. done. }
  destruct (cr_tenantTokens c !! request_token r) as [t|] eqn:Ett; [exists (Some t); split; [done|]; by intros t' [= ->]|].
  destruct (cr_roles c !! request_token r); [by eexists|].
  pose proof (missed_after_session now (request_token r) c Hm) as Hm1. destruct (roleForSession_frame now (request_token r) c) as [_ Ets].
  destruct (roleForSession now (request_token r) c) as [c1 r1]. cbn [fst snd] in *. destruct (r1 !=s ""); [by eexists|].
  destruct (missed_session now (request_token r) c1 Hm1) as (_ & _ & _ & _ & _ & Ets2).
  destruct (lookup_user_session now (request_token r) c1) as [c2 x]. cbn [fst snd] in *. subst x.
  pose proof (store_token_result now ok (request_token r) c c2 ltac:(congruence)) as Er.
  destruct (roleAndTenantForStoreToken now ok (request_token r) c2) as [c3 r3]. cbn [fst snd] in Er. subst r3.
  destruct (roleAndTenantForStoreToken now ok (request_token r) c).2 as [[role tenant]|]; [by eexists|done].
Qed.

Lemma auth_session now ok r c role tenant : no_auth c = false -> separate c ->
  (lookup_user_session now (request_token r) c).2 = Some (role, tenant) ->
  (auth now ok r c).2 = Some (if tenant !=s "" then Some tenant else rq_scope r).
Proof.
  intros Hn [_ Hsep] Hl. destruct (found_session _ _ _ _ Hl) as (Hne & Hc & u & Eu & Hk).
  destruct (Hsep u _ Eu Hk) as (H1 & H2 & H3 & H4). unfold auth. rewrite Hn, (eqb_neq_s _ _ Hne), (eqb_neq_s _ _ H1), andb_false_r, H2, H3.
  assert (roleForSession now (request_token r) c = (c, "")) as ->.
  { unfold roleForSession. destruct (cr_oidc c) as [o|]; [|done]. rewrite (eqb_neq_s _ _ Hne). by rewrite (H4 o eq_refl). }
  change ("" !=s "") with false. cbv iota. destruct (lookup_user_session now (request_token r) c) as [c2 x]. cbn [fst snd] in *. by subst x.
Qed.

Lemma role_session now ok token c role tenant : separate c -> role <> "" ->
  (lookup_user_session now token c).2 = Some (role, tenant) -> (roleForToken now ok token c).2 = role.
Proof.
  intros [_ Hsep] Hr Hl. destruct (found_session _ _ _ _ Hl) as (Hne & Hc & u & Eu & Hk).
  destruct (Hsep u _ Eu Hk) as (H1 & H2 & H3 & H4). unfold roleForToken. rewrite (eqb_neq_s _ _ Hne), H3, (eqb_neq_s _ _ H1), andb_false_r, H2.
  assert (roleForSession now token c = (c, "")) as ->.
  { unfold roleForSession. destruct (cr_oidc c) as [o|]; [|done]. rewrite (eqb_neq_s _ _ Hne). by rewrite (H4 o eq_refl). }
  change ("" !=s "") with false. cbv iota. unfold roleForUserSession. destruct (lookup_user_session now token c) as [c2 x]. cbn [fst snd] in *.
  subst x. by rewrite (eqb_neq_s _ _ Hr).
Qed.

Lemma requireRole_role now ok min r c : no_auth c = false ->
  (requireRole now ok min r c).2 =
  let role := (roleForToken now ok (request_token r) c).2 in
  if role ==s "" then RoleUnauthorized else if (roleRank role <? roleRank min)%nat then RoleForbidden role else RoleOK.
Proof. intros Hn. unfold requireRole. rewrite Hn. by destruct (roleForToken now ok (request_token r) c). Qed.

(** ** Theorems *)

(** C30. The console is told the truth: when the session endpoint answers with a
    role and a tenant, the API accepts the same token, in the scope of that
    tenant when one is named, and lets it do exactly what the role allows. *)
Theorem session_info_truthful now ok r c u role tenant :
  roles_bound c -> separate c -> no_auth c = false -> info_token r = request_token r ->
  (handleSessionInfo now ok r c).2 = SignedIn u role tenant ->
  exists sc, (auth now ok r c).2 = Some sc /\ (tenant <> "" -> sc = Some tenant) /\
    forall min, (requireRole now ok min r c).2 = if (roleRank role <? roleRank min)%nat then RoleForbidden role else RoleOK.
Proof.
  intros Hb Hsep Hn Htok Hi. unfold handleSessionInfo in Hi. destruct (negb (uiRequiresAuth c)); [done|]. rewrite Htok in Hi. cbv zeta in Hi.
  destruct (request_token r ==s "") eqn:Et; [done|].
  destruct (lookup_user_session now (request_token r) c).2 as [[role' tenant']|] eqn:El.
  - assert (role' = role /\ tenant' = tenant) as [-> ->].
    { destruct (lookup_user_session now (request_token r) c) as [c1 x]. cbn [snd] in El. subst x.
      destruct (username_for now (request_token r) c1). cbn [snd] in Hi. by injection Hi. }
    pose proof (lookup_user_session_bound _ _ _ _ _ Hb El) as Hr. exists (if tenant !=s "" then Some tenant else rq_scope r). split_and!.
    + by eapply auth_session.
    + intros Hne. by rewrite (eqb_neq_s _ _ Hne).
    + intros min. rewrite requireRole_role, (role_session _ _ _ _ _ _ Hsep Hr El) by done. cbv zeta. by rewrite (eqb_neq_s _ _ Hr).
  - destruct (missed_session _ _ _ El) as (Hm1 & E1 & E2 & E3 & E4 & E5).
    pose proof (roleForToken_plain now ok _ c El) as Hp0.
    pose proof (auth_plain now ok r c Hn El Hsep) as Ha. revert Hi.
    destruct (lookup_user_session now (request_token r) c) as [c1 x] eqn:Ex. cbn [fst snd] in *. subst x.
    pose proof (roleForToken_plain now ok (request_token r) c1 Hm1) as Hp. rewrite (plain_role_frame now ok _ c c1) in Hp by done.
    destruct (roleForToken now ok (request_token r) c1) as [c2 role0]. cbn [fst snd] in *. destruct (role0 !=s "") eqn:Er; [|done].
    intros [= _ -> Htn]. apply negb_true_iff, String.eqb_neq in Er. subst role.
    destruct (Ha Er) as (sc & Hsc & Hst). exists sc. split_and!; [done| |].
    + intros Hne. apply Hst. destruct (cr_tenantTokens c !! request_token r); [by subst|]. by subst.
    + intros min. rewrite requireRole_role by done. rewrite Hp0. cbv zeta. by rewrite (eqb_neq_s _ _ Er).
Qed.
End facts.

(** The redirect and the exchange carry what they should: for an endpoint
    without a query of its own, the provider reads back exactly the five
    parameters, the state among them is the one that is recorded, and the form
    of the exchange is read back with the code, whatever characters the
    configuration holds. *)
Theorem provider_reads_request now state cfg d o code :
  has_char "?" (od_AuthorizationEndpoint d) = false ->
  let '(o', dest) := handleOIDCLogin now state cfg d o in
  oi_states o' !! state = Some now /\
  (exists q, cut_first "?" dest = Some (od_AuthorizationEndpoint d, q) /\ ParseQuery q = authorize_params cfg state) /\
  ParseQuery (token_form cfg code) = token_params cfg code.
Proof.
  intros Hq. unfold handleOIDCLogin. split_and!.
  - unfold oidc_login. cbn. apply lookup_insert_eq.
  - exists (query_encode (authorize_params cfg state)). rewrite ParseQuery_encode. split; [|done].
    apply (cut_first_app "?"). revert Hq. unfold has_char. generalize (od_AuthorizationEndpoint d). intros s.
    induction s as [|c s IH]; [done|]. cbn [cut_first contains_char]. destruct (Ascii.eqb c "?"); [done|].
    destruct (cut_first "?" s) as [[? ?]|]; [done|]. intros _. by apply IH.
  - apply ParseQuery_encode.
Qed.

(** ** Witnesses *)

Section witnesses.
#[local] Existing Instance canonical_iter.

Definition tenant_request (token : string) : request := mkReq "GET" "/auth/session" ("Bearer " +:+ token) "" "" "" None.

Lemma provider_reads_request_witness :
  let d := mkDiscovery "https://idp/auth" "https://idp/token" "" "" "" in
  let cfg := mkOIDCConfig "console & co" "s=1" "https://cp/auth/oidc/callback?x" ["openid"; "email"] in
  let '(o', dest) := handleOIDCLogin 7 "st" cfg d (mkOidcState ∅ ∅ ∅ "" 60) in
  oi_states o' !! "st" = Some 7%Z /\
  (exists q, cut_first "?" dest = Some (od_AuthorizationEndpoint d, q) /\ ParseQuery q = authorize_params cfg "st") /\
  ParseQuery (token_form cfg "abc+/=") = token_params cfg "abc+/=".
Proof.
  apply (provider_reads_request 7 "st" (mkOIDCConfig "console & co" "s=1" "https://cp/auth/oidc/callback?x" ["openid"; "email"])
    (mkDiscovery "https://idp/auth" "https://idp/token" "" "" "") (mkOidcState ∅ ∅ ∅ "" 60) "abc+/="). reflexivity.
Defined.

Lemma session_info_truthful_witness : exists sc, (auth 5 true (tenant_request "t1") w_creds).2 = Some sc /\ sc = Some "acme".
Proof.
  destruct (session_info_truthful 5 true (tenant_request "t1") w_creds None RolePolicyAuthor "acme") as (sc & Ha & Hs & _).
  - split_and!; [|done|done]. intros k ro. cbn. intros Hk. apply lookup_singleton_Some in Hk as [_ <-]. discriminate.
  - split; [reflexivity|]. intros u k Hu. discriminate Hu.
  - reflexivity.
  - reflexivity.
  - vm_compute. reflexivity.
  - exists sc. split; [exact Ha|]. apply Hs. discriminate.
Defined.
End witnesses.
