(* ===== verification/Rekor.v ===== *)
(** * The exchange with a transparency log

    [pkg/audit/rekor.go]: the entry that is posted for a chain head, and the
    answer that [AuditApi] takes as an argument.  The body of an answer is an
    argument, [None] when it does not decode. *)

From S2P Require Import Prelude Text Utf8 Rfc3339 Json AuditApi.

(** [buildHashedRekord]. *)
Definition buildHashedRekord (headHash : string) : json :=
  JObj [("apiVersion", JStr "0.0.1"); ("kind", JStr "hashedrekord");
        ("spec", JObj [("data", JObj [("hash", JObj [("algorithm", JStr "sha256"); ("value", JStr headHash)])]);
                       ("signature", JObj [("content", JStr "hopframe-control-plane-anchor"); ("format", JStr "x509");
                                           ("publicKey", JObj [("content", JStr "hopframe-control-plane-anchor")])])])].

(** The entry of one uuid: its index and the time of integration, in seconds. *)
Definition rekor_entry (v : json) : option (Z * Z) :=
  match v with
  | JNull => Some (0, 0)%Z
  | JObj o =>
      index ← get_int min_int64 max_int64 "logIndex" o; integrated ← get_int min_int64 max_int64 "integratedTime" o;
      _ ← get_str "body" o; Some (index, integrated)
  | _ => None
  end.

Section exchange.
Context `{MapIter}.

(** [parseRekorResponse]: whichever entry the iteration of the map meets
    first. *)
Definition parseRekorResponse (body : option json) : option (string * Z * Z) :=
  match body with
  | Some (JObj o) =>
      match map_iter (list_to_map (reverse o)) with
      | [] => None
      | (uuid, v) :: _ => '(index, integrated) ← rekor_entry v; Some (uuid, index, integrated)
      end
  | _ => None
  end.

(** [Rekor.Anchor] with its exchange; [post] answers a URL and a body with a
    status and a body. *)
Definition rekor_exchange (now : Z) (endpoint : string) (post : string -> string -> option (Z * option json)) (headHash : string)
    : result RekorAnchor anchor_error :=
  let base := if endpoint ==s "" then DefaultEndpoint else endpoint in
  let reply :=
    '(code, body) ← post (base +:+ "/api/v1/log/entries") (marshal (buildHashedRekord headHash));
    if (code / 100 =? 2)%Z then parseRekorResponse body else None in
  rekor_Anchor now (RekorService endpoint reply) headHash.
End exchange.

(** ** Theorems *)

(** The body names the chain head and nothing else that varies. *)
Lemma buildHashedRekord_inj h h' : buildHashedRekord h = buildHashedRekord h' -> h = h'.
Proof. by intros [= ->]. Qed.

(** An anchor is what the log answered: a successful exchange was one answer of
    class 200 with an entry, and the anchor carries that entry's uuid, index and
    time, and the head that was posted. *)
Theorem anchor_from_entry `{MapIter} now endpoint post headHash a :
  rekor_exchange now endpoint post headHash = Ok a ->
  let base := if endpoint ==s "" then DefaultEndpoint else endpoint in
  ra_HeadHash a = headHash /\ headHash <> "" /\
  exists code o v integrated,
    post (base +:+ "/api/v1/log/entries") (marshal (buildHashedRekord headHash)) = Some (code, Some (JObj o)) /\ (code / 100 = 2)%Z /\
    (ra_UUID a, v) ∈ o /\ rekor_entry v = Some (ra_LogIndex a, integrated) /\
    ra_URL a = base +:+ "/api/v1/log/entries/" +:+ ra_UUID a /\
    ra_IntegratedAt a = if (0 <? integrated)%Z then (integrated * Second)%Z else zero_time.
Proof.
  unfold rekor_exchange, rekor_Anchor. destruct (headHash ==s "") eqn:Eh; [done|]. cbv zeta.
  set (base := if endpoint ==s "" then _ else _). destruct (post _ _) as [[code body]|]; [|done]. cbn [mbind option_bind].
  destruct (code / 100 =? 2)%Z eqn:Ec; [|done]. unfold parseRekorResponse. destruct body as [[| | | | |o]|]; try done.
  destruct (map_iter (list_to_map (reverse o))) as [|[uuid v] l] eqn:Em; [done|].
  destruct (rekor_entry v) as [[index integrated]|] eqn:Ev; [|done]. cbn [mbind option_bind]. intros [= <-].
  apply String.eqb_neq in Eh. split_and!; [done..|]. exists code, o, v, integrated. cbn.
  split_and!; [done|by apply Z.eqb_eq| |done|done|done].
  assert ((uuid, v) ∈ map_to_list (list_to_map (reverse o) : gmap string json)) as Hin.
  { rewrite <- (map_iter_perm (list_to_map (reverse o))), Em. left. }
  apply elem_of_map_to_list, elem_of_list_to_map_2 in Hin. rewrite elem_of_reverse in Hin. exact Hin.
Qed.

Lemma anchor_from_entry_witness :
  let a := mkAnchor "ab" 5 7 "u1" "https://rekor.sigstore.dev/api/v1/log/entries/u1" (9 * Second) in
  exists o : list (string * json), (ra_UUID a, JObj [("logIndex", JNum "7"); ("integratedTime", JNum "9")]) ∈ o.
Proof.
  destruct (@anchor_from_entry canonical_iter 5 "" (fun _ _ => Some (201%Z, Some (JObj [("u1", JObj [("logIndex", JNum "7"); ("integratedTime", JNum "9")])])))
    "ab" (mkAnchor "ab" 5 7 "u1" "https://rekor.sigstore.dev/api/v1/log/entries/u1" (9 * Second)) eq_refl)
    as (_ & _ & code & o & v & integrated & Hp & _ & Hin & _).
  exists o. injection Hp as <- <-. left.
Defined.
