(* ===== verification/StatusWriter.v ===== *)
(** * The writer that notes the status

    The [statusWriter] of [control-plane/api/api.go], through which [observe]
    learns the status it counts, over the standard library's response: the
    first header that is written is sent, a body or a flush before it sends
    200, and later ones are ignored. *)

From S2P Require Import Prelude.

(** ** Definitions *)

(** What a handler does with its writer, by final status codes. *)
Inductive write_op := WriteHeader (code : Z) | Write (b : string) | Flush.

(** The response of [net/http]. *)
Record reply := mkReply { rp_sent : option Z; rp_body : string }.
Definition reply_step (o : write_op) (r : reply) : reply :=
  match o with
  | WriteHeader code => mkReply (Some (default code (rp_sent r))) (rp_body r)
  | Write b => mkReply (Some (default 200%Z (rp_sent r))) (rp_body r +:+ b)
  | Flush => mkReply (Some (default 200%Z (rp_sent r))) (rp_body r)
  end.

(** The status the client is given once the handler has returned. *)
Definition seen_status (r : reply) : Z := default 200%Z (rp_sent r).

Record statusWriter := mkStatusWriter { sw_reply : reply; sw_status : Z; sw_wroteHeader : bool }.

(** The wrapper of [observe], over a response nothing was written to. *)
Definition wrap : statusWriter := mkStatusWriter (mkReply None "") 200 false.

Definition sw_WriteHeader (code : Z) (w : statusWriter) : statusWriter :=
  if sw_wroteHeader w then w else mkStatusWriter (reply_step (WriteHeader code) (sw_reply w)) code true.
Definition sw_Write (b : string) (w : statusWriter) : statusWriter :=
  mkStatusWriter (reply_step (Write b) (sw_reply w)) (sw_status w) true.
Definition sw_Flush (w : statusWriter) : statusWriter :=
  mkStatusWriter (reply_step Flush (sw_reply w)) (sw_status w) (sw_wroteHeader w).

Definition sw_step (o : write_op) (w : statusWriter) : statusWriter :=
  match o with WriteHeader code => sw_WriteHeader code w | Write b => sw_Write b w | Flush => sw_Flush w end.
Definition sw_run (ops : list write_op) (w : statusWriter) : statusWriter := fold_left (fun w o => sw_step o w) ops w.

(** ** Theorems *)

(** Between the steps: what was noted as written was sent. *)
Definition noted (w : statusWriter) : Prop := sw_wroteHeader w = true -> exists c, rp_sent (sw_reply w) = Some c.

Lemma sw_step_noted o w : noted w -> noted (sw_step o w).
Proof.
  unfold noted. intros Hw. destruct o as [code|b|]; cbn; [|by eexists..]. unfold sw_WriteHeader.
  destruct (sw_wroteHeader w) eqn:E; [by rewrite E|by eexists].
Qed.

Lemma sw_step_transparent o w : noted w -> sw_reply (sw_step o w) = reply_step o (sw_reply w).
Proof.
  unfold noted. intros Hw. destruct o as [code|b|]; [|done..]. cbn. unfold sw_WriteHeader.
  destruct (sw_wroteHeader w); [|done]. destruct (Hw eq_refl) as [c Hc]. destruct (sw_reply w) as [s b]. cbn in *. by rewrite Hc.
Qed.

(** The client does not notice the wrapper, whatever the handler does. *)
Theorem wrapper_transparent ops : sw_reply (sw_run ops wrap) = fold_left (fun r o => reply_step o r) ops (mkReply None "").
Proof.
  unfold sw_run. change (mkReply None "") with (sw_reply wrap). assert (noted wrap) as Hw by done. revert Hw. generalize wrap.
  induction ops as [|o ops IH]; intros w Hw; [done|]. cbn [fold_left]. rewrite IH by by apply sw_step_noted.
  by rewrite sw_step_transparent.
Qed.

(** A handler that does not flush before it has written counts under the status
    its client was given. *)
Lemma status_kept w ops : sw_wroteHeader w = true -> sw_status w = seen_status (sw_reply w) -> noted w ->
  sw_status (sw_run ops w) = seen_status (sw_reply (sw_run ops w)).
Proof.
  unfold sw_run. revert w. induction ops as [|o ops IH]; intros w Hh Hs Hn; [done|]. cbn [fold_left].
  destruct (Hn Hh) as [c Hc]. apply IH; [| |by apply sw_step_noted]; destruct o; cbn; unfold sw_WriteHeader; rewrite ?Hh; try done;
    unfold seen_status in *; cbn; rewrite Hc in *; done.
Qed.

Theorem counted_as_seen ops : head ops <> Some Flush -> sw_status (sw_run ops wrap) = seen_status (sw_reply (sw_run ops wrap)).
Proof.
  destruct ops as [|o ops]; [done|]. intros Hf. unfold sw_run. cbn [fold_left]. fold (sw_run ops (sw_step o wrap)).
  destruct o as [code|b|]; [| |done]; apply status_kept; try done; by apply sw_step_noted.
Qed.

Lemma counted_as_seen_witness :
  sw_status (sw_run [WriteHeader 404; Write "no"; WriteHeader 200; Flush] wrap) =
  seen_status (sw_reply (sw_run [WriteHeader 404; Write "no"; WriteHeader 200; Flush] wrap)).
Proof. apply (counted_as_seen [WriteHeader 404; Write "no"; WriteHeader 200; Flush]). discriminate. Defined.

(** A flush comes first: the client is given 200 and the counter says 500. *)
Theorem flush_first_miscounts :
  sw_status (sw_run [Flush; WriteHeader 500] wrap) = 500%Z /\ seen_status (sw_reply (sw_run [Flush; WriteHeader 500] wrap)) = 200%Z.
Proof. by split. Qed.
